(** * Session orchestration of the meeting server: model and properties

    A shallow embedding of
      - [backend/src/utils/expiry.ts]   (meeting identifiers),
      - [backend/src/mediasoup/room.ts] (room registry),
      - [backend/src/server.ts]         (Socket.IO signaling handlers),
      - [backend/src/storage/fileStorage.ts], [storage/deletionQueue.ts],
        [routes/users.ts] and [routes/recordings.ts] (users, recordings,
        their upload and their deletion).

    Conventions of the model.
      - A JavaScript string is a [string] whose characters are read as
        UTF-16 code units below 256.
      - A JavaScript number is [NaN] or a rational; the integers that
        occur (timestamps in milliseconds, their differences) are exact
        in double precision below 2^53, which covers every value of
        [Date.now()].
      - [Date.now()] is an explicit argument [now], or the [clock] field of
        the server state.
      - A JavaScript [Map] is an association list in insertion order.
      - The mediasoup engine is an interface ([MediaEngine]); every call
        made through it is recorded in a trace.
      - An [async] function is given twice.  First as one step: this
        is how it runs when nothing else happens during its [await]s.
        Then cut at its [await]s, into the part that calls the engine
        ([_begin]) and the part that runs once the promise has settled
        ([_resume]); the process is then a transition system in which
        the stretches of different handlers interleave ([turn]). *)

From Stdlib Require Import ZArith QArith List String Ascii Bool Lia.
From Stdlib.Strings Require Import Byte.
Import ListNotations.

#[local] Open Scope Z_scope.
#[local] Open Scope string_scope.
#[local] Open Scope list_scope.

(** ** JavaScript values used by the program *)

(** [Error] objects carry a message. *)
Record Error : Type := mkError { message : string }.

(** Outcome of evaluating a block: normal completion or a thrown error. *)
Inductive completion (A : Type) : Type :=
| Normal (a : A)
| Throw (e : Error).
Arguments Normal {A} a.
Arguments Throw {A} e.

(** [try { body } catch (error) { handler }] for a pure block. *)
Definition try_catch {A : Type} (body : completion A) (handler : Error -> A) : A :=
  match body with
  | Normal a => a
  | Throw e => handler e
  end.

Module Number.

Inductive number : Type :=
| NaN
| Num (q : Q).

Definition of_Z (z : Z) : number := Num (inject_Z z).

Definition isNaN (n : number) : bool :=
  match n with NaN => true | Num _ => false end.

(** [a - b] *)
Definition minus (a b : number) : number :=
  match a, b with
  | Num x, Num y => Num (x - y)
  | _, _ => NaN
  end.

(** [a > b]; every comparison with [NaN] is false. *)
Definition gt (a b : number) : bool :=
  match a, b with
  | Num x, Num y => negb (Qle_bool x y)
  | _, _ => false
  end.

(** [a / d] for a non-zero constant [d]. *)
Definition div_const (a : number) (d : Z) : number :=
  match a with
  | Num x => Num (x / inject_Z d)
  | NaN => NaN
  end.

End Number.
Import Number.

Module Js.

Definition code (c : ascii) : Z := Z.of_N (N_of_ascii c).

(** WhiteSpace and LineTerminator code units below 256:
    TAB, LF, VT, FF, CR, SP, NBSP. *)
Definition is_white_space (c : ascii) : bool :=
  let n := code c in
  (n =? 9)%Z || (n =? 10)%Z || (n =? 11)%Z || (n =? 12)%Z || (n =? 13)%Z
  || (n =? 32)%Z || (n =? 160)%Z.

Fixpoint trim_start (s : string) : string :=
  match s with
  | String c r => if is_white_space c then trim_start r else s
  | EmptyString => EmptyString
  end.

(** Value of a code unit as a digit in radix [R] (10 or 16). *)
Definition digit_value (R : Z) (c : ascii) : option Z :=
  let n := code c in
  if (48 <=? n)%Z && (n <=? 57)%Z then Some (n - 48)
  else if (R =? 16)%Z && (97 <=? n)%Z && (n <=? 102)%Z then Some (n - 87)
  else if (R =? 16)%Z && (65 <=? n)%Z && (n <=? 70)%Z then Some (n - 55)
  else None.

(** The longest prefix of radix-[R] digits. *)
Fixpoint digits_prefix (R : Z) (s : string) : list Z :=
  match s with
  | String c r =>
      match digit_value R c with
      | Some d => d :: digits_prefix R r
      | None => []
      end
  | EmptyString => []
  end.

Definition radix_value (R : Z) (ds : list Z) : Z :=
  fold_left (fun acc d => acc * R + d) ds 0.

(** [parseInt(string)] with the radix left out (ECMAScript 19.2.5):
    leading white space is skipped, a sign is read, a [0x]/[0X] prefix
    selects radix 16, the longest prefix of digits is converted and
    whatever follows is ignored; no digit at all gives [NaN]. *)
Definition parseInt (inputString : string) : number :=
  let S0 := trim_start inputString in
  let '(sign, S1) :=
    match S0 with
    | String "-" r => (-1, r)
    | String "+" r => (1, r)
    | _ => (1, S0)
    end in
  let '(R, S2) :=
    match S1 with
    | String "0" (String "x" r) => (16, r)
    | String "0" (String "X" r) => (16, r)
    | _ => (10, S1)
    end in
  match digits_prefix R S2 with
  | [] => NaN
  | ds => of_Z (sign * radix_value R ds)
  end.

(** [s.split(sep)] for a separator of one character. *)
Fixpoint split (sep : ascii) (s : string) : list string :=
  match s with
  | EmptyString => [EmptyString]
  | String c r =>
      if Ascii.eqb c sep then EmptyString :: split sep r
      else match split sep r with
           | p :: ps => String c p :: ps
           | [] => [String c EmptyString]
           end
  end.

(** [arr[i]] read as a string: a missing element is [undefined], which
    [ToString] turns into the text below. *)
Definition index (arr : list string) (i : Z) : string :=
  if (i <? 0)%Z then "undefined" else nth (Z.to_nat i) arr "undefined".

Definition length (arr : list string) : Z := Z.of_nat (List.length arr).

Definition digit_char (d : Z) : ascii := ascii_of_N (Z.to_N (48 + d)).

Fixpoint string_of_digits (ds : list Z) : string :=
  match ds with
  | [] => EmptyString
  | d :: r => String (digit_char d) (string_of_digits r)
  end.

Fixpoint decimal_go (fuel : nat) (n : Z) (acc : list Z) : list Z :=
  match fuel with
  | O => acc
  | S fuel' =>
      let acc' := (n mod 10) :: acc in
      if (n / 10 =? 0)%Z then acc' else decimal_go fuel' (n / 10) acc'
  end.

(** Decimal digits of [n >= 0], most significant first. *)
Definition decimal_digits (n : Z) : list Z :=
  decimal_go (S (Z.to_nat (Z.log2 n))) n [].

(** [`${n}`] for an integral number. *)
Definition toString (n : Z) : string :=
  if (n <? 0)%Z then String "-" (string_of_digits (decimal_digits (- n)))
  else string_of_digits (decimal_digits n).

Definition hex_char (d : Z) : ascii :=
  if (d <? 10)%Z then ascii_of_N (Z.to_N (48 + d)) else ascii_of_N (Z.to_N (87 + d)).

(** [buf.toString('hex')] *)
Fixpoint toString_hex (buf : list byte) : string :=
  match buf with
  | [] => EmptyString
  | b :: r =>
      let n := Z.of_N (Byte.to_N b) in
      String (hex_char (n / 16)) (String (hex_char (n mod 16)) (toString_hex r))
  end.

End Js.

(** ** utils/expiry.ts *)

(** [generateMeetingId()], with [crypto.randomBytes(8)] and [Date.now()]
    as arguments. *)
Definition generateMeetingId (randomBytes : list byte) (now : Z) : string :=
  let randomHash := Js.toString_hex randomBytes in
  let timestamp := now in
  randomHash ++ "-" ++ Js.toString timestamp.

Definition isMeetingExpired (now : Z) (meetingId : string) : bool :=
  try_catch
    (let parts := Js.split "-" meetingId in
     let timestamp := Js.parseInt (Js.index parts (Js.length parts - 1)) in
     if isNaN timestamp then Normal true
     else
       let age := minus (of_Z now) timestamp in
       let twentyFourHours := of_Z (24 * 60 * 60 * 1000) in
       Normal (gt age twentyFourHours))
    (fun _ => true).

Definition getMeetingAge (now : Z) (meetingId : string) : number :=
  try_catch
    (let parts := Js.split "-" meetingId in
     let timestamp := Js.parseInt (Js.index parts (Js.length parts - 1)) in
     let age := minus (of_Z now) timestamp in
     Normal (div_const age (60 * 60 * 1000)))
    (fun _ => of_Z 999).

(** The pattern [^[0-9a-f]{16}-\d+$]. *)
Definition is_lower_hex (c : ascii) : bool :=
  let n := Js.code c in
  ((48 <=? n)%Z && (n <=? 57)%Z) || ((97 <=? n)%Z && (n <=? 102)%Z).

Definition is_decimal (c : ascii) : bool :=
  let n := Js.code c in (48 <=? n)%Z && (n <=? 57)%Z.

Definition matches_meeting_id (s : string) : bool :=
  let cs := list_ascii_of_string s in
  (List.length (firstn 16 cs) =? 16)%nat
  && forallb is_lower_hex (firstn 16 cs)
  && match skipn 16 cs with
     | "-"%char :: d :: ds => forallb is_decimal (d :: ds)
     | _ => false
     end.

(** ** JavaScript [Map] with string keys

    Entries are kept in insertion order, the order in which [forEach]
    visits them; [set] on a present key replaces the value in place. *)
Module JsMap.

Definition t (V : Type) : Type := list (string * V).

Definition empty {V : Type} : t V := [].

Fixpoint get {V : Type} (m : t V) (k : string) : option V :=
  match m with
  | [] => None
  | (k', v) :: r => if String.eqb k' k then Some v else get r k
  end.

Fixpoint set {V : Type} (m : t V) (k : string) (v : V) : t V :=
  match m with
  | [] => [(k, v)]
  | (k', v') :: r =>
      if String.eqb k' k then (k, v) :: r else (k', v') :: set r k v
  end.

Definition delete {V : Type} (m : t V) (k : string) : t V :=
  filter (fun e => negb (String.eqb (fst e) k)) m.

Definition values {V : Type} (m : t V) : list V := map snd m.

End JsMap.

(** ** Handles of the media engine (mediasoup types)

    Parameters that the server only passes through (ICE and DTLS
    parameters, RTP parameters and capabilities) are opaque strings. *)
Module Router.
Record t : Type := mk { id : string; rtpCapabilities : string }.
End Router.

Module Transport.
Record t : Type := mk {
  id : string;
  iceParameters : string;
  iceCandidates : string;
  dtlsParameters : string }.
End Transport.

Module Producer.
Record t : Type := mk { id : string; kind : string }.
End Producer.

Module Consumer.
Record t : Type := mk { id : string; kind : string; rtpParameters : string }.
End Consumer.

(** Calls made on the engine, in the order they are made. *)
Inductive FacadeCall : Type :=
| CreateRouter
| CreateWebRtcTransport (routerId : string)
| Connect (transportId : string) (dtlsParameters : string)
| Produce (transportId : string) (kind : string) (rtpParameters : string)
| CanConsume (routerId : string) (producerId : string) (rtpCapabilities : string)
| Consume (transportId : string) (producerId : string) (rtpCapabilities : string)
| CloseTransport (transportId : string)
| CloseRouter (routerId : string).

(** The engine as the server uses it.  [E] is the engine's own state;
    the asynchronous operations may reject with an [Error]. *)
Class MediaEngine (E : Type) : Type := {
  worker_createRouter : E -> completion Router.t * E;
  router_createWebRtcTransport : Router.t -> E -> completion Transport.t * E;
  router_canConsume : Router.t -> string -> string -> E -> bool;
  router_close : Router.t -> E -> E;
  transport_connect : Transport.t -> string -> E -> completion unit * E;
  transport_produce : Transport.t -> string -> string -> E -> completion Producer.t * E;
  transport_consume : Transport.t -> string -> string -> E -> completion Consumer.t * E;
  transport_close : Transport.t -> E -> E }.

(** ** mediasoup/room.ts: data *)
Module Peer.
Record t : Type := mk {
  id : string;
  userId : string;
  username : string;
  transports : JsMap.t Transport.t;
  producers : JsMap.t Producer.t;
  consumers : JsMap.t Consumer.t }.

Definition with_transports (p : t) (m : JsMap.t Transport.t) : t :=
  mk (id p) (userId p) (username p) m (producers p) (consumers p).
Definition with_producers (p : t) (m : JsMap.t Producer.t) : t :=
  mk (id p) (userId p) (username p) (transports p) m (consumers p).
Definition with_consumers (p : t) (m : JsMap.t Consumer.t) : t :=
  mk (id p) (userId p) (username p) (transports p) (producers p) m.
End Peer.

Module Room.
Record t : Type := mk {
  id : string;
  router : Router.t;
  peers : JsMap.t Peer.t;
  createdAt : Z }.

Definition with_peers (r : t) (m : JsMap.t Peer.t) : t :=
  mk (id r) (router r) m (createdAt r).
End Room.

(** ** server.ts: data exchanged with the clients *)

(** Server-to-client events. *)
Inductive Event : Type :=
| newPeer (peerId userId username : string)
| newProducer (peerId producerId kind : string)
| peerLeft (peerId : string).

(** One element of the [peers] array of a reply. *)
Record PeerInfo : Type := mkPeerInfo {
  pi_peerId : string; pi_userId : string; pi_username : string }.

(** One element of the [producers] array of a reply. *)
Record ProducerInfo : Type := mkProducerInfo {
  producerId : string;
  peerId : string;
  userId : string;
  username : string;
  kind : string }.

Record TransportParams : Type := mkTransportParams {
  tp_id : string;
  tp_iceParameters : string;
  tp_iceCandidates : string;
  tp_dtlsParameters : string }.

Record ConsumerParams : Type := mkConsumerParams {
  cp_id : string;
  cp_producerId : string;
  cp_kind : string;
  cp_rtpParameters : string }.

(** The argument handed to the acknowledgement callback. *)
Inductive Reply : Type :=
| ReplyError (error : string)
| ReplyRoomId (roomId : string)
| ReplyJoined (peers : list PeerInfo)
| ReplyRtpCapabilities (rtpCapabilities : string)
| ReplyTransport (params : TransportParams)
| ReplySuccess
| ReplyProducerId (producerId : string)
| ReplyConsumer (params : ConsumerParams)
| ReplyProducers (producers : list ProducerInfo).

(** [socket.data] *)
Record SocketData : Type := mkSocketData {
  sd_roomId : option string;
  sd_userId : option string;
  sd_username : option string }.

(** Payload of [joinRoom]; an absent field is [None]. *)
Record JoinData : Type := mkJoinData {
  jd_roomId : option string;
  jd_userId : option string;
  jd_username : option string }.

(** ** The state of the server process

    [rooms] is the module-level map of room.ts; [sockets] holds
    [socket.data] of every connection, [adapter] the Socket.IO rooms
    (room name to member connections), [delivered] the events sent so
    far, each with the connection that receives it. *)
Record World (E : Type) : Type := mkWorld {
  clock : Z;
  rooms : JsMap.t Room.t;
  engine : E;
  trace : list FacadeCall;
  sockets : JsMap.t SocketData;
  adapter : JsMap.t (list string);
  delivered : list (string * Event) }.
Arguments mkWorld {E}.
Arguments clock {E}.
Arguments rooms {E}.
Arguments engine {E}.
Arguments trace {E}.
Arguments sockets {E}.
Arguments adapter {E}.
Arguments delivered {E}.

(** Statements that read and write the state and may throw; what was
    written before a throw stays written. *)
Definition M (E A : Type) : Type := World E -> completion A * World E.

Definition ret {E A : Type} (a : A) : M E A := fun w => (Normal a, w).

Definition bind {E A B : Type} (m : M E A) (k : A -> M E B) : M E B :=
  fun w =>
    match m w with
    | (Normal a, w') => k a w'
    | (Throw e, w') => (Throw e, w')
    end.

Definition throw {E A : Type} (msg : string) : M E A :=
  fun w => (Throw (mkError msg), w).

Definition gets {E A : Type} (f : World E -> A) : M E A :=
  fun w => (Normal (f w), w).

Definition modify {E : Type} (f : World E -> World E) : M E unit :=
  fun w => (Normal tt, f w).

Declare Scope js_scope.
Delimit Scope js_scope with js.
Notation "x <- c ;; k" := (bind c (fun x => k))
  (at level 61, c at next level, right associativity) : js_scope.
Notation "c ;; k" := (bind c (fun _ => k))
  (at level 61, right associativity) : js_scope.
#[local] Open Scope js_scope.

Definition set_rooms {E : Type} (m : JsMap.t Room.t) (w : World E) : World E :=
  mkWorld (clock w) m (engine w) (trace w) (sockets w) (adapter w) (delivered w).

Definition set_sockets {E : Type} (m : JsMap.t SocketData) (w : World E) : World E :=
  mkWorld (clock w) (rooms w) (engine w) (trace w) m (adapter w) (delivered w).

Definition set_adapter {E : Type} (m : JsMap.t (list string)) (w : World E) : World E :=
  mkWorld (clock w) (rooms w) (engine w) (trace w) (sockets w) m (delivered w).

Definition set_delivered {E : Type} (l : list (string * Event)) (w : World E) : World E :=
  mkWorld (clock w) (rooms w) (engine w) (trace w) (sockets w) (adapter w) l.

(** One call on the engine: the call is appended to the trace and the
    engine moves to its next state. *)
Definition facade {E A : Type} (call : FacadeCall) (op : E -> completion A * E) : M E A :=
  fun w =>
    let '(r, e') := op (engine w) in
    (r, mkWorld (clock w) (rooms w) e' (trace w ++ [call])
                (sockets w) (adapter w) (delivered w)).

(** [m.forEach(v => body)] *)
Fixpoint forEach {E V : Type} (m : JsMap.t V) (body : V -> M E unit) : M E unit :=
  match m with
  | [] => ret tt
  | (_, v) :: r => body v ;; forEach r body
  end.

(** ** mediasoup/room.ts: operations *)
Section Registry.

Context {E : Type} {media : MediaEngine E}.

(** [rooms.has(roomId)] and [rooms.get(roomId)!] are one lookup. *)
Definition createRoom (roomId : string) : M E Room.t :=
  rs <- gets rooms ;;
  match JsMap.get rs roomId with
  | Some room => ret room
  | None =>
      router <- facade CreateRouter worker_createRouter ;;
      now <- gets clock ;;
      let room := Room.mk roomId router JsMap.empty now in
      modify (fun w => set_rooms (JsMap.set (rooms w) roomId room) w) ;;
      ret room
  end.

Definition getRoom (roomId : string) : M E (option Room.t) :=
  gets (fun w => JsMap.get (rooms w) roomId).

Definition deleteRoom (roomId : string) : M E unit :=
  rs <- gets rooms ;;
  match JsMap.get rs roomId with
  | Some room =>
      facade (CloseRouter (Router.id (Room.router room)))
             (fun e => (Normal tt, router_close (Room.router room) e)) ;;
      modify (fun w => set_rooms (JsMap.delete (rooms w) roomId) w)
  | None => ret tt
  end.

Definition addPeer (roomId peerId userId username : string) : M E Peer.t :=
  rs <- gets rooms ;;
  match JsMap.get rs roomId with
  | None => throw ("Room " ++ roomId ++ " not found")
  | Some room =>
      let peer := Peer.mk peerId userId username JsMap.empty JsMap.empty JsMap.empty in
      modify (fun w =>
        set_rooms (JsMap.set (rooms w) roomId
                     (Room.with_peers room (JsMap.set (Room.peers room) peerId peer))) w) ;;
      ret peer
  end.

Definition lookup_peer (rs : JsMap.t Room.t) (roomId peerId : string) : option Peer.t :=
  match JsMap.get rs roomId with
  | None => None
  | Some room => JsMap.get (Room.peers room) peerId
  end.

Definition getPeer (roomId peerId : string) : M E (option Peer.t) :=
  gets (fun w => lookup_peer (rooms w) roomId peerId).

Definition close_transport (transport : Transport.t) : M E unit :=
  facade (CloseTransport (Transport.id transport))
         (fun e => (Normal tt, transport_close transport e)).

(** The final test on [room.peers.size] only writes to the log. *)
Definition removePeer (roomId peerId : string) : M E unit :=
  rs <- gets rooms ;;
  match JsMap.get rs roomId with
  | None => ret tt
  | Some room =>
      match JsMap.get (Room.peers room) peerId with
      | None => ret tt
      | Some peer =>
          forEach (Peer.transports peer) close_transport ;;
          modify (fun w =>
            set_rooms (JsMap.set (rooms w) roomId
                         (Room.with_peers room (JsMap.delete (Room.peers room) peerId))) w)
      end
  end.

Definition getRouterRtpCapabilities (roomId : string) : M E (option string) :=
  rs <- gets rooms ;;
  match JsMap.get rs roomId with
  | None => ret None
  | Some room => ret (Some (Router.rtpCapabilities (Room.router room)))
  end.

(** A write through the reference [peer] that the caller holds: the
    peer object stored in the room changes in place. *)
Definition update_peer (roomId peerId : string) (f : Peer.t -> Peer.t) : M E unit :=
  modify (fun w =>
    match JsMap.get (rooms w) roomId with
    | None => w
    | Some room =>
        match JsMap.get (Room.peers room) peerId with
        | None => w
        | Some peer =>
            set_rooms (JsMap.set (rooms w) roomId
                         (Room.with_peers room
                            (JsMap.set (Room.peers room) peerId (f peer)))) w
        end
    end).

Definition createWebRtcTransport (roomId peerId : string) : M E TransportParams :=
  rs <- gets rooms ;;
  match JsMap.get rs roomId with
  | None => throw ("Room " ++ roomId ++ " not found")
  | Some room =>
      match JsMap.get (Room.peers room) peerId with
      | None => throw ("Peer " ++ peerId ++ " not found in room " ++ roomId)
      | Some peer =>
          transport <- facade (CreateWebRtcTransport (Router.id (Room.router room)))
                              (router_createWebRtcTransport (Room.router room)) ;;
          update_peer roomId peerId (fun p =>
            Peer.with_transports p
              (JsMap.set (Peer.transports p) (Transport.id transport) transport)) ;;
          ret (mkTransportParams (Transport.id transport)
                                 (Transport.iceParameters transport)
                                 (Transport.iceCandidates transport)
                                 (Transport.dtlsParameters transport))
      end
  end.

Definition connectTransport (roomId peerId transportId dtlsParameters : string)
  : M E unit :=
  found <- getPeer roomId peerId ;;
  match found with
  | None => throw ("Peer " ++ peerId ++ " not found")
  | Some peer =>
      match JsMap.get (Peer.transports peer) transportId with
      | None => throw ("Transport " ++ transportId ++ " not found")
      | Some transport =>
          facade (Connect (Transport.id transport) dtlsParameters)
                 (transport_connect transport dtlsParameters)
      end
  end.

Definition produce (roomId peerId transportId kind rtpParameters : string)
  : M E string :=
  found <- getPeer roomId peerId ;;
  match found with
  | None => throw ("Peer " ++ peerId ++ " not found")
  | Some peer =>
      match JsMap.get (Peer.transports peer) transportId with
      | None => throw ("Transport " ++ transportId ++ " not found")
      | Some transport =>
          producer <- facade (Produce (Transport.id transport) kind rtpParameters)
                             (transport_produce transport kind rtpParameters) ;;
          update_peer roomId peerId (fun p =>
            Peer.with_producers p
              (JsMap.set (Peer.producers p) (Producer.id producer) producer)) ;;
          ret (Producer.id producer)
      end
  end.

Definition consume (roomId peerId transportId producerId rtpCapabilities : string)
  : M E ConsumerParams :=
  rs <- gets rooms ;;
  match JsMap.get rs roomId with
  | None => throw ("Room " ++ roomId ++ " not found")
  | Some room =>
      found <- getPeer roomId peerId ;;
      match found with
      | None => throw ("Peer " ++ peerId ++ " not found")
      | Some peer =>
          match JsMap.get (Peer.transports peer) transportId with
          | None => throw ("Transport " ++ transportId ++ " not found")
          | Some transport =>
              ok <- facade (CanConsume (Router.id (Room.router room))
                                       producerId rtpCapabilities)
                           (fun e => (Normal (router_canConsume (Room.router room)
                                                producerId rtpCapabilities e), e)) ;;
              if negb ok then throw "Cannot consume"
              else
                consumer <- facade (Consume (Transport.id transport)
                                            producerId rtpCapabilities)
                                   (transport_consume transport producerId
                                                      rtpCapabilities) ;;
                update_peer roomId peerId (fun p =>
                  Peer.with_consumers p
                    (JsMap.set (Peer.consumers p) (Consumer.id consumer) consumer)) ;;
                ret (mkConsumerParams (Consumer.id consumer) producerId
                                      (Consumer.kind consumer)
                                      (Consumer.rtpParameters consumer))
          end
      end
  end.

End Registry.

(** The two read-only listings depend on the room map alone. *)
Definition producers_of (excludePeerId : string) (entry : string * Peer.t)
  : list ProducerInfo :=
  let '(peerId, peer) := entry in
  if negb (String.eqb peerId excludePeerId) then
    map (fun producer =>
           mkProducerInfo (Producer.id producer) peerId
                          (Peer.userId peer) (Peer.username peer)
                          (Producer.kind producer))
        (JsMap.values (Peer.producers peer))
  else [].

Definition getOtherPeersProducers (rs : JsMap.t Room.t) (roomId excludePeerId : string)
  : list ProducerInfo :=
  match JsMap.get rs roomId with
  | None => []
  | Some room => flat_map (producers_of excludePeerId) (Room.peers room)
  end.

Definition getRoomPeers (rs : JsMap.t Room.t) (roomId : string) : list PeerInfo :=
  match JsMap.get rs roomId with
  | None => []
  | Some room =>
      map (fun peer => mkPeerInfo (Peer.id peer) (Peer.userId peer) (Peer.username peer))
          (JsMap.values (Room.peers room))
  end.

(** ** server.ts: the handlers of one connection

    [sid] is [socket.id].  Each handler returns the argument of its
    acknowledgement callback together with the next state. *)
Section Server.

Context {E : Type} {media : MediaEngine E}.

(** Truthiness of a value that is a string or [undefined]. *)
Definition truthy (v : option string) : bool :=
  match v with
  | Some s => negb (String.eqb s "")
  | None => false
  end.

Definition no_data : SocketData := mkSocketData None None None.

Definition socket_data (sid : string) : M E SocketData :=
  gets (fun w => match JsMap.get (sockets w) sid with
                 | Some d => d
                 | None => no_data
                 end).

Definition members (w : World E) (room : string) : list string :=
  match JsMap.get (adapter w) room with
  | Some l => l
  | None => []
  end.

(** [socket.join(room)] *)
Definition socket_join (sid room : string) : M E unit :=
  modify (fun w =>
    let l := members w room in
    if existsb (String.eqb sid) l then w
    else set_adapter (JsMap.set (adapter w) room (l ++ [sid])) w).

(** [socket.leave(room)] *)
Definition socket_leave (sid room : string) : M E unit :=
  modify (fun w =>
    set_adapter
      (JsMap.set (adapter w) room
         (filter (fun r => negb (String.eqb r sid)) (members w room))) w).

(** [socket.to(room).emit(event)]: every member of [room] but the
    sender receives the event. *)
Definition socket_to_emit (sid room : string) (ev : Event) : M E unit :=
  modify (fun w =>
    set_delivered
      (delivered w
       ++ map (fun r => (r, ev))
              (filter (fun r => negb (String.eqb r sid)) (members w room))) w).

(** [try { body } catch (error) { callback({ error: failure }) }] *)
Definition try_handler (body : M E Reply) (failure : string)
  : World E -> Reply * World E :=
  fun w =>
    match body w with
    | (Normal r, w') => (r, w')
    | (Throw _, w') => (ReplyError failure, w')
    end.

Definition on_createRoom (randomBytes : list byte) : World E -> Reply * World E :=
  try_handler
    (now <- gets clock ;;
     let roomId := generateMeetingId randomBytes now in
     createRoom roomId ;;
     ret (ReplyRoomId roomId))
    "Failed to create room".

Definition on_joinRoom (sid : string) (data : JoinData) : World E -> Reply * World E :=
  try_handler
    (if negb (truthy (jd_roomId data)) || negb (truthy (jd_userId data))
        || negb (truthy (jd_username data))
     then ret (ReplyError "Missing required fields")
     else
       match jd_roomId data, jd_userId data, jd_username data with
       | Some roomId, Some userId, Some username =>
           now <- gets clock ;;
           if isMeetingExpired now roomId
           then ret (ReplyError "Meeting link has expired (24h limit)")
           else
             room <- getRoom roomId ;;
             match room with
             | None => createRoom roomId ;; ret tt
             | Some _ => ret tt
             end ;;
             addPeer roomId sid userId username ;;
             socket_join sid roomId ;;
             modify (fun w =>
               set_sockets (JsMap.set (sockets w) sid
                              (mkSocketData (Some roomId) (Some userId) (Some username)))
                           w) ;;
             rs <- gets rooms ;;
             let peers := filter (fun p => negb (String.eqb (pi_peerId p) sid))
                                 (getRoomPeers rs roomId) in
             socket_to_emit sid roomId (newPeer sid userId username) ;;
             ret (ReplyJoined peers)
       | _, _, _ => ret (ReplyError "Missing required fields")
       end)
    "Failed to join room".

Definition on_getRouterRtpCapabilities (roomId : string) : World E -> Reply * World E :=
  try_handler
    (caps <- getRouterRtpCapabilities roomId ;;
     match caps with
     | None => ret (ReplyError "Room not found")
     | Some rtpCapabilities => ret (ReplyRtpCapabilities rtpCapabilities)
     end)
    "Failed to get RTP capabilities".

Definition on_createWebRtcTransport (sid roomId : string) : World E -> Reply * World E :=
  try_handler
    (transportParams <- createWebRtcTransport roomId sid ;;
     ret (ReplyTransport transportParams))
    "Failed to create transport".

Definition on_connectTransport (sid roomId transportId dtlsParameters : string)
  : World E -> Reply * World E :=
  try_handler
    (connectTransport roomId sid transportId dtlsParameters ;;
     ret ReplySuccess)
    "Failed to connect transport".

Definition on_produce (sid roomId transportId kind rtpParameters : string)
  : World E -> Reply * World E :=
  try_handler
    (producerId <- produce roomId sid transportId kind rtpParameters ;;
     socket_to_emit sid roomId (newProducer sid producerId kind) ;;
     ret (ReplyProducerId producerId))
    "Failed to produce".

Definition on_consume (sid roomId transportId producerId rtpCapabilities : string)
  : World E -> Reply * World E :=
  try_handler
    (params <- consume roomId sid transportId producerId rtpCapabilities ;;
     ret (ReplyConsumer params))
    "Failed to consume".

Definition on_getProducers (sid roomId : string) : World E -> Reply * World E :=
  try_handler
    (rs <- gets rooms ;;
     ret (ReplyProducers (getOtherPeersProducers rs roomId sid)))
    "Failed to get producers".

(** No handler catches here; none of the statements throws. *)
Definition handleDisconnect (sid : string) : M E unit :=
  data <- socket_data sid ;;
  if truthy (sd_roomId data) then
    match sd_roomId data with
    | Some roomId =>
        removePeer roomId sid ;;
        socket_to_emit sid roomId (peerLeft sid) ;;
        socket_leave sid roomId
    | None => ret tt
    end
  else ret tt.

Definition on_leaveRoom (sid : string) (w : World E) : World E :=
  snd (handleDisconnect sid w).

(** Socket.IO takes a closing connection out of all its rooms before
    it emits [disconnect]. *)
Definition leave_all (sid : string) : M E unit :=
  modify (fun w =>
    set_adapter
      (map (fun entry =>
              (fst entry, filter (fun r => negb (String.eqb r sid)) (snd entry)))
           (adapter w)) w).

Definition on_disconnect (sid : string) (w : World E) : World E :=
  snd ((leave_all sid ;; handleDisconnect sid) w).

End Server.

(** ** A simulated engine, for running the handlers on concrete input

    Handles are numbered in creation order.  When [fault] holds a
    message, every asynchronous operation rejects with it. *)
Record Sim : Type := mkSim { next : Z; fault : option string }.

Definition sim_async {A : Type} (build : Z -> A) (e : Sim) : completion A * Sim :=
  match fault e with
  | Some msg => (Throw (mkError msg), e)
  | None => (Normal (build (next e)), mkSim (next e + 1) None)
  end.

#[export] Instance simulated : MediaEngine Sim := {
  worker_createRouter :=
    sim_async (fun n => Router.mk ("router" ++ Js.toString n) "caps");
  router_createWebRtcTransport _ :=
    sim_async (fun n => Transport.mk ("transport" ++ Js.toString n) "ice" "candidates" "dtls");
  router_canConsume _ _ _ _ := true;
  router_close _ e := e;
  transport_connect _ _ := sim_async (fun _ => tt);
  transport_produce _ kind _ :=
    sim_async (fun n => Producer.mk ("producer" ++ Js.toString n) kind);
  transport_consume _ _ _ :=
    sim_async (fun n => Consumer.mk ("consumer" ++ Js.toString n) "video" "rtp");
  transport_close _ e := e }.

(** A fresh process at time [now]. *)
Definition boot (now : Z) : World Sim :=
  mkWorld now JsMap.empty (mkSim 0 None) [] JsMap.empty JsMap.empty [].

Definition set_engine {E : Type} (e : E) (w : World E) : World E :=
  mkWorld (clock w) (rooms w) e (trace w) (sockets w) (adapter w) (delivered w).

(** The state after one call on the engine and nothing else. *)
Definition after_call {E : Type} (w : World E) (e' : E) (call : FacadeCall) : World E :=
  mkWorld (clock w) (rooms w) e' (trace w ++ [call])
          (sockets w) (adapter w) (delivered w).

(** What one run of [handleDisconnect] sends: [peerLeft] to every member
    of the room but the leaving connection. *)
Definition farewell {E : Type} (w : World E) (sid roomId : string) : list (string * Event) :=
  map (fun r => (r, peerLeft sid))
      (filter (fun r => negb (String.eqb r sid)) (members w roomId)).

(** The segment that [isMeetingExpired] and [getMeetingAge] parse. *)
Definition trailing_segment (meetingId : string) : string :=
  let parts := Js.split "-" meetingId in
  Js.index parts (Js.length parts - 1).

(** [sep] does not occur in [s]. *)
Fixpoint free_of (sep : ascii) (s : string) : bool :=
  match s with
  | EmptyString => true
  | String c r => negb (Ascii.eqb c sep) && free_of sep r
  end.

(** The character after a leading zero does not start a [0x] prefix. *)
Definition no_hex_mark (rest : string) : bool :=
  match rest with
  | String c _ => negb (Ascii.eqb c "x") && negb (Ascii.eqb c "X")
  | EmptyString => true
  end.

(** Decimal digits. *)
Definition is_digit (d : Z) : Prop := 0 <= d <= 9.

(** Events received by one connection, oldest first. *)
Definition received (sid : string) (l : list (string * Event)) : list Event :=
  map snd (filter (fun d => String.eqb (fst d) sid) l).

(** Case analysis on a decimal digit. *)
Ltac digit_cases d :=
  let H := fresh in
  match goal with
  | Hd : is_digit d |- _ =>
      assert (d = 0 \/ d = 1 \/ d = 2 \/ d = 3 \/ d = 4 \/ d = 5 \/ d = 6
              \/ d = 7 \/ d = 8 \/ d = 9) as H by (unfold is_digit in Hd; lia);
      clear Hd;
      repeat (destruct H as [H|H]; [subst d|]); [..|subst d]
  end.

(** ** Concrete runs

    A process started at [t0]; one meeting identifier created at [t0]
    and one created 25 hours earlier. *)
Definition t0 : Z := 1700000000000.

Definition fresh_id : string := "deadbeefdeadbeef-1700000000000".

Definition stale_id : string := "deadbeefdeadbeef-1699910000000".

Definition join (sid roomId userId username : string) (w : World Sim) : World Sim :=
  snd (on_joinRoom sid (mkJoinData (Some roomId) (Some userId) (Some username)) w).

(** Alice (connection ["A"]) joins the meeting, then Bob (["B"]). *)
Definition alice_joined : World Sim := join "A" fresh_id "u1" "Alice" (boot t0).

Definition both_joined : World Sim := join "B" fresh_id "u2" "Bob" alice_joined.

(** Alice opens a transport and publishes her camera. *)
Definition alice_transport : World Sim :=
  snd (on_createWebRtcTransport "A" fresh_id both_joined).

Definition alice_producing : World Sim :=
  snd (on_produce "A" fresh_id "transport1" "video" "rtp" alice_transport).

(** The engine starts rejecting every operation. *)
Definition engine_failing (msg : string) (w : World Sim) : World Sim :=
  set_engine (mkSim (next (engine w)) (Some msg)) w.

(** The transport that a connection may use in a room: one stored under
    its own peer. *)
Definition own_transport (rs : JsMap.t Room.t) (roomId sid transportId : string)
  : option Transport.t :=
  match lookup_peer rs roomId sid with
  | Some peer => JsMap.get (Peer.transports peer) transportId
  | None => None
  end.

(** The [close] calls that [removePeer] makes for a peer. *)
Definition close_calls (peer : Peer.t) : list FacadeCall :=
  map (fun transport => CloseTransport (Transport.id transport))
      (JsMap.values (Peer.transports peer)).

(** ** The server as a transition system *)

(** The requests a connection can send, one per [socket.on]. *)
Inductive Request : Type :=
| createRoom_request (randomBytes : list byte)
| joinRoom_request (data : JoinData)
| getRouterRtpCapabilities_request (roomId : string)
| createWebRtcTransport_request (roomId : string)
| connectTransport_request (roomId transportId dtlsParameters : string)
| produce_request (roomId transportId kind rtpParameters : string)
| consume_request (roomId transportId producerId rtpCapabilities : string)
| getProducers_request (roomId : string)
| leaveRoom_request
| disconnect_request.

(** What happens to the process: time passes, the engine moves on its
    own, or a connection sends a request. *)
Inductive Input (E : Type) : Type :=
| tick (now : Z)
| engine_moves (e : E)
| from_client (sid : string) (request : Request).
Arguments tick {E} now.
Arguments engine_moves {E} e.
Arguments from_client {E} sid request.

Definition set_clock {E : Type} (now : Z) (w : World E) : World E :=
  mkWorld now (rooms w) (engine w) (trace w) (sockets w) (adapter w) (delivered w).

Section Process.

Context {E : Type} {media : MediaEngine E}.

(** The dispatch of [io.on('connection', ...)]; [leaveRoom] and
    [disconnect] have no acknowledgement. *)
Definition handle (sid : string) (request : Request) (w : World E)
  : option Reply * World E :=
  let replied (r : Reply * World E) := (Some (fst r), snd r) in
  match request with
  | createRoom_request randomBytes => replied (on_createRoom randomBytes w)
  | joinRoom_request data => replied (on_joinRoom sid data w)
  | getRouterRtpCapabilities_request roomId =>
      replied (on_getRouterRtpCapabilities roomId w)
  | createWebRtcTransport_request roomId =>
      replied (on_createWebRtcTransport sid roomId w)
  | connectTransport_request roomId transportId dtlsParameters =>
      replied (on_connectTransport sid roomId transportId dtlsParameters w)
  | produce_request roomId transportId kind rtpParameters =>
      replied (on_produce sid roomId transportId kind rtpParameters w)
  | consume_request roomId transportId producerId rtpCapabilities =>
      replied (on_consume sid roomId transportId producerId rtpCapabilities w)
  | getProducers_request roomId => replied (on_getProducers sid roomId w)
  | leaveRoom_request => (None, on_leaveRoom sid w)
  | disconnect_request => (None, on_disconnect sid w)
  end.

Definition step (w : World E) (i : Input E) : World E :=
  match i with
  | tick now => set_clock now w
  | engine_moves e => set_engine e w
  | from_client sid request => snd (handle sid request w)
  end.

Definition run (inputs : list (Input E)) (w : World E) : World E :=
  fold_left step inputs w.

(** The process after start-up: no room, no connection. *)
Definition initial (now : Z) (e : E) : World E :=
  mkWorld now JsMap.empty e [] JsMap.empty JsMap.empty [].

End Process.

(** ** Well-formed registries *)

Definition keys {V : Type} (m : JsMap.t V) : list string := map fst m.

(** Every value sits under its own identifier and no key occurs twice. *)
Definition keyed {V : Type} (id : V -> string) (m : JsMap.t V) : Prop :=
  NoDup (keys m) /\ forall k v, In (k, v) m -> id v = k.

Definition wf_peer (peer : Peer.t) : Prop :=
  keyed Transport.id (Peer.transports peer)
  /\ keyed Producer.id (Peer.producers peer)
  /\ keyed Consumer.id (Peer.consumers peer).

Definition wf_room (room : Room.t) : Prop :=
  keyed Peer.id (Room.peers room)
  /\ forall k peer, In (k, peer) (Room.peers room) -> wf_peer peer.

Definition wf_rooms (rs : JsMap.t Room.t) : Prop :=
  keyed Room.id rs /\ forall k room, In (k, room) rs -> wf_room room.

(** The connection an event speaks about. *)
Definition subject (ev : Event) : string :=
  match ev with
  | newPeer p _ _ => p
  | newProducer p _ _ => p
  | peerLeft p => p
  end.

(** What holds of the process at all times: the registry is well formed,
    no connection is twice in a Socket.IO room, every member of a
    Socket.IO room is a peer of the room with that name, and no event
    went to the connection it speaks about. *)
Definition invariant {E : Type} (w : World E) : Prop :=
  wf_rooms (rooms w)
  /\ (forall r, NoDup (members w r))
  /\ (forall r sid, In sid (members w r) -> lookup_peer (rooms w) r sid <> None)
  /\ Forall (fun d => subject (snd d) <> fst d) (delivered w).

(** No peer is lost from [rs] to [rs']. *)
Definition peers_kept (rs rs' : JsMap.t Room.t) : Prop :=
  forall r q, lookup_peer rs r q <> None -> lookup_peer rs' r q <> None.

(** Every room of [rs] is a room of [rs'], with the router it was
    created with. *)
Definition rooms_stay (rs rs' : JsMap.t Room.t) : Prop :=
  forall r room, JsMap.get rs r = Some room ->
    exists room', JsMap.get rs' r = Some room'
                  /\ Room.id room' = Room.id room
                  /\ Room.router room' = Room.router room
                  /\ Room.createdAt room' = Room.createdAt room.

(** A change of the state that concerns the registry and the engine
    only, keeps the registry well formed and loses no peer and no
    room. *)
Definition registry_only {E : Type} (w w' : World E) : Prop :=
  (wf_rooms (rooms w) -> wf_rooms (rooms w'))
  /\ peers_kept (rooms w) (rooms w')
  /\ adapter w' = adapter w
  /\ delivered w' = delivered w
  /\ sockets w' = sockets w
  /\ clock w' = clock w
  /\ rooms_stay (rooms w) (rooms w').

(** The values stored in the concrete runs. *)
Definition transport1 : Transport.t := Transport.mk "transport1" "ice" "candidates" "dtls".

Definition producer2 : Producer.t := Producer.mk "producer2" "video".

Definition bob : Peer.t := Peer.mk "B" "u2" "Bob" [] [] [].

Definition alice_with_transport : Peer.t :=
  Peer.mk "A" "u1" "Alice" [("transport1", transport1)] [] [].

Definition alice_with_producer : Peer.t :=
  Peer.mk "A" "u1" "Alice" [("transport1", transport1)] [("producer2", producer2)] [].

Definition router0 : Router.t := Router.mk "router0" "caps".

Definition room_with_transport : Room.t :=
  Room.mk fresh_id router0 [("A", alice_with_transport); ("B", bob)] t0.

Definition room_with_producer : Room.t :=
  Room.mk fresh_id router0 [("A", alice_with_producer); ("B", bob)] t0.


(** The requests that lead to [alice_producing], as inputs of [run]. *)
Definition alice_and_bob : list (Input Sim) :=
  [from_client "A" (joinRoom_request
                      (mkJoinData (Some fresh_id) (Some "u1") (Some "Alice")));
   from_client "B" (joinRoom_request
                      (mkJoinData (Some fresh_id) (Some "u2") (Some "Bob")))].

(** ** storage/fileStorage.ts: data

    The REST side of the server keeps its data in two JSON files and a
    directory of uploaded recordings.  Conventions of this part.
      - A data file is missing, holds the JSON text of an array of
        records – represented by the array, [JSON.parse] being the
        inverse of [JSON.stringify] on records of strings and integers –
        or is [Garbled]: it exists, but reading it or parsing its text
        throws.
      - A file name of a recording is a plain name: [path.join] with
        [RECORDINGS_DIR] yields a file of that directory.
      - [writeFileSync] and [unlinkSync] throw on the paths that the
        system currently refuses ([denied]), and [unlinkSync] on a path
        that does not exist.
      - From outside the server a file can be spoilt – it is still
        there, but can no longer be read or parsed – or removed.
      - multer stores the file of an upload before the handler runs;
        the handler is given the name under which it was stored.
      - A field of a request is a string or is absent. *)

Module User.

Record t : Type := mk {
  userId : string;
  username : string;
  createdAt : Z }.

End User.

Module Recording.

Inductive type : Type := audio | video | both.

Record t : Type := mk {
  recordingId : string;
  userId : string;
  meetingId : string;
  username : string;
  title : string;
  filename : string;
  duration : Z;
  createdAt : Z;
  recordingType : option type }.

(** [Partial<Recording>]: the keys that an update carries. *)
Record partial : Type := mkPartial {
  set_recordingId : option string;
  set_userId : option string;
  set_meetingId : option string;
  set_username : option string;
  set_title : option string;
  set_filename : option string;
  set_duration : option Z;
  set_createdAt : option Z;
  set_recordingType : option type }.

Definition or_else {A : Type} (new : option A) (old : A) : A :=
  match new with Some a => a | None => old end.

(** [{ ...r, ...updates }] *)
Definition spread (r : t) (updates : partial) : t :=
  mk (or_else (set_recordingId updates) (recordingId r))
     (or_else (set_userId updates) (userId r))
     (or_else (set_meetingId updates) (meetingId r))
     (or_else (set_username updates) (username r))
     (or_else (set_title updates) (title r))
     (or_else (set_filename updates) (filename r))
     (or_else (set_duration updates) (duration r))
     (or_else (set_createdAt updates) (createdAt r))
     (match set_recordingType updates with
      | Some ty => Some ty
      | None => recordingType r
      end).

(** [{ title }] *)
Definition only_title (title : string) : partial :=
  mkPartial None None None None (Some title) None None None None.

End Recording.

Module Fs.

Inductive path : Type :=
| USERS_FILE
| METADATA_FILE
| recording_file (filename : string).

Definition path_eqb (p q : path) : bool :=
  match p, q with
  | USERS_FILE, USERS_FILE => true
  | METADATA_FILE, METADATA_FILE => true
  | recording_file a, recording_file b => String.eqb a b
  | _, _ => false
  end.

Inductive file (A : Type) : Type :=
| Missing
| Json (v : A)
| Garbled.
Arguments Missing {A}.
Arguments Json {A} v.
Arguments Garbled {A}.

Record t : Type := mk {
  users_json : file (list User.t);
  metadata_json : file (list Recording.t);
  recordings_dir : list string;
  denied : list path }.

Definition present {A : Type} (f : file A) : bool :=
  match f with Missing => false | _ => true end.

Definition existsSync (p : path) (d : t) : bool :=
  match p with
  | USERS_FILE => present (users_json d)
  | METADATA_FILE => present (metadata_json d)
  | recording_file name => existsb (String.eqb name) (recordings_dir d)
  end.

(** [JSON.parse(fs.readFileSync(p, 'utf-8'))] *)
Definition read_json {A : Type} (f : file A) : completion A :=
  match f with
  | Json v => Normal v
  | Missing => Throw (mkError "ENOENT: no such file or directory")
  | Garbled => Throw (mkError "Unexpected token in JSON")
  end.

Definition refuses (d : t) (p : path) : bool := existsb (path_eqb p) (denied d).

(** [fs.writeFileSync(USERS_FILE, JSON.stringify(users, null, 2))] *)
Definition write_users (users : list User.t) (d : t) : completion unit * t :=
  if refuses d USERS_FILE then (Throw (mkError "EACCES: permission denied"), d)
  else (Normal tt, mk (Json users) (metadata_json d) (recordings_dir d) (denied d)).

(** [fs.writeFileSync(METADATA_FILE, JSON.stringify(recordings, null, 2))] *)
Definition write_metadata (recordings : list Recording.t) (d : t) : completion unit * t :=
  if refuses d METADATA_FILE then (Throw (mkError "EACCES: permission denied"), d)
  else (Normal tt, mk (users_json d) (Json recordings) (recordings_dir d) (denied d)).

Definition unlinkSync (p : path) (d : t) : completion unit * t :=
  if refuses d p then (Throw (mkError "EACCES: permission denied"), d)
  else if negb (existsSync p d)
       then (Throw (mkError "ENOENT: no such file or directory"), d)
       else
         (Normal tt,
          match p with
          | USERS_FILE => mk Missing (metadata_json d) (recordings_dir d) (denied d)
          | METADATA_FILE => mk (users_json d) Missing (recordings_dir d) (denied d)
          | recording_file name =>
              mk (users_json d) (metadata_json d)
                 (filter (fun n => negb (String.eqb name n)) (recordings_dir d))
                 (denied d)
          end).

Definition set_denied (paths : list path) (d : t) : t :=
  mk (users_json d) (metadata_json d) (recordings_dir d) paths.

Definition spoilt {A : Type} (f : file A) : file A :=
  match f with Missing => Missing | _ => Garbled end.

(** The file at [p] is spoilt from outside.  The content of a recording
    is not represented: nothing changes for it. *)
Definition damage (p : path) (d : t) : t :=
  match p with
  | USERS_FILE => mk (spoilt (users_json d)) (metadata_json d) (recordings_dir d) (denied d)
  | METADATA_FILE =>
      mk (users_json d) (spoilt (metadata_json d)) (recordings_dir d) (denied d)
  | recording_file _ => d
  end.

(** The file at [p] is removed from outside. *)
Definition remove (p : path) (d : t) : t :=
  match p with
  | USERS_FILE => mk Missing (metadata_json d) (recordings_dir d) (denied d)
  | METADATA_FILE => mk (users_json d) Missing (recordings_dir d) (denied d)
  | recording_file name =>
      mk (users_json d) (metadata_json d)
         (filter (fun n => negb (String.eqb name n)) (recordings_dir d))
         (denied d)
  end.

(** A file appears in the recordings directory under [name]. *)
Definition store (name : string) (d : t) : t :=
  if existsb (String.eqb name) (recordings_dir d) then d
  else mk (users_json d) (metadata_json d) (recordings_dir d ++ [name]) (denied d).

End Fs.

(** [s.lastIndexOf('.')]; [None] stands for -1. *)
Fixpoint lastIndexOf_dot (s : string) : option nat :=
  match s with
  | EmptyString => None
  | String c r =>
      match lastIndexOf_dot r with
      | Some i => Some (S i)
      | None => if Ascii.eqb c "." then Some O else None
      end
  end.

(** [path.parse(filename).name] for a plain file name: the name without
    its extension.  The extension begins at the last dot, unless that
    dot begins the name or the name is [..]. *)
Definition parse_name (filename : string) : string :=
  match lastIndexOf_dot filename with
  | None => filename
  | Some O => filename
  | Some i => if String.eqb filename ".." then filename else String.substring 0 i filename
  end.

(** [l.findIndex(p)]; [None] stands for -1. *)
Fixpoint findIndex {A : Type} (p : A -> bool) (l : list A) : option nat :=
  match l with
  | [] => None
  | x :: r => if p x then Some O else option_map S (findIndex p r)
  end.

(** [l[index] = f(l[index])], for an index within the list. *)
Fixpoint update_at {A : Type} (index : nat) (f : A -> A) (l : list A) : list A :=
  match l, index with
  | [], _ => []
  | x :: r, O => f x :: r
  | x :: r, S i => x :: update_at i f r
  end.

(** ** storage/fileStorage.ts: operations *)

Definition readUsers (d : Fs.t) : list User.t :=
  try_catch
    (if negb (Fs.existsSync Fs.USERS_FILE d) then Normal []
     else Fs.read_json (Fs.users_json d))
    (fun _ => []).

(** The [catch] logs the error and goes on. *)
Definition writeUsers (users : list User.t) (d : Fs.t) : Fs.t :=
  match Fs.write_users users d with
  | (Normal _, d') => d'
  | (Throw _, d') => d'
  end.

Definition findUserByUsername (username : string) (d : Fs.t) : option User.t :=
  find (fun u => String.eqb (User.username u) username) (readUsers d).

Definition addUser (user : User.t) (d : Fs.t) : Fs.t :=
  let users := readUsers d in
  writeUsers (users ++ [user]) d.

Definition readRecordings (d : Fs.t) : list Recording.t :=
  try_catch
    (if negb (Fs.existsSync Fs.METADATA_FILE d) then Normal []
     else Fs.read_json (Fs.metadata_json d))
    (fun _ => []).

Definition writeRecordings (recordings : list Recording.t) (d : Fs.t) : Fs.t :=
  match Fs.write_metadata recordings d with
  | (Normal _, d') => d'
  | (Throw _, d') => d'
  end.

Definition addRecording (recording : Recording.t) (d : Fs.t) : Fs.t :=
  let recordings := readRecordings d in
  writeRecordings (recordings ++ [recording]) d.

Definition has_id (recordingId : string) (r : Recording.t) : bool :=
  String.eqb (Recording.recordingId r) recordingId.

Definition findRecordingById (recordingId : string) (d : Fs.t) : option Recording.t :=
  find (has_id recordingId) (readRecordings d).

Definition updateRecording (recordingId : string) (updates : Recording.partial)
  (d : Fs.t) : bool * Fs.t :=
  let recordings := readRecordings d in
  match findIndex (has_id recordingId) recordings with
  | None => (false, d)
  | Some index =>
      (true,
       writeRecordings
         (update_at index (fun r => Recording.spread r updates) recordings) d)
  end.

Definition deleteRecording (recordingId : string) (d : Fs.t) : bool * Fs.t :=
  let recordings := readRecordings d in
  let filtered := filter (fun r => negb (has_id recordingId r)) recordings in
  if Nat.eqb (List.length filtered) (List.length recordings) then (false, d)
  else (true, writeRecordings filtered d).

Definition getRecordingsByUserId (userId : string) (d : Fs.t) : list Recording.t :=
  filter (fun r => String.eqb (Recording.userId r) userId) (readRecordings d).

Definition getRecordingFilePath (filename : string) : Fs.path :=
  Fs.recording_file filename.

(** ** storage/deletionQueue.ts

    [Host] is the state of the REST side: the clock, the disk and the
    fields of the [deletionQueue] singleton; [interval] tells whether the
    timer is set.  [processQueue] awaits nothing but its own
    [deleteRecordingFiles], which awaits nothing: it runs as one step. *)

Record DeletionTask : Type := mkDeletionTask {
  task_recordingId : string;
  scheduledAt : Z }.

Record Host : Type := mkHost {
  time : Z;
  disk : Fs.t;
  queue : list DeletionTask;
  processing : bool;
  interval : bool }.

Definition set_disk (d : Fs.t) (h : Host) : Host :=
  mkHost (time h) d (queue h) (processing h) (interval h).

Definition set_queue (q : list DeletionTask) (h : Host) : Host :=
  mkHost (time h) (disk h) q (processing h) (interval h).

Definition set_processing (b : bool) (h : Host) : Host :=
  mkHost (time h) (disk h) (queue h) b (interval h).

Definition set_interval (b : bool) (h : Host) : Host :=
  mkHost (time h) (disk h) (queue h) (processing h) b.

Definition set_time (now : Z) (h : Host) : Host :=
  mkHost now (disk h) (queue h) (processing h) (interval h).

Module DeletionQueue.

Definition enqueue (recordingId : string) (h : Host) : Host :=
  set_queue (queue h ++ [mkDeletionTask recordingId (time h)]) h.

Definition deleteRecordingFiles (recordingId : string) (h : Host) : Host :=
  match findRecordingById recordingId (disk h) with
  | None => h
  | Some recording =>
      let filePath := getRecordingFilePath (Recording.filename recording) in
      let unlinked :=
        if Fs.existsSync filePath (disk h) then Fs.unlinkSync filePath (disk h)
        else (Normal tt, disk h) in
      match unlinked with
      | (Normal _, d1) => set_disk (snd (deleteRecording recordingId d1)) h
      | (Throw _, d1) =>
          set_queue (queue h ++ [mkDeletionTask recordingId (time h)]) (set_disk d1 h)
      end
  end.

(** [for (const task of tasks) { await this.deleteRecordingFiles(task.recordingId); }] *)
Definition for_each_task (tasks : list DeletionTask) (h : Host) : Host :=
  fold_left (fun h' task => deleteRecordingFiles (task_recordingId task) h') tasks h.

Definition processQueue (h : Host) : Host :=
  if processing h || Nat.eqb (List.length (queue h)) 0 then h
  else
    let h1 := set_processing true h in
    let tasksToProcess := queue h1 in
    let h2 := set_queue [] h1 in
    let h3 := for_each_task tasksToProcess h2 in
    set_processing false h3.

Definition start (h : Host) : Host :=
  if interval h then h
  else set_interval true (processQueue h).

Definition stop (h : Host) : Host :=
  if interval h then set_interval false h else h.

(** The callback of [setInterval]; it exists while the timer is set. *)
Definition interval_elapsed (h : Host) : Host :=
  if interval h then processQueue h else h.

Definition getQueueSize (h : Host) : nat := List.length (queue h).

End DeletionQueue.

(** ** routes/users.ts and routes/recordings.ts *)

Inductive Body : Type :=
| error_body (error : string)
| user_body (userId username : string)
| users_body (users : list User.t)
| recordings_body (recordings : list Recording.t)
| recording_body (recording : Recording.t) (videoUrl : string)
| file_body (filePath : Fs.path)
| updated_body
| deleted_body
| uploaded_body (recordingId : string).

Record Response : Type := mkResponse {
  status : Z;
  body : Body }.

Definition ok (b : Body) : Response := mkResponse 200 b.

(** [router.post('/register')]; [uuid] is the value of [randomUUID()]. *)
Definition post_register (username : option string) (uuid : string) (h : Host)
  : Response * Host :=
  if negb (truthy username) then (mkResponse 400 (error_body "Username is required"), h)
  else
    let username := match username with Some s => s | None => "" end in
    match findUserByUsername username (disk h) with
    | Some existingUser =>
        (ok (user_body (User.userId existingUser) (User.username existingUser)), h)
    | None =>
        let newUser := User.mk uuid username (time h) in
        (ok (user_body (User.userId newUser) (User.username newUser)),
         set_disk (addUser newUser (disk h)) h)
    end.

(** [router.get('/')] of users.ts *)
Definition get_users (h : Host) : Response * Host :=
  (ok (users_body (readUsers (disk h))), h).

(** The text fields of the form of an upload. *)
Record UploadForm : Type := mkUploadForm {
  form_userId : option string;
  form_meetingId : option string;
  form_username : option string;
  form_title : option string;
  form_duration : option string;
  form_recordingType : option string }.

(** [validRecordingTypes.includes(recordingType) ? recordingType : 'both'] *)
Definition recording_type (recordingType : option string) : Recording.type :=
  match recordingType with
  | Some s =>
      if String.eqb s "audio" then Recording.audio
      else if String.eqb s "video" then Recording.video
      else Recording.both
  | None => Recording.both
  end.

(** [parseInt(duration) || 0]; [parseInt(undefined)] is [NaN]. *)
Definition duration_of (duration : option string) : Z :=
  match duration with
  | None => 0
  | Some s =>
      match Js.parseInt s with
      | NaN => 0
      | Num q => Qnum q / Z.pos (Qden q)
      end
  end.

(** [router.post('/', upload.single('file'), ...)]: the handler.
    [file] is [req.file.filename], absent when the form had no file;
    [localeString] is the value of [new Date().toLocaleString()]. *)
Definition post_recording (file : option string) (form : UploadForm)
  (localeString : string) (h : Host) : Response * Host :=
  match file with
  | None => (mkResponse 400 (error_body "No file uploaded"), h)
  | Some filename =>
      if negb (truthy (form_userId form)) || negb (truthy (form_meetingId form))
         || negb (truthy (form_username form))
      then (mkResponse 400 (error_body "Missing required fields"), h)
      else
        let text (v : option string) := match v with Some s => s | None => "" end in
        let recording :=
          Recording.mk (parse_name filename)
                       (text (form_userId form))
                       (text (form_meetingId form))
                       (text (form_username form))
                       (if truthy (form_title form) then text (form_title form)
                        else "Recording - " ++ localeString)
                       filename
                       (duration_of (form_duration form))
                       (time h)
                       (Some (recording_type (form_recordingType form))) in
        (ok (uploaded_body (Recording.recordingId recording)),
         set_disk (addRecording recording (disk h)) h)
  end.

(** [router.get('/')] of recordings.ts *)
Definition get_recordings (userId : option string) (h : Host) : Response * Host :=
  if negb (truthy userId)
  then (mkResponse 400 (error_body "userId query parameter is required"), h)
  else
    let userId := match userId with Some s => s | None => "" end in
    (ok (recordings_body (getRecordingsByUserId userId (disk h))), h).

(** [router.get('/:id')] *)
Definition get_recording (id : string) (h : Host) : Response * Host :=
  match findRecordingById id (disk h) with
  | None => (mkResponse 404 (error_body "Recording not found"), h)
  | Some recording =>
      (ok (recording_body recording ("/api/recordings/" ++ id ++ "/video")), h)
  end.

(** [router.get('/:id/video')] *)
Definition get_recording_video (id : string) (h : Host) : Response * Host :=
  match findRecordingById id (disk h) with
  | None => (mkResponse 404 (error_body "Recording not found"), h)
  | Some recording =>
      (ok (file_body (getRecordingFilePath (Recording.filename recording))), h)
  end.

(** [userId && recording.userId !== userId] *)
Definition not_owner (userId : option string) (recording : Recording.t) : bool :=
  match userId with
  | Some u => truthy userId && negb (String.eqb (Recording.userId recording) u)
  | None => false
  end.

(** [router.put('/:id')] *)
Definition put_recording (id : string) (title userId : option string) (h : Host)
  : Response * Host :=
  if negb (truthy title) then (mkResponse 400 (error_body "Title is required"), h)
  else
    let title := match title with Some s => s | None => "" end in
    match findRecordingById id (disk h) with
    | None => (mkResponse 404 (error_body "Recording not found"), h)
    | Some recording =>
        if not_owner userId recording
        then (mkResponse 403 (error_body "Not authorized to update this recording"), h)
        else
          let (success, d') := updateRecording id (Recording.only_title title) (disk h) in
          if success then (ok updated_body, set_disk d' h)
          else (mkResponse 500 (error_body "Failed to update recording"), set_disk d' h)
    end.

(** [router.delete('/:id')] *)
Definition delete_recording (id : string) (userId : option string) (h : Host)
  : Response * Host :=
  match findRecordingById id (disk h) with
  | None => (mkResponse 404 (error_body "Recording not found"), h)
  | Some recording =>
      if not_owner userId recording
      then (mkResponse 403 (error_body "Not authorized to delete this recording"), h)
      else (ok deleted_body, DeletionQueue.enqueue id h)
  end.

(** What happens to the REST side: a request; multer stores the file
    of an upload; the deletion queue is started or stopped; its timer
    fires; time passes; the system changes the paths it refuses; a file
    is spoilt or removed from outside. *)
Inductive Call : Type :=
| POST_register (username : option string) (uuid : string)
| GET_users
| GET_recordings (userId : option string)
| GET_recording (id : string)
| GET_recording_video (id : string)
| PUT_recording (id : string) (title userId : option string)
| DELETE_recording (id : string) (userId : option string)
| POST_recording (file : option string) (form : UploadForm) (localeString : string)
| multer_stores (filename : string)
| queue_start
| queue_stop
| timer_fires
| time_passes (now : Z)
| permissions_change (paths : list Fs.path)
| file_damaged (p : Fs.path)
| file_removed (p : Fs.path).

Definition serve (h : Host) (c : Call) : Host :=
  match c with
  | POST_register username uuid => snd (post_register username uuid h)
  | GET_users => snd (get_users h)
  | GET_recordings userId => snd (get_recordings userId h)
  | GET_recording id => snd (get_recording id h)
  | GET_recording_video id => snd (get_recording_video id h)
  | PUT_recording id title userId => snd (put_recording id title userId h)
  | DELETE_recording id userId => snd (delete_recording id userId h)
  | POST_recording file form localeString =>
      snd (post_recording file form localeString h)
  | multer_stores filename => set_disk (Fs.store filename (disk h)) h
  | queue_start => DeletionQueue.start h
  | queue_stop => DeletionQueue.stop h
  | timer_fires => DeletionQueue.interval_elapsed h
  | time_passes now => set_time now h
  | permissions_change paths => set_disk (Fs.set_denied paths (disk h)) h
  | file_damaged p => set_disk (Fs.damage p (disk h)) h
  | file_removed p => set_disk (Fs.remove p (disk h)) h
  end.

(** [c] is no change from outside to the users file. *)
Definition spares_users (c : Call) : bool :=
  match c with
  | file_damaged Fs.USERS_FILE => false
  | file_removed Fs.USERS_FILE => false
  | _ => true
  end.

Definition serve_all (calls : list Call) (h : Host) : Host := fold_left serve calls h.

(** What the recordings' side leaves alone on the disk: the users file
    and the refused paths; files of recordings are removed, never
    created. *)
Definition narrows (d d' : Fs.t) : Prop :=
  Fs.users_json d' = Fs.users_json d
  /\ Fs.denied d' = Fs.denied d
  /\ incl (Fs.recordings_dir d') (Fs.recordings_dir d).

(** ** Concrete data of the REST side *)

Definition alice_user : User.t := User.mk "u1" "Alice" t0.

Definition standup : Recording.t :=
  Recording.mk "r1" "u1" fresh_id "Alice" "Standup" "u1-rec-r1.webm" 60 t0
               (Some Recording.both).

Definition demo : Recording.t :=
  Recording.mk "r2" "u2" fresh_id "Bob" "Demo" "u2-rec-r2.webm" 90 t0
               (Some Recording.video).

Definition sample_disk : Fs.t :=
  Fs.mk (Fs.Json [alice_user]) (Fs.Json [standup; demo])
        ["u1-rec-r1.webm"; "u2-rec-r2.webm"] [].

(** The deletion queue is running and empty. *)
Definition sample_host : Host := mkHost t0 sample_disk [] false true.

(** Both recordings are queued for deletion; the system refuses to
    remove the file of the first. *)
Definition locked_host : Host :=
  mkHost t0 (Fs.set_denied [Fs.recording_file "u1-rec-r1.webm"] sample_disk)
         [mkDeletionTask "r1" t0; mkDeletionTask "r2" t0] false true.

(** ** The handlers at the grain of their [await]s

    An [async] function runs without interruption up to an [await] and
    from an [await] on; while it waits, other handlers run.  The
    definitions above give each function and handler as it runs when
    nothing else happens during its [await]s.  Here every function that
    awaits the engine is cut at the [await]: [_begin] is the part that
    calls the engine, [_resume] the part that runs once the promise has
    settled, in the state of that later moment. *)

(** The call of an asynchronous operation of the engine: the call is
    recorded, the engine moves on, and the outcome with which the
    promise will settle is kept for later. *)
Definition engine_call {E A : Type} (call : FacadeCall) (op : E -> completion A * E)
  : M E (completion A) :=
  fun w =>
    let '(outcome, e') := op (engine w) in
    (Normal outcome,
     mkWorld (clock w) (rooms w) e' (trace w ++ [call])
             (sockets w) (adapter w) (delivered w)).

(** [await promise], run when the promise has settled with [outcome]. *)
Definition await {E A : Type} (outcome : completion A) : M E A :=
  fun w => (outcome, w).

Section Segments.

Context {E : Type} {media : MediaEngine E}.

(** [createRoom] up to [await worker.createRouter(...)]: the room that
    exists, or the outcome of the call. *)
Definition createRoom_begin (roomId : string) : M E (Room.t + completion Router.t) :=
  rs <- gets rooms ;;
  match JsMap.get rs roomId with
  | Some room => ret (inl room)
  | None =>
      outcome <- engine_call CreateRouter worker_createRouter ;;
      ret (inr outcome)
  end.

(** [createRoom] from its [await] on.  There is no second test of
    [rooms.has(roomId)]. *)
Definition createRoom_resume (roomId : string) (outcome : completion Router.t)
  : M E Room.t :=
  router <- await outcome ;;
  now <- gets clock ;;
  let room := Room.mk roomId router JsMap.empty now in
  modify (fun w => set_rooms (JsMap.set (rooms w) roomId room) w) ;;
  ret room.

(** After an [await], [peer.transports.set(...)] and its like write to
    the peer object that the function has held since before the
    [await].  [attached] tells whether that object is still the one
    stored in the room; when it is not, the registry does not change. *)
Definition write_peer (attached : bool) (roomId peerId : string) (f : Peer.t -> Peer.t)
  : M E unit :=
  if attached then update_peer roomId peerId f else ret tt.

Definition createWebRtcTransport_begin (roomId peerId : string)
  : M E (completion Transport.t) :=
  rs <- gets rooms ;;
  match JsMap.get rs roomId with
  | None => throw ("Room " ++ roomId ++ " not found")
  | Some room =>
      match JsMap.get (Room.peers room) peerId with
      | None => throw ("Peer " ++ peerId ++ " not found in room " ++ roomId)
      | Some peer =>
          engine_call (CreateWebRtcTransport (Router.id (Room.router room)))
                      (router_createWebRtcTransport (Room.router room))
      end
  end.

Definition createWebRtcTransport_resume (roomId peerId : string) (attached : bool)
  (outcome : completion Transport.t) : M E TransportParams :=
  transport <- await outcome ;;
  write_peer attached roomId peerId (fun p =>
    Peer.with_transports p
      (JsMap.set (Peer.transports p) (Transport.id transport) transport)) ;;
  ret (mkTransportParams (Transport.id transport)
                         (Transport.iceParameters transport)
                         (Transport.iceCandidates transport)
                         (Transport.dtlsParameters transport)).

Definition connectTransport_begin (roomId peerId transportId dtlsParameters : string)
  : M E (completion unit) :=
  found <- getPeer roomId peerId ;;
  match found with
  | None => throw ("Peer " ++ peerId ++ " not found")
  | Some peer =>
      match JsMap.get (Peer.transports peer) transportId with
      | None => throw ("Transport " ++ transportId ++ " not found")
      | Some transport =>
          engine_call (Connect (Transport.id transport) dtlsParameters)
                      (transport_connect transport dtlsParameters)
      end
  end.

Definition connectTransport_resume (outcome : completion unit) : M E unit :=
  await outcome.

Definition produce_begin (roomId peerId transportId kind rtpParameters : string)
  : M E (completion Producer.t) :=
  found <- getPeer roomId peerId ;;
  match found with
  | None => throw ("Peer " ++ peerId ++ " not found")
  | Some peer =>
      match JsMap.get (Peer.transports peer) transportId with
      | None => throw ("Transport " ++ transportId ++ " not found")
      | Some transport =>
          engine_call (Produce (Transport.id transport) kind rtpParameters)
                      (transport_produce transport kind rtpParameters)
      end
  end.

Definition produce_resume (roomId peerId : string) (attached : bool)
  (outcome : completion Producer.t) : M E string :=
  producer <- await outcome ;;
  write_peer attached roomId peerId (fun p =>
    Peer.with_producers p
      (JsMap.set (Peer.producers p) (Producer.id producer) producer)) ;;
  ret (Producer.id producer).

Definition consume_begin (roomId peerId transportId producerId rtpCapabilities : string)
  : M E (completion Consumer.t) :=
  rs <- gets rooms ;;
  match JsMap.get rs roomId with
  | None => throw ("Room " ++ roomId ++ " not found")
  | Some room =>
      found <- getPeer roomId peerId ;;
      match found with
      | None => throw ("Peer " ++ peerId ++ " not found")
      | Some peer =>
          match JsMap.get (Peer.transports peer) transportId with
          | None => throw ("Transport " ++ transportId ++ " not found")
          | Some transport =>
              ok <- facade (CanConsume (Router.id (Room.router room))
                                       producerId rtpCapabilities)
                           (fun e => (Normal (router_canConsume (Room.router room)
                                                producerId rtpCapabilities e), e)) ;;
              if negb ok then throw "Cannot consume"
              else
                engine_call (Consume (Transport.id transport) producerId rtpCapabilities)
                            (transport_consume transport producerId rtpCapabilities)
          end
      end
  end.

Definition consume_resume (roomId peerId producerId : string) (attached : bool)
  (outcome : completion Consumer.t) : M E ConsumerParams :=
  consumer <- await outcome ;;
  write_peer attached roomId peerId (fun p =>
    Peer.with_consumers p
      (JsMap.set (Peer.consumers p) (Consumer.id consumer) consumer)) ;;
  ret (mkConsumerParams (Consumer.id consumer) producerId
                        (Consumer.kind consumer)
                        (Consumer.rtpParameters consumer)).

(** The [joinRoom] handler from [addPeer] to its reply. *)
Definition joinRoom_tail (sid roomId userId username : string) : M E Reply :=
  addPeer roomId sid userId username ;;
  socket_join sid roomId ;;
  modify (fun w =>
    set_sockets (JsMap.set (sockets w) sid
                   (mkSocketData (Some roomId) (Some userId) (Some username)))
                w) ;;
  rs <- gets rooms ;;
  let peers := filter (fun p => negb (String.eqb (pi_peerId p) sid))
                      (getRoomPeers rs roomId) in
  socket_to_emit sid roomId (newPeer sid userId username) ;;
  ret (ReplyJoined peers).

End Segments.

(** A handler that waits.  The first group waits for the engine, inside
    a function of room.ts; the second has that function behind it and
    waits to go on in server.ts; [callback_pending] has nothing left to
    do but to call the acknowledgement. *)
Inductive Suspended : Type :=
| createRoom_in_createRoom (sid roomId : string) (outcome : completion Router.t)
| createRoom_in_joinRoom (sid roomId userId username : string)
    (outcome : completion Router.t)
| createWebRtcTransport_pending (sid roomId : string) (outcome : completion Transport.t)
| connectTransport_pending (sid : string) (outcome : completion unit)
| produce_pending (sid roomId kind : string) (outcome : completion Producer.t)
| consume_pending (sid roomId producerId : string) (outcome : completion Consumer.t)
| joinRoom_after_createRoom (sid roomId userId username : string)
    (result : completion unit)
| on_produce_after_produce (sid roomId kind : string) (result : completion string)
| callback_pending (sid : string) (reply : Reply).

(** How a stretch of a handler ends: it waits again, it has called the
    acknowledgement, or it has none to call. *)
Inductive Next : Type :=
| suspends (item : Suspended)
| answers (sid : string) (reply : Reply)
| ends.

Section Stretches.

Context {E : Type} {media : MediaEngine E}.

(** [callback(reply)] after an awaited function returned, or
    [callback({ error: failure })] from the [catch] after it threw. *)
Definition then_callback {A : Type} (sid : string) (reply : A -> Reply) (failure : string)
  (run : completion A * World E) : Next * World E :=
  match run with
  | (Normal a, w') => (suspends (callback_pending sid (reply a)), w')
  | (Throw _, w') => (suspends (callback_pending sid (ReplyError failure)), w')
  end.

(** A handler from the arrival of its request to its first [await], or
    to its end when it awaits nothing. *)
Definition arrive (sid : string) (request : Request) (w : World E) : Next * World E :=
  match request with
  | createRoom_request randomBytes =>
      let roomId := generateMeetingId randomBytes (clock w) in
      match createRoom_begin roomId w with
      | (Normal (inl _), w') => (suspends (callback_pending sid (ReplyRoomId roomId)), w')
      | (Normal (inr outcome), w') =>
          (suspends (createRoom_in_createRoom sid roomId outcome), w')
      | (Throw _, w') =>
          (suspends (callback_pending sid (ReplyError "Failed to create room")), w')
      end
  | joinRoom_request data =>
      if negb (truthy (jd_roomId data)) || negb (truthy (jd_userId data))
         || negb (truthy (jd_username data))
      then (answers sid (ReplyError "Missing required fields"), w)
      else
        match jd_roomId data, jd_userId data, jd_username data with
        | Some roomId, Some userId, Some username =>
            if isMeetingExpired (clock w) roomId
            then (answers sid (ReplyError "Meeting link has expired (24h limit)"), w)
            else
              match JsMap.get (rooms w) roomId with
              | Some _ =>
                  let '(reply, w') :=
                    try_handler (joinRoom_tail sid roomId userId username)
                                "Failed to join room" w in
                  (answers sid reply, w')
              | None =>
                  match createRoom_begin roomId w with
                  | (Normal (inl _), w') =>
                      (suspends (joinRoom_after_createRoom sid roomId userId username
                                   (Normal tt)), w')
                  | (Normal (inr outcome), w') =>
                      (suspends (createRoom_in_joinRoom sid roomId userId username
                                   outcome), w')
                  | (Throw e, w') =>
                      (suspends (joinRoom_after_createRoom sid roomId userId username
                                   (Throw e)), w')
                  end
              end
        | _, _, _ => (answers sid (ReplyError "Missing required fields"), w)
        end
  | getRouterRtpCapabilities_request roomId =>
      let '(reply, w') := on_getRouterRtpCapabilities roomId w in
      (answers sid reply, w')
  | createWebRtcTransport_request roomId =>
      match createWebRtcTransport_begin roomId sid w with
      | (Normal outcome, w') =>
          (suspends (createWebRtcTransport_pending sid roomId outcome), w')
      | (Throw _, w') =>
          (suspends (callback_pending sid (ReplyError "Failed to create transport")), w')
      end
  | connectTransport_request roomId transportId dtlsParameters =>
      match connectTransport_begin roomId sid transportId dtlsParameters w with
      | (Normal outcome, w') => (suspends (connectTransport_pending sid outcome), w')
      | (Throw _, w') =>
          (suspends (callback_pending sid (ReplyError "Failed to connect transport")), w')
      end
  | produce_request roomId transportId kind rtpParameters =>
      match produce_begin roomId sid transportId kind rtpParameters w with
      | (Normal outcome, w') => (suspends (produce_pending sid roomId kind outcome), w')
      | (Throw e, w') => (suspends (on_produce_after_produce sid roomId kind (Throw e)), w')
      end
  | consume_request roomId transportId producerId rtpCapabilities =>
      match consume_begin roomId sid transportId producerId rtpCapabilities w with
      | (Normal outcome, w') =>
          (suspends (consume_pending sid roomId producerId outcome), w')
      | (Throw _, w') =>
          (suspends (callback_pending sid (ReplyError "Failed to consume")), w')
      end
  | getProducers_request roomId =>
      let '(reply, w') := on_getProducers sid roomId w in
      (answers sid reply, w')
  | leaveRoom_request => (ends, on_leaveRoom sid w)
  | disconnect_request => (ends, on_disconnect sid w)
  end.

(** A waiting handler goes on: the promise it awaits has settled. *)
Definition settle (item : Suspended) (attached : bool) (w : World E) : Next * World E :=
  match item with
  | createRoom_in_createRoom sid roomId outcome =>
      then_callback sid (fun _ => ReplyRoomId roomId) "Failed to create room"
                    (createRoom_resume roomId outcome w)
  | createRoom_in_joinRoom sid roomId userId username outcome =>
      match createRoom_resume roomId outcome w with
      | (Normal _, w') =>
          (suspends (joinRoom_after_createRoom sid roomId userId username (Normal tt)), w')
      | (Throw e, w') =>
          (suspends (joinRoom_after_createRoom sid roomId userId username (Throw e)), w')
      end
  | createWebRtcTransport_pending sid roomId outcome =>
      then_callback sid ReplyTransport "Failed to create transport"
                    (createWebRtcTransport_resume roomId sid attached outcome w)
  | connectTransport_pending sid outcome =>
      then_callback sid (fun _ => ReplySuccess) "Failed to connect transport"
                    (connectTransport_resume outcome w)
  | produce_pending sid roomId kind outcome =>
      match produce_resume roomId sid attached outcome w with
      | (Normal producerId, w') =>
          (suspends (on_produce_after_produce sid roomId kind (Normal producerId)), w')
      | (Throw e, w') =>
          (suspends (on_produce_after_produce sid roomId kind (Throw e)), w')
      end
  | consume_pending sid roomId producerId outcome =>
      then_callback sid ReplyConsumer "Failed to consume"
                    (consume_resume roomId sid producerId attached outcome w)
  | joinRoom_after_createRoom sid roomId userId username result =>
      let '(reply, w') :=
        try_handler (await result ;; joinRoom_tail sid roomId userId username)
                    "Failed to join room" w in
      (answers sid reply, w')
  | on_produce_after_produce sid roomId kind result =>
      let '(reply, w') :=
        try_handler
          (producerId <- await result ;;
           socket_to_emit sid roomId (newProducer sid producerId kind) ;;
           ret (ReplyProducerId producerId))
          "Failed to produce" w in
      (answers sid reply, w')
  | callback_pending sid reply => (answers sid reply, w)
  end.

End Stretches.

(** ** The server as a transition system, one stretch at a time *)

(** The process: the state, the handlers that wait, in the order in
    which they began to wait, and the acknowledgements sent. *)
Record Loop (E : Type) : Type := mkLoop {
  world : World E;
  waiting : list Suspended;
  answered : list (string * Reply) }.
Arguments mkLoop {E}.
Arguments world {E}.
Arguments waiting {E}.
Arguments answered {E}.

(** What happens next: a request arrives; the promise that the [k]-th
    waiting handler awaits settles; the clock moves; the engine changes
    on its own.  Any waiting handler may go on at any time, with
    [attached] either way: the process itself has fewer orders – a
    handler whose awaited function has returned goes on before the next
    request is read –, so that what holds for every sequence of turns
    holds for every run of the process. *)
Inductive Turn (E : Type) : Type :=
| request_arrives (sid : string) (request : Request)
| promise_settles (k : nat) (attached : bool)
| clock_advances (now : Z)
| engine_shifts (e : E).
Arguments request_arrives {E} sid request.
Arguments promise_settles {E} k attached.
Arguments clock_advances {E} now.
Arguments engine_shifts {E} e.

(** The [k]-th element of a list and the list without it. *)
Fixpoint pick {A : Type} (k : nat) (l : list A) : option (A * list A) :=
  match l, k with
  | [], _ => None
  | x :: r, O => Some (x, r)
  | x :: r, S k' =>
      match pick k' r with
      | Some (y, r') => Some (y, x :: r')
      | None => None
      end
  end.

Definition proceed {E : Type} (others : list Suspended) (sent : list (string * Reply))
  (stretch : Next * World E) : Loop E :=
  match stretch with
  | (suspends item, w) => mkLoop w (others ++ [item]) sent
  | (answers sid reply, w) => mkLoop w others (sent ++ [(sid, reply)])
  | (ends, w) => mkLoop w others sent
  end.

Section Turns.

Context {E : Type} {media : MediaEngine E}.

Definition turn (l : Loop E) (t : Turn E) : Loop E :=
  match t with
  | request_arrives sid request =>
      proceed (waiting l) (answered l) (arrive sid request (world l))
  | promise_settles k attached =>
      match pick k (waiting l) with
      | Some (item, others) =>
          proceed others (answered l) (settle item attached (world l))
      | None => l
      end
  | clock_advances now => mkLoop (set_clock now (world l)) (waiting l) (answered l)
  | engine_shifts e => mkLoop (set_engine e (world l)) (waiting l) (answered l)
  end.

Definition turns (ts : list (Turn E)) (l : Loop E) : Loop E := fold_left turn ts l.

(** The process after start-up: nothing registered, nobody waiting. *)
Definition started (now : Z) (e : E) : Loop E := mkLoop (initial now e) [] [].

(** A handler runs without anything in between: after each stretch the
    promise it awaits settles at once. *)
Fixpoint straight (hops : nat) (stretch : Next * World E)
  : option (string * Reply) * World E :=
  match stretch, hops with
  | (suspends item, w), S n => straight n (settle item true w)
  | (suspends _, w), O => (None, w)
  | (answers sid reply, w), _ => (Some (sid, reply), w)
  | (ends, w), _ => (None, w)
  end.

End Turns.

(** [item] is a [createRoom] that waits for the router of [roomId]. *)
Definition creates (roomId : string) (item : Suspended) : bool :=
  match item with
  | createRoom_in_createRoom _ r _ => String.eqb r roomId
  | createRoom_in_joinRoom _ r _ _ _ => String.eqb r roomId
  | _ => false
  end.

(** ** What overlapping handlers keep *)

(** What holds of the process whatever overlaps: the registry is well
    formed, no connection is twice in a Socket.IO room, and no event
    went to the connection it speaks about. *)
Definition sound {E : Type} (w : World E) : Prop :=
  wf_rooms (rooms w)
  /\ (forall r, NoDup (members w r))
  /\ Forall (fun d => subject (snd d) <> fst d) (delivered w).

(** A change that keeps the registry well formed and leaves the
    Socket.IO rooms and the events alone. *)
Definition calm {E : Type} (w w' : World E) : Prop :=
  (wf_rooms (rooms w) -> wf_rooms (rooms w'))
  /\ adapter w' = adapter w
  /\ delivered w' = delivered w.

(** ** Two connections open the same link *)

Definition alice_asks : Request :=
  joinRoom_request (mkJoinData (Some fresh_id) (Some "u1") (Some "Alice")).

Definition bob_asks : Request :=
  joinRoom_request (mkJoinData (Some fresh_id) (Some "u2") (Some "Bob")).

(** B's request arrives while A's waits for the router.  A's router is
    delivered and A's handler runs to its end; then B's router is
    delivered and B's handler runs to its end. *)
Definition overlapping_joins : list (Turn Sim) :=
  [request_arrives "A" alice_asks;
   request_arrives "B" bob_asks;
   promise_settles 0 true; promise_settles 1 true;
   promise_settles 0 true; promise_settles 0 true].

(** The same two requests, B's after A's handler has ended. *)
Definition one_after_the_other : list (Turn Sim) :=
  [request_arrives "A" alice_asks;
   promise_settles 0 true; promise_settles 0 true;
   request_arrives "B" bob_asks].

(** * Properties *)

(** ** Sanity checks of the JavaScript primitives *)

Example generate_example :
  generateMeetingId [x00; x1f; xa0; xff; x12; x34; x56; x78]%byte 1700000000000
  = "001fa0ff12345678-1700000000000".
Proof. reflexivity. Qed.

Example parseInt_examples :
  Js.parseInt "1700000000000" = of_Z 1700000000000
  /\ Js.parseInt "12abc" = of_Z 12
  /\ Js.parseInt "  +42" = of_Z 42
  /\ Js.parseInt "0x1F" = of_Z 31
  /\ Js.parseInt "0x" = NaN
  /\ Js.parseInt "abc" = NaN
  /\ Js.parseInt "" = NaN.
Proof. repeat split; reflexivity. Qed.

Example split_examples :
  Js.split "-" "ab-cd--e" = ["ab"; "cd"; ""; "e"]
  /\ Js.split "-" "" = [""]
  /\ Js.split "-" "abc" = ["abc"].
Proof. repeat split; reflexivity. Qed.

(** ** Strings: splitting and the trailing segment *)

Lemma split_not_nil (sep : ascii) (s : string) : Js.split sep s <> [].
Proof.
  destruct s as [|c r]; simpl; [discriminate|].
  destruct (Ascii.eqb c sep); [discriminate|].
  destruct (Js.split sep r); discriminate.
Qed.

Lemma split_app (sep : ascii) (a b : string) :
  Js.split sep (a ++ String sep b) = (Js.split sep a ++ Js.split sep b)%list.
Proof.
  induction a as [|c a IH]; simpl.
  - now rewrite Ascii.eqb_refl.
  - destruct (Ascii.eqb c sep); rewrite IH; [reflexivity|].
    pose proof (split_not_nil sep a) as Hne.
    destruct (Js.split sep a); [contradiction|reflexivity].
Qed.

Lemma split_free (sep : ascii) (s : string) :
  free_of sep s = true -> Js.split sep s = [s].
Proof.
  induction s as [|c r IH]; simpl; [reflexivity|].
  intros H. apply andb_true_iff in H as [Hc Hr].
  apply negb_true_iff in Hc. rewrite Hc, (IH Hr). reflexivity.
Qed.

Lemma index_last (l : list string) :
  Js.index l (Js.length l - 1) = last l "undefined".
Proof.
  unfold Js.index, Js.length.
  destruct l as [|x l]; [reflexivity|].
  replace (Z.of_nat (List.length (x :: l)) - 1 <? 0)%Z with false
    by (symmetry; apply Z.ltb_ge; simpl List.length; lia).
  replace (Z.to_nat (Z.of_nat (List.length (x :: l)) - 1)) with (List.length l)
    by (simpl List.length; lia).
  revert x. induction l as [|y l IH]; intros x; [reflexivity|].
  change (nth (List.length l) (y :: l) "undefined" = last (y :: l) "undefined").
  apply IH.
Qed.

Lemma last_app_r {A : Type} (l1 l2 : list A) (d : A) :
  l2 <> [] -> last (l1 ++ l2) d = last l2 d.
Proof.
  intros Hne. induction l1 as [|x l1 IH]; [reflexivity|].
  simpl. rewrite IH. destruct (l1 ++ l2)%list eqn:Heq; [|reflexivity].
  apply app_eq_nil in Heq as [_ ->]. contradiction.
Qed.

Lemma trailing_segment_app (a b : string) :
  trailing_segment (a ++ String "-" b) = trailing_segment b.
Proof.
  unfold trailing_segment. cbv zeta.
  rewrite !index_last, split_app.
  apply last_app_r, split_not_nil.
Qed.

Lemma trailing_segment_free (s : string) :
  free_of "-" s = true -> trailing_segment s = s.
Proof.
  intros H. unfold trailing_segment. cbv zeta.
  rewrite index_last, (split_free _ _ H). reflexivity.
Qed.


(** ** Numbers: printing in decimal and reading back *)

Lemma digit_value_digit_char (d : Z) :
  is_digit d -> Js.digit_value 10 (Js.digit_char d) = Some d.
Proof. intros Hd. digit_cases d; reflexivity. Qed.

Lemma digits_prefix_app (ds : list Z) (rest : string) :
  Forall is_digit ds ->
  Js.digits_prefix 10 (Js.string_of_digits ds ++ rest)
  = (ds ++ Js.digits_prefix 10 rest)%list.
Proof.
  induction 1 as [|d ds Hd _ IH]; simpl; [reflexivity|].
  now rewrite (digit_value_digit_char d Hd), IH.
Qed.

Lemma string_app_empty (s : string) : (s ++ "")%string = s.
Proof. induction s as [|c s IH]; simpl; [reflexivity|now rewrite IH]. Qed.

Lemma digits_prefix_string_of_digits (ds : list Z) :
  Forall is_digit ds -> Js.digits_prefix 10 (Js.string_of_digits ds) = ds.
Proof.
  intros Hall. rewrite <- (string_app_empty (Js.string_of_digits ds)).
  rewrite (digits_prefix_app ds "" Hall). apply app_nil_r.
Qed.

Lemma is_decimal_digit_char (d : Z) :
  is_digit d -> is_decimal (Js.digit_char d) = true.
Proof. intros Hd. digit_cases d; reflexivity. Qed.

Lemma free_of_string_of_digits (ds : list Z) :
  Forall is_digit ds -> free_of "-" (Js.string_of_digits ds) = true.
Proof.
  induction 1 as [|d ds Hd _ IH]; simpl; [reflexivity|].
  rewrite IH, andb_true_r. digit_cases d; reflexivity.
Qed.

Lemma parseInt_unfold_digit (d : Z) (rest : string) :
  is_digit d ->
  (d = 0 -> no_hex_mark rest = true) ->
  Js.parseInt (String (Js.digit_char d) rest)
  = match Js.digits_prefix 10 (String (Js.digit_char d) rest) with
    | [] => NaN
    | ds => of_Z (1 * Js.radix_value 10 ds)
    end.
Proof.
  intros Hd H0. digit_cases d; try reflexivity.
  destruct rest as [|c rest]; [reflexivity|].
  specialize (H0 eq_refl).
  destruct c as [[] [] [] [] [] [] [] []]; try discriminate H0; reflexivity.
Qed.

Lemma no_hex_mark_digits (ds : list Z) (rest : string) :
  Forall is_digit ds -> no_hex_mark rest = true ->
  no_hex_mark (Js.string_of_digits ds ++ rest) = true.
Proof.
  intros Hds Hrest. destruct Hds as [|d ds Hd _]; [assumption|].
  simpl. digit_cases d; reflexivity.
Qed.

(** Digits followed by anything that is neither a digit nor, after a
    single zero, an [x]: [parseInt] reads the digits and drops the rest. *)
Lemma parseInt_digits_then (d : Z) (ds : list Z) (rest : string) :
  Forall is_digit (d :: ds) ->
  Js.digits_prefix 10 rest = [] ->
  no_hex_mark rest = true ->
  Js.parseInt (Js.string_of_digits (d :: ds) ++ rest)
  = of_Z (Js.radix_value 10 (d :: ds)).
Proof.
  intros Hall Hrest Hmark. pose proof Hall as Hall'.
  inversion Hall as [|? ? Hd Hds]; subst.
  change (Js.string_of_digits (d :: ds) ++ rest)%string
    with (String (Js.digit_char d) (Js.string_of_digits ds ++ rest)).
  rewrite parseInt_unfold_digit; trivial.
  - change (String (Js.digit_char d) (Js.string_of_digits ds ++ rest))
      with (Js.string_of_digits (d :: ds) ++ rest)%string.
    rewrite (digits_prefix_app _ rest Hall'), Hrest, app_nil_r, Z.mul_1_l.
    reflexivity.
  - intros _. now apply no_hex_mark_digits.
Qed.

Lemma parseInt_string_of_digits (d : Z) (ds : list Z) :
  Forall is_digit (d :: ds) ->
  Js.parseInt (Js.string_of_digits (d :: ds)) = of_Z (Js.radix_value 10 (d :: ds)).
Proof.
  intros Hall. rewrite <- (string_app_empty (Js.string_of_digits (d :: ds))).
  now apply parseInt_digits_then.
Qed.

Lemma log2_div10 (n : Z) : 10 <= n -> Z.log2 (n / 10) + 3 <= Z.log2 n.
Proof.
  intros Hn.
  assert (0 < n / 10) by (apply Z.div_str_pos; lia).
  change 3 with (Z.log2 10).
  etransitivity; [apply Z.log2_mul_below; lia|].
  apply Z.log2_le_mono.
  pose proof (Z.mul_div_le n 10 ltac:(lia)). lia.
Qed.

Lemma decimal_go_value (fuel : nat) : forall (n : Z) (acc : list Z),
  0 <= n -> Z.log2 n < Z.of_nat fuel ->
  Js.radix_value 10 (Js.decimal_go fuel n acc)
  = fold_left (fun a d => a * 10 + d) acc n.
Proof.
  unfold Js.radix_value.
  induction fuel as [|fuel IH]; intros n acc Hn Hlog.
  - pose proof (Z.log2_nonneg n). simpl in Hlog. lia.
  - simpl. destruct (Z.eqb_spec (n / 10) 0) as [H0|H0].
    + simpl. f_equal.
      assert (n < 10) by (apply Z.div_small_iff in H0; lia).
      rewrite Z.mod_small; lia.
    + assert (10 <= n).
      { destruct (Z_lt_le_dec n 10) as [Hlt|]; [|assumption].
        exfalso. apply H0, Z.div_small. lia. }
      rewrite IH.
      * simpl. f_equal. pose proof (Z.div_mod n 10 ltac:(lia)). lia.
      * apply Z.div_pos; lia.
      * pose proof (log2_div10 n ltac:(assumption)). lia.
Qed.

Lemma decimal_go_digits (fuel : nat) : forall (n : Z) (acc : list Z),
  Forall is_digit acc -> Forall is_digit (Js.decimal_go fuel n acc).
Proof.
  induction fuel as [|fuel IH]; intros n acc Hacc; simpl; [assumption|].
  assert (Forall is_digit (n mod 10 :: acc)).
  { constructor; [|assumption].
    pose proof (Z.mod_pos_bound n 10 ltac:(lia)). unfold is_digit. lia. }
  destruct (n / 10 =? 0)%Z; auto.
Qed.

Lemma decimal_go_not_nil (fuel : nat) : forall (n : Z) (acc : list Z),
  acc <> [] -> Js.decimal_go fuel n acc <> [].
Proof.
  induction fuel as [|fuel IH]; intros n acc Hacc; simpl; [assumption|].
  destruct (n / 10 =? 0)%Z; [discriminate|]. apply IH. discriminate.
Qed.

Lemma decimal_digits_spec (n : Z) :
  0 <= n ->
  exists d ds, Js.decimal_digits n = d :: ds
               /\ Forall is_digit (d :: ds)
               /\ Js.radix_value 10 (d :: ds) = n.
Proof.
  intros Hn. unfold Js.decimal_digits.
  set (fuel := S (Z.to_nat (Z.log2 n))).
  destruct (Js.decimal_go fuel n []) as [|d ds] eqn:Heq.
  - exfalso. revert Heq. subst fuel. simpl.
    destruct (n / 10 =? 0)%Z; [discriminate|].
    apply decimal_go_not_nil. discriminate.
  - exists d, ds. split; [reflexivity|]. rewrite <- Heq. split.
    + apply decimal_go_digits. constructor.
    + rewrite decimal_go_value; [reflexivity|assumption|].
      subst fuel. pose proof (Z.log2_nonneg n). lia.
Qed.

Lemma parseInt_toString (n : Z) : 0 <= n -> Js.parseInt (Js.toString n) = of_Z n.
Proof.
  intros Hn. unfold Js.toString.
  replace (n <? 0)%Z with false by (symmetry; apply Z.ltb_ge; assumption).
  destruct (decimal_digits_spec n Hn) as (d & ds & -> & Hall & Hval).
  now rewrite parseInt_string_of_digits, Hval.
Qed.

(** ** Comparison of ages *)

Lemma gt_minus_of_Z (a b c : Z) :
  gt (minus (of_Z a) (of_Z b)) (of_Z c) = (c <? a - b)%Z.
Proof.
  unfold gt, minus, of_Z, Qle_bool, Qminus, Qplus, Qopp, inject_Z. simpl.
  rewrite !Z.mul_1_r.
  destruct (Z.leb_spec (a + - b) c), (Z.ltb_spec c (a - b)); simpl; lia || reflexivity.
Qed.

Lemma isMeetingExpired_parsed (now t : Z) (meetingId : string) :
  Js.parseInt (trailing_segment meetingId) = of_Z t ->
  isMeetingExpired now meetingId = (24 * 60 * 60 * 1000 <? now - t)%Z.
Proof.
  intros Hparse. unfold isMeetingExpired.
  change (Js.index (Js.split "-" meetingId) (Js.length (Js.split "-" meetingId) - 1))
    with (trailing_segment meetingId).
  cbv zeta. rewrite Hparse. simpl isNaN. cbv iota.
  unfold try_catch. apply gt_minus_of_Z.
Qed.

Lemma isMeetingExpired_NaN (now : Z) (meetingId : string) :
  Js.parseInt (trailing_segment meetingId) = NaN ->
  isMeetingExpired now meetingId = true.
Proof.
  intros Hparse. unfold isMeetingExpired.
  change (Js.index (Js.split "-" meetingId) (Js.length (Js.split "-" meetingId) - 1))
    with (trailing_segment meetingId).
  cbv zeta. rewrite Hparse. reflexivity.
Qed.

Lemma getMeetingAge_NaN (now : Z) (meetingId : string) :
  Js.parseInt (trailing_segment meetingId) = NaN ->
  getMeetingAge now meetingId = NaN.
Proof.
  intros Hparse. unfold getMeetingAge.
  change (Js.index (Js.split "-" meetingId) (Js.length (Js.split "-" meetingId) - 1))
    with (trailing_segment meetingId).
  cbv zeta. rewrite Hparse. reflexivity.
Qed.

(** ** Generated identifiers *)

Lemma hex_char_high (b : byte) :
  is_lower_hex (Js.hex_char (Z.of_N (Byte.to_N b) / 16)) = true.
Proof. destruct b; reflexivity. Qed.

Lemma hex_char_low (b : byte) :
  is_lower_hex (Js.hex_char (Z.of_N (Byte.to_N b) mod 16)) = true.
Proof. destruct b; reflexivity. Qed.

Lemma toString_hex_chars (buf : list byte) :
  forallb is_lower_hex (list_ascii_of_string (Js.toString_hex buf)) = true.
Proof.
  induction buf as [|b buf IH]; [reflexivity|].
  cbn [Js.toString_hex list_ascii_of_string forallb].
  now rewrite hex_char_high, hex_char_low, IH.
Qed.

Lemma toString_hex_length (buf : list byte) :
  List.length (list_ascii_of_string (Js.toString_hex buf)) = (2 * List.length buf)%nat.
Proof.
  induction buf as [|b buf IH]; [reflexivity|].
  cbn [Js.toString_hex list_ascii_of_string List.length]. rewrite IH. lia.
Qed.

Lemma list_ascii_of_string_app (a b : string) :
  list_ascii_of_string (a ++ b)
  = (list_ascii_of_string a ++ list_ascii_of_string b)%list.
Proof. induction a as [|c a IH]; simpl; [reflexivity|now rewrite IH]. Qed.

Lemma string_of_digits_decimal (ds : list Z) :
  Forall is_digit ds ->
  forallb is_decimal (list_ascii_of_string (Js.string_of_digits ds)) = true.
Proof.
  induction 1 as [|d ds Hd _ IH]; [reflexivity|].
  cbn [Js.string_of_digits list_ascii_of_string forallb].
  now rewrite (is_decimal_digit_char d Hd), IH.
Qed.

Lemma generateMeetingId_format (randomBytes : list byte) (now : Z) :
  List.length randomBytes = 8%nat -> 0 <= now ->
  matches_meeting_id (generateMeetingId randomBytes now) = true.
Proof.
  intros Hlen Hnow. unfold matches_meeting_id, generateMeetingId. cbv zeta.
  rewrite list_ascii_of_string_app.
  pose proof (toString_hex_length randomBytes) as Hl. rewrite Hlen in Hl.
  change (2 * 8)%nat with 16%nat in Hl.
  set (hex := list_ascii_of_string (Js.toString_hex randomBytes)) in *.
  set (rest := list_ascii_of_string ("-" ++ Js.toString now)).
  assert (firstn 16 (hex ++ rest) = hex) as ->.
  { rewrite <- Hl, firstn_app, Nat.sub_diag, firstn_all, firstn_O. apply app_nil_r. }
  assert (skipn 16 (hex ++ rest) = rest) as ->.
  { rewrite <- Hl, skipn_app, Nat.sub_diag, skipn_all, skipn_O. reflexivity. }
  rewrite Hl, Nat.eqb_refl. subst hex rest. rewrite toString_hex_chars.
  unfold Js.toString.
  replace (now <? 0)%Z with false by (symmetry; apply Z.ltb_ge; assumption).
  destruct (decimal_digits_spec now Hnow) as (d & ds & -> & Hall & _).
  cbn [append list_ascii_of_string Js.string_of_digits andb].
  apply (string_of_digits_decimal (d :: ds) Hall).
Qed.

Lemma generateMeetingId_timestamp (randomBytes : list byte) (now : Z) :
  0 <= now ->
  Js.parseInt (trailing_segment (generateMeetingId randomBytes now)) = of_Z now.
Proof.
  intros Hnow. unfold generateMeetingId. cbv zeta.
  change (Js.toString_hex randomBytes ++ "-" ++ Js.toString now)%string
    with (Js.toString_hex randomBytes ++ String "-" (Js.toString now))%string.
  rewrite trailing_segment_app, trailing_segment_free.
  - now apply parseInt_toString.
  - unfold Js.toString.
    replace (now <? 0)%Z with false by (symmetry; apply Z.ltb_ge; assumption).
    destruct (decimal_digits_spec now Hnow) as (d & ds & -> & Hall & _).
    now apply free_of_string_of_digits.
Qed.

Example concrete_runs :
  getRoomPeers (rooms both_joined) fresh_id
  = [mkPeerInfo "A" "u1" "Alice"; mkPeerInfo "B" "u2" "Bob"]
  /\ received "A" (delivered both_joined) = [newPeer "B" "u2" "Bob"]
  /\ received "B" (delivered both_joined) = []
  /\ trace alice_producing
     = [CreateRouter; CreateWebRtcTransport "router0"; Produce "transport1" "video" "rtp"]
  /\ getOtherPeersProducers (rooms alice_producing) fresh_id "B"
     = [mkProducerInfo "producer2" "A" "u1" "Alice" "video"]
  /\ getOtherPeersProducers (rooms alice_producing) fresh_id "A" = []
  /\ received "B" (delivered alice_producing) = [newProducer "A" "producer2" "video"].
Proof. vm_compute. repeat split; reflexivity. Qed.

Lemma string_app_assoc (a b c : string) : ((a ++ b) ++ c = a ++ (b ++ c))%string.
Proof. induction a as [|x a IH]; simpl; [reflexivity|now rewrite IH]. Qed.

Lemma free_of_app (sep : ascii) (a b : string) :
  free_of sep a = true -> free_of sep b = true -> free_of sep (a ++ b) = true.
Proof.
  intros Ha Hb. induction a as [|c a IH]; [assumption|].
  simpl in *. apply andb_true_iff in Ha as [Hc Ha]. now rewrite Hc, IH.
Qed.

(** At every instant there are malformed identifiers that pass: a fresh
    identifier with anything appended that has no hyphen and does not
    continue the number. *)
Lemma tampered_id_not_expired (randomBytes : list byte) (now : Z) (junk : string) :
  0 <= now ->
  free_of "-" junk = true ->
  Js.digits_prefix 10 junk = [] ->
  no_hex_mark junk = true ->
  let id := (generateMeetingId randomBytes now ++ junk)%string in
  trailing_segment id = (Js.toString now ++ junk)%string
  /\ isMeetingExpired now id = false.
Proof.
  intros Hnow Hfree Hjunk Hmark id. subst id. unfold generateMeetingId. cbv zeta.
  rewrite string_app_assoc.
  change (("-" ++ Js.toString now) ++ junk)%string
    with (String "-" (Js.toString now ++ junk)).
  rewrite trailing_segment_app.
  unfold Js.toString.
  replace (now <? 0)%Z with false by (symmetry; apply Z.ltb_ge; assumption).
  destruct (decimal_digits_spec now Hnow) as (d & ds & -> & Hall & Hval).
  assert (Hseg : trailing_segment (Js.string_of_digits (d :: ds) ++ junk)
                 = (Js.string_of_digits (d :: ds) ++ junk)%string).
  { apply trailing_segment_free, free_of_app; [|assumption].
    now apply free_of_string_of_digits. }
  split; [exact Hseg|].
  rewrite (isMeetingExpired_parsed now now).
  - apply Z.ltb_ge. lia.
  - rewrite trailing_segment_app, Hseg, <- Hval. now apply parseInt_digits_then.
Qed.

(** C3.  A generated identifier — eight random bytes and a clock reading
    [now >= 0] — has the form of sixteen lowercase hexadecimal characters,
    a hyphen and a non-empty run of decimal digits; it is not expired at
    the instant of generation; and at any later reading of the clock it
    is expired exactly when more than 24 hours have passed since [now]:
    not yet at [now] + 24 h, and from [now] + 24 h + 1 ms on. *)
Theorem generated_id_format_and_expiry (randomBytes : list byte) (now : Z) :
  List.length randomBytes = 8%nat ->
  0 <= now ->
  let id := generateMeetingId randomBytes now in
  matches_meeting_id id = true
  /\ isMeetingExpired now id = false
  /\ (forall later : Z,
        isMeetingExpired later id = true <-> 24 * 60 * 60 * 1000 < later - now)
  /\ isMeetingExpired (now + 24 * 60 * 60 * 1000) id = false
  /\ isMeetingExpired (now + 24 * 60 * 60 * 1000 + 1) id = true.
Proof.
  intros Hlen Hnow id.
  assert (Hexp : forall later,
             isMeetingExpired later id = (24 * 60 * 60 * 1000 <? later - now)%Z).
  { intros later. apply isMeetingExpired_parsed.
    now apply generateMeetingId_timestamp. }
  split; [now apply generateMeetingId_format|].
  split; [rewrite Hexp; apply Z.ltb_ge; lia|].
  split; [intros later; rewrite Hexp; apply Z.ltb_lt|].
  split; rewrite Hexp; [apply Z.ltb_ge|apply Z.ltb_lt]; lia.
Qed.

Lemma generated_id_format_and_expiry_witness :
  let id := generateMeetingId [x00; x1f; xa0; xff; x12; x34; x56; x78]%byte t0 in
  matches_meeting_id id = true
  /\ isMeetingExpired t0 id = false
  /\ (forall later : Z,
        isMeetingExpired later id = true <-> 24 * 60 * 60 * 1000 < later - t0)
  /\ isMeetingExpired (t0 + 24 * 60 * 60 * 1000) id = false
  /\ isMeetingExpired (t0 + 24 * 60 * 60 * 1000 + 1) id = true.
Proof.
  apply (generated_id_format_and_expiry
           [x00; x1f; xa0; xff; x12; x34; x56; x78]%byte t0).
  - reflexivity.
  - unfold t0. lia.
Defined.

(** C7.  An identifier whose trailing segment is a recent timestamp
    followed by a letter is malformed — the segment is not an integer and
    the identifier does not have the generated form — yet [parseInt] reads
    the digits in front of the letter and the identifier is not expired. *)
Theorem malformed_id_not_expired :
  let id := "deadbeefdeadbeef-1700000000000x" in
  trailing_segment id = "1700000000000x"
  /\ forallb is_decimal (list_ascii_of_string (trailing_segment id)) = false
  /\ matches_meeting_id id = false
  /\ Js.parseInt (trailing_segment id) = of_Z 1700000000000
  /\ isMeetingExpired 1700000000000 id = false.
Proof. vm_compute. repeat split; reflexivity. Qed.

(** C9.  On a segment that [parseInt] cannot read, [getMeetingAge]
    returns [NaN]: nothing is thrown, so the handler that holds the
    sentinel 999 does not run. *)
Theorem getMeetingAge_parse_failure :
  trailing_segment "not-a-timestamp" = "timestamp"
  /\ Js.parseInt "timestamp" = NaN
  /\ getMeetingAge 1700000000000 "not-a-timestamp" = NaN
  /\ getMeetingAge 1700000000000 "not-a-timestamp" <> of_Z 999.
Proof. vm_compute. repeat split; try reflexivity. discriminate. Qed.

(** ** Maps *)

Lemma get_set_same {V : Type} (m : JsMap.t V) (k : string) (v : V) :
  JsMap.get (JsMap.set m k v) k = Some v.
Proof.
  induction m as [|[k' v'] m IH]; simpl.
  - now rewrite String.eqb_refl.
  - destruct (String.eqb k' k) eqn:Hk; simpl.
    + now rewrite String.eqb_refl.
    + now rewrite Hk.
Qed.

Lemma get_set_other {V : Type} (m : JsMap.t V) (k k' : string) (v : V) :
  k' <> k -> JsMap.get (JsMap.set m k v) k' = JsMap.get m k'.
Proof.
  intros Hne. induction m as [|[k0 v0] m IH]; simpl.
  - apply String.eqb_neq in Hne. rewrite String.eqb_sym in Hne. now rewrite Hne.
  - destruct (String.eqb k0 k) eqn:Hk; simpl.
    + apply String.eqb_eq in Hk. subst k0.
      replace (String.eqb k k') with false; [reflexivity|].
      symmetry. apply String.eqb_neq. congruence.
    + now rewrite IH.
Qed.

Lemma set_absent {V : Type} (m : JsMap.t V) (k : string) (v : V) :
  JsMap.get m k = None -> JsMap.set m k v = (m ++ [(k, v)])%list.
Proof.
  induction m as [|[k' v'] m IH]; simpl; [reflexivity|].
  destruct (String.eqb k' k); [discriminate|].
  intros H. now rewrite IH.
Qed.

Lemma set_present_length {V : Type} (m : JsMap.t V) (k : string) (v old : V) :
  JsMap.get m k = Some old -> List.length (JsMap.set m k v) = List.length m.
Proof.
  induction m as [|[k' v'] m IH]; simpl; [discriminate|].
  destruct (String.eqb k' k); simpl; [reflexivity|].
  intros H. now rewrite IH.
Qed.

Lemma get_delete_same {V : Type} (m : JsMap.t V) (k : string) :
  JsMap.get (JsMap.delete m k) k = None.
Proof.
  induction m as [|[k' v'] m IH]; simpl; [reflexivity|].
  destruct (String.eqb k' k) eqn:Hk; simpl; [assumption|].
  now rewrite Hk.
Qed.

Lemma get_In {V : Type} (m : JsMap.t V) (k : string) (v : V) :
  JsMap.get m k = Some v -> In (k, v) m.
Proof.
  induction m as [|[k' v'] m IH]; simpl; [discriminate|].
  destruct (String.eqb k' k) eqn:Hk.
  - apply String.eqb_eq in Hk. intros [= ->]. left. now subst.
  - intros H. right. now apply IH.
Qed.

(** ** The registry: listings *)

Lemma producers_of_spec (excludePeerId : string) (entry : string * Peer.t) :
  Forall (fun info =>
            peerId info = fst entry
            /\ fst entry <> excludePeerId
            /\ exists key producer,
                 In (key, producer) (Peer.producers (snd entry))
                 /\ info = mkProducerInfo (Producer.id producer) (fst entry)
                                          (Peer.userId (snd entry))
                                          (Peer.username (snd entry))
                                          (Producer.kind producer))
         (producers_of excludePeerId entry).
Proof.
  destruct entry as [q peer]. unfold producers_of. simpl fst. simpl snd.
  destruct (String.eqb q excludePeerId) eqn:Hq; simpl negb; cbv iota; [constructor|].
  apply String.eqb_neq in Hq.
  unfold JsMap.values. rewrite map_map. apply Forall_forall.
  intros info Hin. apply in_map_iff in Hin as [[key producer] [<- Hin]].
  simpl. repeat split; trivial. now exists key, producer.
Qed.

(** C5.  Whatever the rooms hold and whoever is excluded, every entry of
    [getOtherPeersProducers] names a peer different from the excluded
    one and is built, field by field, from a producer stored under that
    peer in the room; for an unknown room the result is empty. *)
Theorem getOtherPeersProducers_excludes
  (rs : JsMap.t Room.t) (roomId excludePeerId : string) :
  Forall (fun info =>
            peerId info <> excludePeerId
            /\ exists room peer key producer,
                 JsMap.get rs roomId = Some room
                 /\ In (peerId info, peer) (Room.peers room)
                 /\ In (key, producer) (Peer.producers peer)
                 /\ info = mkProducerInfo (Producer.id producer) (peerId info)
                                          (Peer.userId peer) (Peer.username peer)
                                          (Producer.kind producer))
         (getOtherPeersProducers rs roomId excludePeerId)
  /\ (JsMap.get rs roomId = None ->
      getOtherPeersProducers rs roomId excludePeerId = []).
Proof.
  unfold getOtherPeersProducers.
  destruct (JsMap.get rs roomId) as [room|]; [|split; [constructor|reflexivity]].
  split; [|discriminate].
  apply Forall_forall. intros info Hin.
  apply in_flat_map in Hin as [[q peer] [Hentry Hin]].
  pose proof (producers_of_spec excludePeerId (q, peer)) as Hall.
  rewrite Forall_forall in Hall.
  destruct (Hall info Hin) as (Hq & Hne & key & producer & Hprod & Hinfo).
  simpl in Hq, Hne, Hprod, Hinfo. subst info. simpl peerId.
  split; [assumption|].
  exists room, peer, key, producer. repeat split; trivial.
Qed.

Lemma getOtherPeersProducers_excludes_witness :
  Forall (fun info => peerId info <> "B")
         (getOtherPeersProducers (rooms alice_producing) fresh_id "B")
  /\ getOtherPeersProducers (rooms alice_producing) fresh_id "B"
     = [mkProducerInfo "producer2" "A" "u1" "Alice" "video"]
  /\ getOtherPeersProducers (rooms alice_producing) stale_id "B" = [].
Proof.
  split; [|split].
  - eapply Forall_impl;
      [|exact (proj1 (getOtherPeersProducers_excludes
                        (rooms alice_producing) fresh_id "B"))].
    intros info H. exact (proj1 H).
  - reflexivity.
  - apply (proj2 (getOtherPeersProducers_excludes (rooms alice_producing) stale_id "B")).
    reflexivity.
Defined.

(** ** The registry: adding a peer *)

Lemma addPeer_missing_room {E : Type} (w : World E)
  (roomId peerId userId username : string) :
  JsMap.get (rooms w) roomId = None ->
  addPeer roomId peerId userId username w
  = (Throw (mkError ("Room " ++ roomId ++ " not found")), w).
Proof. intros H. unfold addPeer, bind, gets, throw. now rewrite H. Qed.

Lemma addPeer_in_room {E : Type} (w : World E)
  (roomId peerId userId username : string) (room : Room.t) :
  JsMap.get (rooms w) roomId = Some room ->
  let fresh := Peer.mk peerId userId username JsMap.empty JsMap.empty JsMap.empty in
  addPeer roomId peerId userId username w
  = (Normal fresh,
     set_rooms (JsMap.set (rooms w) roomId
                  (Room.with_peers room (JsMap.set (Room.peers room) peerId fresh))) w).
Proof. intros H. unfold addPeer, bind, gets, modify, ret. now rewrite H. Qed.

Lemma getRoomPeers_length (rs : JsMap.t Room.t) (roomId : string) (room : Room.t) :
  JsMap.get rs roomId = Some room ->
  List.length (getRoomPeers rs roomId) = List.length (Room.peers room).
Proof.
  intros H. unfold getRoomPeers, JsMap.values. rewrite H.
  now rewrite !length_map.
Qed.

(** [set] on a key that is present changes the first entry under that
    key, where it stands. *)
Lemma set_present_in_place {V : Type} (m : JsMap.t V) (k : string) (old v : V) :
  JsMap.get m k = Some old ->
  exists before after,
    m = (before ++ (k, old) :: after)%list
    /\ JsMap.get before k = None
    /\ JsMap.set m k v = (before ++ (k, v) :: after)%list.
Proof.
  induction m as [|[k' v'] m IH]; simpl; [discriminate|].
  destruct (String.eqb_spec k' k) as [->|Hne].
  - intros H. injection H as ->. now exists [], m.
  - intros H. destruct (IH H) as (before & after & Hm & Hbefore & Hset).
    exists ((k', v') :: before), after. simpl.
    destruct (String.eqb_spec k' k) as [|_]; [contradiction|].
    now rewrite Hset, <- Hm.
Qed.

(** C4, as the code has it.  [addPeer] throws [Error("Room <roomId> not
    found")] when the room is missing and leaves the state as it was.
    When the room already holds a peer under [peerId] it does not throw:
    it returns a fresh peer with empty maps, which takes the place of the
    former entry where that entry stood in the room's peer map: the
    entries before it and after it are the same, in the same order.  The
    room keeps its identifier, router and creation time, the other peers
    and the other rooms are as they were, and nothing else of the state
    changes. *)
Theorem addPeer_outcomes {E : Type} (w : World E)
  (roomId peerId userId username : string) :
  let fresh := Peer.mk peerId userId username JsMap.empty JsMap.empty JsMap.empty in
  (JsMap.get (rooms w) roomId = None ->
   addPeer roomId peerId userId username w
   = (Throw (mkError ("Room " ++ roomId ++ " not found")), w))
  /\ (forall (room : Room.t) (old : Peer.t),
        JsMap.get (rooms w) roomId = Some room ->
        JsMap.get (Room.peers room) peerId = Some old ->
        exists (w' : World E) (before after : JsMap.t Peer.t),
          addPeer roomId peerId userId username w = (Normal fresh, w')
          /\ Room.peers room = (before ++ (peerId, old) :: after)%list
          /\ JsMap.get before peerId = None
          /\ JsMap.get (rooms w') roomId
             = Some (Room.mk (Room.id room) (Room.router room)
                             (before ++ (peerId, fresh) :: after)%list
                             (Room.createdAt room))
          /\ lookup_peer (rooms w') roomId peerId = Some fresh
          /\ (forall q, q <> peerId ->
                lookup_peer (rooms w') roomId q = lookup_peer (rooms w) roomId q)
          /\ (forall r, r <> roomId -> JsMap.get (rooms w') r = JsMap.get (rooms w) r)
          /\ List.length (getRoomPeers (rooms w') roomId)
             = List.length (getRoomPeers (rooms w) roomId)
          /\ w' = set_rooms (rooms w') w).
Proof.
  intros fresh. split; [apply addPeer_missing_room|].
  intros room old Hroom Hold.
  destruct (set_present_in_place (Room.peers room) peerId old fresh Hold)
    as (before & after & Hpeers & Hbefore & Hset).
  eexists. exists before, after.
  split; [exact (addPeer_in_room w roomId peerId userId username room Hroom)|].
  split; [exact Hpeers|]. split; [exact Hbefore|].
  cbn [rooms set_rooms]. unfold lookup_peer. rewrite get_set_same, Hroom.
  cbn [Room.peers Room.with_peers].
  split; [fold fresh; now rewrite Hset|].
  split; [apply get_set_same|].
  split; [intros q Hq; now apply get_set_other|].
  split; [intros r Hr; now apply get_set_other|].
  split; [|reflexivity].
  erewrite (getRoomPeers_length _ roomId) by apply get_set_same.
  erewrite (getRoomPeers_length _ roomId) by exact Hroom.
  simpl Room.peers. now apply set_present_length with (old := old).
Qed.

Lemma addPeer_outcomes_witness :
  addPeer stale_id "A" "u1" "Alice" alice_transport
  = (Throw (mkError "Room deadbeefdeadbeef-1699910000000 not found"), alice_transport)
  /\ exists w' : World Sim,
       addPeer fresh_id "A" "u9" "Eve" alice_transport
       = (Normal (Peer.mk "A" "u9" "Eve" [] [] []), w')
       /\ JsMap.get (rooms w') fresh_id
          = Some (Room.mk fresh_id (Router.mk "router0" "caps")
                    [("A", Peer.mk "A" "u9" "Eve" [] [] []);
                     ("B", Peer.mk "B" "u2" "Bob" [] [] [])] t0).
Proof.
  destruct (addPeer_outcomes alice_transport stale_id "A" "u1" "Alice") as [Hmissing _].
  destruct (addPeer_outcomes alice_transport fresh_id "A" "u9" "Eve") as [_ Hpresent].
  split; [apply Hmissing; reflexivity|].
  destruct (Hpresent
              (Room.mk fresh_id (Router.mk "router0" "caps")
                 [("A", Peer.mk "A" "u1" "Alice"
                          [("transport1",
                            Transport.mk "transport1" "ice" "candidates" "dtls")] [] []);
                  ("B", Peer.mk "B" "u2" "Bob" [] [] [])] t0)
              (Peer.mk "A" "u1" "Alice"
                 [("transport1", Transport.mk "transport1" "ice" "candidates" "dtls")]
                 [] []))
    as (w' & before & after & Hrun & Hpeers & Hbefore & Hroom & _);
    [reflexivity|reflexivity|].
  exists w'. split; [exact Hrun|].
  destruct before as [|[k p] before].
  - simpl in Hpeers. injection Hpeers as <-. exact Hroom.
  - simpl in Hpeers. injection Hpeers as <- <- _.
    simpl in Hbefore. discriminate Hbefore.
Defined.

(** C4, a peer that is already present.  Alice holds a transport; a
    second [addPeer] under her identifier returns a peer instead of
    throwing, and the room now holds the new, empty entry. *)
Lemma addPeer_duplicate_accepted :
  lookup_peer (rooms alice_transport) fresh_id "A"
  = Some (Peer.mk "A" "u1" "Alice"
            [("transport1", Transport.mk "transport1" "ice" "candidates" "dtls")] [] [])
  /\ fst (addPeer fresh_id "A" "u9" "Eve" alice_transport)
     = Normal (Peer.mk "A" "u9" "Eve" [] [] [])
  /\ lookup_peer (rooms (snd (addPeer fresh_id "A" "u9" "Eve" alice_transport)))
                 fresh_id "A"
     = Some (Peer.mk "A" "u9" "Eve" [] [] [])
  /\ ~ (exists e, fst (addPeer fresh_id "A" "u9" "Eve" alice_transport) = Throw e)
  /\ rooms (snd (addPeer fresh_id "A" "u9" "Eve" alice_transport))
     <> rooms alice_transport.
Proof.
  vm_compute. repeat split; try reflexivity.
  - intros [e H]. discriminate H.
  - intros H. discriminate H.
Qed.

Lemma getOtherPeersProducers_other_room
  (rs : JsMap.t Room.t) (roomId r x : string) (room : Room.t) :
  r <> roomId ->
  getOtherPeersProducers (JsMap.set rs roomId room) r x = getOtherPeersProducers rs r x.
Proof. intros Hr. unfold getOtherPeersProducers. now rewrite get_set_other. Qed.

Lemma producers_of_no_producers (x peerId userId username : string)
  (transports : JsMap.t Transport.t) (consumers : JsMap.t Consumer.t) :
  producers_of x (peerId, Peer.mk peerId userId username transports JsMap.empty consumers)
  = [].
Proof. unfold producers_of. simpl. now destruct (String.eqb peerId x). Qed.

(** C10, as the code has it.  When the room holds no peer under
    [peerId], [addPeer] stores and returns a peer whose transports,
    producers and consumers are empty; the listing of other peers'
    producers is the same as before for every room and every excluded
    peer; the roster of the room gains one entry, at the end, and no
    other roster changes. *)
Theorem addPeer_new_peer {E : Type} (w : World E)
  (roomId peerId userId username : string) (room : Room.t) :
  JsMap.get (rooms w) roomId = Some room ->
  JsMap.get (Room.peers room) peerId = None ->
  exists w' : World E,
    addPeer roomId peerId userId username w
    = (Normal (Peer.mk peerId userId username JsMap.empty JsMap.empty JsMap.empty), w')
    /\ lookup_peer (rooms w') roomId peerId
       = Some (Peer.mk peerId userId username JsMap.empty JsMap.empty JsMap.empty)
    /\ (forall r x,
          getOtherPeersProducers (rooms w') r x = getOtherPeersProducers (rooms w) r x)
    /\ getRoomPeers (rooms w') roomId
       = (getRoomPeers (rooms w) roomId ++ [mkPeerInfo peerId userId username])%list
    /\ (forall r, r <> roomId -> getRoomPeers (rooms w') r = getRoomPeers (rooms w) r).
Proof.
  intros Hroom Hnew. eexists.
  split; [exact (addPeer_in_room w roomId peerId userId username room Hroom)|].
  simpl rooms. rewrite (set_absent _ _ _ Hnew).
  split; [|split; [|split]].
  - unfold lookup_peer. rewrite get_set_same. simpl Room.peers.
    rewrite <- (set_absent _ _ _ Hnew). apply get_set_same.
  - intros r x. destruct (String.eqb r roomId) eqn:Hr.
    + apply String.eqb_eq in Hr. subst r.
      unfold getOtherPeersProducers. rewrite get_set_same, Hroom. simpl Room.peers.
      rewrite flat_map_app. cbn [flat_map].
      now rewrite producers_of_no_producers, !app_nil_r.
    + apply String.eqb_neq in Hr. now apply getOtherPeersProducers_other_room.
  - unfold getRoomPeers, JsMap.values. rewrite get_set_same, Hroom. simpl Room.peers.
    now rewrite !map_app.
  - intros r Hr. unfold getRoomPeers. now rewrite get_set_other.
Qed.

Lemma addPeer_new_peer_witness :
  exists w' : World Sim,
    addPeer fresh_id "C" "u3" "Carol" alice_producing
    = (Normal (Peer.mk "C" "u3" "Carol" [] [] []), w')
    /\ getOtherPeersProducers (rooms w') fresh_id "B"
       = [mkProducerInfo "producer2" "A" "u1" "Alice" "video"]
    /\ getRoomPeers (rooms w') fresh_id
       = [mkPeerInfo "A" "u1" "Alice"; mkPeerInfo "B" "u2" "Bob";
          mkPeerInfo "C" "u3" "Carol"].
Proof.
  destruct (addPeer_new_peer alice_producing fresh_id "C" "u3" "Carol"
              (Room.mk fresh_id (Router.mk "router0" "caps")
                 [("A", Peer.mk "A" "u1" "Alice"
                          [("transport1",
                            Transport.mk "transport1" "ice" "candidates" "dtls")]
                          [("producer2", Producer.mk "producer2" "video")] []);
                  ("B", Peer.mk "B" "u2" "Bob" [] [] [])] t0))
    as (w' & Hrun & _ & Hproducers & Hroster & _); [reflexivity|reflexivity|].
  exists w'. split; [exact Hrun|]. split.
  - rewrite Hproducers. reflexivity.
  - rewrite Hroster. reflexivity.
Defined.

(** C10, a peer that is already present.  Alice publishes a producer;
    [addPeer] under her identifier succeeds, her producer disappears from
    what Bob is told, and the roster has no entry more than before. *)
Lemma addPeer_existing_changes_listing :
  fst (addPeer fresh_id "A" "u1" "Alice" alice_producing)
  = Normal (Peer.mk "A" "u1" "Alice" [] [] [])
  /\ getOtherPeersProducers (rooms alice_producing) fresh_id "B"
     = [mkProducerInfo "producer2" "A" "u1" "Alice" "video"]
  /\ getOtherPeersProducers
       (rooms (snd (addPeer fresh_id "A" "u1" "Alice" alice_producing))) fresh_id "B"
     = []
  /\ getRoomPeers (rooms (snd (addPeer fresh_id "A" "u1" "Alice" alice_producing)))
                  fresh_id
     = getRoomPeers (rooms alice_producing) fresh_id.
Proof. vm_compute. repeat split; reflexivity. Qed.

(** ** The registry: creating a room *)

Section RegistryFacts.

Context {E : Type} {media : MediaEngine E}.

Lemma createRoom_existing (w : World E) (roomId : string) (room : Room.t) :
  JsMap.get (rooms w) roomId = Some room ->
  createRoom roomId w = (Normal room, w).
Proof. intros H. unfold createRoom, bind, gets, ret. now rewrite H. Qed.

Lemma createRoom_absent (w : World E) (roomId : string) :
  JsMap.get (rooms w) roomId = None ->
  createRoom roomId w
  = match worker_createRouter (engine w) with
    | (Normal router, e') =>
        (Normal (Room.mk roomId router JsMap.empty (clock w)),
         mkWorld (clock w)
                 (JsMap.set (rooms w) roomId
                    (Room.mk roomId router JsMap.empty (clock w)))
                 e' (trace w ++ [CreateRouter])
                 (sockets w) (adapter w) (delivered w))
    | (Throw err, e') =>
        (Throw err,
         mkWorld (clock w) (rooms w) e' (trace w ++ [CreateRouter])
                 (sockets w) (adapter w) (delivered w))
    end.
Proof.
  intros H. unfold createRoom, bind, gets, ret, modify, facade. rewrite H.
  destruct (worker_createRouter (engine w)) as [[router|err] e']; reflexivity.
Qed.

(** [createRoom] with nothing else happening during its [await].  On a
    room that exists it returns that room and changes nothing, so no
    call reaches the engine.  On a room that is absent it makes exactly
    one call, [createRouter]; when the engine answers with a router, the
    room built around it is stored under [roomId], and a [createRoom]
    that begins afterwards returns the same room without any further
    call. *)
Lemma createRoom_idempotent (w : World E) (roomId : string) :
  (forall room : Room.t,
      JsMap.get (rooms w) roomId = Some room ->
      createRoom roomId w = (Normal room, w))
  /\ (JsMap.get (rooms w) roomId = None ->
      trace (snd (createRoom roomId w)) = (trace w ++ [CreateRouter])%list
      /\ forall (router : Router.t) (e' : E),
           worker_createRouter (engine w) = (Normal router, e') ->
           let room := Room.mk roomId router JsMap.empty (clock w) in
           let w' := snd (createRoom roomId w) in
           fst (createRoom roomId w) = Normal room
           /\ rooms w' = JsMap.set (rooms w) roomId room
           /\ JsMap.get (rooms w') roomId = Some room
           /\ createRoom roomId w' = (Normal room, w')).
Proof.
  split; [apply createRoom_existing|].
  intros Habsent. rewrite (createRoom_absent w roomId Habsent). split.
  - destruct (worker_createRouter (engine w)) as [[router|err] e']; reflexivity.
  - intros router e' Hengine room w'. subst w'. rewrite Hengine. simpl.
    repeat split; try apply get_set_same.
    apply createRoom_existing. apply get_set_same.
Qed.

(** When the engine rejects [createRouter], the error reaches the
    caller and no room is stored. *)
Lemma createRoom_engine_error (w : World E) (roomId : string) (err : Error) (e' : E) :
  JsMap.get (rooms w) roomId = None ->
  worker_createRouter (engine w) = (Throw err, e') ->
  fst (createRoom roomId w) = Throw err
  /\ rooms (snd (createRoom roomId w)) = rooms w.
Proof.
  intros Habsent Hengine.
  rewrite (createRoom_absent w roomId Habsent), Hengine. now split.
Qed.

End RegistryFacts.

Lemma createRoom_idempotent_witness :
  let room := Room.mk fresh_id (Router.mk "router0" "caps") [] t0 in
  let w' := snd (createRoom fresh_id (boot t0)) in
  trace w' = [CreateRouter]
  /\ fst (createRoom fresh_id (boot t0)) = Normal room
  /\ createRoom fresh_id w' = (Normal room, w').
Proof.
  destruct (createRoom_idempotent (boot t0) fresh_id) as [_ Habsent].
  destruct (Habsent eq_refl) as [Htrace Hcreated].
  destruct (Hcreated (Router.mk "router0" "caps") (mkSim 1 None) eq_refl)
    as (Hroom & _ & _ & Hagain).
  repeat split; assumption.
Defined.

(** ** The handlers: failures of the engine *)

Section ServerFacts.

Context {E : Type} {media : MediaEngine E}.

Lemma on_connectTransport_engine_error
  (w : World E) (sid roomId transportId dtlsParameters : string)
  (peer : Peer.t) (transport : Transport.t) (err : Error) (e' : E) :
  lookup_peer (rooms w) roomId sid = Some peer ->
  JsMap.get (Peer.transports peer) transportId = Some transport ->
  transport_connect transport dtlsParameters (engine w) = (Throw err, e') ->
  on_connectTransport sid roomId transportId dtlsParameters w
  = (ReplyError "Failed to connect transport",
     after_call w e' (Connect (Transport.id transport) dtlsParameters)).
Proof.
  intros Hpeer Htransport Hengine.
  unfold on_connectTransport, try_handler, connectTransport, getPeer, bind, gets, facade.
  now rewrite Hpeer, Htransport, Hengine.
Qed.

Lemma on_produce_engine_error
  (w : World E) (sid roomId transportId kind rtpParameters : string)
  (peer : Peer.t) (transport : Transport.t) (err : Error) (e' : E) :
  lookup_peer (rooms w) roomId sid = Some peer ->
  JsMap.get (Peer.transports peer) transportId = Some transport ->
  transport_produce transport kind rtpParameters (engine w) = (Throw err, e') ->
  on_produce sid roomId transportId kind rtpParameters w
  = (ReplyError "Failed to produce",
     after_call w e' (Produce (Transport.id transport) kind rtpParameters)).
Proof.
  intros Hpeer Htransport Hengine.
  unfold on_produce, try_handler, produce, getPeer, bind, gets, facade.
  now rewrite Hpeer, Htransport, Hengine.
Qed.

Lemma on_consume_engine_error
  (w : World E) (sid roomId transportId producerId rtpCapabilities : string)
  (room : Room.t) (peer : Peer.t) (transport : Transport.t) (err : Error) (e' : E) :
  JsMap.get (rooms w) roomId = Some room ->
  JsMap.get (Room.peers room) sid = Some peer ->
  JsMap.get (Peer.transports peer) transportId = Some transport ->
  router_canConsume (Room.router room) producerId rtpCapabilities (engine w) = true ->
  transport_consume transport producerId rtpCapabilities (engine w) = (Throw err, e') ->
  on_consume sid roomId transportId producerId rtpCapabilities w
  = (ReplyError "Failed to consume",
     after_call
       (after_call w (engine w)
          (CanConsume (Router.id (Room.router room)) producerId rtpCapabilities))
       e' (Consume (Transport.id transport) producerId rtpCapabilities)).
Proof.
  intros Hroom Hpeer Htransport Hcan Hengine.
  unfold on_consume, try_handler, consume, getPeer, lookup_peer, bind, gets, facade.
  rewrite Hroom. simpl. rewrite Hroom, Hpeer, Htransport, Hcan. simpl.
  now rewrite Hengine.
Qed.

(** ** The handlers: joining with an expired link *)

Lemma roomId_not_empty (roomId : string) (t : Z) :
  Js.parseInt (trailing_segment roomId) = of_Z t -> String.eqb roomId "" = false.
Proof.
  intros Hparse. destruct roomId; [discriminate Hparse|reflexivity].
Qed.

Lemma truthy_field (v : option string) :
  truthy v = match v with
             | Some s => negb (String.eqb s "")
             | None => false
             end.
Proof. reflexivity. Qed.

(** C2, as the code has it.  Take a [joinRoom] request whose [roomId]
    ends in a segment that reads as a timestamp more than 24 hours
    before the clock.  When it carries a non-empty [userId] and a
    non-empty [username], the reply is
    [{error: "Meeting link has expired (24h limit)"}]; when either is
    missing or empty, the reply is [{error: "Missing required fields"}],
    because the handler looks at the fields first.  In both cases the
    whole state — rooms, peers, connections, events sent — is as it
    was. *)
Theorem joinRoom_expired
  (w : World E) (sid roomId : string) (userId username : option string) (t : Z) :
  Js.parseInt (trailing_segment roomId) = of_Z t ->
  24 * 60 * 60 * 1000 < clock w - t ->
  on_joinRoom sid (mkJoinData (Some roomId) userId username) w
  = (ReplyError (if truthy userId && truthy username
                 then "Meeting link has expired (24h limit)"
                 else "Missing required fields"),
     w).
Proof.
  intros Hparse Hold.
  unfold on_joinRoom, try_handler.
  cbn [jd_roomId jd_userId jd_username].
  assert (Hroom : truthy (Some roomId) = true).
  { rewrite truthy_field. now rewrite (roomId_not_empty roomId t Hparse). }
  rewrite Hroom. cbn [negb orb].
  destruct userId as [userId|]; [|reflexivity].
  destruct username as [username|];
    [|destruct (truthy (Some userId)); reflexivity].
  destruct (truthy (Some userId)); [|reflexivity].
  destruct (truthy (Some username)); [|reflexivity].
  cbn [negb orb andb]. unfold bind, gets, ret.
  rewrite (isMeetingExpired_parsed (clock w) t roomId Hparse).
  replace (24 * 60 * 60 * 1000 <? clock w - t)%Z with true; [reflexivity|].
  symmetry. now apply Z.ltb_lt.
Qed.

End ServerFacts.

(** C8, the message of the engine.  The engine rejects [connect] with
    "invalid DTLS fingerprint"; the client is told "Failed to connect
    transport". *)
Lemma engine_message_not_surfaced :
  let w := engine_failing "invalid DTLS fingerprint" alice_transport in
  transport_connect (Transport.mk "transport1" "ice" "candidates" "dtls")
                    "fingerprint" (engine w)
  = (Throw (mkError "invalid DTLS fingerprint"), engine w)
  /\ fst (on_connectTransport "A" fresh_id "transport1" "fingerprint" w)
     = ReplyError "Failed to connect transport"
  /\ fst (on_connectTransport "A" fresh_id "transport1" "fingerprint" w)
     <> ReplyError "invalid DTLS fingerprint".
Proof. vm_compute. repeat split; try reflexivity. discriminate. Qed.

Lemma joinRoom_expired_witness :
  on_joinRoom "A" (mkJoinData (Some stale_id) (Some "u1") (Some "Alice")) (boot t0)
  = (ReplyError "Meeting link has expired (24h limit)", boot t0)
  /\ on_joinRoom "A" (mkJoinData (Some stale_id) (Some "u1") None) (boot t0)
     = (ReplyError "Missing required fields", boot t0)
  /\ on_joinRoom "A" (mkJoinData (Some stale_id) (Some "") (Some "Alice")) (boot t0)
     = (ReplyError "Missing required fields", boot t0).
Proof.
  split; [|split].
  - apply (joinRoom_expired (boot t0) "A" stale_id (Some "u1") (Some "Alice")
             1699910000000); reflexivity.
  - apply (joinRoom_expired (boot t0) "A" stale_id (Some "u1") None
             1699910000000); reflexivity.
  - apply (joinRoom_expired (boot t0) "A" stale_id (Some "") (Some "Alice")
             1699910000000); reflexivity.
Defined.

(** C2, a request without [userId].  The link is 25 hours old, yet the
    reply is the one for missing fields, not the one for expiry. *)
Lemma joinRoom_expired_missing_field :
  isMeetingExpired t0 stale_id = true
  /\ on_joinRoom "A" (mkJoinData (Some stale_id) None (Some "Alice")) (boot t0)
     = (ReplyError "Missing required fields", boot t0)
  /\ on_joinRoom "A" (mkJoinData (Some stale_id) (Some "") (Some "Alice")) (boot t0)
     = (ReplyError "Missing required fields", boot t0)
  /\ fst (on_joinRoom "A" (mkJoinData (Some stale_id) None (Some "Alice")) (boot t0))
     <> ReplyError "Meeting link has expired (24h limit)".
Proof. vm_compute. repeat split; try reflexivity. discriminate. Qed.

(** ** Teardown *)

(** C1.  Alice and Bob are in a meeting; Alice sends [leaveRoom] and
    then her connection closes.  Each of the two runs of
    [handleDisconnect] sends [peerLeft] to Bob: he receives it twice.
    The second run changes neither the rooms nor the trace of engine
    calls. *)
Theorem leave_then_disconnect_broadcasts_twice :
  let w1 := on_leaveRoom "A" both_joined in
  let w2 := on_disconnect "A" w1 in
  received "B" (delivered both_joined) = []
  /\ received "B" (delivered w1) = [peerLeft "A"]
  /\ received "B" (delivered w2) = [peerLeft "A"; peerLeft "A"]
  /\ getRoomPeers (rooms w1) fresh_id = [mkPeerInfo "B" "u2" "Bob"]
  /\ rooms w2 = rooms w1
  /\ trace w2 = trace w1.
Proof. vm_compute. repeat split; reflexivity. Qed.

Section Teardown.

Context {E : Type} {media : MediaEngine E}.

Lemma forEach_close (m : JsMap.t Transport.t) : forall w : World E,
  exists (e' : E) (calls : list FacadeCall),
    forEach m close_transport w
    = (Normal tt,
       mkWorld (clock w) (rooms w) e' (trace w ++ calls)
               (sockets w) (adapter w) (delivered w)).
Proof.
  induction m as [|[key transport] m IH]; intros w.
  - exists (engine w), []. rewrite app_nil_r. now destruct w.
  - simpl forEach. unfold bind at 1. unfold close_transport at 1. unfold facade.
    match goal with |- context [forEach m close_transport ?w1] =>
      destruct (IH w1) as (e' & calls & ->) end.
    simpl. exists e', (CloseTransport (Transport.id transport) :: calls).
    now rewrite <- app_assoc.
Qed.

Lemma filter_twice {A : Type} (f : A -> bool) (l : list A) :
  filter f (filter f l) = filter f l.
Proof.
  induction l as [|x l IH]; [reflexivity|].
  simpl. destruct (f x) eqn:Hx; simpl; [|assumption].
  now rewrite Hx, IH.
Qed.

Lemma removePeer_absent (w : World E) (roomId peerId : string) :
  lookup_peer (rooms w) roomId peerId = None ->
  removePeer roomId peerId w = (Normal tt, w).
Proof.
  unfold lookup_peer, removePeer, bind, gets, ret.
  destruct (JsMap.get (rooms w) roomId) as [room|]; [|reflexivity].
  now intros ->.
Qed.

Lemma removePeer_effect (w : World E) (roomId peerId : string) :
  exists w' : World E,
    removePeer roomId peerId w = (Normal tt, w')
    /\ lookup_peer (rooms w') roomId peerId = None
    /\ sockets w' = sockets w
    /\ adapter w' = adapter w
    /\ delivered w' = delivered w.
Proof.
  destruct (lookup_peer (rooms w) roomId peerId) as [peer|] eqn:Hpeer.
  - unfold lookup_peer in Hpeer. unfold removePeer, bind at 1, gets.
    destruct (JsMap.get (rooms w) roomId) as [room|]; [|discriminate].
    rewrite Hpeer. unfold bind.
    destruct (forEach_close (Peer.transports peer) w) as (e' & calls & ->).
    eexists. split; [reflexivity|]. simpl. repeat split.
    unfold lookup_peer. rewrite get_set_same. apply get_delete_same.
  - exists w. rewrite (removePeer_absent w roomId peerId Hpeer). now repeat split.
Qed.

Lemma handleDisconnect_bound (w : World E) (sid roomId : string) (data : SocketData) :
  JsMap.get (sockets w) sid = Some data ->
  sd_roomId data = Some roomId ->
  roomId <> "" ->
  exists w' : World E,
    handleDisconnect sid w = (Normal tt, w')
    /\ lookup_peer (rooms w') roomId sid = None
    /\ (lookup_peer (rooms w) roomId sid = None -> rooms w' = rooms w /\ trace w' = trace w)
    /\ sockets w' = sockets w
    /\ delivered w' = (delivered w ++ farewell w sid roomId)%list
    /\ farewell w' sid roomId = farewell w sid roomId.
Proof.
  intros Hdata Hroom Hne.
  unfold handleDisconnect, bind at 1, socket_data, gets. rewrite Hdata, Hroom.
  apply String.eqb_neq in Hne. unfold truthy. rewrite Hne. cbn [negb].
  unfold bind at 1.
  destruct (removePeer_effect w roomId sid) as (w1 & Hrun & Hgone & Hs & Ha & Hd).
  rewrite Hrun. unfold bind, socket_to_emit, socket_leave, modify.
  eexists. split; [reflexivity|]. simpl.
  split; [assumption|].
  split.
  { intros Habsent. rewrite (removePeer_absent w roomId sid Habsent) in Hrun.
    injection Hrun as <-. now split. }
  split; [assumption|].
  assert (Hm : members w1 roomId = members w roomId) by (unfold members; now rewrite Ha).
  split.
  - unfold farewell. now rewrite Hd, Hm.
  - unfold farewell, members. simpl. rewrite get_set_same.
    fold (members w1 roomId). now rewrite Hm, filter_twice.
Qed.

(** The teardown run twice, for any state and any engine: the second
    run finds the peer gone and leaves rooms and trace alone, and it
    sends the same [peerLeft] events to the same connections again. *)
Lemma handleDisconnect_repeated (w : World E) (sid roomId : string) (data : SocketData) :
  JsMap.get (sockets w) sid = Some data ->
  sd_roomId data = Some roomId ->
  roomId <> "" ->
  exists w1 w2 : World E,
    handleDisconnect sid w = (Normal tt, w1)
    /\ handleDisconnect sid w1 = (Normal tt, w2)
    /\ rooms w2 = rooms w1
    /\ trace w2 = trace w1
    /\ delivered w1 = (delivered w ++ farewell w sid roomId)%list
    /\ delivered w2 = (delivered w1 ++ farewell w sid roomId)%list.
Proof.
  intros Hdata Hroom Hne.
  destruct (handleDisconnect_bound w sid roomId data Hdata Hroom Hne)
    as (w1 & Hrun1 & Hgone1 & _ & Hs1 & Hd1 & Hf1).
  assert (Hdata1 : JsMap.get (sockets w1) sid = Some data) by now rewrite Hs1.
  destruct (handleDisconnect_bound w1 sid roomId data Hdata1 Hroom Hne)
    as (w2 & Hrun2 & _ & Hsame & _ & Hd2 & _).
  destruct (Hsame Hgone1) as [Hrooms Htrace].
  exists w1, w2. rewrite Hd2, Hf1. now repeat split.
Qed.

End Teardown.

(** ** Expiry: more about identifiers *)

Lemma parseInt_cases (s : string) :
  Js.parseInt s = NaN \/ exists z : Z, Js.parseInt s = of_Z z.
Proof.
  unfold Js.parseInt.
  destruct (match Js.trim_start s with
            | String "-" r => (-1, r)
            | String "+" r => (1, r)
            | _ => (1, Js.trim_start s)
            end) as [sign S1].
  destruct (match S1 with
            | String "0" (String "x" r) => (16, r)
            | String "0" (String "X" r) => (16, r)
            | _ => (10, S1)
            end) as [R S2].
  destruct (Js.digits_prefix R S2); [left|right; eexists]; reflexivity.
Qed.

Lemma free_of_toString (t : Z) : 0 <= t -> free_of "-" (Js.toString t) = true.
Proof.
  intros Ht. unfold Js.toString.
  replace (t <? 0)%Z with false by (symmetry; apply Z.ltb_ge; assumption).
  destruct (decimal_digits_spec t Ht) as (d & ds & -> & Hall & _).
  now apply free_of_string_of_digits.
Qed.

(** X1.  Whatever precedes the last hyphen of an identifier – hyphens
    included – plays no part in the expiry check: when the identifier
    ends in a hyphen followed by the decimal text of a timestamp [t],
    [isMeetingExpired] holds exactly when the clock is more than 24 hours
    past [t]. *)
Theorem expiry_reads_trailing_timestamp (prefix : string) (t now : Z) :
  0 <= t ->
  isMeetingExpired now (prefix ++ "-" ++ Js.toString t) = true
  <-> 24 * 60 * 60 * 1000 < now - t.
Proof.
  intros Ht.
  rewrite (isMeetingExpired_parsed now t).
  - apply Z.ltb_lt.
  - change (prefix ++ "-" ++ Js.toString t)%string
      with (prefix ++ String "-" (Js.toString t))%string.
    rewrite trailing_segment_app, trailing_segment_free by now apply free_of_toString.
    now apply parseInt_toString.
Qed.

Lemma expiry_reads_trailing_timestamp_witness :
  isMeetingExpired 1700000000000 ("k3-j9x0ab" ++ "-" ++ Js.toString 1699900000000) = true
  <-> 24 * 60 * 60 * 1000 < 1700000000000 - 1699900000000.
Proof.
  apply (expiry_reads_trailing_timestamp "k3-j9x0ab" 1699900000000 1700000000000).
  lia.
Defined.

(** X2.  An identifier that [isMeetingExpired] reports as expired at one
    reading of the clock is reported as expired at every later reading,
    whatever the identifier looks like. *)
Theorem expired_stays_expired (meetingId : string) (now later : Z) :
  now <= later ->
  isMeetingExpired now meetingId = true ->
  isMeetingExpired later meetingId = true.
Proof.
  intros Hle.
  destruct (parseInt_cases (trailing_segment meetingId)) as [Hnan|[t Ht]].
  - intros _. now apply isMeetingExpired_NaN.
  - rewrite !(isMeetingExpired_parsed _ t meetingId Ht).
    intros H. apply Z.ltb_lt in H. apply Z.ltb_lt. lia.
Qed.

Lemma expired_stays_expired_witness :
  isMeetingExpired (t0 + 1) stale_id = true.
Proof.
  apply (expired_stays_expired stale_id t0 (t0 + 1)).
  - unfold t0. lia.
  - reflexivity.
Defined.

Lemma getMeetingAge_parsed (now t : Z) (meetingId : string) :
  Js.parseInt (trailing_segment meetingId) = of_Z t ->
  getMeetingAge now meetingId
  = Num ((inject_Z now - inject_Z t) / inject_Z (60 * 60 * 1000)).
Proof.
  intros Hparse. unfold getMeetingAge.
  change (Js.index (Js.split "-" meetingId) (Js.length (Js.split "-" meetingId) - 1))
    with (trailing_segment meetingId).
  cbv zeta. rewrite Hparse. reflexivity.
Qed.

Lemma gt_age_hours (now t : Z) :
  gt (Num ((inject_Z now - inject_Z t) / inject_Z (60 * 60 * 1000))) (of_Z 24)
  = (24 * 60 * 60 * 1000 <? now - t)%Z.
Proof.
  unfold gt, of_Z, Qle_bool, Qdiv, Qmult, Qinv, Qminus, Qplus, Qopp, inject_Z. simpl.
  rewrite !Z.mul_1_r.
  destruct (Z.leb_spec (now + - t) 86400000), (Z.ltb_spec 86400000 (now - t));
    simpl; lia || reflexivity.
Qed.

(** X3.  [isMeetingExpired] and [getMeetingAge] agree on every
    identifier: the identifier is expired exactly when its age is [NaN]
    or exceeds 24 (hours). *)
Theorem expired_iff_age (meetingId : string) (now : Z) :
  isMeetingExpired now meetingId = true
  <-> getMeetingAge now meetingId = NaN
      \/ gt (getMeetingAge now meetingId) (of_Z 24) = true.
Proof.
  destruct (parseInt_cases (trailing_segment meetingId)) as [Hnan|[t Ht]].
  - rewrite (isMeetingExpired_NaN now meetingId Hnan),
            (getMeetingAge_NaN now meetingId Hnan).
    split; [now left|reflexivity].
  - rewrite (isMeetingExpired_parsed now t meetingId Ht),
            (getMeetingAge_parsed now t meetingId Ht), gt_age_hours.
    split; [now right|]. intros [H|H]; [discriminate H|exact H].
Qed.

Lemma of_Z_inj (a b : Z) : of_Z a = of_Z b -> a = b.
Proof. unfold of_Z, inject_Z. now intros [= ->]. Qed.

Lemma toString_inj (a b : Z) :
  0 <= a -> 0 <= b -> Js.toString a = Js.toString b -> a = b.
Proof.
  intros Ha Hb Heq. apply of_Z_inj.
  now rewrite <- (parseInt_toString a Ha), <- (parseInt_toString b Hb), Heq.
Qed.

Lemma string_app_inv_tail (a b c : string) : (a ++ c = b ++ c)%string -> a = b.
Proof.
  intros Heq. apply (f_equal list_ascii_of_string) in Heq.
  rewrite !list_ascii_of_string_app in Heq. apply app_inv_tail in Heq.
  rewrite <- (string_of_list_ascii_of_string a), <- (string_of_list_ascii_of_string b).
  now rewrite Heq.
Qed.

Lemma hex_value_hex_char (d : Z) :
  0 <= d < 16 -> Js.digit_value 16 (Js.hex_char d) = Some d.
Proof.
  intros Hd.
  assert (d = 0 \/ d = 1 \/ d = 2 \/ d = 3 \/ d = 4 \/ d = 5 \/ d = 6 \/ d = 7
          \/ d = 8 \/ d = 9 \/ d = 10 \/ d = 11 \/ d = 12 \/ d = 13 \/ d = 14
          \/ d = 15) as H by lia.
  repeat (destruct H as [H|H]; [subst d; reflexivity|]). subst d. reflexivity.
Qed.

Lemma byte_range (b : byte) : 0 <= Z.of_N (Byte.to_N b) < 256.
Proof. destruct b; simpl; lia. Qed.

Lemma toString_hex_inj (a : list byte) : forall b : list byte,
  Js.toString_hex a = Js.toString_hex b -> a = b.
Proof.
  induction a as [|x a IH]; intros [|y b] Heq; try discriminate Heq; [reflexivity|].
  cbn [Js.toString_hex] in Heq. injection Heq as Hhi Hlo Hrest.
  pose proof (byte_range x) as Hx. pose proof (byte_range y) as Hy.
  set (n := Z.of_N (Byte.to_N x)) in *. set (m := Z.of_N (Byte.to_N y)) in *.
  assert (Hq : n / 16 = m / 16).
  { apply (f_equal (Js.digit_value 16)) in Hhi.
    rewrite !hex_value_hex_char in Hhi.
    - now injection Hhi.
    - split; [apply Z.div_pos; lia|apply Z.div_lt_upper_bound; lia].
    - split; [apply Z.div_pos; lia|apply Z.div_lt_upper_bound; lia]. }
  assert (Hr : n mod 16 = m mod 16).
  { apply (f_equal (Js.digit_value 16)) in Hlo.
    rewrite !hex_value_hex_char in Hlo by (apply Z.mod_pos_bound; lia).
    now injection Hlo. }
  assert (Hnm : n = m).
  { rewrite (Z.div_mod n 16), (Z.div_mod m 16) by lia. now rewrite Hq, Hr. }
  f_equal; [|now apply IH].
  subst n m. apply N2Z.inj in Hnm.
  pose proof (Byte.of_to_N x) as Hx'. pose proof (Byte.of_to_N y) as Hy'.
  rewrite Hnm in Hx'. rewrite Hx' in Hy'. now injection Hy'.
Qed.

(** X4.  Two generated identifiers are equal only when they were made
    from the same eight random bytes at the same reading of the clock. *)
Theorem generateMeetingId_injective (rnd rnd' : list byte) (now now' : Z) :
  0 <= now -> 0 <= now' ->
  generateMeetingId rnd now = generateMeetingId rnd' now'
  <-> rnd = rnd' /\ now = now'.
Proof.
  intros Hnow Hnow'. split; [|now intros [-> ->]]. intros Heq.
  assert (Htime : now = now').
  { apply of_Z_inj.
    rewrite <- (generateMeetingId_timestamp rnd now Hnow),
            <- (generateMeetingId_timestamp rnd' now' Hnow').
    now rewrite Heq. }
  split; [|exact Htime]. subst now'.
  unfold generateMeetingId in Heq. cbv zeta in Heq.
  apply string_app_inv_tail in Heq. now apply toString_hex_inj.
Qed.

(** ** The registry: removal, transports and media *)

Lemma get_delete_other {V : Type} (m : JsMap.t V) (k k' : string) :
  k' <> k -> JsMap.get (JsMap.delete m k) k' = JsMap.get m k'.
Proof.
  intros Hne. induction m as [|[k0 v0] m IH]; simpl; [reflexivity|].
  destruct (String.eqb k0 k) eqn:Hk; simpl.
  - apply String.eqb_eq in Hk. subst k0.
    replace (String.eqb k k') with false; [assumption|].
    symmetry. apply String.eqb_neq. congruence.
  - now rewrite IH.
Qed.

Lemma delete_absent {V : Type} (m : JsMap.t V) (k : string) :
  JsMap.get m k = None -> JsMap.delete m k = m.
Proof.
  induction m as [|[k' v'] m IH]; simpl; [reflexivity|].
  destruct (String.eqb k' k); [discriminate|]. simpl. intros H. now rewrite IH.
Qed.

Lemma set_same {V : Type} (m : JsMap.t V) (k : string) (v : V) :
  JsMap.get m k = Some v -> JsMap.set m k v = m.
Proof.
  induction m as [|[k' v'] m IH]; simpl; [discriminate|].
  destruct (String.eqb k' k) eqn:Hk.
  - apply String.eqb_eq in Hk. intros [= ->]. now subst.
  - intros H. now rewrite IH.
Qed.

Lemma set_set {V : Type} (m : JsMap.t V) (k : string) (v v' : V) :
  JsMap.set (JsMap.set m k v) k v' = JsMap.set m k v'.
Proof.
  induction m as [|[k0 v0] m IH]; simpl.
  - now rewrite String.eqb_refl.
  - destruct (String.eqb k0 k) eqn:Hk; simpl.
    + now rewrite String.eqb_refl.
    + now rewrite Hk, IH.
Qed.

Section RegistryMore.

Context {E : Type} {media : MediaEngine E}.

Lemma forEach_close_exact (m : JsMap.t Transport.t) : forall w : World E,
  forEach m close_transport w
  = (Normal tt,
     mkWorld (clock w) (rooms w)
             (fold_left (fun e transport => transport_close transport e)
                        (JsMap.values m) (engine w))
             (trace w ++ map (fun transport => CloseTransport (Transport.id transport))
                             (JsMap.values m))
             (sockets w) (adapter w) (delivered w)).
Proof.
  induction m as [|[key transport] m IH]; intros w.
  - simpl. rewrite app_nil_r. now destruct w.
  - simpl forEach. unfold bind at 1. unfold close_transport at 1. unfold facade.
    rewrite IH. simpl. now rewrite <- app_assoc.
Qed.

Lemma removePeer_present (w : World E) (roomId peerId : string)
  (room : Room.t) (peer : Peer.t) :
  JsMap.get (rooms w) roomId = Some room ->
  JsMap.get (Room.peers room) peerId = Some peer ->
  removePeer roomId peerId w
  = (Normal tt,
     mkWorld (clock w)
             (JsMap.set (rooms w) roomId
                (Room.with_peers room (JsMap.delete (Room.peers room) peerId)))
             (fold_left (fun e transport => transport_close transport e)
                        (JsMap.values (Peer.transports peer)) (engine w))
             (trace w ++ close_calls peer)
             (sockets w) (adapter w) (delivered w)).
Proof.
  intros Hroom Hpeer. unfold removePeer, bind at 1, gets. rewrite Hroom, Hpeer.
  unfold bind. rewrite forEach_close_exact. reflexivity.
Qed.

(** X5.  [removePeer] on a peer that is in the room returns normally,
    closes each of the peer's transports once, in the order of the
    peer's map, and makes no other call on the engine; afterwards the
    peer is gone, every other peer of the room and every other room are
    as before, and the room itself stays registered with its router, even
    when it has become empty. *)
Theorem removePeer_cascade (w : World E) (roomId peerId : string)
  (room : Room.t) (peer : Peer.t) :
  JsMap.get (rooms w) roomId = Some room ->
  JsMap.get (Room.peers room) peerId = Some peer ->
  let w' := snd (removePeer roomId peerId w) in
  fst (removePeer roomId peerId w) = Normal tt
  /\ trace w' = trace w ++ close_calls peer
  /\ lookup_peer (rooms w') roomId peerId = None
  /\ (forall q, q <> peerId ->
        lookup_peer (rooms w') roomId q = lookup_peer (rooms w) roomId q)
  /\ (forall r, r <> roomId -> JsMap.get (rooms w') r = JsMap.get (rooms w) r)
  /\ (exists room', JsMap.get (rooms w') roomId = Some room'
                    /\ Room.router room' = Room.router room)
  /\ sockets w' = sockets w /\ adapter w' = adapter w /\ delivered w' = delivered w.
Proof.
  intros Hroom Hpeer w'. subst w'.
  rewrite (removePeer_present w roomId peerId room peer Hroom Hpeer). simpl.
  unfold lookup_peer. rewrite get_set_same. simpl Room.peers.
  repeat split.
  - apply get_delete_same.
  - intros q Hq. rewrite Hroom. now apply get_delete_other.
  - intros r Hr. now apply get_set_other.
  - eexists. split; reflexivity.
Qed.

(** X6.  Removing a peer a second time does nothing: whatever the first
    [removePeer] found, a second one with the same arguments returns
    normally and leaves the state as the first one left it. *)
Theorem removePeer_idempotent (w : World E) (roomId peerId : string) :
  let w1 := snd (removePeer roomId peerId w) in
  removePeer roomId peerId w1 = (Normal tt, w1).
Proof.
  intros w1. subst w1.
  destruct (removePeer_effect w roomId peerId) as (w' & Hrun & Hgone & _).
  rewrite Hrun. simpl. now apply removePeer_absent.
Qed.

(** X7.  [addPeer] followed by [removePeer] of the same peer restores
    the whole state, when the room exists and did not hold that peer:
    the registry, the call trace and the engine are as before. *)
Theorem addPeer_removePeer_restores (w : World E)
  (roomId peerId userId username : string) (room : Room.t) :
  JsMap.get (rooms w) roomId = Some room ->
  JsMap.get (Room.peers room) peerId = None ->
  snd (removePeer roomId peerId (snd (addPeer roomId peerId userId username w))) = w.
Proof.
  intros Hroom Hnew.
  rewrite (addPeer_in_room w roomId peerId userId username room Hroom). simpl snd.
  erewrite removePeer_present.
  2:{ simpl rooms. apply get_set_same. }
  2:{ simpl Room.peers. apply get_set_same. }
  simpl. rewrite set_set, (set_absent _ _ _ Hnew).
  unfold JsMap.delete. rewrite filter_app. simpl. rewrite String.eqb_refl. simpl.
  rewrite app_nil_r. fold (JsMap.delete (Room.peers room) peerId).
  rewrite (delete_absent _ _ Hnew).
  replace (Room.with_peers _ (Room.peers room)) with room by now destruct room.
  rewrite (set_same _ _ _ Hroom), app_nil_r. now destruct w.
Qed.


Lemma deleteRoom_present (w : World E) (roomId : string) (room : Room.t) :
  JsMap.get (rooms w) roomId = Some room ->
  deleteRoom roomId w
  = (Normal tt,
     mkWorld (clock w) (JsMap.delete (rooms w) roomId)
             (router_close (Room.router room) (engine w))
             (trace w ++ [CloseRouter (Router.id (Room.router room))])
             (sockets w) (adapter w) (delivered w)).
Proof.
  intros Hroom. unfold deleteRoom, bind, gets, facade, modify. now rewrite Hroom.
Qed.

(** X8.  [deleteRoom] on an unknown room does nothing; on a known room
    it closes the router, unregisters the room (its peers with it) and
    leaves the other rooms alone, and a [createRoom] with the same
    identifier afterwards asks the engine for a new router. *)
Theorem deleteRoom_effect (w : World E) (roomId : string) :
  (JsMap.get (rooms w) roomId = None -> deleteRoom roomId w = (Normal tt, w))
  /\ (forall room : Room.t,
        JsMap.get (rooms w) roomId = Some room ->
        let w' := snd (deleteRoom roomId w) in
        fst (deleteRoom roomId w) = Normal tt
        /\ trace w' = trace w ++ [CloseRouter (Router.id (Room.router room))]
        /\ JsMap.get (rooms w') roomId = None
        /\ (forall r, r <> roomId -> JsMap.get (rooms w') r = JsMap.get (rooms w) r)
        /\ trace (snd (createRoom roomId w'))
           = trace w ++ [CloseRouter (Router.id (Room.router room)); CreateRouter]).
Proof.
  split.
  - intros Habsent. unfold deleteRoom, bind, gets, ret. now rewrite Habsent.
  - intros room Hroom w'. subst w'.
    rewrite (deleteRoom_present w roomId room Hroom). simpl.
    repeat split.
    + apply get_delete_same.
    + intros r Hr. now apply get_delete_other.
    + rewrite createRoom_absent by (simpl; apply get_delete_same). simpl.
      destruct (worker_createRouter _) as [[router|err] e']; simpl;
        now rewrite <- app_assoc.
Qed.

Lemma on_connectTransport_without_transport
  (w : World E) (sid roomId transportId dtlsParameters : string) :
  own_transport (rooms w) roomId sid transportId = None ->
  on_connectTransport sid roomId transportId dtlsParameters w
  = (ReplyError "Failed to connect transport", w).
Proof.
  unfold own_transport. intros Hnone.
  unfold on_connectTransport, try_handler, connectTransport, getPeer, bind, gets, throw.
  destruct (lookup_peer (rooms w) roomId sid) as [peer|]; [|reflexivity].
  now rewrite Hnone.
Qed.

Lemma on_produce_without_transport
  (w : World E) (sid roomId transportId kind rtpParameters : string) :
  own_transport (rooms w) roomId sid transportId = None ->
  on_produce sid roomId transportId kind rtpParameters w
  = (ReplyError "Failed to produce", w).
Proof.
  unfold own_transport. intros Hnone.
  unfold on_produce, try_handler, produce, getPeer, bind, gets, throw.
  destruct (lookup_peer (rooms w) roomId sid) as [peer|]; [|reflexivity].
  now rewrite Hnone.
Qed.

Lemma on_consume_without_transport
  (w : World E) (sid roomId transportId producerId rtpCapabilities : string) :
  own_transport (rooms w) roomId sid transportId = None ->
  on_consume sid roomId transportId producerId rtpCapabilities w
  = (ReplyError "Failed to consume", w).
Proof.
  unfold own_transport. intros Hnone.
  unfold on_consume, try_handler, consume, getPeer, bind, gets, throw.
  destruct (JsMap.get (rooms w) roomId) as [room|] eqn:Hroom; [|reflexivity].
  destruct (lookup_peer (rooms w) roomId sid) as [peer|]; [|reflexivity].
  now rewrite Hnone.
Qed.

(** X9.  A connection can only use a transport stored under its own
    peer in the room it names: with any other transport identifier – one
    of another peer, of another room, or unknown – the [connectTransport],
    [produce] and [consume] handlers answer with their error reply and
    change nothing; the engine is not called. *)
Theorem media_requests_need_own_transport
  (w : World E) (sid roomId transportId : string) :
  own_transport (rooms w) roomId sid transportId = None ->
  (forall dtlsParameters,
      on_connectTransport sid roomId transportId dtlsParameters w
      = (ReplyError "Failed to connect transport", w))
  /\ (forall kind rtpParameters,
        on_produce sid roomId transportId kind rtpParameters w
        = (ReplyError "Failed to produce", w))
  /\ (forall producerId rtpCapabilities,
        on_consume sid roomId transportId producerId rtpCapabilities w
        = (ReplyError "Failed to consume", w)).
Proof.
  intros Hnone. split; [|split]; intros.
  - now apply on_connectTransport_without_transport.
  - now apply on_produce_without_transport.
  - now apply on_consume_without_transport.
Qed.


Lemma update_peer_present (w : World E) (roomId peerId : string) (f : Peer.t -> Peer.t)
  (room : Room.t) (peer : Peer.t) :
  JsMap.get (rooms w) roomId = Some room ->
  JsMap.get (Room.peers room) peerId = Some peer ->
  update_peer roomId peerId f w
  = (Normal tt,
     set_rooms (JsMap.set (rooms w) roomId
                  (Room.with_peers room (JsMap.set (Room.peers room) peerId (f peer)))) w).
Proof. intros Hroom Hpeer. unfold update_peer, modify. now rewrite Hroom, Hpeer. Qed.

Lemma lookup_peer_put (rs : JsMap.t Room.t) (roomId peerId : string)
  (room : Room.t) (peer : Peer.t) :
  let rs' := JsMap.set rs roomId
               (Room.with_peers room (JsMap.set (Room.peers room) peerId peer)) in
  JsMap.get rs roomId = Some room ->
  lookup_peer rs' roomId peerId = Some peer
  /\ (forall q, q <> peerId -> lookup_peer rs' roomId q = lookup_peer rs roomId q)
  /\ (forall r q, r <> roomId -> lookup_peer rs' r q = lookup_peer rs r q).
Proof.
  intros rs' Hroom. subst rs'. unfold lookup_peer. repeat split.
  - rewrite get_set_same. simpl. apply get_set_same.
  - intros q Hq. rewrite get_set_same, Hroom. simpl. now apply get_set_other.
  - intros r q Hr. now rewrite get_set_other.
Qed.

Lemma createWebRtcTransport_success (w : World E) (sid roomId : string)
  (room : Room.t) (peer : Peer.t) (transport : Transport.t) (e' : E) :
  JsMap.get (rooms w) roomId = Some room ->
  JsMap.get (Room.peers room) sid = Some peer ->
  router_createWebRtcTransport (Room.router room) (engine w) = (Normal transport, e') ->
  createWebRtcTransport roomId sid w
  = (Normal (mkTransportParams (Transport.id transport)
               (Transport.iceParameters transport)
               (Transport.iceCandidates transport)
               (Transport.dtlsParameters transport)),
     mkWorld (clock w)
       (JsMap.set (rooms w) roomId
          (Room.with_peers room
             (JsMap.set (Room.peers room) sid
                (Peer.with_transports peer
                   (JsMap.set (Peer.transports peer) (Transport.id transport)
                              transport)))))
       e' (trace w ++ [CreateWebRtcTransport (Router.id (Room.router room))])
       (sockets w) (adapter w) (delivered w)).
Proof.
  intros Hroom Hpeer Hengine.
  unfold createWebRtcTransport.
  unfold bind at 1. unfold gets at 1. rewrite Hroom, Hpeer.
  unfold bind at 1. unfold facade. rewrite Hengine.
  unfold bind at 1.
  erewrite update_peer_present; [|exact Hroom|exact Hpeer].
  reflexivity.
Qed.




Lemma produce_success (w : World E) (sid roomId transportId kind rtpParameters : string)
  (room : Room.t) (peer : Peer.t) (transport : Transport.t)
  (producer : Producer.t) (e' : E) :
  JsMap.get (rooms w) roomId = Some room ->
  JsMap.get (Room.peers room) sid = Some peer ->
  JsMap.get (Peer.transports peer) transportId = Some transport ->
  transport_produce transport kind rtpParameters (engine w) = (Normal producer, e') ->
  produce roomId sid transportId kind rtpParameters w
  = (Normal (Producer.id producer),
     mkWorld (clock w)
       (JsMap.set (rooms w) roomId
          (Room.with_peers room
             (JsMap.set (Room.peers room) sid
                (Peer.with_producers peer
                   (JsMap.set (Peer.producers peer) (Producer.id producer) producer)))))
       e' (trace w ++ [Produce (Transport.id transport) kind rtpParameters])
       (sockets w) (adapter w) (delivered w)).
Proof.
  intros Hroom Hpeer Htransport Hengine.
  unfold produce, getPeer, lookup_peer.
  unfold bind at 1. unfold gets at 1. rewrite Hroom, Hpeer, Htransport.
  unfold bind at 1. unfold facade. rewrite Hengine.
  unfold bind at 1.
  erewrite update_peer_present; [|exact Hroom|exact Hpeer].
  reflexivity.
Qed.





Lemma on_consume_refused (w : World E)
  (sid roomId transportId producerId rtpCapabilities : string)
  (room : Room.t) (peer : Peer.t) (transport : Transport.t) :
  JsMap.get (rooms w) roomId = Some room ->
  JsMap.get (Room.peers room) sid = Some peer ->
  JsMap.get (Peer.transports peer) transportId = Some transport ->
  router_canConsume (Room.router room) producerId rtpCapabilities (engine w) = false ->
  on_consume sid roomId transportId producerId rtpCapabilities w
  = (ReplyError "Failed to consume",
     after_call w (engine w)
       (CanConsume (Router.id (Room.router room)) producerId rtpCapabilities)).
Proof.
  intros Hroom Hpeer Htransport Hcan.
  unfold on_consume, try_handler, consume, getPeer, lookup_peer, bind, gets, facade.
  rewrite Hroom. simpl. rewrite Hroom, Hpeer, Htransport, Hcan. reflexivity.
Qed.

Lemma on_consume_success (w : World E)
  (sid roomId transportId producerId rtpCapabilities : string)
  (room : Room.t) (peer : Peer.t) (transport : Transport.t)
  (consumer : Consumer.t) (e' : E) :
  JsMap.get (rooms w) roomId = Some room ->
  JsMap.get (Room.peers room) sid = Some peer ->
  JsMap.get (Peer.transports peer) transportId = Some transport ->
  router_canConsume (Room.router room) producerId rtpCapabilities (engine w) = true ->
  transport_consume transport producerId rtpCapabilities (engine w)
  = (Normal consumer, e') ->
  on_consume sid roomId transportId producerId rtpCapabilities w
  = (ReplyConsumer (mkConsumerParams (Consumer.id consumer) producerId
                      (Consumer.kind consumer) (Consumer.rtpParameters consumer)),
     mkWorld (clock w)
       (JsMap.set (rooms w) roomId
          (Room.with_peers room
             (JsMap.set (Room.peers room) sid
                (Peer.with_consumers peer
                   (JsMap.set (Peer.consumers peer) (Consumer.id consumer) consumer)))))
       e'
       (trace w
        ++ [CanConsume (Router.id (Room.router room)) producerId rtpCapabilities;
            Consume (Transport.id transport) producerId rtpCapabilities])
       (sockets w) (adapter w) (delivered w)).
Proof.
  intros Hroom Hpeer Htransport Hcan Hengine.
  unfold on_consume, try_handler, consume, getPeer, lookup_peer.
  unfold bind at 1 2. unfold gets at 1. rewrite Hroom.
  unfold bind at 1. unfold gets at 1. cbn [fst snd]. rewrite Hroom, Hpeer, Htransport.
  unfold bind at 1. unfold facade at 1. rewrite Hcan. cbn [negb].
  unfold bind at 1. unfold facade. cbn [engine]. rewrite Hengine.
  unfold bind at 1.
  erewrite update_peer_present; [|cbn [rooms]; exact Hroom|exact Hpeer].
  unfold bind, ret, set_rooms. cbn. now rewrite <- app_assoc.
Qed.


End RegistryMore.

(** ** Maps: keys *)

Lemma In_keys_get {V : Type} (m : JsMap.t V) (k : string) :
  In k (keys m) <-> JsMap.get m k <> None.
Proof.
  induction m as [|[k' v'] m IH]; simpl.
  - split; [contradiction|congruence].
  - destruct (String.eqb k' k) eqn:Hk.
    + apply String.eqb_eq in Hk. split; [discriminate|now left].
    + apply String.eqb_neq in Hk. rewrite <- IH. split; [|now right].
      intros [H|H]; [contradiction|assumption].
Qed.

Lemma In_entry_get {V : Type} (m : JsMap.t V) (k : string) (v : V) :
  In (k, v) m -> JsMap.get m k <> None.
Proof.
  intros Hin. apply In_keys_get. unfold keys. apply in_map_iff.
  now exists (k, v).
Qed.

Lemma In_set_inv {V : Type} (m : JsMap.t V) (k k' : string) (v v' : V) :
  In (k', v') (JsMap.set m k v) -> (k' = k /\ v' = v) \/ In (k', v') m.
Proof.
  induction m as [|[k0 v0] m IH]; simpl.
  - intros [[= <- <-]|[]]. now left.
  - destruct (String.eqb k0 k); simpl.
    + intros [[= <- <-]|H]; [now left|right; now right].
    + intros [H|H]; [right; now left|].
      destruct (IH H) as [?|?]; [now left|right; now right].
Qed.

Lemma In_keys_set {V : Type} (m : JsMap.t V) (k x : string) (v : V) :
  In x (keys (JsMap.set m k v)) -> x = k \/ In x (keys m).
Proof.
  unfold keys. intros Hin. apply in_map_iff in Hin as [[k' v'] [<- Hin]].
  destruct (In_set_inv m k k' v v' Hin) as [[-> _]|H]; [now left|right].
  apply in_map_iff. now exists (k', v').
Qed.

Lemma NoDup_keys_set {V : Type} (m : JsMap.t V) (k : string) (v : V) :
  NoDup (keys m) -> NoDup (keys (JsMap.set m k v)).
Proof.
  induction m as [|[k' v'] m IH]; simpl; intros Hnd.
  - constructor; [intros []|constructor].
  - inversion Hnd as [|? ? Hnotin Hrest]; subst.
    destruct (String.eqb k' k) eqn:Hk; simpl.
    + apply String.eqb_eq in Hk. subst k'. now constructor.
    + apply String.eqb_neq in Hk. constructor; [|now apply IH].
      intros Hin. destruct (In_keys_set m k k' v Hin) as [?|?]; congruence.
Qed.

Lemma In_delete_inv {V : Type} (m : JsMap.t V) (k k' : string) (v' : V) :
  In (k', v') (JsMap.delete m k) -> In (k', v') m /\ k' <> k.
Proof.
  unfold JsMap.delete. intros Hin. apply filter_In in Hin as [Hin Hk].
  split; [assumption|]. simpl in Hk. apply negb_true_iff in Hk.
  now apply String.eqb_neq.
Qed.

Lemma NoDup_keys_delete {V : Type} (m : JsMap.t V) (k : string) :
  NoDup (keys m) -> NoDup (keys (JsMap.delete m k)).
Proof.
  induction m as [|[k' v'] m IH]; simpl; intros Hnd; [constructor|].
  inversion Hnd as [|? ? Hnotin Hrest]; subst.
  destruct (String.eqb k' k); simpl; [now apply IH|].
  constructor; [|now apply IH].
  intros Hin. apply Hnotin. unfold keys in *.
  apply in_map_iff in Hin as [[k0 v0] [Hk0 Hin]]. simpl in Hk0. subst k0.
  apply In_delete_inv in Hin as [Hin _]. apply in_map_iff. now exists (k', v0).
Qed.

Lemma keyed_empty {V : Type} (id : V -> string) : keyed id JsMap.empty.
Proof. split; [constructor|intros k v []]. Qed.

Lemma keyed_set {V : Type} (id : V -> string) (m : JsMap.t V) (k : string) (v : V) :
  keyed id m -> id v = k -> keyed id (JsMap.set m k v).
Proof.
  intros [Hnd Hid] Hv. split; [now apply NoDup_keys_set|].
  intros k' v' Hin. destruct (In_set_inv m k k' v v' Hin) as [[-> ->]|H]; auto.
Qed.

Lemma keyed_delete {V : Type} (id : V -> string) (m : JsMap.t V) (k : string) :
  keyed id m -> keyed id (JsMap.delete m k).
Proof.
  intros [Hnd Hid]. split; [now apply NoDup_keys_delete|].
  intros k' v' Hin. apply In_delete_inv in Hin as [Hin _]. auto.
Qed.

(** ** Well-formed registries under the updates of room.ts *)

Lemma wf_rooms_get (rs : JsMap.t Room.t) (roomId : string) (room : Room.t) :
  wf_rooms rs -> JsMap.get rs roomId = Some room ->
  wf_room room /\ Room.id room = roomId.
Proof.
  intros [[_ Hid] Hwf] Hget. apply get_In in Hget. split; eauto.
Qed.

Lemma wf_room_get (room : Room.t) (peerId : string) (peer : Peer.t) :
  wf_room room -> JsMap.get (Room.peers room) peerId = Some peer ->
  wf_peer peer /\ Peer.id peer = peerId.
Proof.
  intros [[_ Hid] Hwf] Hget. apply get_In in Hget. split; eauto.
Qed.

Lemma wf_rooms_set (rs : JsMap.t Room.t) (roomId : string) (room : Room.t) :
  wf_rooms rs -> wf_room room -> Room.id room = roomId ->
  wf_rooms (JsMap.set rs roomId room).
Proof.
  intros [Hkeyed Hwf] Hroom Hid. split; [now apply keyed_set|].
  intros k r Hin. destruct (In_set_inv rs roomId k room r Hin) as [[_ ->]|H]; eauto.
Qed.

Lemma wf_room_put (room : Room.t) (peerId : string) (peer : Peer.t) :
  wf_room room -> wf_peer peer -> Peer.id peer = peerId ->
  wf_room (Room.with_peers room (JsMap.set (Room.peers room) peerId peer)).
Proof.
  intros [Hkeyed Hwf] Hpeer Hid. split; simpl; [now apply keyed_set|].
  intros k p Hin.
  destruct (In_set_inv _ peerId k peer p Hin) as [[_ ->]|H]; eauto.
Qed.

Lemma wf_room_remove (room : Room.t) (peerId : string) :
  wf_room room ->
  wf_room (Room.with_peers room (JsMap.delete (Room.peers room) peerId)).
Proof.
  intros [Hkeyed Hwf]. split; simpl; [now apply keyed_delete|].
  intros k p Hin. apply In_delete_inv in Hin as [Hin _]. eauto.
Qed.

Lemma wf_peer_fresh (peerId userId username : string) :
  wf_peer (Peer.mk peerId userId username JsMap.empty JsMap.empty JsMap.empty).
Proof. repeat split; try constructor; intros k v []. Qed.

Lemma rooms_stay_refl (rs : JsMap.t Room.t) : rooms_stay rs rs.
Proof. intros r room Hroom. now exists room. Qed.

Lemma rooms_stay_trans (rs1 rs2 rs3 : JsMap.t Room.t) :
  rooms_stay rs1 rs2 -> rooms_stay rs2 rs3 -> rooms_stay rs1 rs3.
Proof.
  intros H12 H23 r room Hroom.
  destruct (H12 r room Hroom) as (room2 & Hroom2 & Hi2 & Hr2 & Hc2).
  destruct (H23 r room2 Hroom2) as (room3 & Hroom3 & Hi3 & Hr3 & Hc3).
  exists room3. repeat split; congruence.
Qed.

(** The peers of a room change; the room stays. *)
Lemma rooms_stay_peers (rs : JsMap.t Room.t) (roomId : string) (room : Room.t)
  (peers : JsMap.t Peer.t) :
  JsMap.get rs roomId = Some room ->
  rooms_stay rs (JsMap.set rs roomId (Room.with_peers room peers)).
Proof.
  intros Hroom r found Hfound.
  destruct (String.eqb_spec r roomId) as [->|Hne].
  - rewrite get_set_same. eexists. split; [reflexivity|].
    assert (found = room) by congruence. subst found. now destruct room.
  - rewrite get_set_other by exact Hne. now exists found.
Qed.

Lemma rooms_stay_new (rs : JsMap.t Room.t) (roomId : string) (room : Room.t) :
  JsMap.get rs roomId = None -> rooms_stay rs (JsMap.set rs roomId room).
Proof.
  intros Habsent r found Hfound.
  destruct (String.eqb_spec r roomId) as [->|Hne]; [congruence|].
  rewrite get_set_other by exact Hne. now exists found.
Qed.

Lemma registry_only_refl {E : Type} (w : World E) : registry_only w w.
Proof.
  unfold registry_only, peers_kept. pose proof (rooms_stay_refl (rooms w)).
  intuition auto.
Qed.

Lemma registry_only_trans {E : Type} (w1 w2 w3 : World E) :
  registry_only w1 w2 -> registry_only w2 w3 -> registry_only w1 w3.
Proof.
  intros (Hwf1 & Hk1 & Ha1 & Hd1 & Hs1 & Hc1 & Hr1)
         (Hwf2 & Hk2 & Ha2 & Hd2 & Hs2 & Hc2 & Hr2).
  split; [auto|]. split; [intros r q Hin; apply Hk2, Hk1, Hin|].
  split; [congruence|]. split; [congruence|]. split; [congruence|].
  split; [congruence|]. exact (rooms_stay_trans _ _ _ Hr1 Hr2).
Qed.

Lemma registry_only_frame {E : Type} (w w' : World E) :
  rooms w' = rooms w -> adapter w' = adapter w -> delivered w' = delivered w ->
  sockets w' = sockets w -> clock w' = clock w ->
  registry_only w w'.
Proof.
  intros Hr Ha Hd Hs Hc. unfold registry_only, peers_kept.
  rewrite Hr. pose proof (rooms_stay_refl (rooms w)). intuition auto.
Qed.

Lemma peers_kept_put (rs : JsMap.t Room.t) (roomId peerId : string)
  (room : Room.t) (peer : Peer.t) :
  JsMap.get rs roomId = Some room ->
  peers_kept rs (JsMap.set rs roomId
                   (Room.with_peers room (JsMap.set (Room.peers room) peerId peer))).
Proof.
  intros Hroom r q Hin.
  destruct (lookup_peer_put rs roomId peerId room peer Hroom) as (Hsame & Hq & Hr).
  destruct (String.eqb r roomId) eqn:Er.
  - apply String.eqb_eq in Er. subst r.
    destruct (String.eqb q peerId) eqn:Eq.
    + apply String.eqb_eq in Eq. subst q. rewrite Hsame. discriminate.
    + apply String.eqb_neq in Eq. now rewrite Hq.
  - apply String.eqb_neq in Er. now rewrite Hr.
Qed.

Lemma registry_only_put {E : Type} (w w' : World E) (roomId peerId : string)
  (room : Room.t) (peer : Peer.t) :
  JsMap.get (rooms w) roomId = Some room ->
  (wf_rooms (rooms w) -> wf_peer peer /\ Peer.id peer = peerId) ->
  rooms w' = JsMap.set (rooms w) roomId
               (Room.with_peers room (JsMap.set (Room.peers room) peerId peer)) ->
  adapter w' = adapter w -> delivered w' = delivered w ->
  sockets w' = sockets w -> clock w' = clock w ->
  registry_only w w'.
Proof.
  intros Hroom Hpeer Hr Ha Hd Hs Hc.
  split; [|split; [|do 4 (split; [assumption|])]]; rewrite Hr.
  - intros Hwf. destruct (Hpeer Hwf) as [Hwfp Hid].
    destruct (wf_rooms_get _ _ _ Hwf Hroom) as [Hwfr Hrid].
    apply wf_rooms_set; [assumption| |exact Hrid].
    now apply wf_room_put.
  - now apply peers_kept_put.
  - now apply rooms_stay_peers.
Qed.

Lemma registry_only_new_room {E : Type} (w w' : World E) (roomId : string)
  (router : Router.t) (now : Z) :
  JsMap.get (rooms w) roomId = None ->
  rooms w' = JsMap.set (rooms w) roomId (Room.mk roomId router JsMap.empty now) ->
  adapter w' = adapter w -> delivered w' = delivered w ->
  sockets w' = sockets w -> clock w' = clock w ->
  registry_only w w'.
Proof.
  intros Habsent Hr Ha Hd Hs Hc.
  split; [|split; [|do 4 (split; [assumption|])]]; rewrite Hr.
  - intros Hwf. apply wf_rooms_set; [assumption| |reflexivity].
    split; [apply keyed_empty|intros k p []].
  - intros r q Hin. unfold lookup_peer in *.
    destruct (String.eqb r roomId) eqn:Er.
    + apply String.eqb_eq in Er. subst r. now rewrite Habsent in Hin.
    + apply String.eqb_neq in Er. now rewrite get_set_other.
  - now apply rooms_stay_new.
Qed.

Lemma wf_peer_transport (peer : Peer.t) (transport : Transport.t) :
  wf_peer peer ->
  wf_peer (Peer.with_transports peer
             (JsMap.set (Peer.transports peer) (Transport.id transport) transport)).
Proof.
  intros (Ht & Hp & Hc). repeat split; try apply Hp; try apply Hc; simpl.
  - now apply NoDup_keys_set, Ht.
  - now apply keyed_set.
Qed.

Lemma wf_peer_producer (peer : Peer.t) (producer : Producer.t) :
  wf_peer peer ->
  wf_peer (Peer.with_producers peer
             (JsMap.set (Peer.producers peer) (Producer.id producer) producer)).
Proof.
  intros (Ht & Hp & Hc). repeat split; try apply Ht; try apply Hc; simpl.
  - now apply NoDup_keys_set, Hp.
  - now apply keyed_set.
Qed.

Lemma wf_peer_consumer (peer : Peer.t) (consumer : Consumer.t) :
  wf_peer peer ->
  wf_peer (Peer.with_consumers peer
             (JsMap.set (Peer.consumers peer) (Consumer.id consumer) consumer)).
Proof.
  intros (Ht & Hp & Hc). repeat split; try apply Ht; try apply Hp; simpl.
  - now apply NoDup_keys_set, Hc.
  - now apply keyed_set.
Qed.

Section Preservation.

Context {E : Type} {media : MediaEngine E}.

Lemma wf_stored_peer (w : World E) (roomId peerId : string)
  (room : Room.t) (peer : Peer.t) :
  JsMap.get (rooms w) roomId = Some room ->
  JsMap.get (Room.peers room) peerId = Some peer ->
  wf_rooms (rooms w) -> wf_peer peer /\ Peer.id peer = peerId.
Proof.
  intros Hroom Hpeer Hwf.
  destruct (wf_rooms_get _ _ _ Hwf Hroom) as [Hwfr _].
  now apply wf_room_get with (room := room).
Qed.

Lemma createRoom_registry_only (w : World E) (roomId : string) :
  registry_only w (snd (createRoom roomId w)).
Proof.
  destruct (JsMap.get (rooms w) roomId) as [room|] eqn:Hroom.
  - rewrite (createRoom_existing w roomId room Hroom). apply registry_only_refl.
  - rewrite (createRoom_absent w roomId Hroom).
    destruct (worker_createRouter (engine w)) as [[router|err] e'].
    + now apply registry_only_new_room with (roomId := roomId) (router := router)
                                             (now := clock w).
    + now apply registry_only_frame.
Qed.

Lemma addPeer_registry_only (w : World E) (roomId peerId userId username : string) :
  registry_only w (snd (addPeer roomId peerId userId username w)).
Proof.
  destruct (JsMap.get (rooms w) roomId) as [room|] eqn:Hroom.
  - rewrite (addPeer_in_room w roomId peerId userId username room Hroom).
    eapply registry_only_put; try reflexivity; [exact Hroom|].
    intros _. split; [apply wf_peer_fresh|reflexivity].
  - rewrite (addPeer_missing_room w roomId peerId userId username Hroom).
    apply registry_only_refl.
Qed.

Lemma createWebRtcTransport_registry_only (w : World E) (roomId peerId : string) :
  registry_only w (snd (createWebRtcTransport roomId peerId w)).
Proof.
  destruct (JsMap.get (rooms w) roomId) as [room|] eqn:Hroom.
  2:{ unfold createWebRtcTransport, bind, gets, throw. rewrite Hroom.
      apply registry_only_refl. }
  destruct (JsMap.get (Room.peers room) peerId) as [peer|] eqn:Hpeer.
  2:{ unfold createWebRtcTransport, bind, gets, throw. rewrite Hroom, Hpeer.
      apply registry_only_refl. }
  destruct (router_createWebRtcTransport (Room.router room) (engine w))
    as [[transport|err] e'] eqn:Hengine.
  - rewrite (createWebRtcTransport_success w peerId roomId room peer transport e'
               Hroom Hpeer Hengine).
    eapply registry_only_put; try reflexivity; [exact Hroom|].
    intros Hwf. destruct (wf_stored_peer w roomId peerId room peer Hroom Hpeer Hwf).
    split; [now apply wf_peer_transport|assumption].
  - unfold createWebRtcTransport, bind, gets, facade. rewrite Hroom, Hpeer, Hengine.
    now apply registry_only_frame.
Qed.

Lemma connectTransport_registry_only
  (w : World E) (roomId peerId transportId dtlsParameters : string) :
  registry_only w (snd (connectTransport roomId peerId transportId dtlsParameters w)).
Proof.
  unfold connectTransport, getPeer, bind, gets, throw, facade.
  destruct (lookup_peer (rooms w) roomId peerId) as [peer|];
    [|apply registry_only_refl].
  destruct (JsMap.get (Peer.transports peer) transportId) as [transport|];
    [|apply registry_only_refl].
  destruct (transport_connect transport dtlsParameters (engine w)) as [[[]|err] e'];
    now apply registry_only_frame.
Qed.

Lemma produce_registry_only
  (w : World E) (roomId peerId transportId kind rtpParameters : string) :
  registry_only w (snd (produce roomId peerId transportId kind rtpParameters w)).
Proof.
  destruct (JsMap.get (rooms w) roomId) as [room|] eqn:Hroom.
  2:{ unfold produce, getPeer, lookup_peer, bind, gets, throw. rewrite Hroom.
      apply registry_only_refl. }
  destruct (JsMap.get (Room.peers room) peerId) as [peer|] eqn:Hpeer.
  2:{ unfold produce, getPeer, lookup_peer, bind, gets, throw. rewrite Hroom, Hpeer.
      apply registry_only_refl. }
  destruct (JsMap.get (Peer.transports peer) transportId) as [transport|] eqn:Htr.
  2:{ unfold produce, getPeer, lookup_peer, bind, gets, throw.
      rewrite Hroom, Hpeer, Htr. apply registry_only_refl. }
  destruct (transport_produce transport kind rtpParameters (engine w))
    as [[producer|err] e'] eqn:Hengine.
  - rewrite (produce_success w peerId roomId transportId kind rtpParameters room peer
               transport producer e' Hroom Hpeer Htr Hengine).
    eapply registry_only_put; try reflexivity; [exact Hroom|].
    intros Hwf. destruct (wf_stored_peer w roomId peerId room peer Hroom Hpeer Hwf).
    split; [now apply wf_peer_producer|assumption].
  - unfold produce, getPeer, lookup_peer, bind, gets, facade.
    rewrite Hroom, Hpeer, Htr, Hengine. now apply registry_only_frame.
Qed.


Lemma snd_try_handler (body : M E Reply) (failure : string) (w : World E) :
  snd (try_handler body failure w) = snd (body w).
Proof. unfold try_handler. now destruct (body w) as [[r|err] w']. Qed.

Lemma snd_bind {A B : Type} (m : M E A) (k : A -> M E B) (w : World E) :
  snd (bind m k w)
  = match m w with
    | (Normal a, w') => snd (k a w')
    | (Throw _, w') => w'
    end.
Proof. unfold bind. now destruct (m w) as [[a|err] w']. Qed.

Lemma on_consume_registry_only
  (w : World E) (sid roomId transportId producerId rtpCapabilities : string) :
  registry_only w (snd (on_consume sid roomId transportId producerId rtpCapabilities w)).
Proof.
  destruct (own_transport (rooms w) roomId sid transportId) as [transport|] eqn:Hown.
  2:{ rewrite (on_consume_without_transport w sid roomId transportId producerId
                 rtpCapabilities Hown).
      apply registry_only_refl. }
  unfold own_transport, lookup_peer in Hown.
  destruct (JsMap.get (rooms w) roomId) as [room|] eqn:Hroom; [|discriminate].
  destruct (JsMap.get (Room.peers room) sid) as [peer|] eqn:Hpeer; [|discriminate].
  destruct (router_canConsume (Room.router room) producerId rtpCapabilities (engine w))
    eqn:Hcan.
  - destruct (transport_consume transport producerId rtpCapabilities (engine w))
      as [[consumer|err] e'] eqn:Hengine.
    + rewrite (on_consume_success w sid roomId transportId producerId rtpCapabilities
                 room peer transport consumer e' Hroom Hpeer Hown Hcan Hengine).
      eapply registry_only_put; try reflexivity; [exact Hroom|].
      intros Hwf. destruct (wf_stored_peer w roomId sid room peer Hroom Hpeer Hwf).
      split; [now apply wf_peer_consumer|assumption].
    + rewrite (on_consume_engine_error w sid roomId transportId producerId
                 rtpCapabilities room peer transport err e'
                 Hroom Hpeer Hown Hcan Hengine).
      now apply registry_only_frame.
  - rewrite (on_consume_refused w sid roomId transportId producerId rtpCapabilities
               room peer transport Hroom Hpeer Hown Hcan).
    now apply registry_only_frame.
Qed.

Lemma members_frame (w w' : World E) (r : string) :
  adapter w' = adapter w -> members w' r = members w r.
Proof. intros Ha. unfold members. now rewrite Ha. Qed.

Lemma invariant_registry_only (w w' : World E) :
  invariant w -> registry_only w w' -> invariant w'.
Proof.
  intros (Hwf & Hnd & Hmem & Hdel) (Hwf' & Hkept & Ha & Hd & _).
  split; [auto|]. split; [|split].
  - intros r. rewrite (members_frame w w' r Ha). apply Hnd.
  - intros r sid. rewrite (members_frame w w' r Ha). intros Hin.
    apply Hkept, Hmem, Hin.
  - now rewrite Hd.
Qed.

(** An event about [sid] sent to the others of a list. *)
Lemma invariant_emit (w : World E) (sid room : string) (ev : Event) :
  subject ev = sid ->
  invariant w -> invariant (snd (socket_to_emit sid room ev w)).
Proof.
  intros Hsubject (Hwf & Hnd & Hmem & Hdel).
  unfold socket_to_emit, modify, set_delivered. cbn [snd].
  split; [exact Hwf|]. split; [exact Hnd|]. split; [exact Hmem|].
  cbn [delivered]. apply Forall_app. split; [exact Hdel|].
  apply Forall_forall. intros d Hin.
  apply in_map_iff in Hin as [r [<- Hin]]. apply filter_In in Hin as [_ Hr].
  cbn [fst snd]. rewrite Hsubject. apply negb_true_iff in Hr.
  apply String.eqb_neq in Hr. congruence.
Qed.


Lemma members_set (w : World E) (room r : string) (l : list string) :
  members (set_adapter (JsMap.set (adapter w) room l) w) r
  = if String.eqb r room then l else members w r.
Proof.
  unfold members, set_adapter. cbn [adapter].
  destruct (String.eqb r room) eqn:Er.
  - apply String.eqb_eq in Er. subst r. now rewrite get_set_same.
  - apply String.eqb_neq in Er. now rewrite get_set_other.
Qed.

Lemma existsb_eqb_In (sid : string) (l : list string) :
  existsb (String.eqb sid) l = true <-> In sid l.
Proof.
  rewrite existsb_exists. split.
  - intros [x [Hin Hx]]. apply String.eqb_eq in Hx. now subst.
  - intros Hin. exists sid. split; [assumption|apply String.eqb_refl].
Qed.

Lemma invariant_join (w : World E) (sid room : string) :
  lookup_peer (rooms w) room sid <> None ->
  invariant w -> invariant (snd (socket_join sid room w)).
Proof.
  intros Hpeer Hinv. unfold socket_join, modify. cbn [snd].
  destruct (existsb (String.eqb sid) (members w room)) eqn:Hmember; [exact Hinv|].
  destruct Hinv as (Hwf & Hnd & Hmem & Hdel).
  assert (Hnotin : ~ In sid (members w room)).
  { intros Hin. apply existsb_eqb_In in Hin. congruence. }
  split; [exact Hwf|]. split; [|split; [|exact Hdel]].
  - intros r. rewrite members_set. destruct (String.eqb r room); [|apply Hnd].
    apply NoDup_app; [apply Hnd|constructor; [intros []|constructor]|].
    intros x Hx [<-|[]]. contradiction.
  - intros r q. rewrite members_set. cbn [rooms set_adapter].
    destruct (String.eqb r room) eqn:Er; [|apply Hmem].
    apply String.eqb_eq in Er. subst r. intros Hin.
    apply in_app_or in Hin as [Hin|[<-|[]]]; [now apply Hmem|exact Hpeer].
Qed.

Lemma invariant_sockets (w : World E) (m : JsMap.t SocketData) :
  invariant w -> invariant (set_sockets m w).
Proof. intros Hinv. exact Hinv. Qed.


Lemma addPeer_registers (w : World E) (roomId peerId userId username : string) :
  JsMap.get (rooms w) roomId <> None ->
  exists peer,
    fst (addPeer roomId peerId userId username w) = Normal peer
    /\ lookup_peer (rooms (snd (addPeer roomId peerId userId username w))) roomId peerId
       <> None.
Proof.
  intros Hroom. destruct (JsMap.get (rooms w) roomId) as [room|] eqn:Hget;
    [|congruence].
  rewrite (addPeer_in_room w roomId peerId userId username room Hget).
  eexists. split; [reflexivity|]. cbn [snd rooms set_rooms].
  unfold lookup_peer. rewrite get_set_same. cbn [Room.with_peers Room.peers].
  rewrite get_set_same. discriminate.
Qed.

Lemma socket_join_runs (w : World E) (sid room : string) :
  socket_join sid room w = (Normal tt, snd (socket_join sid room w)).
Proof. reflexivity. Qed.

Lemma socket_to_emit_runs (w : World E) (sid room : string) (ev : Event) :
  socket_to_emit sid room ev w = (Normal tt, snd (socket_to_emit sid room ev w)).
Proof. reflexivity. Qed.

Lemma join_tail_invariant (w : World E) (sid roomId userId username : string) :
  invariant w ->
  JsMap.get (rooms w) roomId <> None ->
  invariant
    (snd ((addPeer roomId sid userId username ;;
           socket_join sid roomId ;;
           modify (fun w0 : World E =>
                     set_sockets
                       (JsMap.set (sockets w0) sid
                          (mkSocketData (Some roomId) (Some userId) (Some username)))
                       w0) ;;
           rs <- gets rooms ;;
           socket_to_emit sid roomId (newPeer sid userId username) ;;
           ret (ReplyJoined
                  (filter (fun p : PeerInfo => negb (String.eqb (pi_peerId p) sid))
                          (getRoomPeers rs roomId)))) w)).
Proof.
  intros Hinv Hroom. rewrite snd_bind.
  destruct (addPeer_registers w roomId sid userId username Hroom)
    as (peer & Hfst & Hlookup).
  pose proof (invariant_registry_only _ _ Hinv
                (addPeer_registry_only w roomId sid userId username)) as Hinv2.
  destruct (addPeer roomId sid userId username w) as [c w2].
  cbn [fst snd] in *. subst c.
  rewrite snd_bind, socket_join_runs.
  pose proof (invariant_join w2 sid roomId Hlookup Hinv2) as Hinv3.
  set (w3 := snd (socket_join sid roomId w2)) in *.
  rewrite snd_bind. unfold modify at 1.
  rewrite snd_bind. unfold gets at 1.
  rewrite snd_bind, socket_to_emit_runs. unfold ret. cbn [snd].
  apply invariant_emit; [reflexivity|]. now apply invariant_sockets.
Qed.

Lemma on_joinRoom_invariant (w : World E) (sid : string) (data : JoinData) :
  invariant w -> invariant (snd (on_joinRoom sid data w)).
Proof.
  intros Hinv. unfold on_joinRoom. rewrite snd_try_handler.
  destruct (negb (truthy (jd_roomId data)) || negb (truthy (jd_userId data))
            || negb (truthy (jd_username data))); [exact Hinv|].
  destruct (jd_roomId data) as [roomId|]; [|exact Hinv].
  destruct (jd_userId data) as [userId|]; [|exact Hinv].
  destruct (jd_username data) as [username|]; [|exact Hinv].
  rewrite snd_bind. unfold gets at 1.
  destruct (isMeetingExpired (clock w) roomId); [exact Hinv|].
  rewrite snd_bind. unfold getRoom, gets at 1.
  destruct (JsMap.get (rooms w) roomId) as [room|] eqn:Hroom.
  - rewrite snd_bind. unfold ret at 1.
    apply join_tail_invariant; [exact Hinv|congruence].
  - rewrite snd_bind.
    pose proof (invariant_registry_only _ _ Hinv (createRoom_registry_only w roomId))
      as Hinv1.
    unfold bind at 1. revert Hinv1. rewrite (createRoom_absent w roomId Hroom).
    destruct (worker_createRouter (engine w)) as [[router|err] e']; cbn [snd];
      intros Hinv1; [|exact Hinv1].
    unfold ret at 1. apply join_tail_invariant; [exact Hinv1|].
    cbn [rooms]. rewrite get_set_same. discriminate.
Qed.


Lemma removePeer_keeps_others (w : World E) (roomId peerId : string) :
  exists w1 : World E,
    removePeer roomId peerId w = (Normal tt, w1)
    /\ (wf_rooms (rooms w) -> wf_rooms (rooms w1))
    /\ (forall r q, r <> roomId \/ q <> peerId ->
          lookup_peer (rooms w) r q <> None -> lookup_peer (rooms w1) r q <> None)
    /\ adapter w1 = adapter w
    /\ delivered w1 = delivered w.
Proof.
  destruct (JsMap.get (rooms w) roomId) as [room|] eqn:Hroom.
  2:{ exists w. rewrite removePeer_absent by (unfold lookup_peer; now rewrite Hroom).
      split; [reflexivity|]. split; [auto|]. split; [auto|]. now split. }
  destruct (JsMap.get (Room.peers room) peerId) as [peer|] eqn:Hpeer.
  2:{ exists w.
      rewrite removePeer_absent by (unfold lookup_peer; now rewrite Hroom, Hpeer).
      split; [reflexivity|]. split; [auto|]. split; [auto|]. now split. }
  rewrite (removePeer_present w roomId peerId room peer Hroom Hpeer).
  eexists. split; [reflexivity|]. cbn [rooms adapter delivered].
  split; [|split; [|now split]].
  - intros Hwf. destruct (wf_rooms_get _ _ _ Hwf Hroom) as [Hwfr Hid].
    apply wf_rooms_set; [assumption|now apply wf_room_remove|exact Hid].
  - intros r q Hrq. unfold lookup_peer.
    destruct (String.eqb r roomId) eqn:Er.
    + apply String.eqb_eq in Er. subst r. rewrite get_set_same, Hroom.
      cbn [Room.with_peers Room.peers].
      destruct Hrq as [Hr|Hq]; [congruence|]. now rewrite get_delete_other.
    + apply String.eqb_neq in Er. now rewrite get_set_other.
Qed.

Lemma handleDisconnect_invariant (w : World E) (sid : string) :
  invariant w -> invariant (snd (handleDisconnect sid w)).
Proof.
  intros Hinv. unfold handleDisconnect. rewrite snd_bind.
  unfold socket_data, gets at 1.
  set (data := match JsMap.get (sockets w) sid with
               | Some d => d
               | None => no_data
               end).
  destruct (truthy (sd_roomId data)); [|exact Hinv].
  destruct (sd_roomId data) as [roomId|]; [|exact Hinv].
  rewrite snd_bind.
  destruct (removePeer_keeps_others w roomId sid) as (w1 & -> & Hwf1 & Hkept & Ha & Hd).
  rewrite snd_bind, socket_to_emit_runs.
  destruct Hinv as (Hwf & Hnd & Hmem & Hdel).
  assert (Hinv1 : invariant (set_adapter
                               (JsMap.set (adapter w1) roomId
                                  (filter (fun r => negb (String.eqb r sid))
                                          (members w1 roomId))) w1)).
  { split; [now apply Hwf1|].
    split; [|split; [|unfold set_adapter; cbn [delivered]; now rewrite Hd]].
    - intros r. rewrite members_set, (members_frame w w1 roomId Ha).
      destruct (String.eqb r roomId).
      + apply NoDup_filter, Hnd.
      + rewrite (members_frame w w1 r Ha). apply Hnd.
    - intros r q. rewrite members_set, (members_frame w w1 roomId Ha).
      cbn [rooms set_adapter].
      destruct (String.eqb r roomId) eqn:Er.
      + apply String.eqb_eq in Er. subst r. intros Hin.
        apply filter_In in Hin as [Hin Hq]. apply negb_true_iff in Hq.
        apply String.eqb_neq in Hq. apply Hkept; [now right|now apply Hmem].
      + apply String.eqb_neq in Er. rewrite (members_frame w w1 r Ha).
        intros Hin. apply Hkept; [now left|now apply Hmem]. }
  unfold socket_leave, modify. cbn [snd].
  destruct Hinv1 as (Hwf2 & Hnd2 & Hmem2 & Hdel2).
  split; [exact Hwf2|]. split; [exact Hnd2|]. split; [exact Hmem2|].
  unfold socket_to_emit, modify, set_delivered, set_adapter. cbn [snd delivered].
  apply Forall_app. split; [now rewrite Hd|].
  apply Forall_forall. intros d Hin.
  apply in_map_iff in Hin as [r [<- Hin]]. apply filter_In in Hin as [_ Hr].
  cbn [fst snd subject]. apply negb_true_iff in Hr.
  apply String.eqb_neq in Hr. congruence.
Qed.

Lemma get_map_values {V : Type} (g : V -> V) (m : JsMap.t V) (k : string) :
  JsMap.get (map (fun entry => (fst entry, g (snd entry))) m) k
  = option_map g (JsMap.get m k).
Proof.
  induction m as [|[k' v'] m IH]; simpl; [reflexivity|].
  destruct (String.eqb k' k); [reflexivity|exact IH].
Qed.

Lemma leave_all_invariant (w : World E) (sid : string) :
  invariant w -> invariant (snd (leave_all sid w)).
Proof.
  intros (Hwf & Hnd & Hmem & Hdel). unfold leave_all, modify. cbn [snd].
  assert (Hmembers : forall r,
             members (set_adapter
                        (map (fun entry =>
                                (fst entry,
                                 filter (fun r => negb (String.eqb r sid)) (snd entry)))
                             (adapter w)) w) r
             = filter (fun r => negb (String.eqb r sid)) (members w r)).
  { intros r. unfold members, set_adapter. cbn [adapter].
    rewrite (get_map_values (filter (fun r => negb (String.eqb r sid)))).
    now destruct (JsMap.get (adapter w) r). }
  split; [exact Hwf|]. split; [|split; [|exact Hdel]].
  - intros r. rewrite Hmembers. apply NoDup_filter, Hnd.
  - intros r q. rewrite Hmembers. cbn [rooms set_adapter]. intros Hin.
    apply filter_In in Hin as [Hin _]. now apply Hmem.
Qed.


Lemma snd_reply_handler {A : Type} (m : M E A) (reply : A -> Reply)
  (failure : string) (w : World E) :
  snd (try_handler (a <- m ;; ret (reply a)) failure w) = snd (m w).
Proof.
  rewrite snd_try_handler, snd_bind. now destruct (m w) as [[a|err] w'].
Qed.

Lemma handle_invariant (w : World E) (sid : string) (request : Request) :
  invariant w -> invariant (snd (handle sid request w)).
Proof.
  intros Hinv.
  destruct request
    as [randomBytes|data|roomId|roomId|roomId transportId dtlsParameters
        |roomId transportId kind' rtpParameters
        |roomId transportId producerId rtpCapabilities|roomId| | ];
    cbn [handle snd].
  - unfold on_createRoom. rewrite snd_try_handler, snd_bind. unfold gets at 1.
    rewrite snd_bind.
    pose proof (invariant_registry_only _ _ Hinv
                  (createRoom_registry_only w (generateMeetingId randomBytes (clock w))))
      as Hinv1.
    now destruct (createRoom _ w) as [[room|err] w1].
  - now apply on_joinRoom_invariant.
  - unfold on_getRouterRtpCapabilities, getRouterRtpCapabilities, try_handler,
      bind, gets, ret.
    now destruct (JsMap.get (rooms w) roomId).
  - unfold on_createWebRtcTransport. rewrite snd_reply_handler.
    exact (invariant_registry_only _ _ Hinv
             (createWebRtcTransport_registry_only w roomId sid)).
  - unfold on_connectTransport. rewrite snd_try_handler, snd_bind.
    pose proof (invariant_registry_only _ _ Hinv
                  (connectTransport_registry_only w roomId sid transportId
                     dtlsParameters)) as Hinv1.
    now destruct (connectTransport _ _ _ _ w) as [[[]|err] w1].
  - unfold on_produce. rewrite snd_try_handler, snd_bind.
    pose proof (invariant_registry_only _ _ Hinv
                  (produce_registry_only w roomId sid transportId kind' rtpParameters))
      as Hinv1.
    destruct (produce _ _ _ _ _ w) as [[producerId|err] w1]; [|exact Hinv1].
    rewrite snd_bind, socket_to_emit_runs. unfold ret. cbn [snd].
    now apply invariant_emit.
  - exact (invariant_registry_only _ _ Hinv
             (on_consume_registry_only w sid roomId transportId producerId
                rtpCapabilities)).
  - exact Hinv.
  - now apply handleDisconnect_invariant.
  - unfold on_disconnect. rewrite snd_bind. unfold leave_all at 1, modify at 1.
    apply handleDisconnect_invariant. now apply leave_all_invariant.
Qed.

Lemma initial_invariant (now : Z) (e : E) : invariant (initial now e).
Proof.
  split; [|split; [|split]].
  - split; [apply keyed_empty|intros k room []].
  - intros r. constructor.
  - intros r sid [].
  - constructor.
Qed.

Lemma step_invariant (w : World E) (i : Input E) :
  invariant w -> invariant (step w i).
Proof.
  intros Hinv. destruct i as [now|e|sid request]; cbn [step].
  - exact Hinv.
  - exact Hinv.
  - now apply handle_invariant.
Qed.

Lemma run_invariant (inputs : list (Input E)) (now : Z) (e : E) :
  invariant (run inputs (initial now e)).
Proof.
  unfold run. generalize (initial_invariant now e).
  generalize (initial now e) as w.
  induction inputs as [|i inputs IH]; intros w Hinv; [exact Hinv|].
  cbn [fold_left]. apply IH. now apply step_invariant.
Qed.

(** *** Rooms are kept *)

Lemma registry_only_rooms_stay (w w' : World E) :
  registry_only w w' -> rooms_stay (rooms w) (rooms w').
Proof. intros H. apply H. Qed.

Lemma socket_join_rooms (w : World E) (sid room : string) :
  rooms (snd (socket_join sid room w)) = rooms w.
Proof.
  unfold socket_join, modify. cbn [snd].
  now destruct (existsb (String.eqb sid) (members w room)).
Qed.

Lemma join_tail_rooms_stay (w : World E) (sid roomId userId username : string) :
  rooms_stay (rooms w)
    (rooms
       (snd ((addPeer roomId sid userId username ;;
              socket_join sid roomId ;;
              modify (fun w0 : World E =>
                        set_sockets
                          (JsMap.set (sockets w0) sid
                             (mkSocketData (Some roomId) (Some userId) (Some username)))
                          w0) ;;
              rs <- gets rooms ;;
              socket_to_emit sid roomId (newPeer sid userId username) ;;
              ret (ReplyJoined
                     (filter (fun p : PeerInfo => negb (String.eqb (pi_peerId p) sid))
                             (getRoomPeers rs roomId)))) w))).
Proof.
  rewrite snd_bind.
  pose proof (registry_only_rooms_stay _ _
                (addPeer_registry_only w roomId sid userId username)) as Hstay.
  destruct (addPeer roomId sid userId username w) as [[peer|err] w2];
    cbn [snd] in Hstay; [|exact Hstay].
  rewrite snd_bind, socket_join_runs.
  rewrite snd_bind. unfold modify at 1.
  rewrite snd_bind. unfold gets at 1.
  rewrite snd_bind, socket_to_emit_runs. unfold ret. cbn [snd].
  unfold socket_to_emit, modify. cbn [snd rooms set_delivered set_sockets].
  now rewrite socket_join_rooms.
Qed.

Lemma on_joinRoom_rooms_stay (w : World E) (sid : string) (data : JoinData) :
  rooms_stay (rooms w) (rooms (snd (on_joinRoom sid data w))).
Proof.
  unfold on_joinRoom. rewrite snd_try_handler.
  destruct (negb (truthy (jd_roomId data)) || negb (truthy (jd_userId data))
            || negb (truthy (jd_username data))); [apply rooms_stay_refl|].
  destruct (jd_roomId data) as [roomId|]; [|apply rooms_stay_refl].
  destruct (jd_userId data) as [userId|]; [|apply rooms_stay_refl].
  destruct (jd_username data) as [username|]; [|apply rooms_stay_refl].
  rewrite snd_bind. unfold gets at 1.
  destruct (isMeetingExpired (clock w) roomId); [apply rooms_stay_refl|].
  rewrite snd_bind. unfold getRoom, gets at 1.
  destruct (JsMap.get (rooms w) roomId) as [room|] eqn:Hroom.
  - rewrite snd_bind. unfold ret at 1. apply join_tail_rooms_stay.
  - rewrite snd_bind.
    pose proof (registry_only_rooms_stay _ _ (createRoom_registry_only w roomId))
      as Hstay.
    unfold bind at 1. revert Hstay. rewrite (createRoom_absent w roomId Hroom).
    destruct (worker_createRouter (engine w)) as [[router|err] e']; cbn [snd];
      intros Hstay; [|exact Hstay].
    unfold ret at 1.
    eapply rooms_stay_trans; [exact Hstay|apply join_tail_rooms_stay].
Qed.

Lemma removePeer_rooms_stay (w : World E) (roomId peerId : string) :
  rooms_stay (rooms w) (rooms (snd (removePeer roomId peerId w))).
Proof.
  destruct (JsMap.get (rooms w) roomId) as [room|] eqn:Hroom.
  2:{ rewrite removePeer_absent by (unfold lookup_peer; now rewrite Hroom).
      apply rooms_stay_refl. }
  destruct (JsMap.get (Room.peers room) peerId) as [peer|] eqn:Hpeer.
  2:{ rewrite removePeer_absent by (unfold lookup_peer; now rewrite Hroom, Hpeer).
      apply rooms_stay_refl. }
  rewrite (removePeer_present w roomId peerId room peer Hroom Hpeer).
  cbn [snd rooms]. now apply rooms_stay_peers.
Qed.

Lemma handleDisconnect_rooms_stay (w : World E) (sid : string) :
  rooms_stay (rooms w) (rooms (snd (handleDisconnect sid w))).
Proof.
  unfold handleDisconnect. rewrite snd_bind.
  unfold socket_data, gets at 1.
  set (data := match JsMap.get (sockets w) sid with
               | Some d => d
               | None => no_data
               end).
  destruct (truthy (sd_roomId data)); [|apply rooms_stay_refl].
  destruct (sd_roomId data) as [roomId|]; [|apply rooms_stay_refl].
  rewrite snd_bind.
  pose proof (removePeer_rooms_stay w roomId sid) as Hstay.
  destruct (removePeer roomId sid w) as [[[]|err] w1]; cbn [snd] in Hstay;
    [|exact Hstay].
  rewrite snd_bind, socket_to_emit_runs.
  unfold socket_leave, socket_to_emit, modify. cbn [snd rooms set_adapter set_delivered].
  exact Hstay.
Qed.

Lemma handle_rooms_stay (w : World E) (sid : string) (request : Request) :
  rooms_stay (rooms w) (rooms (snd (handle sid request w))).
Proof.
  destruct request
    as [randomBytes|data|roomId|roomId|roomId transportId dtlsParameters
        |roomId transportId kind' rtpParameters
        |roomId transportId producerId rtpCapabilities|roomId| | ];
    cbn [handle snd].
  - unfold on_createRoom. rewrite snd_try_handler, snd_bind. unfold gets at 1.
    rewrite snd_bind.
    pose proof (registry_only_rooms_stay _ _
                  (createRoom_registry_only w (generateMeetingId randomBytes (clock w))))
      as Hstay.
    now destruct (createRoom _ w) as [[room|err] w1].
  - apply on_joinRoom_rooms_stay.
  - unfold on_getRouterRtpCapabilities, getRouterRtpCapabilities, try_handler,
      bind, gets, ret.
    destruct (JsMap.get (rooms w) roomId); apply rooms_stay_refl.
  - unfold on_createWebRtcTransport. rewrite snd_reply_handler.
    exact (registry_only_rooms_stay _ _
             (createWebRtcTransport_registry_only w roomId sid)).
  - unfold on_connectTransport. rewrite snd_try_handler, snd_bind.
    pose proof (registry_only_rooms_stay _ _
                  (connectTransport_registry_only w roomId sid transportId
                     dtlsParameters)) as Hstay.
    now destruct (connectTransport _ _ _ _ w) as [[[]|err] w1].
  - unfold on_produce. rewrite snd_try_handler, snd_bind.
    pose proof (registry_only_rooms_stay _ _
                  (produce_registry_only w roomId sid transportId kind' rtpParameters))
      as Hstay.
    destruct (produce _ _ _ _ _ w) as [[producerId|err] w1]; [|exact Hstay].
    rewrite snd_bind, socket_to_emit_runs. unfold ret. cbn [snd].
    exact Hstay.
  - exact (registry_only_rooms_stay _ _
             (on_consume_registry_only w sid roomId transportId producerId
                rtpCapabilities)).
  - unfold on_getProducers. apply rooms_stay_refl.
  - apply handleDisconnect_rooms_stay.
  - unfold on_disconnect. rewrite snd_bind. unfold leave_all, modify at 1.
    exact (handleDisconnect_rooms_stay
             (set_adapter
                (map (fun entry =>
                        (fst entry, filter (fun r => negb (String.eqb r sid)) (snd entry)))
                     (adapter w)) w) sid).
Qed.

Lemma run_rooms_stay (inputs : list (Input E)) (w : World E) :
  rooms_stay (rooms w) (rooms (run inputs w)).
Proof.
  revert w. induction inputs as [|i inputs IH]; intros w; [apply rooms_stay_refl|].
  cbn [run fold_left]. eapply rooms_stay_trans; [|apply IH].
  destruct i as [now|e|sid request]; cbn [step].
  - apply rooms_stay_refl.
  - apply rooms_stay_refl.
  - apply handle_rooms_stay.
Qed.

End Preservation.

(** ** The handlers: joining, creating, leaving *)

Section Joining.

Context {E : Type} {media : MediaEngine E}.

Lemma not_expired_not_empty (now : Z) (roomId : string) :
  isMeetingExpired now roomId = false -> String.eqb roomId "" = false.
Proof. destruct roomId; [discriminate|reflexivity]. Qed.

Lemma on_joinRoom_existing (w : World E) (sid roomId userId username : string)
  (room : Room.t) :
  userId <> "" -> username <> "" ->
  isMeetingExpired (clock w) roomId = false ->
  JsMap.get (rooms w) roomId = Some room ->
  let w2 := snd (addPeer roomId sid userId username w) in
  let w3 := snd (socket_join sid roomId w2) in
  on_joinRoom sid (mkJoinData (Some roomId) (Some userId) (Some username)) w
  = (ReplyJoined (filter (fun p => negb (String.eqb (pi_peerId p) sid))
                         (getRoomPeers (rooms w2) roomId)),
     mkWorld (clock w) (rooms w2) (engine w) (trace w)
             (JsMap.set (sockets w) sid
                (mkSocketData (Some roomId) (Some userId) (Some username)))
             (adapter w3)
             (delivered w
              ++ map (fun r => (r, newPeer sid userId username))
                     (filter (fun r => negb (String.eqb r sid)) (members w3 roomId)))).
Proof.
  intros Huser Hname Hfresh Hroom w2 w3. subst w3 w2.
  unfold on_joinRoom, try_handler, truthy.
  cbn [jd_roomId jd_userId jd_username].
  rewrite (not_expired_not_empty _ _ Hfresh).
  apply String.eqb_neq in Huser, Hname. rewrite Huser, Hname.
  cbn [negb orb]. unfold bind at 1. unfold gets at 1. rewrite Hfresh.
  unfold bind at 1 2. unfold getRoom, gets at 1. rewrite Hroom. unfold ret at 1.
  unfold bind at 1.
  rewrite (addPeer_in_room w roomId sid userId username room Hroom).
  cbn [snd].
  unfold socket_join, members, modify, bind, gets, socket_to_emit, ret.
  cbn [adapter set_rooms].
  destruct (existsb (String.eqb sid)
              match JsMap.get (adapter w) roomId with
              | Some l => l
              | None => []
              end); reflexivity.
Qed.


Lemma filter_all {A : Type} (f : A -> bool) (l : list A) :
  (forall x, In x l -> f x = true) -> filter f l = l.
Proof.
  induction l as [|x l IH]; intros Hall; [reflexivity|].
  simpl. rewrite (Hall x (or_introl eq_refl)), IH; [reflexivity|].
  intros y Hy. apply Hall. now right.
Qed.

Lemma roster_ids (rs : JsMap.t Room.t) (roomId : string) (room : Room.t) :
  wf_rooms rs -> JsMap.get rs roomId = Some room ->
  map pi_peerId (getRoomPeers rs roomId) = keys (Room.peers room).
Proof.
  intros Hwf Hroom. destruct (wf_rooms_get _ _ _ Hwf Hroom) as [[[_ Hid] _] _].
  unfold getRoomPeers, JsMap.values, keys. rewrite Hroom, !map_map.
  apply map_ext_in. intros [k peer] Hin. cbn [pi_peerId fst snd]. now apply Hid.
Qed.

Lemma roster_without (rs : JsMap.t Room.t) (roomId sid : string) (room : Room.t) :
  wf_rooms rs -> JsMap.get rs roomId = Some room ->
  JsMap.get (Room.peers room) sid = None ->
  filter (fun p => negb (String.eqb (pi_peerId p) sid)) (getRoomPeers rs roomId)
  = getRoomPeers rs roomId.
Proof.
  intros Hwf Hroom Hnew. apply filter_all. intros p Hin.
  apply negb_true_iff, String.eqb_neq. intros Heq.
  assert (Hkey : In sid (keys (Room.peers room))).
  { rewrite <- (roster_ids rs roomId room Hwf Hroom), <- Heq. now apply in_map. }
  apply In_keys_get in Hkey. contradiction.
Qed.

Lemma getRoomPeers_joined (rs : JsMap.t Room.t) (roomId sid : string)
  (room : Room.t) (peer : Peer.t) :
  JsMap.get (Room.peers room) sid = None ->
  getRoomPeers (JsMap.set rs roomId
                  (Room.with_peers room (JsMap.set (Room.peers room) sid peer))) roomId
  = map (fun p => mkPeerInfo (Peer.id p) (Peer.userId p) (Peer.username p))
        (JsMap.values (Room.peers room))
    ++ [mkPeerInfo (Peer.id peer) (Peer.userId peer) (Peer.username peer)].
Proof.
  intros Hnew. unfold getRoomPeers, JsMap.values. rewrite get_set_same.
  cbn [Room.with_peers Room.peers]. rewrite (set_absent _ _ _ Hnew).
  now rewrite !map_app.
Qed.

Lemma on_joinRoom_new_peer (w : World E) (sid roomId userId username : string)
  (room : Room.t) :
  invariant w ->
  userId <> "" -> username <> "" ->
  isMeetingExpired (clock w) roomId = false ->
  JsMap.get (rooms w) roomId = Some room ->
  JsMap.get (Room.peers room) sid = None ->
  let data := mkJoinData (Some roomId) (Some userId) (Some username) in
  let w' := snd (on_joinRoom sid data w) in
  fst (on_joinRoom sid data w) = ReplyJoined (getRoomPeers (rooms w) roomId)
  /\ getRoomPeers (rooms w') roomId
     = getRoomPeers (rooms w) roomId ++ [mkPeerInfo sid userId username]
  /\ delivered w'
     = delivered w
       ++ map (fun r => (r, newPeer sid userId username)) (members w roomId)
  /\ members w' roomId = members w roomId ++ [sid]
  /\ JsMap.get (sockets w') sid
     = Some (mkSocketData (Some roomId) (Some userId) (Some username))
  /\ trace w' = trace w.
Proof.
  intros (Hwf & Hnd & Hmem & Hdel) Huser Hname Hfresh Hroom Hnew data w'.
  subst data w'.
  rewrite (on_joinRoom_existing w sid roomId userId username room
             Huser Hname Hfresh Hroom).
  rewrite (addPeer_in_room w roomId sid userId username room Hroom).
  cbn [fst snd rooms set_rooms delivered sockets trace].
  assert (Hnotin : ~ In sid (members w roomId)).
  { intros Hin. apply (Hmem roomId sid Hin). unfold lookup_peer. now rewrite Hroom. }
  assert (Hjoined :
            members (snd (socket_join sid roomId
                            (set_rooms
                               (JsMap.set (rooms w) roomId
                                  (Room.with_peers room
                                     (JsMap.set (Room.peers room) sid
                                        (Peer.mk sid userId username JsMap.empty
                                                 JsMap.empty JsMap.empty)))) w)))
                    roomId
            = members w roomId ++ [sid]).
  { unfold socket_join, modify. cbn [snd].
    change (members (set_rooms _ w) roomId) with (members w roomId).
    destruct (existsb (String.eqb sid) (members w roomId)) eqn:Hex.
    - apply existsb_eqb_In in Hex. contradiction.
    - replace (adapter (set_rooms _ w)) with (adapter w) by reflexivity.
      unfold members, set_adapter. cbn [adapter]. now rewrite get_set_same. }
  assert (Hroster :
            getRoomPeers (JsMap.set (rooms w) roomId
                            (Room.with_peers room
                               (JsMap.set (Room.peers room) sid
                                  (Peer.mk sid userId username JsMap.empty
                                           JsMap.empty JsMap.empty)))) roomId
            = getRoomPeers (rooms w) roomId ++ [mkPeerInfo sid userId username]).
  { rewrite (getRoomPeers_joined _ _ _ _ _ Hnew). unfold getRoomPeers.
    now rewrite Hroom. }
  split; [|split; [exact Hroster|split; [|split; [|split]]]].
  - rewrite Hroster, filter_app. cbn [filter pi_peerId].
    rewrite String.eqb_refl. cbn [negb]. rewrite app_nil_r. f_equal.
    now apply roster_without with (room := room).
  - f_equal. f_equal.
    change (members (set_adapter ?a ?x) roomId) with (members x roomId).
    fold (members (snd (socket_join sid roomId
                          (set_rooms
                             (JsMap.set (rooms w) roomId
                                (Room.with_peers room
                                   (JsMap.set (Room.peers room) sid
                                      (Peer.mk sid userId username JsMap.empty
                                               JsMap.empty JsMap.empty)))) w)))
                  roomId).
    rewrite Hjoined, filter_app. cbn [filter]. rewrite String.eqb_refl. cbn [negb].
    rewrite app_nil_r. apply filter_all. intros r Hr.
    apply negb_true_iff, String.eqb_neq. congruence.
  - exact Hjoined.
  - apply get_set_same.
  - reflexivity.
Qed.


(** X13.  Joining an existing room, with all fields present and a link
    that has not expired, by a connection that is not yet in it: the
    acknowledgement lists exactly the peers that were in the room, the
    newcomer is appended to the roster, [newPeer] with the newcomer's
    data goes to every connection that was a member and to nobody else,
    the connection becomes a member, its [socket.data] records the room
    and the user, and the engine is not called. *)
Theorem joinRoom_admits (w : World E) (sid roomId userId username : string)
  (room : Room.t) :
  invariant w ->
  userId <> "" -> username <> "" ->
  isMeetingExpired (clock w) roomId = false ->
  JsMap.get (rooms w) roomId = Some room ->
  JsMap.get (Room.peers room) sid = None ->
  let data := mkJoinData (Some roomId) (Some userId) (Some username) in
  let w' := snd (on_joinRoom sid data w) in
  fst (on_joinRoom sid data w) = ReplyJoined (getRoomPeers (rooms w) roomId)
  /\ getRoomPeers (rooms w') roomId
     = getRoomPeers (rooms w) roomId ++ [mkPeerInfo sid userId username]
  /\ delivered w'
     = delivered w
       ++ map (fun r => (r, newPeer sid userId username)) (members w roomId)
  /\ members w' roomId = members w roomId ++ [sid]
  /\ JsMap.get (sockets w') sid
     = Some (mkSocketData (Some roomId) (Some userId) (Some username))
  /\ trace w' = trace w.
Proof. apply on_joinRoom_new_peer. Qed.


Lemma not_listed (rs : JsMap.t Room.t) (roomId sid x : string) :
  lookup_peer rs roomId sid = None ->
  Forall (fun info => peerId info <> sid) (getOtherPeersProducers rs roomId x).
Proof.
  unfold lookup_peer, getOtherPeersProducers.
  destruct (JsMap.get rs roomId) as [room|]; [|constructor].
  intros Hgone. apply Forall_forall. intros info Hin.
  apply in_flat_map in Hin as [[q peer] [Hentry Hin]].
  pose proof (producers_of_spec x (q, peer)) as Hall.
  rewrite Forall_forall in Hall. destruct (Hall info Hin) as (Hq & _).
  cbn [fst] in Hq. rewrite Hq. intros ->.
  apply In_entry_get in Hentry. contradiction.
Qed.

(** X15.  After [leaveRoom] or [disconnect] of a connection that had
    joined a room, none of its producers is listed in that room any
    more, whoever asks. *)
Theorem leaving_unlists_producers (w : World E) (sid roomId : string)
  (data : SocketData) :
  JsMap.get (sockets w) sid = Some data ->
  sd_roomId data = Some roomId ->
  roomId <> "" ->
  (forall x,
      Forall (fun info => peerId info <> sid)
             (getOtherPeersProducers (rooms (on_leaveRoom sid w)) roomId x))
  /\ (forall x,
        Forall (fun info => peerId info <> sid)
               (getOtherPeersProducers (rooms (on_disconnect sid w)) roomId x)).
Proof.
  intros Hdata Hroom Hne. split; intros x; apply not_listed.
  - unfold on_leaveRoom.
    destruct (handleDisconnect_bound w sid roomId data Hdata Hroom Hne)
      as (w' & -> & Hgone & _). exact Hgone.
  - unfold on_disconnect. rewrite snd_bind. unfold leave_all at 1, modify at 1.
    match goal with |- context [handleDisconnect sid ?w0] =>
      destruct (handleDisconnect_bound w0 sid roomId data Hdata Hroom Hne)
        as (w' & -> & Hgone & _) end.
    exact Hgone.
Qed.

Lemma createRoom_result (w : World E) (roomId : string) (room : Room.t) (w1 : World E) :
  createRoom roomId w = (Normal room, w1) ->
  JsMap.get (rooms w1) roomId = Some room /\ clock w1 = clock w.
Proof.
  destruct (JsMap.get (rooms w) roomId) as [existing|] eqn:Hroom.
  - rewrite (createRoom_existing w roomId existing Hroom). now intros [= <- <-].
  - rewrite (createRoom_absent w roomId Hroom).
    destruct (worker_createRouter (engine w)) as [[router|err] e']; [|discriminate].
    intros [= <- <-]. cbn [rooms clock]. split; [apply get_set_same|reflexivity].
Qed.

(** X16.  The identifier that the [createRoom] handler hands out can be
    joined right away: a [joinRoom] with it, on the state the handler
    left, is acknowledged with a peer list, makes the caller a peer of
    that room and does not ask the engine for another router. *)
Theorem created_room_can_be_joined (w w1 : World E) (randomBytes : list byte)
  (roomId sid userId username : string) :
  0 <= clock w ->
  userId <> "" -> username <> "" ->
  on_createRoom randomBytes w = (ReplyRoomId roomId, w1) ->
  let run := on_joinRoom sid (mkJoinData (Some roomId) (Some userId) (Some username)) w1 in
  roomId = generateMeetingId randomBytes (clock w)
  /\ (exists peers, fst run = ReplyJoined peers)
  /\ lookup_peer (rooms (snd run)) roomId sid
     = Some (Peer.mk sid userId username JsMap.empty JsMap.empty JsMap.empty)
  /\ trace (snd run) = trace w1.
Proof.
  intros Hclock Huser Hname Hcreate run. subst run.
  unfold on_createRoom, try_handler in Hcreate.
  unfold bind at 1 in Hcreate. unfold gets at 1 in Hcreate.
  unfold bind in Hcreate.
  destruct (createRoom (generateMeetingId randomBytes (clock w)) w)
    as [[room|err] w0] eqn:Hroom; [|discriminate].
  unfold ret in Hcreate. injection Hcreate as <- <-.
  destruct (createRoom_result _ _ _ _ Hroom) as [Hget Hsame].
  split; [reflexivity|].
  assert (Hfresh : isMeetingExpired (clock w0)
                     (generateMeetingId randomBytes (clock w)) = false).
  { rewrite (isMeetingExpired_parsed _ (clock w));
      [|now apply generateMeetingId_timestamp].
    rewrite Hsame. apply Z.ltb_ge. lia. }
  rewrite (on_joinRoom_existing w0 sid _ userId username room Huser Hname Hfresh Hget).
  cbn [fst snd rooms trace].
  split; [eexists; reflexivity|]. split; [|reflexivity].
  rewrite (addPeer_in_room w0 _ sid userId username room Hget).
  cbn [snd rooms set_rooms]. apply lookup_peer_put. exact Hget.
Qed.


(** X19.  In every state the server reaches from start-up, under any
    sequence of requests, clock readings and engine behaviours, the
    roster of a room names no connection twice, and each entry is the
    user data of the peer registered under that connection. *)
Theorem roster_has_distinct_peers (inputs : list (Input E)) (now : Z) (e : E)
  (roomId : string) :
  let w := run inputs (initial now e) in
  NoDup (map pi_peerId (getRoomPeers (rooms w) roomId))
  /\ (forall info, In info (getRoomPeers (rooms w) roomId) ->
        exists peer, lookup_peer (rooms w) roomId (pi_peerId info) = Some peer
                     /\ info = mkPeerInfo (Peer.id peer) (Peer.userId peer)
                                          (Peer.username peer)).
Proof.
  intros w. destruct (run_invariant inputs now e) as (Hwf & _). fold w in Hwf.
  destruct (JsMap.get (rooms w) roomId) as [room|] eqn:Hroom.
  2:{ unfold getRoomPeers. rewrite Hroom. split; [constructor|intros info []]. }
  split.
  - rewrite (roster_ids _ _ _ Hwf Hroom).
    destruct (wf_rooms_get _ _ _ Hwf Hroom) as [[[Hnd _] _] _]. exact Hnd.
  - intros info Hin. unfold getRoomPeers, JsMap.values in Hin. rewrite Hroom in Hin.
    rewrite map_map in Hin. apply in_map_iff in Hin as [[k peer] [<- Hin]].
    cbn [snd pi_peerId]. exists peer. split; [|reflexivity].
    destruct (wf_rooms_get _ _ _ Hwf Hroom) as [[[Hnd Hid] _] _].
    rewrite (Hid k peer Hin). unfold lookup_peer. rewrite Hroom.
    clear - Hnd Hin. induction (Room.peers room) as [|[k' p'] m IH];
      [contradiction|].
    cbn [JsMap.get]. inversion Hnd as [|? ? Hnotin Hrest]; subst.
    destruct Hin as [[= -> ->]|Hin]; [now rewrite String.eqb_refl|].
    destruct (String.eqb k' k) eqn:Hk; [|now apply IH].
    apply String.eqb_eq in Hk. subst k'. exfalso. apply Hnotin.
    unfold keys. apply in_map_iff. now exists (k, peer).
Qed.


(** X21.  In every run of the server from start-up, no connection is
    sent an event about itself: no [newPeer], [newProducer] or [peerLeft]
    is delivered to the connection it names. *)
Theorem never_notified_about_itself (inputs : list (Input E)) (now : Z) (e : E) :
  Forall (fun d => subject (snd d) <> fst d)
         (delivered (run inputs (initial now e))).
Proof. apply run_invariant. Qed.


Lemma NoDup_map_pair (k : string) (l : list string) :
  NoDup l -> NoDup (map (pair k) l).
Proof.
  induction 1 as [|x l Hnotin _ IH]; cbn [map]; constructor; [|exact IH].
  intros Hin. apply in_map_iff in Hin as [y [[= ->] Hy]]. contradiction.
Qed.

Lemma NoDup_flat_map_keys {V : Type} (h : string * V -> list string) (m : JsMap.t V) :
  NoDup (keys m) ->
  (forall entry, In entry m -> NoDup (h entry)) ->
  NoDup (flat_map (fun entry => map (pair (fst entry)) (h entry)) m).
Proof.
  induction m as [|[k v] m IH]; intros Hnd Hall; [constructor|].
  cbn [flat_map fst]. cbn [keys map fst] in Hnd.
  inversion Hnd as [|? ? Hnotin Hrest]; subst.
  apply NoDup_app.
  - apply NoDup_map_pair, Hall. now left.
  - apply IH; [exact Hrest|]. intros entry Hin. apply Hall. now right.
  - intros [q p] Hin1 Hin2.
    apply in_map_iff in Hin1 as [a [Ha _]]. injection Ha as Hq _.
    apply in_flat_map in Hin2 as [[k' v'] [Hentry Hin2]].
    apply in_map_iff in Hin2 as [b [Hb _]]. cbn [fst] in Hb. injection Hb as Hq' _.
    apply Hnotin. unfold keys. apply in_map_iff. exists (k', v').
    split; [cbn [fst]; congruence|exact Hentry].
Qed.

Lemma listing_keys (rs : JsMap.t Room.t) (roomId x : string) (room : Room.t) :
  wf_rooms rs -> JsMap.get rs roomId = Some room ->
  map (fun info => (peerId info, producerId info))
      (getOtherPeersProducers rs roomId x)
  = flat_map (fun entry =>
                map (pair (fst entry))
                    (if negb (String.eqb (fst entry) x)
                     then keys (Peer.producers (snd entry)) else []))
             (Room.peers room).
Proof.
  intros Hwf Hroom. unfold getOtherPeersProducers. rewrite Hroom.
  destruct (wf_rooms_get _ _ _ Hwf Hroom) as [[_ Hpeers] _].
  revert Hpeers. induction (Room.peers room) as [|[q peer] m IH]; intros Hpeers;
    [reflexivity|].
  cbn [flat_map]. rewrite map_app, IH by (intros k p Hin; apply (Hpeers k p); now right).
  f_equal. cbn [fst snd]. unfold producers_of.
  destruct (String.eqb q x); cbn [negb]; [reflexivity|].
  destruct (Hpeers q peer (or_introl eq_refl)) as (_ & [_ Hid] & _).
  unfold JsMap.values, keys. rewrite !map_map.
  apply map_ext_in. intros [k producer] Hin. cbn [peerId producerId fst snd].
  now rewrite (Hid k producer Hin).
Qed.

(** X22.  In every state the server reaches from start-up, the producer
    listing of a room names no producer of a peer twice. *)
Theorem listing_has_no_duplicates (inputs : list (Input E)) (now : Z) (e : E)
  (roomId x : string) :
  NoDup (map (fun info => (peerId info, producerId info))
             (getOtherPeersProducers (rooms (run inputs (initial now e))) roomId x)).
Proof.
  destruct (run_invariant inputs now e) as (Hwf & _).
  set (w := run inputs (initial now e)) in *.
  destruct (JsMap.get (rooms w) roomId) as [room|] eqn:Hroom.
  2:{ unfold getOtherPeersProducers. rewrite Hroom. constructor. }
  rewrite (listing_keys _ _ x _ Hwf Hroom).
  destruct (wf_rooms_get _ _ _ Hwf Hroom) as [[[Hnd _] Hpeers] _].
  apply NoDup_flat_map_keys; [exact Hnd|].
  intros [q peer] Hin. cbn [fst snd].
  destruct (negb (String.eqb q x)); [|constructor].
  destruct (Hpeers q peer Hin) as (_ & [Hndp _] & _). exact Hndp.
Qed.

End Joining.

(** ** Concrete runs of the properties above *)

Lemma generateMeetingId_injective_witness :
  generateMeetingId [xde; xad; xbe; xef; xde; xad; xbe; xef]%byte t0
  <> generateMeetingId [xde; xad; xbe; xef; xde; xad; xbe; xee]%byte t0
  /\ generateMeetingId [xde; xad; xbe; xef; xde; xad; xbe; xef]%byte t0
     <> generateMeetingId [xde; xad; xbe; xef; xde; xad; xbe; xef]%byte (t0 + 1).
Proof.
  split; intros Hsame.
  - apply (generateMeetingId_injective
             [xde; xad; xbe; xef; xde; xad; xbe; xef]%byte
             [xde; xad; xbe; xef; xde; xad; xbe; xee]%byte t0 t0) in Hsame;
      [|unfold t0; lia..].
    destruct Hsame as [Hbytes _]. discriminate Hbytes.
  - apply (generateMeetingId_injective
             [xde; xad; xbe; xef; xde; xad; xbe; xef]%byte
             [xde; xad; xbe; xef; xde; xad; xbe; xef]%byte t0 (t0 + 1)) in Hsame;
      [|unfold t0; lia..].
    destruct Hsame as [_ Htime]. unfold t0 in Htime. lia.
Defined.

Lemma expired_iff_age_witness :
  isMeetingExpired t0 stale_id = true
  <-> getMeetingAge t0 stale_id = NaN \/ gt (getMeetingAge t0 stale_id) (of_Z 24) = true.
Proof. exact (expired_iff_age stale_id t0). Defined.

Lemma removePeer_cascade_witness :
  trace (snd (removePeer fresh_id "A" alice_transport))
  = trace alice_transport ++ [CloseTransport "transport1"]
  /\ lookup_peer (rooms (snd (removePeer fresh_id "A" alice_transport))) fresh_id "A"
     = None
  /\ lookup_peer (rooms (snd (removePeer fresh_id "A" alice_transport))) fresh_id "B"
     = Some bob.
Proof.
  destruct (removePeer_cascade alice_transport fresh_id "A" room_with_transport
              alice_with_transport eq_refl eq_refl)
    as (_ & Htrace & Hgone & Hothers & _).
  split; [exact Htrace|]. split; [exact Hgone|].
  rewrite (Hothers "B"); [reflexivity|discriminate].
Defined.

Lemma addPeer_removePeer_restores_witness :
  snd (removePeer fresh_id "C" (snd (addPeer fresh_id "C" "u3" "Carol" alice_transport)))
  = alice_transport.
Proof.
  apply (addPeer_removePeer_restores alice_transport fresh_id "C" "u3" "Carol"
           room_with_transport); reflexivity.
Defined.

Lemma deleteRoom_effect_witness :
  deleteRoom stale_id alice_transport = (Normal tt, alice_transport)
  /\ trace (snd (deleteRoom fresh_id alice_transport))
     = trace alice_transport ++ [CloseRouter "router0"]
  /\ JsMap.get (rooms (snd (deleteRoom fresh_id alice_transport))) fresh_id = None.
Proof.
  destruct (deleteRoom_effect alice_transport stale_id) as [Habsent _].
  destruct (deleteRoom_effect alice_transport fresh_id) as [_ Hpresent].
  split; [apply Habsent; reflexivity|].
  destruct (Hpresent room_with_transport eq_refl) as (_ & Htrace & Hgone & _).
  split; assumption.
Defined.

Lemma media_requests_need_own_transport_witness :
  own_transport (rooms alice_transport) fresh_id "A" "transport1" = Some transport1
  /\ on_connectTransport "B" fresh_id "transport1" "fingerprint" alice_transport
     = (ReplyError "Failed to connect transport", alice_transport)
  /\ on_produce "B" fresh_id "transport1" "video" "rtp" alice_transport
     = (ReplyError "Failed to produce", alice_transport)
  /\ on_consume "B" fresh_id "transport1" "producer2" "caps" alice_transport
     = (ReplyError "Failed to consume", alice_transport).
Proof.
  destruct (media_requests_need_own_transport alice_transport "B" fresh_id "transport1"
              eq_refl) as (Hconnect & Hproduce & Hconsume).
  split; [reflexivity|]. split; [apply Hconnect|]. split; [apply Hproduce|apply Hconsume].
Defined.




Lemma alice_joined_invariant : invariant alice_joined.
Proof.
  exact (run_invariant
           [from_client "A" (joinRoom_request
                               (mkJoinData (Some fresh_id) (Some "u1") (Some "Alice")))]
           t0 (mkSim 0 None)).
Qed.

Lemma joinRoom_admits_witness :
  fst (on_joinRoom "B" (mkJoinData (Some fresh_id) (Some "u2") (Some "Bob")) alice_joined)
  = ReplyJoined [mkPeerInfo "A" "u1" "Alice"]
  /\ getRoomPeers (rooms both_joined) fresh_id
     = [mkPeerInfo "A" "u1" "Alice"; mkPeerInfo "B" "u2" "Bob"]
  /\ delivered both_joined = [("A", newPeer "B" "u2" "Bob")].
Proof.
  destruct (joinRoom_admits alice_joined "B" fresh_id "u2" "Bob"
              (Room.mk fresh_id router0 [("A", Peer.mk "A" "u1" "Alice" [] [] [])] t0))
    as (Hreply & Hroster & Hdelivered & _);
    [exact alice_joined_invariant|discriminate|discriminate
     |vm_compute; reflexivity|reflexivity|reflexivity|].
  split; [exact Hreply|]. split; [exact Hroster|exact Hdelivered].
Defined.


Lemma leaving_unlists_producers_witness :
  getOtherPeersProducers (rooms alice_producing) fresh_id "B"
  = [mkProducerInfo "producer2" "A" "u1" "Alice" "video"]
  /\ Forall (fun info => peerId info <> "A")
            (getOtherPeersProducers (rooms (on_disconnect "A" alice_producing))
                                    fresh_id "B").
Proof.
  destruct (leaving_unlists_producers alice_producing "A" fresh_id
              (mkSocketData (Some fresh_id) (Some "u1") (Some "Alice")))
    as [_ Hdisconnect]; [reflexivity|reflexivity|discriminate|].
  split; [reflexivity|apply Hdisconnect].
Defined.

Lemma created_room_can_be_joined_witness :
  exists peers,
    fst (on_joinRoom "A"
           (mkJoinData (Some "0102030405060708-1700000000000") (Some "u1")
                       (Some "Alice"))
           (snd (on_createRoom [x01; x02; x03; x04; x05; x06; x07; x08]%byte
                               (boot t0))))
    = ReplyJoined peers.
Proof.
  destruct (created_room_can_be_joined (boot t0)
              (snd (on_createRoom [x01; x02; x03; x04; x05; x06; x07; x08]%byte
                                  (boot t0)))
              [x01; x02; x03; x04; x05; x06; x07; x08]%byte
              "0102030405060708-1700000000000" "A" "u1" "Alice")
    as (_ & Hjoined & _);
    [unfold boot, t0; cbn [clock]; lia|discriminate|discriminate
     |vm_compute; reflexivity|].
  exact Hjoined.
Defined.


Lemma roster_has_distinct_peers_witness :
  NoDup (map pi_peerId (getRoomPeers (rooms (run alice_and_bob (boot t0))) fresh_id))
  /\ getRoomPeers (rooms (run alice_and_bob (boot t0))) fresh_id
     = [mkPeerInfo "A" "u1" "Alice"; mkPeerInfo "B" "u2" "Bob"].
Proof.
  split; [|vm_compute; reflexivity].
  exact (proj1 (roster_has_distinct_peers alice_and_bob t0 (mkSim 0 None) fresh_id)).
Defined.

(** ** The REST side: users, recordings, the deletion queue *)

(** ** The data files *)

Lemma readUsers_eq (d : Fs.t) :
  readUsers d = match Fs.users_json d with Fs.Json v => v | _ => [] end.
Proof.
  unfold readUsers. cbn [Fs.existsSync].
  now destruct (Fs.users_json d).
Qed.

Lemma readRecordings_eq (d : Fs.t) :
  readRecordings d = match Fs.metadata_json d with Fs.Json v => v | _ => [] end.
Proof.
  unfold readRecordings. cbn [Fs.existsSync].
  now destruct (Fs.metadata_json d).
Qed.

Lemma writeUsers_eq (users : list User.t) (d : Fs.t) :
  writeUsers users d
  = if Fs.refuses d Fs.USERS_FILE then d
    else Fs.mk (Fs.Json users) (Fs.metadata_json d) (Fs.recordings_dir d) (Fs.denied d).
Proof.
  unfold writeUsers, Fs.write_users. now destruct (Fs.refuses d Fs.USERS_FILE).
Qed.

Lemma writeRecordings_eq (recordings : list Recording.t) (d : Fs.t) :
  writeRecordings recordings d
  = if Fs.refuses d Fs.METADATA_FILE then d
    else Fs.mk (Fs.users_json d) (Fs.Json recordings) (Fs.recordings_dir d) (Fs.denied d).
Proof.
  unfold writeRecordings, Fs.write_metadata. now destruct (Fs.refuses d Fs.METADATA_FILE).
Qed.

Lemma narrows_refl (d : Fs.t) : narrows d d.
Proof. unfold narrows. auto using incl_refl. Qed.

Lemma narrows_trans (d1 d2 d3 : Fs.t) : narrows d1 d2 -> narrows d2 d3 -> narrows d1 d3.
Proof.
  unfold narrows. intros (Hu & Hd & Hi) (Hu' & Hd' & Hi').
  split; [congruence|]. split; [congruence|]. eauto using incl_tran.
Qed.

Lemma writeRecordings_narrows (recordings : list Recording.t) (d : Fs.t) :
  narrows d (writeRecordings recordings d).
Proof.
  rewrite writeRecordings_eq. destruct (Fs.refuses d Fs.METADATA_FILE).
  - apply narrows_refl.
  - unfold narrows. cbn. auto using incl_refl.
Qed.

Lemma unlink_recording_narrows (name : string) (d : Fs.t) :
  narrows d (snd (Fs.unlinkSync (Fs.recording_file name) d)).
Proof.
  unfold Fs.unlinkSync.
  destruct (Fs.refuses d (Fs.recording_file name)); [apply narrows_refl|].
  destruct (negb (Fs.existsSync (Fs.recording_file name) d)); [apply narrows_refl|].
  unfold narrows. cbn. split; [reflexivity|]. split; [reflexivity|].
  intros n Hn. apply filter_In in Hn. tauto.
Qed.

Lemma deleteRecording_narrows (id : string) (d : Fs.t) :
  narrows d (snd (deleteRecording id d)).
Proof.
  unfold deleteRecording. cbv zeta.
  destruct (Nat.eqb _ _); cbn [snd].
  - apply narrows_refl.
  - apply writeRecordings_narrows.
Qed.

Lemma updateRecording_narrows (id : string) (updates : Recording.partial) (d : Fs.t) :
  narrows d (snd (updateRecording id updates d)).
Proof.
  unfold updateRecording. cbv zeta.
  destruct (findIndex _ _); cbn [snd].
  - apply writeRecordings_narrows.
  - apply narrows_refl.
Qed.

(** ** Finding in lists *)

Lemma find_app_Some {A : Type} (p : A -> bool) (l more : list A) (a : A) :
  find p l = Some a -> find p (l ++ more) = Some a.
Proof.
  induction l as [|x l IH]; [discriminate|].
  cbn. destruct (p x); auto.
Qed.

Lemma find_app_None {A : Type} (p : A -> bool) (l more : list A) :
  find p l = None -> find p (l ++ more) = find p more.
Proof.
  induction l as [|x l IH]; [reflexivity|].
  cbn. destruct (p x); [discriminate|auto].
Qed.

Lemma find_none_iff {A : Type} (p : A -> bool) (l : list A) :
  find p l = None <-> forall x, In x l -> p x = false.
Proof.
  split.
  - apply find_none.
  - induction l as [|x l IH]; [reflexivity|].
    intros H. cbn. rewrite (H x (or_introl eq_refl)).
    apply IH. intros y Hy. apply H. now right.
Qed.

Lemma filter_length_eq {A : Type} (p : A -> bool) (l : list A) :
  List.length (filter p l) = List.length l -> filter p l = l.
Proof.
  induction l as [|x l IH]; [reflexivity|].
  cbn. destruct (p x); cbn.
  - intros H. f_equal. apply IH. lia.
  - intros H. pose proof (filter_length_le p l). lia.
Qed.

Lemma filter_all_true {A : Type} (p : A -> bool) (l : list A) :
  (forall x, In x l -> p x = true) -> filter p l = l.
Proof.
  induction l as [|x l IH]; [reflexivity|].
  intros H. cbn. rewrite (H x (or_introl eq_refl)). f_equal.
  apply IH. intros y Hy. apply H. now right.
Qed.

Lemma find_filter_other {A : Type} (p q : A -> bool) (l : list A) :
  (forall x, p x = true -> q x = true) ->
  find p (filter q l) = find p l.
Proof.
  intros Hpq. induction l as [|x l IH]; [reflexivity|].
  cbn. destruct (q x) eqn:Hq; cbn.
  - now rewrite IH.
  - destruct (p x) eqn:Hp; [|exact IH].
    apply Hpq in Hp. congruence.
Qed.

Lemma find_filter_none {A : Type} (p : A -> bool) (l : list A) :
  find p (filter (fun x => negb (p x)) l) = None.
Proof.
  apply find_none_iff. intros x Hx. apply filter_In in Hx.
  destruct Hx as [_ Hx]. now destruct (p x).
Qed.

Lemma filter_comm {A : Type} (p q : A -> bool) (l : list A) :
  filter p (filter q l) = filter q (filter p l).
Proof.
  induction l as [|x l IH]; [reflexivity|].
  cbn. destruct (p x) eqn:Hp, (q x) eqn:Hq; cbn; rewrite ?Hp, ?Hq, IH; reflexivity.
Qed.

Lemma has_id_other (id other : string) (r : Recording.t) :
  other <> id -> has_id other r = true -> negb (has_id id r) = true.
Proof.
  unfold has_id. intros Hne H. apply String.eqb_eq in H.
  destruct (String.eqb_spec (Recording.recordingId r) id); [congruence|reflexivity].
Qed.

(** ** Users *)

Lemma readUsers_narrows (d d' : Fs.t) : narrows d d' -> readUsers d' = readUsers d.
Proof. intros (Hu & _). rewrite !readUsers_eq. now rewrite Hu. Qed.

Lemma readUsers_writeUsers (users : list User.t) (d : Fs.t) :
  Fs.refuses d Fs.USERS_FILE = false -> readUsers (writeUsers users d) = users.
Proof.
  intros H. rewrite writeUsers_eq, H. now rewrite readUsers_eq.
Qed.

Lemma addUser_grows (user : User.t) (d : Fs.t) :
  exists more, readUsers (addUser user d) = readUsers d ++ more
               /\ (more = [] \/ more = [user]).
Proof.
  unfold addUser. cbv zeta. rewrite writeUsers_eq.
  destruct (Fs.refuses d Fs.USERS_FILE).
  - exists []. rewrite app_nil_r. auto.
  - exists [user]. rewrite (readUsers_eq (Fs.mk _ _ _ _)). cbn. auto.
Qed.

Lemma truthy_name (username : option string) :
  truthy username = true ->
  exists name, username = Some name /\ name <> "".
Proof.
  destruct username as [name|]; [|discriminate].
  cbn. intros H. exists name. split; [reflexivity|].
  intros ->. discriminate.
Qed.

Lemma truthy_named (name : string) : name <> "" -> truthy (Some name) = true.
Proof.
  intros H. cbn. destruct (String.eqb_spec name ""); [contradiction|reflexivity].
Qed.

Lemma post_register_users (username : option string) (uuid : string) (h : Host) :
  exists more,
    readUsers (disk (snd (post_register username uuid h))) = readUsers (disk h) ++ more
    /\ (more = []
        \/ exists name, username = Some name
                        /\ findUserByUsername name (disk h) = None
                        /\ more = [User.mk uuid name (time h)]).
Proof.
  unfold post_register.
  destruct (truthy username) eqn:Htruthy; cbn [negb].
  - destruct (truthy_name _ Htruthy) as (name & -> & Hname).
    destruct (findUserByUsername name (disk h)) as [u|] eqn:Hfind; cbn [snd].
    + exists []. rewrite app_nil_r. auto.
    + cbn [disk set_disk].
      destruct (addUser_grows (User.mk uuid name (time h)) (disk h))
        as (more & Hmore & [->| ->]).
      * exists []. auto.
      * exists [User.mk uuid name (time h)]. split; [exact Hmore|].
        right. exists name. auto.
  - exists []. rewrite app_nil_r. auto.
Qed.

Lemma deleteRecordingFiles_narrows (id : string) (h : Host) :
  narrows (disk h) (disk (DeletionQueue.deleteRecordingFiles id h)).
Proof.
  unfold DeletionQueue.deleteRecordingFiles.
  destruct (findRecordingById id (disk h)) as [r|]; [|apply narrows_refl].
  cbv zeta. unfold getRecordingFilePath.
  assert (Hun : narrows (disk h)
                  (snd (if Fs.existsSync (Fs.recording_file (Recording.filename r)) (disk h)
                        then Fs.unlinkSync (Fs.recording_file (Recording.filename r)) (disk h)
                        else (Normal tt, disk h)))).
  { destruct (Fs.existsSync _ _); [apply unlink_recording_narrows|apply narrows_refl]. }
  destruct (if Fs.existsSync _ _ then _ else _) as [[u|e] d1]; cbn [snd] in Hun.
  - cbn [disk set_disk].
    eapply narrows_trans; [exact Hun|apply deleteRecording_narrows].
  - exact Hun.
Qed.

Lemma for_each_task_cons (t : DeletionTask) (tasks : list DeletionTask) (h : Host) :
  DeletionQueue.for_each_task (t :: tasks) h
  = DeletionQueue.for_each_task tasks
      (DeletionQueue.deleteRecordingFiles (task_recordingId t) h).
Proof. reflexivity. Qed.

Lemma for_each_task_narrows (tasks : list DeletionTask) (h : Host) :
  narrows (disk h) (disk (DeletionQueue.for_each_task tasks h)).
Proof.
  revert h. induction tasks as [|t tasks IH]; intros h; [apply narrows_refl|].
  rewrite for_each_task_cons.
  eapply narrows_trans; [apply deleteRecordingFiles_narrows|apply IH].
Qed.

Lemma processQueue_narrows (h : Host) :
  narrows (disk h) (disk (DeletionQueue.processQueue h)).
Proof.
  unfold DeletionQueue.processQueue.
  destruct (processing h || Nat.eqb (List.length (queue h)) 0); [apply narrows_refl|].
  cbv zeta. cbn [disk set_processing set_queue queue].
  exact (for_each_task_narrows (queue h) (set_queue [] (set_processing true h))).
Qed.

Lemma put_recording_narrows (id : string) (title userId : option string) (h : Host) :
  narrows (disk h) (disk (snd (put_recording id title userId h))).
Proof.
  unfold put_recording.
  destruct (negb (truthy title)); [apply narrows_refl|].
  destruct (findRecordingById id (disk h)) as [r|]; [|apply narrows_refl].
  destruct (not_owner userId r); [apply narrows_refl|].
  pose proof (updateRecording_narrows id
                (Recording.only_title match title with Some s => s | None => "" end)
                (disk h)) as Hn.
  destruct (updateRecording _ _ _) as [success d']. cbn [snd] in Hn.
  now destruct success.
Qed.

Lemma delete_recording_disk (id : string) (userId : option string) (h : Host) :
  disk (snd (delete_recording id userId h)) = disk h.
Proof.
  unfold delete_recording.
  destruct (findRecordingById id (disk h)) as [r|]; [|reflexivity].
  now destruct (not_owner userId r).
Qed.

Lemma post_recording_narrows (file : option string) (form : UploadForm)
  (localeString : string) (h : Host) :
  narrows (disk h) (disk (snd (post_recording file form localeString h))).
Proof.
  unfold post_recording. destruct file as [filename|]; [|apply narrows_refl].
  destruct (negb (truthy (form_userId form)) || negb (truthy (form_meetingId form))
            || negb (truthy (form_username form))); [apply narrows_refl|].
  cbn [snd disk set_disk]. unfold addRecording. apply writeRecordings_narrows.
Qed.

(** Every step that is no change from outside to the users file extends
    the list of users at its end, by at most the user that a
    registration creates. *)
Lemma serve_users (h : Host) (c : Call) :
  spares_users c = true ->
  exists more,
    readUsers (disk (serve h c)) = readUsers (disk h) ++ more
    /\ (more = []
        \/ exists name uuid, findUserByUsername name (disk h) = None
                             /\ more = [User.mk uuid name (time h)]).
Proof.
  assert (Hsame : forall d', narrows (disk h) d' ->
            exists more, readUsers d' = readUsers (disk h) ++ more
                         /\ (more = []
                             \/ exists name uuid,
                                  findUserByUsername name (disk h) = None
                                  /\ more = [User.mk uuid name (time h)])).
  { intros d' Hn. exists []. rewrite app_nil_r. split; [|now left].
    now apply readUsers_narrows. }
  assert (Hread : forall d', Fs.users_json d' = Fs.users_json (disk h) ->
            exists more, readUsers d' = readUsers (disk h) ++ more
                         /\ (more = []
                             \/ exists name uuid,
                                  findUserByUsername name (disk h) = None
                                  /\ more = [User.mk uuid name (time h)])).
  { intros d' Hu. exists []. rewrite app_nil_r. split; [|now left].
    rewrite !readUsers_eq. now rewrite Hu. }
  intros Hspares.
  destruct c as [name' uuid| |userId'|id|id|id title userId'|id userId'
                 |file form localeString|filename| | | |now|paths|p|p];
    cbn [serve].
  - destruct (post_register_users name' uuid h) as (more & Hmore & Hcase).
    exists more. split; [exact Hmore|].
    destruct Hcase as [->|(name & _ & Hfind & ->)]; [now left|].
    right. now exists name, uuid.
  - apply Hsame, narrows_refl.
  - apply Hsame. unfold get_recordings. destruct (negb _); apply narrows_refl.
  - apply Hsame. unfold get_recording. destruct (findRecordingById _ _); apply narrows_refl.
  - apply Hsame. unfold get_recording_video.
    destruct (findRecordingById _ _); apply narrows_refl.
  - apply Hsame, put_recording_narrows.
  - apply Hsame. rewrite delete_recording_disk. apply narrows_refl.
  - apply Hsame, post_recording_narrows.
  - apply Hread. cbn [disk set_disk]. unfold Fs.store.
    now destruct (existsb (String.eqb filename) (Fs.recordings_dir (disk h))).
  - apply Hsame. unfold DeletionQueue.start.
    destruct (interval h); [apply narrows_refl|].
    cbn [disk set_interval]. apply processQueue_narrows.
  - apply Hsame. unfold DeletionQueue.stop. destruct (interval h); apply narrows_refl.
  - apply Hsame. unfold DeletionQueue.interval_elapsed.
    destruct (interval h); [apply processQueue_narrows|apply narrows_refl].
  - apply Hsame, narrows_refl.
  - apply Hread. reflexivity.
  - apply Hread. cbn [disk set_disk]. now destruct p.
  - apply Hread. cbn [disk set_disk]. now destruct p.
Qed.

(** A change from outside to the users file leaves no user to read. *)
Lemma serve_users_lost (h : Host) (c : Call) :
  spares_users c = false -> readUsers (disk (serve h c)) = [].
Proof.
  destruct c as [name' uuid| |userId'|id|id|id title userId'|id userId'
                 |file form localeString|filename| | | |now|paths|p|p];
    try discriminate; destruct p; try discriminate; intros _;
    cbn [serve disk set_disk]; rewrite readUsers_eq; cbn [Fs.damage Fs.remove Fs.users_json].
  - now destruct (Fs.users_json (disk h)).
  - reflexivity.
Qed.

Lemma serve_all_users (calls : list Call) (h : Host) :
  forallb spares_users calls = true ->
  exists more,
    readUsers (disk (serve_all calls h)) = readUsers (disk h) ++ more.
Proof.
  revert h. induction calls as [|c calls IH]; intros h Hspare.
  - exists []. now rewrite app_nil_r.
  - cbn [forallb] in Hspare. apply andb_true_iff in Hspare as [Hc Hcalls].
    cbn [serve_all fold_left]. destruct (IH (serve h c) Hcalls) as (more2 & H2).
    destruct (serve_users h c Hc) as (more1 & H1 & _).
    exists (more1 ++ more2). unfold serve_all in H2. rewrite H2, H1.
    now rewrite app_assoc.
Qed.

Lemma find_username (name : string) (l : list User.t) (u : User.t) :
  find (fun u => String.eqb (User.username u) name) l = Some u -> User.username u = name.
Proof.
  intros H. apply find_some in H. destruct H as [_ H]. now apply String.eqb_eq in H.
Qed.

Lemma post_register_existing (name uuid : string) (h : Host) (u : User.t) :
  name <> "" ->
  findUserByUsername name (disk h) = Some u ->
  post_register (Some name) uuid h = (ok (user_body (User.userId u) name), h).
Proof.
  intros Hname Hfind. unfold post_register.
  rewrite (truthy_named name Hname). cbn [negb]. rewrite Hfind.
  unfold findUserByUsername in Hfind. apply find_username in Hfind. now rewrite Hfind.
Qed.

Lemma post_register_stored (name uuid : string) (h : Host) :
  name <> "" ->
  Fs.refuses (disk h) Fs.USERS_FILE = false ->
  exists u,
    findUserByUsername name (disk (snd (post_register (Some name) uuid h))) = Some u
    /\ fst (post_register (Some name) uuid h) = ok (user_body (User.userId u) name)
    /\ (findUserByUsername name (disk h) = None -> u = User.mk uuid name (time h)).
Proof.
  intros Hname Hwritable.
  destruct (findUserByUsername name (disk h)) as [u|] eqn:Hfind.
  - exists u. rewrite (post_register_existing name uuid h u Hname Hfind).
    cbn [fst snd]. split; [exact Hfind|]. split; [reflexivity|discriminate].
  - exists (User.mk uuid name (time h)).
    unfold post_register. rewrite (truthy_named name Hname). cbn [negb].
    rewrite Hfind. cbn [fst snd disk set_disk User.userId User.username].
    split; [|split; [reflexivity|reflexivity]].
    unfold findUserByUsername, addUser. cbv zeta.
    rewrite (readUsers_writeUsers _ _ Hwritable).
    unfold findUserByUsername in Hfind. rewrite (find_app_None _ _ _ Hfind).
    cbn. now rewrite String.eqb_refl.
Qed.

(** X23.  Registration is idempotent and permanent, as long as the
    users file is neither spoilt nor removed from outside.  When the
    users file can be written, [POST /register] with a name answers 200
    with that name and a user identifier, and every later registration
    of the same name – after any requests, uploads, queue runs, clock
    changes and changes of permissions, and after any damage to the
    other files – answers with the same identifier and changes
    nothing. *)
Theorem registration_is_permanent (h : Host) (name uuid uuid' : string)
  (calls : list Call) :
  name <> "" ->
  Fs.refuses (disk h) Fs.USERS_FILE = false ->
  forallb spares_users calls = true ->
  let first := post_register (Some name) uuid h in
  let later := serve_all calls (snd first) in
  (exists id, fst first = ok (user_body id name))
  /\ post_register (Some name) uuid' later = (fst first, later).
Proof.
  intros Hname Hwritable Hspare first later.
  destruct (post_register_stored name uuid h Hname Hwritable) as (u & Hfound & Hreply & _).
  fold first in Hfound, Hreply.
  split; [now exists (User.userId u)|].
  rewrite Hreply. apply post_register_existing; [exact Hname|].
  destruct (serve_all_users calls (snd first) Hspare) as (more & Hmore).
  unfold findUserByUsername, later. rewrite Hmore.
  now apply find_app_Some.
Qed.

Lemma NoDup_snoc {A : Type} (l : list A) (a : A) :
  NoDup l -> ~ In a l -> NoDup (l ++ [a]).
Proof.
  induction l as [|x l IH]; intros Hnd Hnot; cbn.
  - constructor; [intros []|constructor].
  - inversion Hnd as [|y l' Hx Hl]; subst. constructor.
    + rewrite in_app_iff. intros [H|[H|[]]]; [contradiction|].
      subst. apply Hnot. now left.
    + apply IH; [exact Hl|]. intros H. apply Hnot. now right.
Qed.

Lemma serve_usernames (h : Host) (c : Call) :
  NoDup (map User.username (readUsers (disk h))) ->
  NoDup (map User.username (readUsers (disk (serve h c)))).
Proof.
  intros Hnd. destruct (spares_users c) eqn:Hspare;
    [|rewrite (serve_users_lost h c Hspare); constructor].
  destruct (serve_users h c Hspare) as (more & -> & [->|(name & uuid & Hfind & ->)]).
  - now rewrite app_nil_r.
  - rewrite map_app. cbn [map User.username]. apply NoDup_snoc; [exact Hnd|].
    intros Hin. apply in_map_iff in Hin. destruct Hin as (x & Hx & Hin).
    unfold findUserByUsername in Hfind.
    pose proof (find_none _ _ Hfind x Hin) as Hno. cbn in Hno.
    rewrite Hx, String.eqb_refl in Hno. discriminate.
Qed.

(** X24.  Whatever calls the REST side serves, also when writes are
    refused, the users file never comes to hold two users with the same
    name, provided it held none to begin with. *)
Theorem usernames_stay_distinct (calls : list Call) (h : Host) :
  NoDup (map User.username (readUsers (disk h))) ->
  NoDup (map User.username (readUsers (disk (serve_all calls h)))).
Proof.
  revert h. induction calls as [|c calls IH]; intros h Hnd; [exact Hnd|].
  cbn [serve_all fold_left]. apply IH. now apply serve_usernames.
Qed.

(** ** Recordings: the metadata *)

Lemma readRecordings_writeRecordings (recordings : list Recording.t) (d : Fs.t) :
  Fs.refuses d Fs.METADATA_FILE = false ->
  readRecordings (writeRecordings recordings d) = recordings.
Proof.
  intros H. rewrite writeRecordings_eq, H. now rewrite readRecordings_eq.
Qed.

Lemma writeRecordings_refused (recordings : list Recording.t) (d : Fs.t) :
  Fs.refuses d Fs.METADATA_FILE = true -> writeRecordings recordings d = d.
Proof. intros H. now rewrite writeRecordings_eq, H. Qed.

Lemma writeRecordings_dir (recordings : list Recording.t) (d : Fs.t) :
  Fs.recordings_dir (writeRecordings recordings d) = Fs.recordings_dir d.
Proof. rewrite writeRecordings_eq. now destruct (Fs.refuses d Fs.METADATA_FILE). Qed.

Lemma deleteRecording_absent (id : string) (d : Fs.t) :
  findRecordingById id d = None -> deleteRecording id d = (false, d).
Proof.
  unfold findRecordingById, deleteRecording. intros Hfind. cbv zeta.
  rewrite filter_all_true.
  - now rewrite Nat.eqb_refl.
  - intros r Hr. now rewrite (find_none _ _ Hfind r Hr).
Qed.

Lemma deleteRecording_present (id : string) (d : Fs.t) :
  findRecordingById id d <> None ->
  deleteRecording id d
  = (true, writeRecordings (filter (fun r => negb (has_id id r)) (readRecordings d)) d).
Proof.
  unfold findRecordingById, deleteRecording. intros Hfind. cbv zeta.
  destruct (Nat.eqb_spec
              (List.length (filter (fun r => negb (has_id id r)) (readRecordings d)))
              (List.length (readRecordings d))) as [Hlen|Hlen]; [|reflexivity].
  exfalso. apply Hfind. apply filter_length_eq in Hlen.
  rewrite <- Hlen. apply find_filter_none.
Qed.

Lemma deleteRecording_reads (id : string) (d : Fs.t) :
  Fs.refuses d Fs.METADATA_FILE = false ->
  readRecordings (snd (deleteRecording id d))
  = filter (fun r => negb (has_id id r)) (readRecordings d).
Proof.
  intros Hwritable.
  destruct (findRecordingById id d) as [r|] eqn:Hfind.
  - rewrite deleteRecording_present by congruence. cbn [snd].
    now apply readRecordings_writeRecordings.
  - rewrite (deleteRecording_absent id d Hfind). cbn [snd].
    symmetry. apply filter_all_true. intros r Hr.
    unfold findRecordingById in Hfind. now rewrite (find_none _ _ Hfind r Hr).
Qed.

Lemma deleteRecording_dir (id : string) (d : Fs.t) :
  Fs.recordings_dir (snd (deleteRecording id d)) = Fs.recordings_dir d.
Proof.
  unfold deleteRecording. cbv zeta. destruct (Nat.eqb _ _); cbn [snd]; [reflexivity|].
  apply writeRecordings_dir.
Qed.

(** X25.  [deleteRecording] returns [false] and leaves the disk alone
    when no record has the identifier.  Otherwise it returns [true]; when
    the metadata file can be written, no record with the identifier is
    left, every record with another identifier is found as before, and
    neither the users nor the files of the recordings change; when the
    write is refused the disk is unchanged, and the result is [true] all
    the same. *)
Theorem deleteRecording_outcomes (id : string) (d : Fs.t) :
  let d' := snd (deleteRecording id d) in
  (findRecordingById id d = None -> deleteRecording id d = (false, d))
  /\ (findRecordingById id d <> None ->
      fst (deleteRecording id d) = true
      /\ (Fs.refuses d Fs.METADATA_FILE = true -> d' = d)
      /\ (Fs.refuses d Fs.METADATA_FILE = false ->
          findRecordingById id d' = None
          /\ (forall other, other <> id ->
                findRecordingById other d' = findRecordingById other d)
          /\ (forall userId,
                getRecordingsByUserId userId d'
                = filter (fun r => negb (has_id id r)) (getRecordingsByUserId userId d))
          /\ readUsers d' = readUsers d
          /\ Fs.recordings_dir d' = Fs.recordings_dir d)).
Proof.
  intros d'. split; [apply deleteRecording_absent|].
  intros Hfind. subst d'. rewrite (deleteRecording_present id d Hfind). cbn [fst snd].
  split; [reflexivity|]. split; [apply writeRecordings_refused|].
  intros Hwritable.
  unfold findRecordingById, getRecordingsByUserId.
  rewrite (readRecordings_writeRecordings _ _ Hwritable).
  split; [apply find_filter_none|].
  split; [|split; [|split]].
  - intros other Hne. apply find_filter_other. intros r. now apply has_id_other.
  - intros userId. apply filter_comm.
  - apply readUsers_narrows, writeRecordings_narrows.
  - apply writeRecordings_dir.
Qed.

Lemma findIndex_None {A : Type} (p : A -> bool) (l : list A) :
  find p l = None -> findIndex p l = None.
Proof.
  induction l as [|x l IH]; [reflexivity|].
  cbn. destruct (p x); [discriminate|]. intros H. now rewrite IH.
Qed.

(** [findIndex] finds the first match, and [update_at] replaces it. *)
Lemma update_at_found {A : Type} (p : A -> bool) (f : A -> A) (l : list A) (a : A) :
  find p l = Some a ->
  exists index before after,
    findIndex p l = Some index
    /\ l = before ++ a :: after
    /\ find p before = None
    /\ update_at index f l = before ++ f a :: after.
Proof.
  induction l as [|x l IH]; [discriminate|].
  cbn. destruct (p x) eqn:Hp.
  - intros H. injection H as ->. now exists O, [], l.
  - intros H. destruct (IH H) as (index & before & after & Hi & Hl & Hb & Hu).
    exists (S index), (x :: before), after.
    rewrite Hi. cbn. rewrite Hp, Hu, <- Hl. auto.
Qed.

Lemma updateRecording_absent (id : string) (updates : Recording.partial) (d : Fs.t) :
  findRecordingById id d = None -> updateRecording id updates d = (false, d).
Proof.
  unfold findRecordingById, updateRecording. intros H. cbv zeta.
  now rewrite (findIndex_None _ _ H).
Qed.

Lemma updateRecording_present (id : string) (updates : Recording.partial) (d : Fs.t)
  (r : Recording.t) :
  findRecordingById id d = Some r ->
  exists before after,
    readRecordings d = before ++ r :: after
    /\ find (has_id id) before = None
    /\ updateRecording id updates d
       = (true, writeRecordings (before ++ Recording.spread r updates :: after) d).
Proof.
  unfold findRecordingById, updateRecording. intros H. cbv zeta.
  destruct (update_at_found _ (fun r => Recording.spread r updates) _ _ H)
    as (index & before & after & Hi & Hl & Hb & Hu).
  exists before, after. now rewrite Hi, Hu.
Qed.

Lemma find_replaced (other : string) (before after : list Recording.t)
  (r r' : Recording.t) :
  has_id other r' = has_id other r ->
  has_id other r = false ->
  find (has_id other) (before ++ r' :: after) = find (has_id other) (before ++ r :: after).
Proof.
  intros Hsame Hno. induction before as [|x before IH]; cbn.
  - now rewrite Hsame, Hno.
  - now rewrite IH.
Qed.

(** X26.  [updateRecording] returns [false] and leaves the disk alone
    when no record has the identifier.  Otherwise it returns [true] –
    also when the write is refused and nothing changes –, and when the
    metadata file can be written and the update carries no [recordingId],
    the first record with the identifier becomes its merge with the
    update, while every other identifier finds what it found before and
    the order of the records is unchanged. *)
Theorem updateRecording_outcomes (id : string) (updates : Recording.partial)
  (d : Fs.t) :
  let d' := snd (updateRecording id updates d) in
  (findRecordingById id d = None -> updateRecording id updates d = (false, d))
  /\ (forall r, findRecordingById id d = Some r ->
        fst (updateRecording id updates d) = true
        /\ (Fs.refuses d Fs.METADATA_FILE = true -> d' = d)
        /\ (Fs.refuses d Fs.METADATA_FILE = false ->
            Recording.set_recordingId updates = None ->
            findRecordingById id d' = Some (Recording.spread r updates)
            /\ (forall other, other <> id ->
                  findRecordingById other d' = findRecordingById other d)
            /\ map Recording.recordingId (readRecordings d')
               = map Recording.recordingId (readRecordings d)
            /\ readUsers d' = readUsers d
            /\ Fs.recordings_dir d' = Fs.recordings_dir d)).
Proof.
  intros d'. split; [apply updateRecording_absent|].
  intros r Hfind. subst d'.
  destruct (updateRecording_present id updates d r Hfind)
    as (before & after & Hl & Hbefore & ->).
  cbn [fst snd]. split; [reflexivity|]. split; [apply writeRecordings_refused|].
  intros Hwritable Hkeep.
  assert (Hid : Recording.recordingId (Recording.spread r updates)
                = Recording.recordingId r).
  { unfold Recording.spread. cbn. now rewrite Hkeep. }
  assert (Hr : has_id id r = true).
  { unfold findRecordingById in Hfind. now apply find_some in Hfind. }
  unfold findRecordingById.
  rewrite (readRecordings_writeRecordings _ _ Hwritable).
  split; [|split; [|split; [|split]]].
  - rewrite (find_app_None _ _ _ Hbefore). cbn [find].
    replace (has_id id (Recording.spread r updates)) with true; [reflexivity|].
    unfold has_id in *. now rewrite Hid, Hr.
  - intros other Hne. rewrite Hl. apply find_replaced.
    + unfold has_id. now rewrite Hid.
    + unfold has_id in *. apply String.eqb_eq in Hr.
      destruct (String.eqb_spec (Recording.recordingId r) other); [congruence|reflexivity].
  - rewrite Hl, !map_app. cbn [map]. now rewrite Hid.
  - apply readUsers_narrows, writeRecordings_narrows.
  - apply writeRecordings_dir.
Qed.

(** ** Recordings: the routes *)

Lemma title_only (r : Recording.t) (title : string) :
  Recording.spread r (Recording.only_title title)
  = Recording.mk (Recording.recordingId r) (Recording.userId r) (Recording.meetingId r)
                 (Recording.username r) title (Recording.filename r)
                 (Recording.duration r) (Recording.createdAt r)
                 (Recording.recordingType r).
Proof. reflexivity. Qed.

(** X27.  [PUT /:id]: 400 without a title, 404 for an unknown recording,
    403 when a [userId] is sent that is not the owner's; none of these
    changes anything.  Otherwise the answer is 200, the deletion queue is
    untouched, and when the metadata file can be written a [GET /:id]
    shows the recording with the new title and all its other fields as
    they were, and every other recording as before. *)
Theorem put_recording_outcomes (id : string) (title userId : option string)
  (h : Host) :
  let run := put_recording id title userId h in
  (truthy title = false ->
   run = (mkResponse 400 (error_body "Title is required"), h))
  /\ (truthy title = true -> findRecordingById id (disk h) = None ->
      run = (mkResponse 404 (error_body "Recording not found"), h))
  /\ (forall (t : string) (r : Recording.t),
        title = Some t -> t <> "" ->
        findRecordingById id (disk h) = Some r ->
        (not_owner userId r = true ->
         run = (mkResponse 403 (error_body "Not authorized to update this recording"), h))
        /\ (not_owner userId r = false ->
            fst run = ok updated_body
            /\ queue (snd run) = queue h
            /\ (Fs.refuses (disk h) Fs.METADATA_FILE = true -> snd run = h)
            /\ (Fs.refuses (disk h) Fs.METADATA_FILE = false ->
                fst (get_recording id (snd run))
                = ok (recording_body
                        (Recording.mk (Recording.recordingId r) (Recording.userId r)
                           (Recording.meetingId r) (Recording.username r) t
                           (Recording.filename r) (Recording.duration r)
                           (Recording.createdAt r) (Recording.recordingType r))
                        ("/api/recordings/" ++ id ++ "/video"))
                /\ (forall other, other <> id ->
                      get_recording other (snd run)
                      = (fst (get_recording other h), snd run))))).
Proof.
  intros run. subst run. unfold put_recording.
  split; [intros ->; reflexivity|].
  split; [intros -> ->; reflexivity|].
  intros t r -> Ht Hfind. rewrite (truthy_named t Ht). cbn [negb]. rewrite Hfind.
  split; [intros ->; reflexivity|].
  intros ->.
  destruct (updateRecording_present id (Recording.only_title t) (disk h) r Hfind)
    as (before & after & Hl & Hbefore & Hrun).
  rewrite Hrun. cbn [fst snd queue set_disk].
  split; [reflexivity|]. split; [reflexivity|].
  split.
  - intros Hrefused. rewrite (writeRecordings_refused _ _ Hrefused). now destruct h.
  - intros Hwritable.
    assert (Hr : has_id id r = true).
    { unfold findRecordingById in Hfind. now apply find_some in Hfind. }
    unfold get_recording, findRecordingById. cbn [disk set_disk].
    rewrite (readRecordings_writeRecordings _ _ Hwritable).
    split.
    + rewrite (find_app_None _ _ _ Hbefore). cbn [find].
      replace (has_id id (Recording.spread r (Recording.only_title t))) with true
        by (symmetry; exact Hr).
      now rewrite title_only.
    + intros other Hne.
      rewrite (find_replaced other before after r
                 (Recording.spread r (Recording.only_title t))).
      * rewrite <- Hl. now destruct (find (has_id other) (readRecordings (disk h))).
      * reflexivity.
      * unfold has_id in *. apply String.eqb_eq in Hr.
        destruct (String.eqb_spec (Recording.recordingId r) other);
          [congruence|reflexivity].
Qed.

(** ** The deletion queue *)

Lemma existsb_false_filter (name : string) (l : list string) :
  existsb (String.eqb name) l = false ->
  filter (fun n => negb (String.eqb name n)) l = l.
Proof.
  intros H. apply filter_all_true. intros x Hx.
  destruct (String.eqb name x) eqn:Heq; [|reflexivity].
  assert (existsb (String.eqb name) l = true) by (apply existsb_exists; eauto).
  congruence.
Qed.

Lemma existsb_filter_out (name : string) (l : list string) :
  existsb (String.eqb name) (filter (fun n => negb (String.eqb name n)) l) = false.
Proof.
  destruct (existsb _ _) eqn:H; [|reflexivity].
  apply existsb_exists in H. destruct H as (x & Hx & Heq).
  apply filter_In in Hx. destruct Hx as [_ Hx]. now rewrite Heq in Hx.
Qed.

(** The three ways in which [deleteRecordingFiles] ends: nothing to do;
    the file cannot be removed and the task is queued again; the file
    is removed, if there is one, and [deleteRecording] runs. *)
Lemma deleteRecordingFiles_cases (id : string) (h : Host) :
  (findRecordingById id (disk h) = None
   /\ DeletionQueue.deleteRecordingFiles id h = h)
  \/ (exists r,
        findRecordingById id (disk h) = Some r
        /\ Fs.existsSync (Fs.recording_file (Recording.filename r)) (disk h) = true
        /\ Fs.refuses (disk h) (Fs.recording_file (Recording.filename r)) = true
        /\ DeletionQueue.deleteRecordingFiles id h
           = mkHost (time h) (disk h) (queue h ++ [mkDeletionTask id (time h)])
                    (processing h) (interval h))
  \/ (exists r,
        findRecordingById id (disk h) = Some r
        /\ (Fs.existsSync (Fs.recording_file (Recording.filename r)) (disk h) = true ->
            Fs.refuses (disk h) (Fs.recording_file (Recording.filename r)) = false)
        /\ DeletionQueue.deleteRecordingFiles id h
           = set_disk
               (snd (deleteRecording id
                       (Fs.mk (Fs.users_json (disk h)) (Fs.metadata_json (disk h))
                              (filter (fun n => negb (String.eqb (Recording.filename r) n))
                                      (Fs.recordings_dir (disk h)))
                              (Fs.denied (disk h)))))
               h).
Proof.
  unfold DeletionQueue.deleteRecordingFiles.
  destruct (findRecordingById id (disk h)) as [r|] eqn:Hfind; [|now left].
  right. cbv zeta. unfold getRecordingFilePath.
  destruct (Fs.existsSync (Fs.recording_file (Recording.filename r)) (disk h)) eqn:Hex.
  - unfold Fs.unlinkSync. rewrite Hex. cbn [negb].
    destruct (Fs.refuses (disk h) (Fs.recording_file (Recording.filename r))) eqn:Href.
    + left. exists r. auto.
    + right. exists r. auto.
  - right. exists r. split; [reflexivity|]. split; [intros Habs; congruence|].
    cbn [Fs.existsSync] in Hex. rewrite (existsb_false_filter _ _ Hex).
    now destruct (disk h).
Qed.

Lemma find_filter_None {A : Type} (p q : A -> bool) (l : list A) :
  find p l = None -> find p (filter q l) = None.
Proof.
  intros H. apply find_none_iff. intros x Hx. apply filter_In in Hx.
  now apply (find_none _ _ H).
Qed.

Lemma readRecordings_metadata (d d' : Fs.t) :
  Fs.metadata_json d' = Fs.metadata_json d -> readRecordings d' = readRecordings d.
Proof. intros H. now rewrite !readRecordings_eq, H. Qed.

Lemma deleteRecording_metadata (id : string) (d : Fs.t) :
  readRecordings (snd (deleteRecording id d)) = readRecordings d
  \/ readRecordings (snd (deleteRecording id d))
     = filter (fun r => negb (has_id id r)) (readRecordings d).
Proof.
  destruct (Fs.refuses d Fs.METADATA_FILE) eqn:Href.
  - left. unfold deleteRecording. cbv zeta. destruct (Nat.eqb _ _); cbn [snd]; [reflexivity|].
    now rewrite writeRecordings_refused.
  - right. now apply deleteRecording_reads.
Qed.

(** A step of the queue changes the metadata by removing the records of
    its task, or not at all. *)
Lemma deleteRecordingFiles_metadata (id : string) (h : Host) :
  readRecordings (disk (DeletionQueue.deleteRecordingFiles id h)) = readRecordings (disk h)
  \/ readRecordings (disk (DeletionQueue.deleteRecordingFiles id h))
     = filter (fun r => negb (has_id id r)) (readRecordings (disk h)).
Proof.
  destruct (deleteRecordingFiles_cases id h)
    as [[_ ->]|[(r & _ & _ & _ & ->)|(r & _ & _ & ->)]]; [now left|now left|].
  cbn [disk set_disk].
  destruct (deleteRecording_metadata id
              (Fs.mk (Fs.users_json (disk h)) (Fs.metadata_json (disk h))
                 (filter (fun n => negb (String.eqb (Recording.filename r) n))
                    (Fs.recordings_dir (disk h)))
                 (Fs.denied (disk h)))) as [H|H].
  - left. rewrite H. now apply readRecordings_metadata.
  - right. rewrite H. reflexivity.
Qed.

Lemma deleteRecordingFiles_keeps_absent (id other : string) (h : Host) :
  findRecordingById other (disk h) = None ->
  findRecordingById other (disk (DeletionQueue.deleteRecordingFiles id h)) = None.
Proof.
  unfold findRecordingById. intros H.
  destruct (deleteRecordingFiles_metadata id h) as [-> | ->]; [exact H|].
  now apply find_filter_None.
Qed.

Lemma deleteRecordingFiles_keeps_other (id other : string) (h : Host) :
  other <> id ->
  findRecordingById other (disk (DeletionQueue.deleteRecordingFiles id h))
  = findRecordingById other (disk h).
Proof.
  unfold findRecordingById. intros Hne.
  destruct (deleteRecordingFiles_metadata id h) as [-> | ->]; [reflexivity|].
  apply find_filter_other. intros r. now apply has_id_other.
Qed.

Lemma for_each_task_keeps_absent (tasks : list DeletionTask) (other : string) (h : Host) :
  findRecordingById other (disk h) = None ->
  findRecordingById other (disk (DeletionQueue.for_each_task tasks h)) = None.
Proof.
  revert h. induction tasks as [|t tasks IH]; intros h H; [exact H|].
  rewrite for_each_task_cons. apply IH. now apply deleteRecordingFiles_keeps_absent.
Qed.

Lemma deleteRecordingFiles_fields (id : string) (h : Host) :
  let h' := DeletionQueue.deleteRecordingFiles id h in
  time h' = time h /\ processing h' = processing h /\ interval h' = interval h
  /\ (queue h' = queue h \/ queue h' = queue h ++ [mkDeletionTask id (time h)]).
Proof.
  cbv zeta.
  destruct (deleteRecordingFiles_cases id h)
    as [[_ ->]|[(r & _ & _ & _ & ->)|(r & _ & _ & ->)]]; cbn; auto.
Qed.

Lemma for_each_task_fields (tasks : list DeletionTask) (h : Host) :
  let h' := DeletionQueue.for_each_task tasks h in
  time h' = time h /\ processing h' = processing h /\ interval h' = interval h
  /\ exists again, queue h' = queue h ++ again.
Proof.
  revert h. induction tasks as [|t tasks IH]; intros h; cbv zeta.
  - cbn. repeat split. exists []. now rewrite app_nil_r.
  - rewrite for_each_task_cons.
    destruct (IH (DeletionQueue.deleteRecordingFiles (task_recordingId t) h))
      as (Ht & Hp & Hi & again & Hq).
    destruct (deleteRecordingFiles_fields (task_recordingId t) h)
      as (Ht1 & Hp1 & Hi1 & Hq1).
    split; [congruence|]. split; [congruence|]. split; [congruence|].
    destruct Hq1 as [Hq1|Hq1]; rewrite Hq, Hq1.
    + now exists again.
    + rewrite <- app_assoc. now eexists.
Qed.

(** The state in which a task cannot be carried out: its record is in
    the metadata, the file exists and the system refuses to remove it. *)
Lemma stuck_stays (id other : string) (r : Recording.t) (h : Host) :
  findRecordingById other (disk h) = Some r ->
  Fs.existsSync (Fs.recording_file (Recording.filename r)) (disk h) = true ->
  Fs.refuses (disk h) (Fs.recording_file (Recording.filename r)) = true ->
  let h' := DeletionQueue.deleteRecordingFiles id h in
  findRecordingById other (disk h') = Some r
  /\ Fs.existsSync (Fs.recording_file (Recording.filename r)) (disk h') = true.
Proof.
  intros Hfind Hex Href. cbv zeta.
  destruct (deleteRecordingFiles_cases id h)
    as [[_ ->]|[(r' & _ & _ & _ & ->)|(r' & Hfind' & Hok & Hrun)]]; [auto|auto|].
  destruct (String.eqb_spec other id) as [->|Hne].
  - assert (r' = r) by congruence. subst r'.
    specialize (Hok Hex). congruence.
  - split; [rewrite deleteRecordingFiles_keeps_other; assumption|].
    rewrite Hrun. cbn [disk set_disk Fs.existsSync].
    rewrite deleteRecording_dir. cbn [Fs.recordings_dir].
    cbn [Fs.existsSync] in Hex. apply existsb_exists in Hex.
    destruct Hex as (x & Hx & Heq). apply String.eqb_eq in Heq. subst x.
    apply existsb_exists. exists (Recording.filename r).
    split; [|apply String.eqb_refl].
    apply filter_In. split; [exact Hx|].
    destruct (String.eqb_spec (Recording.filename r') (Recording.filename r)) as [Hsame|];
      [|reflexivity].
    exfalso. cbn [Fs.existsSync] in Hok. rewrite Hsame in Hok.
    assert (Hex' : existsb (String.eqb (Recording.filename r)) (Fs.recordings_dir (disk h))
                   = true) by (apply existsb_exists; eexists; split;
                               [exact Hx|apply String.eqb_refl]).
    specialize (Hok Hex'). congruence.
Qed.

Lemma narrows_refuses (d d' : Fs.t) (p : Fs.path) :
  narrows d d' -> Fs.refuses d' p = Fs.refuses d p.
Proof. intros (_ & Hd & _). unfold Fs.refuses. now rewrite Hd. Qed.

Lemma for_each_task_stuck_stays (tasks : list DeletionTask) (other : string)
  (r : Recording.t) (h : Host) :
  findRecordingById other (disk h) = Some r ->
  Fs.existsSync (Fs.recording_file (Recording.filename r)) (disk h) = true ->
  Fs.refuses (disk h) (Fs.recording_file (Recording.filename r)) = true ->
  let h' := DeletionQueue.for_each_task tasks h in
  findRecordingById other (disk h') = Some r
  /\ Fs.existsSync (Fs.recording_file (Recording.filename r)) (disk h') = true.
Proof.
  revert h. induction tasks as [|t tasks IH]; intros h Hfind Hex Href; [now split|].
  cbv zeta. rewrite for_each_task_cons.
  destruct (stuck_stays (task_recordingId t) other r h Hfind Hex Href) as [Hfind1 Hex1].
  apply IH; [exact Hfind1|exact Hex1|].
  rewrite (narrows_refuses (disk h)); [exact Href|apply deleteRecordingFiles_narrows].
Qed.

(** The tasks that a run of the queue puts back. *)
Lemma for_each_task_requeued (tasks : list DeletionTask) (h : Host) :
  let h' := DeletionQueue.for_each_task tasks h in
  forall task, In task (queue h') ->
    In task (queue h)
    \/ (In (task_recordingId task) (map task_recordingId tasks)
        /\ scheduledAt task = time h
        /\ exists r,
             findRecordingById (task_recordingId task) (disk h') = Some r
             /\ Fs.existsSync (Fs.recording_file (Recording.filename r)) (disk h') = true
             /\ Fs.refuses (disk h) (Fs.recording_file (Recording.filename r)) = true).
Proof.
  revert h. induction tasks as [|t tasks IH]; intros h; cbv zeta; [now left|].
  rewrite for_each_task_cons. intros task Hin.
  pose proof (deleteRecordingFiles_narrows (task_recordingId t) h) as Hnarrow.
  destruct (deleteRecordingFiles_fields (task_recordingId t) h) as (Htime & _).
  destruct (IH _ task Hin) as [Hold|(Hid & Hat & r & Hfind & Hex & Href)].
  - destruct (deleteRecordingFiles_cases (task_recordingId t) h)
      as [[_ Hrun]|[(r & Hfind & Hex & Href & Hrun)|(r & _ & _ & Hrun)]].
    + left. now rewrite Hrun in Hold.
    + rewrite Hrun in Hold. cbn [queue] in Hold. apply in_app_iff in Hold.
      destruct Hold as [Hold|[<-|[]]]; [now left|]. right.
      cbn [task_recordingId scheduledAt map]. split; [now left|]. split; [reflexivity|].
      exists r.
      destruct (for_each_task_stuck_stays tasks (task_recordingId t) r
                  (DeletionQueue.deleteRecordingFiles (task_recordingId t) h))
        as [Hfind' Hex']; [rewrite Hrun; assumption..|].
      auto.
    + left. now rewrite Hrun in Hold.
  - right. cbn [map]. split; [now right|]. split; [congruence|].
    exists r. split; [exact Hfind|]. split; [exact Hex|].
    now rewrite <- (narrows_refuses _ _ _ Hnarrow).
Qed.

(** With the metadata file writable, a task ends without a record of
    its recording, or in the queue again. *)
Lemma for_each_task_settles (tasks : list DeletionTask) (h : Host) :
  Fs.refuses (disk h) Fs.METADATA_FILE = false ->
  let h' := DeletionQueue.for_each_task tasks h in
  forall id, In id (map task_recordingId tasks) ->
    findRecordingById id (disk h') = None
    \/ In (mkDeletionTask id (time h)) (queue h').
Proof.
  revert h. induction tasks as [|t tasks IH]; intros h Hwritable; cbv zeta; [intros ? []|].
  rewrite for_each_task_cons. intros id Hin.
  pose proof (deleteRecordingFiles_narrows (task_recordingId t) h) as Hnarrow.
  destruct (deleteRecordingFiles_fields (task_recordingId t) h) as (Htime & _).
  cbn [map] in Hin.
  destruct (String.eqb_spec id (task_recordingId t)) as [->|Hne].
  - destruct (deleteRecordingFiles_cases (task_recordingId t) h)
      as [[Hnone Hrun]|[(r & _ & _ & _ & Hrun)|(r & _ & _ & Hrun)]].
    + left. apply for_each_task_keeps_absent. now rewrite Hrun.
    + right.
      destruct (for_each_task_fields tasks
                  (DeletionQueue.deleteRecordingFiles (task_recordingId t) h))
        as (_ & _ & _ & again & ->).
      rewrite Hrun. cbn [queue]. rewrite !in_app_iff. left. right. now left.
    + left. apply for_each_task_keeps_absent. rewrite Hrun. cbn [disk set_disk].
      unfold findRecordingById. rewrite deleteRecording_reads by exact Hwritable.
      apply find_filter_none.
  - destruct Hin as [Hin|Hin]; [congruence|].
    rewrite <- Htime. apply IH; [|exact Hin].
    now rewrite (narrows_refuses _ _ _ Hnarrow).
Qed.

Lemma processQueue_runs (h : Host) :
  processing h = false ->
  DeletionQueue.processQueue h
  = set_processing false
      (DeletionQueue.for_each_task (queue h) (set_queue [] (set_processing true h)))
  \/ (queue h = [] /\ DeletionQueue.processQueue h = h).
Proof.
  intros Hp. unfold DeletionQueue.processQueue. rewrite Hp. cbn [orb].
  destruct (queue h) as [|t q] eqn:Hq; [right; now rewrite ?Hq|].
  left. cbn [List.length Nat.eqb]. cbv zeta. cbn [queue set_processing]. now rewrite Hq.
Qed.

(** X29.  A run of the deletion queue, on any disk.  The tasks that are
    in the queue afterwards belong to the batch, and each of them is
    there for a reason: its record is still in the metadata, its file
    exists and the system refuses to remove it.  When the metadata file
    can be written, every task of the batch has ended without a record
    of its recording, or is queued again. *)
Theorem processQueue_outcomes (h : Host) :
  processing h = false ->
  let batch := map task_recordingId (queue h) in
  let h' := DeletionQueue.processQueue h in
  processing h' = false
  /\ (forall task, In task (queue h') ->
        In (task_recordingId task) batch
        /\ exists r,
             findRecordingById (task_recordingId task) (disk h') = Some r
             /\ Fs.existsSync (Fs.recording_file (Recording.filename r)) (disk h') = true
             /\ Fs.refuses (disk h) (Fs.recording_file (Recording.filename r)) = true)
  /\ (Fs.refuses (disk h) Fs.METADATA_FILE = false ->
      forall id, In id batch ->
        findRecordingById id (disk h') = None
        \/ In id (map task_recordingId (queue h'))).
Proof.
  intros Hp batch h'. subst batch h'.
  destruct (processQueue_runs h Hp) as [->|[Hq ->]].
  - cbn [processing set_processing queue disk]. split; [reflexivity|]. split.
    + intros task Hin.
      destruct (for_each_task_requeued (queue h) (set_queue [] (set_processing true h))
                  task Hin) as [[]|(Hid & _ & Hr)].
      now split.
    + intros Hwritable id Hin.
      destruct (for_each_task_settles (queue h) (set_queue [] (set_processing true h))
                  Hwritable id Hin) as [Hnone|Hagain]; [now left|right].
      apply in_map_iff. eexists. split; [|exact Hagain]. reflexivity.
  - split; [exact Hp|]. rewrite Hq. split; [intros ? []|intros _ ? []].
Qed.

(** *** A run of the queue on a disk that refuses nothing *)

Lemma filter_filter {A : Type} (p q : A -> bool) (l : list A) :
  filter p (filter q l) = filter (fun x => q x && p x) l.
Proof.
  induction l as [|x l IH]; [reflexivity|].
  cbn. destruct (q x); cbn; [destruct (p x)|]; now rewrite IH.
Qed.

Lemma existsb_incl (name : string) (l l' : list string) :
  incl l' l -> existsb (String.eqb name) l = false -> existsb (String.eqb name) l' = false.
Proof.
  intros Hincl H. destruct (existsb (String.eqb name) l') eqn:H'; [|reflexivity].
  apply existsb_exists in H'. destruct H' as (x & Hx & Heq).
  assert (existsb (String.eqb name) l = true) by (apply existsb_exists; eauto).
  congruence.
Qed.

Lemma refuses_nothing (d : Fs.t) (p : Fs.path) : Fs.denied d = [] -> Fs.refuses d p = false.
Proof. unfold Fs.refuses. now intros ->. Qed.

Lemma deleteRecordingFiles_clear (id : string) (h : Host) :
  Fs.denied (disk h) = [] ->
  let h' := DeletionQueue.deleteRecordingFiles id h in
  queue h' = queue h
  /\ Fs.denied (disk h') = []
  /\ readRecordings (disk h')
     = filter (fun r => negb (has_id id r)) (readRecordings (disk h))
  /\ Fs.recordings_dir (disk h')
     = match findRecordingById id (disk h) with
       | Some r => filter (fun n => negb (String.eqb (Recording.filename r) n))
                          (Fs.recordings_dir (disk h))
       | None => Fs.recordings_dir (disk h)
       end.
Proof.
  intros Hclear. cbv zeta.
  pose proof (deleteRecordingFiles_narrows id h) as (_ & Hdenied & _).
  destruct (deleteRecordingFiles_cases id h)
    as [[Hnone Hrun]|[(r & _ & _ & Href & _)|(r & Hfind & _ & Hrun)]].
  - rewrite Hrun, Hnone. split; [reflexivity|]. split; [exact Hclear|].
    split; [|reflexivity].
    symmetry. apply filter_all_true. intros r Hr.
    unfold findRecordingById in Hnone. now rewrite (find_none _ _ Hnone r Hr).
  - rewrite (refuses_nothing _ _ Hclear) in Href. discriminate.
  - split; [now rewrite Hrun|]. split; [congruence|].
    rewrite Hrun, Hfind. cbn [disk set_disk]. split.
    + rewrite deleteRecording_reads; [reflexivity|].
      apply refuses_nothing. exact Hclear.
    + now rewrite deleteRecording_dir.
Qed.

Lemma for_each_task_clear (tasks : list DeletionTask) (h : Host) :
  Fs.denied (disk h) = [] ->
  let batch := map task_recordingId tasks in
  let h' := DeletionQueue.for_each_task tasks h in
  queue h' = queue h
  /\ readRecordings (disk h')
     = filter (fun r => negb (existsb (String.eqb (Recording.recordingId r)) batch))
              (readRecordings (disk h))
  /\ (forall id r, In id batch -> findRecordingById id (disk h) = Some r ->
        Fs.existsSync (Fs.recording_file (Recording.filename r)) (disk h') = false)
  /\ (forall name, In name (Fs.recordings_dir (disk h)) ->
        (forall id r, In id batch -> findRecordingById id (disk h) = Some r ->
           Recording.filename r <> name) ->
        In name (Fs.recordings_dir (disk h'))).
Proof.
  revert h. induction tasks as [|t tasks IH]; intros h Hclear; cbv zeta.
  - cbn [map existsb negb DeletionQueue.for_each_task fold_left].
    split; [reflexivity|]. split; [|split; [intros ? ? []|auto]].
    symmetry. now apply filter_all_true.
  - rewrite for_each_task_cons.
    destruct (deleteRecordingFiles_clear (task_recordingId t) h Hclear)
      as (Hq1 & Hclear1 & Hread1 & Hdir1).
    destruct (IH _ Hclear1) as (Hq & Hread & Hgone & Hstay).
    split; [congruence|]. split; [|split].
    + rewrite Hread, Hread1, filter_filter. apply filter_ext. intros r.
      cbn [map existsb]. unfold has_id. now rewrite negb_orb.
    + intros id r Hin Hfind. cbn [map] in Hin.
      destruct (String.eqb_spec id (task_recordingId t)) as [->|Hne].
      * cbn [Fs.existsSync].
        apply (existsb_incl _
                 (Fs.recordings_dir
                    (disk (DeletionQueue.deleteRecordingFiles (task_recordingId t) h)))).
        -- apply for_each_task_narrows.
        -- rewrite Hdir1, Hfind. apply existsb_filter_out.
      * destruct Hin as [Hin|Hin]; [congruence|].
        apply (Hgone id r Hin).
        now rewrite deleteRecordingFiles_keeps_other.
    + intros name Hin Hother. apply Hstay.
      * rewrite Hdir1.
        destruct (findRecordingById (task_recordingId t) (disk h)) as [r|] eqn:Hfind;
          [|exact Hin].
        apply filter_In. split; [exact Hin|].
        destruct (String.eqb_spec (Recording.filename r) name) as [Heq|]; [|reflexivity].
        exfalso. exact (Hother (task_recordingId t) r (or_introl eq_refl) Hfind Heq).
      * intros id r Hid Hfind.
        destruct (String.eqb_spec id (task_recordingId t)) as [->|Hne].
        -- exfalso. unfold findRecordingById in Hfind. rewrite Hread1 in Hfind.
           now rewrite find_filter_none in Hfind.
        -- rewrite deleteRecordingFiles_keeps_other in Hfind by exact Hne.
           apply (Hother id r); [now right|exact Hfind].
Qed.

(** X30.  A run of the deletion queue on a disk that refuses nothing
    empties the queue; the metadata are what they were without the
    records of the queued identifiers, in the same order; the file of
    each queued recording is gone; every other file of the recordings
    directory stays, unless a deleted record names it; the users are
    untouched. *)
Theorem processQueue_clears (h : Host) :
  processing h = false ->
  Fs.denied (disk h) = [] ->
  let batch := map task_recordingId (queue h) in
  let h' := DeletionQueue.processQueue h in
  queue h' = []
  /\ readRecordings (disk h')
     = filter (fun r => negb (existsb (String.eqb (Recording.recordingId r)) batch))
              (readRecordings (disk h))
  /\ (forall id r, In id batch -> findRecordingById id (disk h) = Some r ->
        Fs.existsSync (Fs.recording_file (Recording.filename r)) (disk h') = false)
  /\ (forall name, In name (Fs.recordings_dir (disk h)) ->
        (forall id r, In id batch -> findRecordingById id (disk h) = Some r ->
           Recording.filename r <> name) ->
        In name (Fs.recordings_dir (disk h')))
  /\ readUsers (disk h') = readUsers (disk h).
Proof.
  intros Hp Hclear batch h'.
  assert (Husers : readUsers (disk h') = readUsers (disk h))
    by (apply readUsers_narrows, processQueue_narrows).
  subst batch h'.
  destruct (processQueue_runs h Hp) as [Hrun|[Hq Hrun]]; rewrite Hrun in *.
  - destruct (for_each_task_clear (queue h) (set_queue [] (set_processing true h)) Hclear)
      as (Hq & Hread & Hgone & Hstay).
    cbn [queue disk set_processing set_queue] in *. auto 6.
  - rewrite Hq. cbn [map existsb negb]. split; [reflexivity|]. split; [|split; [|split]].
    + symmetry. now apply filter_all_true.
    + intros ? ? [].
    + auto.
    + reflexivity.
Qed.

(** *** From the request to the removal *)

Lemma delete_recording_accepted (id : string) (userId : option string) (h : Host)
  (r : Recording.t) :
  findRecordingById id (disk h) = Some r ->
  not_owner userId r = false ->
  delete_recording id userId h = (ok deleted_body, DeletionQueue.enqueue id h).
Proof. intros Hfind Hown. unfold delete_recording. now rewrite Hfind, Hown. Qed.

(** X28.  [DELETE /:id]: 404 for an unknown recording and 403 when a
    [userId] is sent that is not the owner's, nothing being queued.
    Otherwise the answer is 200 although nothing is deleted yet: the disk
    is unchanged and one task is appended to the queue.  When the timer
    then fires, on a disk that refuses nothing, the queue is empty again,
    the record is gone from the metadata and the file of the recording
    no longer exists. *)
Theorem delete_request_outcomes (id : string) (userId : option string) (h : Host) :
  let run := delete_recording id userId h in
  (findRecordingById id (disk h) = None ->
   run = (mkResponse 404 (error_body "Recording not found"), h))
  /\ (forall r, findRecordingById id (disk h) = Some r ->
        (not_owner userId r = true ->
         run = (mkResponse 403 (error_body "Not authorized to delete this recording"), h))
        /\ (not_owner userId r = false ->
            fst run = ok deleted_body
            /\ disk (snd run) = disk h
            /\ queue (snd run) = queue h ++ [mkDeletionTask id (time h)]
            /\ (processing h = false -> interval h = true ->
                Fs.denied (disk h) = [] ->
                let h' := DeletionQueue.interval_elapsed (snd run) in
                queue h' = []
                /\ findRecordingById id (disk h') = None
                /\ Fs.existsSync (Fs.recording_file (Recording.filename r)) (disk h')
                   = false))).
Proof.
  intros run. subst run. split.
  - intros Hnone. unfold delete_recording. now rewrite Hnone.
  - intros r Hfind. split.
    + intros Hown. unfold delete_recording. now rewrite Hfind, Hown.
    + intros Hown. rewrite (delete_recording_accepted id userId h r Hfind Hown).
      cbn [fst snd]. split; [reflexivity|]. split; [reflexivity|]. split; [reflexivity|].
      intros Hp Hi Hclear. cbv zeta. unfold DeletionQueue.interval_elapsed.
      replace (interval (DeletionQueue.enqueue id h)) with true by (symmetry; exact Hi).
      destruct (processQueue_runs (DeletionQueue.enqueue id h) Hp) as [Hrun|[Hq _]].
      * rewrite Hrun.
        destruct (for_each_task_clear (queue (DeletionQueue.enqueue id h))
                    (set_queue [] (set_processing true (DeletionQueue.enqueue id h)))
                    Hclear) as (Hq & Hread & Hgone & _).
        cbn [queue disk set_processing set_queue] in *.
        split; [exact Hq|]. split.
        -- unfold findRecordingById. rewrite Hread.
           apply find_none_iff. intros x Hx. apply filter_In in Hx.
           destruct Hx as [_ Hx]. unfold has_id.
           destruct (String.eqb_spec (Recording.recordingId x) id) as [Heq|]; [|reflexivity].
           exfalso. unfold DeletionQueue.enqueue in Hx. cbn [queue set_queue] in Hx.
           rewrite map_app, existsb_app in Hx. cbn in Hx.
           rewrite Heq, String.eqb_refl in Hx. rewrite !orb_true_r in Hx. discriminate.
        -- apply (Hgone id r); [|exact Hfind].
           unfold DeletionQueue.enqueue. cbn [queue set_queue].
           rewrite map_app, in_app_iff. right. now left.
      * exfalso. unfold DeletionQueue.enqueue in Hq. cbn [queue set_queue] in Hq.
        now destruct (queue h).
Qed.

(** ** Concrete runs of the REST side *)

Lemma registration_is_permanent_witness :
  fst (post_register (Some "Bob") "u3"
         (serve_all [DELETE_recording "r1" None; timer_fires;
                     POST_register (Some "Carol") "u9";
                     multer_stores "u2-rec-r7-1700000000000.webm";
                     POST_recording (Some "u2-rec-r7-1700000000000.webm")
                       (mkUploadForm (Some "u2") (Some fresh_id) (Some "Bob")
                                     None (Some "12") (Some "audio"))
                       "11/14/2023, 10:13:20 PM";
                     file_damaged Fs.METADATA_FILE;
                     permissions_change [Fs.USERS_FILE]]
                    (snd (post_register (Some "Bob") "u2" sample_host))))
  = ok (user_body "u2" "Bob").
Proof.
  destruct (registration_is_permanent sample_host "Bob" "u2" "u3"
              [DELETE_recording "r1" None; timer_fires;
               POST_register (Some "Carol") "u9";
               multer_stores "u2-rec-r7-1700000000000.webm";
               POST_recording (Some "u2-rec-r7-1700000000000.webm")
                 (mkUploadForm (Some "u2") (Some fresh_id) (Some "Bob")
                               None (Some "12") (Some "audio"))
                 "11/14/2023, 10:13:20 PM";
               file_damaged Fs.METADATA_FILE;
               permissions_change [Fs.USERS_FILE]])
    as [_ Hsame]; [discriminate|reflexivity|reflexivity|].
  rewrite Hsame. reflexivity.
Defined.

(** Once the users file has been spoilt, [readUsers] finds nobody: the
    same name is registered anew, under a new identifier, and the file
    then holds that user alone. *)
Lemma registration_after_damage :
  let later := serve_all [file_damaged Fs.USERS_FILE]
                         (snd (post_register (Some "Bob") "u2" sample_host)) in
  fst (post_register (Some "Bob") "u2" sample_host) = ok (user_body "u2" "Bob")
  /\ fst (post_register (Some "Bob") "u3" later) = ok (user_body "u3" "Bob")
  /\ readUsers (disk (snd (post_register (Some "Bob") "u3" later)))
     = [User.mk "u3" "Bob" t0].
Proof. vm_compute. repeat split; reflexivity. Qed.

(** An upload: the record is appended to the metadata with the name of
    the stored file, without its extension, as its identifier. *)
Lemma post_recording_example :
  let h := serve sample_host (multer_stores "u2-rec-r7-1700000000000.webm") in
  let upload :=
    post_recording (Some "u2-rec-r7-1700000000000.webm")
      (mkUploadForm (Some "u2") (Some fresh_id) (Some "Bob") None (Some "12")
                    (Some "audio"))
      "11/14/2023, 10:13:20 PM" h in
  fst upload = ok (uploaded_body "u2-rec-r7-1700000000000")
  /\ readRecordings (disk (snd upload))
     = [standup; demo;
        Recording.mk "u2-rec-r7-1700000000000" "u2" fresh_id "Bob"
          "Recording - 11/14/2023, 10:13:20 PM" "u2-rec-r7-1700000000000.webm" 12 t0
          (Some Recording.audio)]
  /\ Fs.recordings_dir (disk (snd upload))
     = ["u1-rec-r1.webm"; "u2-rec-r2.webm"; "u2-rec-r7-1700000000000.webm"].
Proof. vm_compute. repeat split; reflexivity. Qed.

Lemma usernames_stay_distinct_witness :
  NoDup (map User.username
           (readUsers (disk (serve_all [POST_register (Some "Bob") "u2";
                                        POST_register (Some "Bob") "u3";
                                        POST_register (Some "Alice") "u4"]
                                       sample_host))))
  /\ map User.username
       (readUsers (disk (serve_all [POST_register (Some "Bob") "u2";
                                    POST_register (Some "Bob") "u3";
                                    POST_register (Some "Alice") "u4"]
                                   sample_host)))
     = ["Alice"; "Bob"].
Proof.
  split; [|reflexivity].
  apply (usernames_stay_distinct
           [POST_register (Some "Bob") "u2"; POST_register (Some "Bob") "u3";
            POST_register (Some "Alice") "u4"] sample_host).
  simpl. constructor; [intros []|constructor].
Defined.

Lemma deleteRecording_outcomes_witness :
  fst (deleteRecording "r1" sample_disk) = true
  /\ findRecordingById "r1" (snd (deleteRecording "r1" sample_disk)) = None
  /\ findRecordingById "r2" (snd (deleteRecording "r1" sample_disk)) = Some demo
  /\ deleteRecording "r3" sample_disk = (false, sample_disk).
Proof.
  destruct (deleteRecording_outcomes "r1" sample_disk) as [_ Hfound].
  destruct Hfound as (Htrue & _ & Hwritten); [discriminate|].
  destruct Hwritten as (Hgone & Hothers & _); [reflexivity|].
  destruct (deleteRecording_outcomes "r3" sample_disk) as [Habsent _].
  split; [exact Htrue|]. split; [exact Hgone|].
  split; [rewrite Hothers; [reflexivity|discriminate]|].
  apply Habsent. reflexivity.
Defined.

Lemma updateRecording_outcomes_witness :
  fst (updateRecording "r2" (Recording.only_title "Launch") sample_disk) = true
  /\ findRecordingById "r2"
       (snd (updateRecording "r2" (Recording.only_title "Launch") sample_disk))
     = Some (Recording.mk "r2" "u2" fresh_id "Bob" "Launch" "u2-rec-r2.webm" 90 t0
                          (Some Recording.video))
  /\ findRecordingById "r1"
       (snd (updateRecording "r2" (Recording.only_title "Launch") sample_disk))
     = Some standup.
Proof.
  destruct (updateRecording_outcomes "r2" (Recording.only_title "Launch") sample_disk)
    as [_ Hfound].
  destruct (Hfound demo) as (Htrue & _ & Hwritten); [reflexivity|].
  destruct Hwritten as (Hnew & Hothers & _); [reflexivity|reflexivity|].
  split; [exact Htrue|]. split; [exact Hnew|].
  rewrite Hothers; [reflexivity|discriminate].
Defined.

Lemma put_recording_outcomes_witness :
  put_recording "r1" (Some "Retro") (Some "u2") sample_host
  = (mkResponse 403 (error_body "Not authorized to update this recording"), sample_host)
  /\ fst (get_recording "r1"
            (snd (put_recording "r1" (Some "Retro") (Some "u1") sample_host)))
     = ok (recording_body
             (Recording.mk "r1" "u1" fresh_id "Alice" "Retro" "u1-rec-r1.webm" 60 t0
                           (Some Recording.both))
             "/api/recordings/r1/video").
Proof.
  destruct (put_recording_outcomes "r1" (Some "Retro") (Some "u2") sample_host)
    as (_ & _ & Hother).
  destruct (Hother "Retro" standup) as [Hrefused _];
    [reflexivity|discriminate|reflexivity|].
  destruct (put_recording_outcomes "r1" (Some "Retro") (Some "u1") sample_host)
    as (_ & _ & Howner).
  destruct (Howner "Retro" standup) as [_ Haccepted];
    [reflexivity|discriminate|reflexivity|].
  destruct Haccepted as (_ & _ & _ & Hwritten); [reflexivity|].
  destruct Hwritten as [Hshown _]; [reflexivity|].
  split; [apply Hrefused; reflexivity|exact Hshown].
Defined.

Lemma processQueue_outcomes_witness :
  map task_recordingId (queue (DeletionQueue.processQueue locked_host)) = ["r1"]
  /\ findRecordingById "r2" (disk (DeletionQueue.processQueue locked_host)) = None
  /\ findRecordingById "r1" (disk (DeletionQueue.processQueue locked_host))
     = Some standup.
Proof.
  destruct (processQueue_outcomes locked_host) as (_ & _ & Hsettled); [reflexivity|].
  split; [reflexivity|]. split; [|reflexivity].
  destruct (Hsettled eq_refl "r2") as [Hgone|Hagain].
  - right. now left.
  - exact Hgone.
  - vm_compute in Hagain. destruct Hagain as [Habs|[]]. discriminate Habs.
Defined.

Lemma processQueue_clears_witness :
  queue (DeletionQueue.processQueue
           (set_queue [mkDeletionTask "r1" t0; mkDeletionTask "r1" t0] sample_host)) = []
  /\ readRecordings
       (disk (DeletionQueue.processQueue
                (set_queue [mkDeletionTask "r1" t0; mkDeletionTask "r1" t0] sample_host)))
     = [demo]
  /\ Fs.recordings_dir
       (disk (DeletionQueue.processQueue
                (set_queue [mkDeletionTask "r1" t0; mkDeletionTask "r1" t0] sample_host)))
     = ["u2-rec-r2.webm"].
Proof.
  destruct (processQueue_clears
              (set_queue [mkDeletionTask "r1" t0; mkDeletionTask "r1" t0] sample_host))
    as (Hqueue & Hread & _); [reflexivity|reflexivity|].
  split; [exact Hqueue|]. split; [rewrite Hread; reflexivity|reflexivity].
Defined.

Lemma delete_request_outcomes_witness :
  fst (delete_recording "r1" (Some "u2") sample_host)
  = mkResponse 403 (error_body "Not authorized to delete this recording")
  /\ fst (delete_recording "r1" None sample_host) = ok deleted_body
  /\ findRecordingById "r1" (disk (snd (delete_recording "r1" None sample_host)))
     = Some standup
  /\ findRecordingById "r1"
       (disk (DeletionQueue.interval_elapsed
                (snd (delete_recording "r1" None sample_host))))
     = None.
Proof.
  destruct (delete_request_outcomes "r1" (Some "u2") sample_host) as [_ Hfound].
  destruct (Hfound standup) as [Hrefused _]; [reflexivity|].
  destruct (delete_request_outcomes "r1" None sample_host) as [_ Hfound'].
  destruct (Hfound' standup) as [_ Haccepted]; [reflexivity|].
  destruct Haccepted as (Hreply & Hdisk & _ & Hlater); [reflexivity|].
  destruct Hlater as (_ & Hgone & _); [reflexivity|reflexivity|reflexivity|].
  split; [rewrite Hrefused; reflexivity|]. split; [exact Hreply|].
  split; [rewrite Hdisk; reflexivity|exact Hgone].
Defined.

(** ** The stretches and the whole functions *)

Section StretchFacts.

Context {E : Type} {media : MediaEngine E}.

Lemma facade_call_await {A : Type} (call : FacadeCall) (op : E -> completion A * E)
  (w : World E) :
  facade call op w = (outcome <- engine_call call op ;; await outcome) w.
Proof.
  unfold facade, bind, engine_call, await. now destruct (op (engine w)) as [r e'].
Qed.

(** [createRoom] is its two parts with nothing in between. *)
Lemma createRoom_uninterrupted (roomId : string) (w : World E) :
  createRoom roomId w
  = (found <- createRoom_begin roomId ;;
     match found with
     | inl room => ret room
     | inr outcome => createRoom_resume roomId outcome
     end) w.
Proof.
  unfold createRoom, createRoom_begin, createRoom_resume, bind, gets, ret, modify,
    facade, engine_call, await.
  destruct (JsMap.get (rooms w) roomId) as [room|]; [reflexivity|].
  now destruct (worker_createRouter (engine w)) as [[router|err] e'].
Qed.

Lemma createWebRtcTransport_uninterrupted (roomId peerId : string) (w : World E) :
  createWebRtcTransport roomId peerId w
  = (outcome <- createWebRtcTransport_begin roomId peerId ;;
     createWebRtcTransport_resume roomId peerId true outcome) w.
Proof.
  unfold createWebRtcTransport, createWebRtcTransport_begin,
    createWebRtcTransport_resume, write_peer, bind, gets, throw, facade, engine_call, await.
  destruct (JsMap.get (rooms w) roomId) as [room|]; [|reflexivity].
  destruct (JsMap.get (Room.peers room) peerId) as [peer|]; [|reflexivity].
  now destruct (router_createWebRtcTransport (Room.router room) (engine w))
    as [[transport|err] e'].
Qed.

Lemma connectTransport_uninterrupted
  (roomId peerId transportId dtlsParameters : string) (w : World E) :
  connectTransport roomId peerId transportId dtlsParameters w
  = (outcome <- connectTransport_begin roomId peerId transportId dtlsParameters ;;
     connectTransport_resume outcome) w.
Proof.
  unfold connectTransport, connectTransport_begin, connectTransport_resume, getPeer,
    bind, gets, throw, facade, engine_call, await.
  destruct (lookup_peer (rooms w) roomId peerId) as [peer|]; [|reflexivity].
  destruct (JsMap.get (Peer.transports peer) transportId) as [transport|]; [|reflexivity].
  now destruct (transport_connect transport dtlsParameters (engine w)) as [[[]|err] e'].
Qed.

Lemma produce_uninterrupted
  (roomId peerId transportId kind rtpParameters : string) (w : World E) :
  produce roomId peerId transportId kind rtpParameters w
  = (outcome <- produce_begin roomId peerId transportId kind rtpParameters ;;
     produce_resume roomId peerId true outcome) w.
Proof.
  unfold produce, produce_begin, produce_resume, write_peer, getPeer,
    bind, gets, throw, facade, engine_call, await.
  destruct (lookup_peer (rooms w) roomId peerId) as [peer|]; [|reflexivity].
  destruct (JsMap.get (Peer.transports peer) transportId) as [transport|]; [|reflexivity].
  now destruct (transport_produce transport kind rtpParameters (engine w))
    as [[producer|err] e'].
Qed.

Lemma consume_uninterrupted
  (roomId peerId transportId producerId rtpCapabilities : string) (w : World E) :
  consume roomId peerId transportId producerId rtpCapabilities w
  = (outcome <- consume_begin roomId peerId transportId producerId rtpCapabilities ;;
     consume_resume roomId peerId producerId true outcome) w.
Proof.
  unfold consume, consume_begin, consume_resume, write_peer, getPeer,
    bind, gets, throw, facade, engine_call, await.
  destruct (JsMap.get (rooms w) roomId) as [room|]; [|reflexivity].
  destruct (lookup_peer (rooms w) roomId peerId) as [peer|]; [|reflexivity].
  destruct (JsMap.get (Peer.transports peer) transportId) as [transport|]; [|reflexivity].
  cbn [engine].
  destruct (router_canConsume (Room.router room) producerId rtpCapabilities (engine w));
    cbn [negb]; [|reflexivity].
  cbn [engine].
  now destruct (transport_consume transport producerId rtpCapabilities (engine w))
    as [[consumer|err] e'].
Qed.

End StretchFacts.

Section Straight.

Context {E : Type} {media : MediaEngine E}.

Lemma bind_run {A B : Type} (m : M E A) (k : A -> M E B) (w : World E) :
  bind m k w = match m w with
               | (Normal a, w') => k a w'
               | (Throw e, w') => (Throw e, w')
               end.
Proof. reflexivity. Qed.

Lemma try_handler_run (body : M E Reply) (failure : string) (w : World E) :
  try_handler body failure w
  = match body w with
    | (Normal r, w') => (r, w')
    | (Throw _, w') => (ReplyError failure, w')
    end.
Proof. reflexivity. Qed.

Lemma straight_pair (stretch : Next * World E) (sid : string)
  (run : Reply * World E) :
  (forall reply w', run = (reply, w') -> straight 2 stretch = (Some (sid, reply), w')) ->
  straight 2 stretch = (Some (sid, fst run), snd run).
Proof. intros H. destruct run as [reply w']. now apply H. Qed.

Lemma on_createRoom_straight (sid : string) (randomBytes : list byte) (w : World E) :
  straight 2 (arrive sid (createRoom_request randomBytes) w)
  = (Some (sid, fst (on_createRoom randomBytes w)), snd (on_createRoom randomBytes w)).
Proof.
  apply straight_pair. intros reply w'.
  unfold on_createRoom. rewrite try_handler_run.
  unfold bind at 1. unfold gets at 1. rewrite bind_run, createRoom_uninterrupted.
  cbn [arrive]. rewrite bind_run.
  destruct (createRoom_begin (generateMeetingId randomBytes (clock w)) w)
    as [[[room|outcome]|err] w1]; cbn [straight settle].
  - unfold ret. intros H. now injection H as <- <-.
  - unfold then_callback.
    destruct (createRoom_resume _ outcome w1) as [[room|err] w2];
      unfold ret; intros H; now injection H as <- <-.
  - intros H. now injection H as <- <-.
Qed.

Lemma joinRoom_tail_straight (sid roomId userId username : string) (w : World E)
  (reply : Reply) (w' : World E) :
  match
    (addPeer roomId sid userId username;;
     socket_join sid roomId;;
     modify
       (fun w0 : World E =>
        set_sockets
          (JsMap.set (sockets w0) sid
             (mkSocketData (Some roomId) (Some userId) (Some username)))
          w0);;
     rs <- gets rooms;;
     socket_to_emit sid roomId (newPeer sid userId username);;
     ret
       (ReplyJoined
          (filter (fun p : PeerInfo => negb (String.eqb (pi_peerId p) sid))
             (getRoomPeers rs roomId)))) w
  with
  | (Normal r, w1) => (r, w1)
  | (Throw _, w1) => (ReplyError "Failed to join room", w1)
  end = (reply, w') ->
  try_handler (joinRoom_tail sid roomId userId username) "Failed to join room" w
  = (reply, w').
Proof. intros H. exact H. Qed.

Lemma on_joinRoom_straight (sid : string) (data : JoinData) (w : World E) :
  straight 2 (arrive sid (joinRoom_request data) w)
  = (Some (sid, fst (on_joinRoom sid data w)), snd (on_joinRoom sid data w)).
Proof.
  apply straight_pair. intros reply w'.
  unfold on_joinRoom. rewrite try_handler_run. cbn [arrive].
  destruct (negb (truthy (jd_roomId data)) || negb (truthy (jd_userId data))
            || negb (truthy (jd_username data)));
    [unfold ret; intros H; now injection H as <- <-|].
  destruct (jd_roomId data) as [roomId|];
    [|unfold ret; intros H; now injection H as <- <-].
  destruct (jd_userId data) as [userId|];
    [|unfold ret; intros H; now injection H as <- <-].
  destruct (jd_username data) as [username|];
    [|unfold ret; intros H; now injection H as <- <-].
  unfold bind at 1. unfold gets at 1.
  destruct (isMeetingExpired (clock w) roomId);
    [unfold ret; intros H; now injection H as <- <-|].
  rewrite bind_run. unfold bind at 1. unfold getRoom, gets at 1.
  destruct (JsMap.get (rooms w) roomId) as [room|] eqn:Hroom.
  - unfold ret at 1. intros H.
    rewrite (joinRoom_tail_straight sid roomId userId username w reply w' H).
    reflexivity.
  - rewrite bind_run, createRoom_uninterrupted, bind_run.
    destruct (createRoom_begin roomId w) as [[[found|outcome]|err] w1];
      cbn [straight settle].
    + unfold ret at 1. unfold ret at 1. intros H.
      rewrite try_handler_run. unfold bind at 1, await.
      pose proof (joinRoom_tail_straight sid roomId userId username w1 reply w' H) as Ht.
      rewrite try_handler_run in Ht. now rewrite Ht.
    + destruct (createRoom_resume roomId outcome w1) as [[created|err] w2];
        cbn [straight settle].
      * unfold ret at 1. intros H.
        rewrite try_handler_run. unfold bind at 1, await.
        pose proof (joinRoom_tail_straight sid roomId userId username w2 reply w' H)
          as Ht.
        rewrite try_handler_run in Ht. now rewrite Ht.
      * intros H. now injection H as <- <-.
    + intros H. now injection H as <- <-.
Qed.

Lemma on_createWebRtcTransport_straight (sid roomId : string) (w : World E) :
  straight 2 (arrive sid (createWebRtcTransport_request roomId) w)
  = (Some (sid, fst (on_createWebRtcTransport sid roomId w)),
     snd (on_createWebRtcTransport sid roomId w)).
Proof.
  apply straight_pair. intros reply w'.
  unfold on_createWebRtcTransport. rewrite try_handler_run, bind_run,
    createWebRtcTransport_uninterrupted, bind_run. cbn [arrive].
  destruct (createWebRtcTransport_begin roomId sid w) as [[outcome|err] w1];
    cbn [straight settle]; [|intros H; now injection H as <- <-].
  unfold then_callback.
  destruct (createWebRtcTransport_resume roomId sid true outcome w1)
    as [[params|err] w2]; unfold ret; intros H; now injection H as <- <-.
Qed.

Lemma on_connectTransport_straight
  (sid roomId transportId dtlsParameters : string) (w : World E) :
  straight 2 (arrive sid (connectTransport_request roomId transportId dtlsParameters) w)
  = (Some (sid, fst (on_connectTransport sid roomId transportId dtlsParameters w)),
     snd (on_connectTransport sid roomId transportId dtlsParameters w)).
Proof.
  apply straight_pair. intros reply w'.
  unfold on_connectTransport. rewrite try_handler_run, bind_run,
    connectTransport_uninterrupted, bind_run. cbn [arrive].
  destruct (connectTransport_begin roomId sid transportId dtlsParameters w)
    as [[outcome|err] w1]; cbn [straight settle]; [|intros H; now injection H as <- <-].
  unfold then_callback.
  destruct (connectTransport_resume outcome w1) as [[[]|err] w2];
    unfold ret; intros H; now injection H as <- <-.
Qed.

Lemma on_produce_straight
  (sid roomId transportId kind rtpParameters : string) (w : World E) :
  straight 2 (arrive sid (produce_request roomId transportId kind rtpParameters) w)
  = (Some (sid, fst (on_produce sid roomId transportId kind rtpParameters w)),
     snd (on_produce sid roomId transportId kind rtpParameters w)).
Proof.
  apply straight_pair. intros reply w'.
  unfold on_produce. rewrite try_handler_run, bind_run,
    produce_uninterrupted, bind_run. cbn [arrive].
  destruct (produce_begin roomId sid transportId kind rtpParameters w)
    as [[outcome|err] w1]; cbn [straight settle]; [|intros H; now injection H as <- <-].
  destruct (produce_resume roomId sid true outcome w1) as [[producerId|err] w2];
    cbn [straight settle]; [|intros H; now injection H as <- <-].
  rewrite try_handler_run. unfold bind at 1, await.
  destruct ((socket_to_emit sid roomId (newProducer sid producerId kind);;
             ret (ReplyProducerId producerId)) w2) as [[r|err] w3];
    intros H; now injection H as <- <-.
Qed.

Lemma on_consume_straight
  (sid roomId transportId producerId rtpCapabilities : string) (w : World E) :
  straight 2 (arrive sid (consume_request roomId transportId producerId rtpCapabilities) w)
  = (Some (sid, fst (on_consume sid roomId transportId producerId rtpCapabilities w)),
     snd (on_consume sid roomId transportId producerId rtpCapabilities w)).
Proof.
  apply straight_pair. intros reply w'.
  unfold on_consume. rewrite try_handler_run, bind_run,
    consume_uninterrupted, bind_run. cbn [arrive].
  destruct (consume_begin roomId sid transportId producerId rtpCapabilities w)
    as [[outcome|err] w1]; cbn [straight settle]; [|intros H; now injection H as <- <-].
  unfold then_callback.
  destruct (consume_resume roomId sid producerId true outcome w1)
    as [[params|err] w2]; unfold ret; intros H; now injection H as <- <-.
Qed.

(** Each handler, run with nothing in between, is the handler of
    [handle]: same acknowledgement, same state. *)
Lemma handle_straight (sid : string) (request : Request) (w : World E) :
  straight 2 (arrive sid request w)
  = (option_map (pair sid) (fst (handle sid request w)), snd (handle sid request w)).
Proof.
  destruct request
    as [randomBytes|data|roomId|roomId|roomId transportId dtlsParameters
        |roomId transportId kind' rtpParameters
        |roomId transportId producerId rtpCapabilities|roomId| | ];
    cbn [handle fst snd option_map].
  - apply on_createRoom_straight.
  - apply on_joinRoom_straight.
  - cbn [arrive]. now destruct (on_getRouterRtpCapabilities roomId w).
  - apply on_createWebRtcTransport_straight.
  - apply on_connectTransport_straight.
  - apply on_produce_straight.
  - apply on_consume_straight.
  - cbn [arrive]. now destruct (on_getProducers sid roomId w).
  - reflexivity.
  - reflexivity.
Qed.

End Straight.

(** ** Engine calls that fail, and handlers that create a room *)

Section Awaiting.

Context {E : Type} {media : MediaEngine E}.

Lemma createRoom_begin_absent (w : World E) (roomId : string)
  (outcome : completion Router.t) (e' : E) :
  JsMap.get (rooms w) roomId = None ->
  worker_createRouter (engine w) = (outcome, e') ->
  createRoom_begin roomId w = (Normal (inr outcome), after_call w e' CreateRouter).
Proof.
  intros Habsent Hengine.
  unfold createRoom_begin, bind, gets, engine_call, ret. now rewrite Habsent, Hengine.
Qed.

Lemma createRoom_begin_present (w : World E) (roomId : string) (room : Room.t) :
  JsMap.get (rooms w) roomId = Some room ->
  createRoom_begin roomId w = (Normal (inl room), w).
Proof. intros H. unfold createRoom_begin, bind, gets, ret. now rewrite H. Qed.

Lemma createRoom_resume_fulfilled (w : World E) (roomId : string) (router : Router.t) :
  createRoom_resume roomId (Normal router) w
  = (Normal (Room.mk roomId router JsMap.empty (clock w)),
     set_rooms (JsMap.set (rooms w) roomId (Room.mk roomId router JsMap.empty (clock w)))
               w).
Proof. reflexivity. Qed.

Lemma createRoom_resume_rejected (w : World E) (roomId : string) (err : Error) :
  createRoom_resume roomId (Throw err) w = (Throw err, w).
Proof. reflexivity. Qed.

Lemma truthy_filled (s : string) : s <> "" -> truthy (Some s) = true.
Proof.
  intros H. cbn. destruct (String.eqb_spec s ""); [contradiction|reflexivity].
Qed.

Lemma arrive_joinRoom_absent (w : World E) (sid roomId userId username : string)
  (outcome : completion Router.t) (e' : E) :
  userId <> "" -> username <> "" ->
  isMeetingExpired (clock w) roomId = false ->
  JsMap.get (rooms w) roomId = None ->
  worker_createRouter (engine w) = (outcome, e') ->
  arrive sid (joinRoom_request (mkJoinData (Some roomId) (Some userId) (Some username))) w
  = (suspends (createRoom_in_joinRoom sid roomId userId username outcome),
     after_call w e' CreateRouter).
Proof.
  intros Huser Hname Hfresh Habsent Hengine. cbn [arrive jd_roomId jd_userId jd_username].
  assert (Hroom : truthy (Some roomId) = true).
  { cbn. now rewrite (not_expired_not_empty _ _ Hfresh). }
  rewrite Hroom, (truthy_filled _ Huser), (truthy_filled _ Hname). cbn [negb orb].
  rewrite Hfresh, Habsent.
  now rewrite (createRoom_begin_absent w roomId outcome e' Habsent Hengine).
Qed.

Lemma arrive_createRoom_absent (w : World E) (sid : string) (randomBytes : list byte)
  (outcome : completion Router.t) (e' : E) :
  JsMap.get (rooms w) (generateMeetingId randomBytes (clock w)) = None ->
  worker_createRouter (engine w) = (outcome, e') ->
  arrive sid (createRoom_request randomBytes) w
  = (suspends (createRoom_in_createRoom sid (generateMeetingId randomBytes (clock w))
                 outcome),
     after_call w e' CreateRouter).
Proof.
  intros Habsent Hengine. cbn [arrive].
  now rewrite (createRoom_begin_absent w _ outcome e' Habsent Hengine).
Qed.

Lemma arrive_createWebRtcTransport (w : World E) (sid roomId : string)
  (room : Room.t) (peer : Peer.t) (outcome : completion Transport.t) (e' : E) :
  JsMap.get (rooms w) roomId = Some room ->
  JsMap.get (Room.peers room) sid = Some peer ->
  router_createWebRtcTransport (Room.router room) (engine w) = (outcome, e') ->
  arrive sid (createWebRtcTransport_request roomId) w
  = (suspends (createWebRtcTransport_pending sid roomId outcome),
     after_call w e' (CreateWebRtcTransport (Router.id (Room.router room)))).
Proof.
  intros Hroom Hpeer Hengine. cbn [arrive].
  unfold createWebRtcTransport_begin, bind, gets, engine_call.
  now rewrite Hroom, Hpeer, Hengine.
Qed.

Lemma arrive_connectTransport (w : World E)
  (sid roomId transportId dtlsParameters : string)
  (room : Room.t) (peer : Peer.t) (transport : Transport.t)
  (outcome : completion unit) (e' : E) :
  JsMap.get (rooms w) roomId = Some room ->
  JsMap.get (Room.peers room) sid = Some peer ->
  JsMap.get (Peer.transports peer) transportId = Some transport ->
  transport_connect transport dtlsParameters (engine w) = (outcome, e') ->
  arrive sid (connectTransport_request roomId transportId dtlsParameters) w
  = (suspends (connectTransport_pending sid outcome),
     after_call w e' (Connect (Transport.id transport) dtlsParameters)).
Proof.
  intros Hroom Hpeer Htransport Hengine. cbn [arrive].
  unfold connectTransport_begin, getPeer, lookup_peer, bind, gets, engine_call.
  now rewrite Hroom, Hpeer, Htransport, Hengine.
Qed.

Lemma arrive_produce (w : World E)
  (sid roomId transportId kind rtpParameters : string)
  (room : Room.t) (peer : Peer.t) (transport : Transport.t)
  (outcome : completion Producer.t) (e' : E) :
  JsMap.get (rooms w) roomId = Some room ->
  JsMap.get (Room.peers room) sid = Some peer ->
  JsMap.get (Peer.transports peer) transportId = Some transport ->
  transport_produce transport kind rtpParameters (engine w) = (outcome, e') ->
  arrive sid (produce_request roomId transportId kind rtpParameters) w
  = (suspends (produce_pending sid roomId kind outcome),
     after_call w e' (Produce (Transport.id transport) kind rtpParameters)).
Proof.
  intros Hroom Hpeer Htransport Hengine. cbn [arrive].
  unfold produce_begin, getPeer, lookup_peer, bind, gets, engine_call.
  now rewrite Hroom, Hpeer, Htransport, Hengine.
Qed.

Lemma arrive_consume (w : World E)
  (sid roomId transportId producerId rtpCapabilities : string)
  (room : Room.t) (peer : Peer.t) (transport : Transport.t)
  (outcome : completion Consumer.t) (e' : E) :
  JsMap.get (rooms w) roomId = Some room ->
  JsMap.get (Room.peers room) sid = Some peer ->
  JsMap.get (Peer.transports peer) transportId = Some transport ->
  router_canConsume (Room.router room) producerId rtpCapabilities (engine w) = true ->
  transport_consume transport producerId rtpCapabilities (engine w) = (outcome, e') ->
  arrive sid (consume_request roomId transportId producerId rtpCapabilities) w
  = (suspends (consume_pending sid roomId producerId outcome),
     after_call
       (after_call w (engine w)
          (CanConsume (Router.id (Room.router room)) producerId rtpCapabilities))
       e' (Consume (Transport.id transport) producerId rtpCapabilities)).
Proof.
  intros Hroom Hpeer Htransport Hcan Hengine. cbn [arrive].
  unfold consume_begin, getPeer, lookup_peer, bind, gets, facade, engine_call.
  rewrite Hroom. cbn [rooms]. rewrite Hroom, Hpeer, Htransport, Hcan. cbn [negb engine].
  now rewrite Hengine.
Qed.

(** C8, as the code has it.  Whichever request has its call on the
    engine rejected – [createRoom] and [joinRoom] by [createRouter],
    [createWebRtcTransport], [connectTransport], [produce], [consume] by
    their own operation – the acknowledgement is [{error: ...}] with the
    fixed text of the handler, whatever the message of the error.  The
    call is made once, when the request arrives, and changes nothing but
    the engine and the record of calls; when the rejection reaches the
    handler, in whatever state the server is by then, the handler
    changes nothing and calls nothing: it only acknowledges. *)
Theorem engine_error_replies (w : World E) (sid : string) (err : Error) (e' : E) :
  (forall randomBytes,
      JsMap.get (rooms w) (generateMeetingId randomBytes (clock w)) = None ->
      worker_createRouter (engine w) = (Throw err, e') ->
      arrive sid (createRoom_request randomBytes) w
      = (suspends (createRoom_in_createRoom sid
                     (generateMeetingId randomBytes (clock w)) (Throw err)),
         after_call w e' CreateRouter))
  /\ (forall roomId userId username,
        userId <> "" -> username <> "" ->
        isMeetingExpired (clock w) roomId = false ->
        JsMap.get (rooms w) roomId = None ->
        worker_createRouter (engine w) = (Throw err, e') ->
        arrive sid (joinRoom_request
                      (mkJoinData (Some roomId) (Some userId) (Some username))) w
        = (suspends (createRoom_in_joinRoom sid roomId userId username (Throw err)),
           after_call w e' CreateRouter))
  /\ (forall roomId room peer,
        JsMap.get (rooms w) roomId = Some room ->
        JsMap.get (Room.peers room) sid = Some peer ->
        (router_createWebRtcTransport (Room.router room) (engine w) = (Throw err, e') ->
         arrive sid (createWebRtcTransport_request roomId) w
         = (suspends (createWebRtcTransport_pending sid roomId (Throw err)),
            after_call w e' (CreateWebRtcTransport (Router.id (Room.router room)))))
        /\ forall transportId transport,
             JsMap.get (Peer.transports peer) transportId = Some transport ->
             (forall dtlsParameters,
                 transport_connect transport dtlsParameters (engine w) = (Throw err, e') ->
                 arrive sid (connectTransport_request roomId transportId dtlsParameters) w
                 = (suspends (connectTransport_pending sid (Throw err)),
                    after_call w e' (Connect (Transport.id transport) dtlsParameters)))
             /\ (forall kind rtpParameters,
                   transport_produce transport kind rtpParameters (engine w)
                   = (Throw err, e') ->
                   arrive sid (produce_request roomId transportId kind rtpParameters) w
                   = (suspends (produce_pending sid roomId kind (Throw err)),
                      after_call w e'
                        (Produce (Transport.id transport) kind rtpParameters)))
             /\ (forall producerId rtpCapabilities,
                   router_canConsume (Room.router room) producerId rtpCapabilities
                                     (engine w) = true ->
                   transport_consume transport producerId rtpCapabilities (engine w)
                   = (Throw err, e') ->
                   arrive sid
                     (consume_request roomId transportId producerId rtpCapabilities) w
                   = (suspends (consume_pending sid roomId producerId (Throw err)),
                      after_call
                        (after_call w (engine w)
                           (CanConsume (Router.id (Room.router room)) producerId
                                       rtpCapabilities))
                        e' (Consume (Transport.id transport) producerId
                                    rtpCapabilities))))
  /\ (forall (w2 : World E) (attached : bool),
        (forall roomId,
            settle (createRoom_in_createRoom sid roomId (Throw err)) attached w2
            = (suspends (callback_pending sid (ReplyError "Failed to create room")), w2))
        /\ (forall roomId userId username,
              settle (createRoom_in_joinRoom sid roomId userId username (Throw err))
                     attached w2
              = (suspends (joinRoom_after_createRoom sid roomId userId username
                             (Throw err)), w2)
              /\ settle (joinRoom_after_createRoom sid roomId userId username
                            (Throw err)) attached w2
                 = (answers sid (ReplyError "Failed to join room"), w2))
        /\ (forall roomId,
              settle (createWebRtcTransport_pending sid roomId (Throw err)) attached w2
              = (suspends (callback_pending sid
                             (ReplyError "Failed to create transport")), w2))
        /\ settle (connectTransport_pending sid (Throw err)) attached w2
           = (suspends (callback_pending sid
                          (ReplyError "Failed to connect transport")), w2)
        /\ (forall roomId kind,
              settle (produce_pending sid roomId kind (Throw err)) attached w2
              = (suspends (on_produce_after_produce sid roomId kind (Throw err)), w2)
              /\ settle (on_produce_after_produce sid roomId kind (Throw err))
                        attached w2
                 = (answers sid (ReplyError "Failed to produce"), w2))
        /\ (forall roomId producerId,
              settle (consume_pending sid roomId producerId (Throw err)) attached w2
              = (suspends (callback_pending sid (ReplyError "Failed to consume")), w2))
        /\ (forall reply,
              settle (callback_pending sid reply) attached w2 = (answers sid reply, w2))).
Proof.
  split; [intros; now apply arrive_createRoom_absent|].
  split; [intros; now apply arrive_joinRoom_absent|].
  split.
  - intros roomId room peer Hroom Hpeer.
    split; [intros; now apply arrive_createWebRtcTransport with (peer := peer)|].
    intros transportId transport Htransport.
    split; [intros; now apply arrive_connectTransport with (room := room) (peer := peer)|].
    split; [intros; now apply arrive_produce with (room := room) (peer := peer)|].
    intros. now apply arrive_consume with (peer := peer).
  - intros w2 attached. repeat split; reflexivity.
Qed.

End Awaiting.

(** ** Requests that overlap *)

(** C6, two requests for a room that is not registered yet.  A and B
    send [joinRoom] for the same new identifier, B's request arriving
    while A's [createRoom] waits for [worker.createRouter].  Both calls
    of [createRoom] have found [rooms.has(roomId)] false, so the engine
    is asked for a router twice.  A is registered in the room built
    around the first router and acknowledged; then B's [createRoom]
    stores a second room under the same identifier, with the second
    router and no peers, in place of the first.  In the end the room has
    the second router and B as its only peer; A, acknowledged and still
    a member of the Socket.IO room, is no peer of it and its next
    [createWebRtcTransport] fails; the first router has not been closed.
    When B's request arrives after A's handler has ended, the router is
    created once and both are peers. *)
Theorem createRoom_overlapping_calls :
  let overlapped := turns overlapping_joins (started t0 (mkSim 0 None)) in
  let in_turn := turns one_after_the_other (started t0 (mkSim 0 None)) in
  trace (world overlapped) = [CreateRouter; CreateRouter]
  /\ JsMap.get (rooms (world overlapped)) fresh_id
     = Some (Room.mk fresh_id (Router.mk "router1" "caps") [("B", bob)] t0)
  /\ answered overlapped = [("A", ReplyJoined []); ("B", ReplyJoined [])]
  /\ waiting overlapped = []
  /\ members (world overlapped) fresh_id = ["A"; "B"]
  /\ lookup_peer (rooms (world overlapped)) fresh_id "A" = None
  /\ fst (on_createWebRtcTransport "A" fresh_id (world overlapped))
     = ReplyError "Failed to create transport"
  /\ trace (world in_turn) = [CreateRouter]
  /\ JsMap.get (rooms (world in_turn)) fresh_id
     = Some (Room.mk fresh_id (Router.mk "router0" "caps")
               [("A", Peer.mk "A" "u1" "Alice" [] [] []); ("B", bob)] t0)
  /\ answered in_turn
     = [("A", ReplyJoined []); ("B", ReplyJoined [mkPeerInfo "A" "u1" "Alice"])].
Proof. vm_compute. repeat split; reflexivity. Qed.

(** While a [createRoom] waits for its router, a second [createRoom]
    for the same identifier finds no room either and asks the engine
    again: the calls are not serialized. *)
Lemma createRoom_not_serialized {E : Type} {media : MediaEngine E}
  (w : World E) (roomId : string)
  (first second : completion Router.t) (e1 e2 : E) :
  JsMap.get (rooms w) roomId = None ->
  worker_createRouter (engine w) = (first, e1) ->
  worker_createRouter e1 = (second, e2) ->
  createRoom_begin roomId w = (Normal (inr first), after_call w e1 CreateRouter)
  /\ createRoom_begin roomId (after_call w e1 CreateRouter)
     = (Normal (inr second),
        after_call (after_call w e1 CreateRouter) e2 CreateRouter).
Proof.
  intros Habsent Hfirst Hsecond. split.
  - now apply createRoom_begin_absent.
  - now apply createRoom_begin_absent.
Qed.

(** ** Requests that create a room *)

Section Creating.

Context {E : Type} {media : MediaEngine E}.

Lemma joinRoom_tail_existing (w : World E) (sid roomId userId username : string)
  (room : Room.t) :
  JsMap.get (rooms w) roomId = Some room ->
  let w2 := snd (addPeer roomId sid userId username w) in
  let w3 := snd (socket_join sid roomId w2) in
  joinRoom_tail sid roomId userId username w
  = (Normal (ReplyJoined (filter (fun p => negb (String.eqb (pi_peerId p) sid))
                                 (getRoomPeers (rooms w2) roomId))),
     mkWorld (clock w) (rooms w2) (engine w) (trace w)
             (JsMap.set (sockets w) sid
                (mkSocketData (Some roomId) (Some userId) (Some username)))
             (adapter w3)
             (delivered w
              ++ map (fun r => (r, newPeer sid userId username))
                     (filter (fun r => negb (String.eqb r sid)) (members w3 roomId)))).
Proof.
  intros Hroom w2 w3. subst w3 w2.
  unfold joinRoom_tail. unfold bind at 1.
  rewrite (addPeer_in_room w roomId sid userId username room Hroom).
  cbn [snd].
  unfold socket_join, members, modify, bind, gets, socket_to_emit, ret.
  cbn [adapter set_rooms].
  destruct (existsb (String.eqb sid)
              match JsMap.get (adapter w) roomId with
              | Some l => l
              | None => []
              end); reflexivity.
Qed.

Lemma socket_join_member (w : World E) (sid room : string) :
  In sid (members (snd (socket_join sid room w)) room).
Proof.
  unfold socket_join, modify. cbn [snd].
  destruct (existsb (String.eqb sid) (members w room)) eqn:Hex.
  - now apply existsb_eqb_In in Hex.
  - unfold members at 1. cbn [adapter set_adapter]. rewrite get_set_same.
    apply in_or_app. right. now left.
Qed.

(** X14.  A [joinRoom] request with both fields, a link that has not
    expired and a room that is not registered.  On arrival the handler
    makes one [createRouter] call, changes nothing else and waits.  When
    the router is delivered, in whatever state the server is by then,
    [createRoom] stores under the identifier a room with that router, no
    peers and the clock reading of that later moment, whatever is stored
    there by then; when the engine has refused, nothing changes and the
    acknowledgement is [{error: 'Failed to join room'}].  When the
    handler goes on after [createRoom], in whatever state that has a
    room under the identifier, the caller becomes a peer of that room
    with empty maps and a member of the Socket.IO room, [socket.data] is
    set, the engine is not called and the acknowledgement is a roster;
    the link is not checked again.  When that room has no peers, the
    roster is empty and the caller is the only peer.  With nothing in
    between the three stretches and no member in the Socket.IO room, the
    acknowledgement lists no peer, the room holds the caller alone, with
    the clock reading of the arrival, and nothing is broadcast. *)
Theorem joinRoom_creates_room (w : World E) (sid roomId userId username : string)
  (outcome : completion Router.t) (e' : E) :
  userId <> "" -> username <> "" ->
  isMeetingExpired (clock w) roomId = false ->
  JsMap.get (rooms w) roomId = None ->
  worker_createRouter (engine w) = (outcome, e') ->
  let data := mkJoinData (Some roomId) (Some userId) (Some username) in
  let fresh := Peer.mk sid userId username JsMap.empty JsMap.empty JsMap.empty in
  let created := createRoom_in_joinRoom sid roomId userId username outcome in
  let goes_on := joinRoom_after_createRoom sid roomId userId username (Normal tt) in
  arrive sid (joinRoom_request data) w = (suspends created, after_call w e' CreateRouter)
  /\ (forall (router : Router.t) (w2 : World E) (attached : bool),
        outcome = Normal router ->
        settle created attached w2
        = (suspends goes_on,
           set_rooms (JsMap.set (rooms w2) roomId
                        (Room.mk roomId router JsMap.empty (clock w2))) w2))
  /\ (forall (err : Error) (w2 : World E) (attached : bool),
        outcome = Throw err ->
        settle created attached w2
        = (suspends (joinRoom_after_createRoom sid roomId userId username (Throw err)),
           w2)
        /\ settle (joinRoom_after_createRoom sid roomId userId username (Throw err))
                  attached w2
           = (answers sid (ReplyError "Failed to join room"), w2))
  /\ (forall (w3 : World E) (attached : bool) (room : Room.t),
        JsMap.get (rooms w3) roomId = Some room ->
        exists (others : list PeerInfo) (w' : World E),
          settle goes_on attached w3 = (answers sid (ReplyJoined others), w')
          /\ lookup_peer (rooms w') roomId sid = Some fresh
          /\ In sid (members w' roomId)
          /\ JsMap.get (sockets w') sid
             = Some (mkSocketData (Some roomId) (Some userId) (Some username))
          /\ trace w' = trace w3
          /\ engine w' = engine w3
          /\ (Room.peers room = JsMap.empty ->
              others = []
              /\ rooms w'
                 = JsMap.set (rooms w3) roomId
                     (Room.mk (Room.id room) (Room.router room) [(sid, fresh)]
                              (Room.createdAt room))))
  /\ (forall router : Router.t,
        outcome = Normal router ->
        members w roomId = [] ->
        exists w' : World E,
          straight 2 (arrive sid (joinRoom_request data) w)
          = (Some (sid, ReplyJoined []), w')
          /\ JsMap.get (rooms w') roomId
             = Some (Room.mk roomId router [(sid, fresh)] (clock w))
          /\ (forall r, r <> roomId -> JsMap.get (rooms w') r = JsMap.get (rooms w) r)
          /\ trace w' = trace w ++ [CreateRouter]
          /\ delivered w' = delivered w).
Proof.
  intros Huser Hname Hfresh Habsent Hengine data fresh created goes_on.
  subst data created goes_on.
  pose proof (arrive_joinRoom_absent w sid roomId userId username outcome e'
                Huser Hname Hfresh Habsent Hengine) as Harrive.
  split; [exact Harrive|].
  split; [now intros router w2 attached ->|].
  split; [intros err w2 attached ->; now split|].
  assert (Hgoes : forall (w3 : World E) (attached : bool) (room : Room.t),
             JsMap.get (rooms w3) roomId = Some room ->
             settle (joinRoom_after_createRoom sid roomId userId username (Normal tt))
                    attached w3
             = (answers sid
                  (ReplyJoined
                     (filter (fun p => negb (String.eqb (pi_peerId p) sid))
                        (getRoomPeers
                           (rooms (snd (addPeer roomId sid userId username w3)))
                           roomId))),
                snd (joinRoom_tail sid roomId userId username w3))).
  { intros w3 attached room Hroom. cbn [settle].
    unfold try_handler, await. unfold bind at 1.
    now rewrite (joinRoom_tail_existing w3 sid roomId userId username room Hroom). }
  split.
  - intros w3 attached room Hroom. eexists. eexists.
    split; [exact (Hgoes w3 attached room Hroom)|].
    rewrite (joinRoom_tail_existing w3 sid roomId userId username room Hroom).
    rewrite (addPeer_in_room w3 roomId sid userId username room Hroom).
    cbn [snd rooms sockets trace engine set_rooms]. fold fresh.
    split; [now apply lookup_peer_put|].
    split.
    { unfold members at 1. cbn [adapter].
      apply (socket_join_member
               (set_rooms
                  (JsMap.set (rooms w3) roomId
                     (Room.with_peers room (JsMap.set (Room.peers room) sid fresh)))
                  w3) sid roomId). }
    split; [apply get_set_same|].
    split; [reflexivity|]. split; [reflexivity|].
    intros Hempty. unfold getRoomPeers. rewrite get_set_same.
    destruct room as [rid rrouter rpeers rcreated]. cbn in Hempty. subst rpeers.
    cbn. rewrite String.eqb_refl. now split.
  - intros router -> Hnone.
    rewrite Harrive. cbn [straight settle].
    rewrite createRoom_resume_fulfilled.
    set (w1 := set_rooms _ (after_call w e' CreateRouter)).
    assert (Hroom1 : JsMap.get (rooms w1) roomId
                     = Some (Room.mk roomId router JsMap.empty (clock w))).
    { subst w1. cbn [rooms set_rooms after_call]. apply get_set_same. }
    change (match (let '(reply, w'0) :=
                     try_handler
                       (await (Normal tt) ;; joinRoom_tail sid roomId userId username)
                       "Failed to join room" w1 in
                   (answers sid reply, w'0))
            with
            | (suspends item, w0) => (None, w0)
            | (answers sid0 reply, w0) => (Some (sid0, reply), w0)
            | (ends, w0) => (None, w0)
            end)
      with (straight 0 (settle (joinRoom_after_createRoom sid roomId userId username
                                  (Normal tt)) true w1)).
    rewrite (Hgoes w1 true _ Hroom1). cbn [straight].
    rewrite (joinRoom_tail_existing w1 sid roomId userId username _ Hroom1).
    rewrite (addPeer_in_room w1 roomId sid userId username _ Hroom1).
    cbn [snd rooms trace delivered set_rooms]. fold fresh.
    eexists. split.
    { f_equal. f_equal. f_equal. unfold getRoomPeers. rewrite get_set_same.
      cbn. now rewrite String.eqb_refl. }
    cbn [rooms trace delivered].
    split.
    { rewrite get_set_same. subst w1. reflexivity. }
    split.
    { intros r Hr. subst w1. cbn [rooms set_rooms after_call].
      now rewrite !get_set_other by congruence. }
    split; [reflexivity|].
    assert (Hmem : members (snd (socket_join sid roomId
                                   (set_rooms
                                      (JsMap.set (rooms w1) roomId
                                         (Room.with_peers
                                            (Room.mk roomId router JsMap.empty (clock w))
                                            (JsMap.set JsMap.empty sid fresh))) w1)))
                           roomId = [sid]).
    { unfold socket_join, modify. cbn [snd].
      change (members (set_rooms _ w1) roomId) with (members w roomId).
      rewrite Hnone. cbn [existsb]. unfold members. cbn [adapter set_adapter].
      now rewrite get_set_same. }
    cbn [Room.peers] in *. rewrite Hmem. cbn [filter]. rewrite String.eqb_refl.
    cbn [negb map]. subst w1. cbn [delivered set_rooms after_call]. apply app_nil_r.
Qed.

Lemma arrive_createRoom_present (w : World E) (sid : string) (randomBytes : list byte)
  (room : Room.t) :
  JsMap.get (rooms w) (generateMeetingId randomBytes (clock w)) = Some room ->
  arrive sid (createRoom_request randomBytes) w
  = (suspends (callback_pending sid
                 (ReplyRoomId (generateMeetingId randomBytes (clock w)))), w).
Proof.
  intros Hroom. cbn [arrive]. now rewrite (createRoom_begin_present w _ room Hroom).
Qed.

(** X18.  A [createRoom] request.  The identifier is made from the
    eight random bytes and the clock reading at arrival.  When a room is
    registered under it, nothing changes, the engine is not called and
    the acknowledgement carries the identifier.  When none is, the
    handler makes one [createRouter] call on arrival, changes nothing
    else and waits.  When the router is delivered, in whatever state the
    server is by then, a room with that router, no peers and the clock
    reading of that later moment is stored under the identifier,
    whatever is stored there by then; the other rooms are untouched, no
    event is sent, and the acknowledgement that follows carries the
    identifier.  When the engine has refused, nothing changes and the
    acknowledgement that follows is [{error: 'Failed to create room'}]. *)
Theorem createRoom_request_outcomes (w : World E) (sid : string)
  (randomBytes : list byte) (outcome : completion Router.t) (e' : E) :
  let roomId := generateMeetingId randomBytes (clock w) in
  worker_createRouter (engine w) = (outcome, e') ->
  (forall room : Room.t,
      JsMap.get (rooms w) roomId = Some room ->
      arrive sid (createRoom_request randomBytes) w
      = (suspends (callback_pending sid (ReplyRoomId roomId)), w))
  /\ (JsMap.get (rooms w) roomId = None ->
      arrive sid (createRoom_request randomBytes) w
      = (suspends (createRoom_in_createRoom sid roomId outcome),
         after_call w e' CreateRouter))
  /\ (forall (router : Router.t) (w2 : World E) (attached : bool),
        outcome = Normal router ->
        let room := Room.mk roomId router JsMap.empty (clock w2) in
        let w' := set_rooms (JsMap.set (rooms w2) roomId room) w2 in
        settle (createRoom_in_createRoom sid roomId outcome) attached w2
        = (suspends (callback_pending sid (ReplyRoomId roomId)), w')
        /\ JsMap.get (rooms w') roomId = Some room
        /\ (forall r, r <> roomId -> JsMap.get (rooms w') r = JsMap.get (rooms w2) r)
        /\ trace w' = trace w2
        /\ delivered w' = delivered w2)
  /\ (forall (err : Error) (w2 : World E) (attached : bool),
        outcome = Throw err ->
        settle (createRoom_in_createRoom sid roomId outcome) attached w2
        = (suspends (callback_pending sid (ReplyError "Failed to create room")), w2))
  /\ (forall (reply : Reply) (w3 : World E) (attached : bool),
        settle (callback_pending sid reply) attached w3 = (answers sid reply, w3)).
Proof.
  intros roomId Hengine.
  split; [intros room Hroom; now apply arrive_createRoom_present with (room := room)|].
  split; [intros Habsent; now apply arrive_createRoom_absent|].
  split.
  - intros router w2 attached -> room w'. subst room w'.
    split; [reflexivity|]. cbn [rooms set_rooms].
    split; [apply get_set_same|].
    split; [intros r Hr; now apply get_set_other|]. now split.
  - split; [now intros err w2 attached ->|reflexivity].
Qed.

End Creating.

(** ** Rooms are kept, whatever overlaps *)

Section Kept.

Context {E : Type} {media : MediaEngine E}.

Lemma createRoom_begin_rooms (roomId : string) (w : World E) :
  rooms (snd (createRoom_begin roomId w)) = rooms w.
Proof.
  unfold createRoom_begin, bind, gets, engine_call, ret.
  destruct (JsMap.get (rooms w) roomId) as [room|]; [reflexivity|].
  now destruct (worker_createRouter (engine w)) as [outcome e'].
Qed.

Lemma createRoom_begin_calls (roomId : string) (w w' : World E)
  (outcome : completion Router.t) :
  createRoom_begin roomId w = (Normal (inr outcome), w') ->
  JsMap.get (rooms w) roomId = None.
Proof.
  unfold createRoom_begin, bind, gets, ret.
  destruct (JsMap.get (rooms w) roomId) as [room|]; [discriminate|reflexivity].
Qed.

Lemma createWebRtcTransport_begin_rooms (roomId peerId : string) (w : World E) :
  rooms (snd (createWebRtcTransport_begin roomId peerId w)) = rooms w.
Proof.
  unfold createWebRtcTransport_begin, bind, gets, throw, engine_call.
  destruct (JsMap.get (rooms w) roomId) as [room|]; [|reflexivity].
  destruct (JsMap.get (Room.peers room) peerId) as [peer|]; [|reflexivity].
  now destruct (router_createWebRtcTransport (Room.router room) (engine w)).
Qed.

Lemma connectTransport_begin_rooms (roomId peerId transportId dtlsParameters : string)
  (w : World E) :
  rooms (snd (connectTransport_begin roomId peerId transportId dtlsParameters w))
  = rooms w.
Proof.
  unfold connectTransport_begin, getPeer, bind, gets, throw, engine_call.
  destruct (lookup_peer (rooms w) roomId peerId) as [peer|]; [|reflexivity].
  destruct (JsMap.get (Peer.transports peer) transportId) as [transport|];
    [|reflexivity].
  now destruct (transport_connect transport dtlsParameters (engine w)).
Qed.

Lemma produce_begin_rooms (roomId peerId transportId kind rtpParameters : string)
  (w : World E) :
  rooms (snd (produce_begin roomId peerId transportId kind rtpParameters w)) = rooms w.
Proof.
  unfold produce_begin, getPeer, bind, gets, throw, engine_call.
  destruct (lookup_peer (rooms w) roomId peerId) as [peer|]; [|reflexivity].
  destruct (JsMap.get (Peer.transports peer) transportId) as [transport|];
    [|reflexivity].
  now destruct (transport_produce transport kind rtpParameters (engine w)).
Qed.

Lemma consume_begin_rooms
  (roomId peerId transportId producerId rtpCapabilities : string) (w : World E) :
  rooms (snd (consume_begin roomId peerId transportId producerId rtpCapabilities w))
  = rooms w.
Proof.
  unfold consume_begin, getPeer, bind, gets, throw, facade, engine_call.
  destruct (JsMap.get (rooms w) roomId) as [room|]; [|reflexivity].
  destruct (lookup_peer (rooms w) roomId peerId) as [peer|]; [|reflexivity].
  destruct (JsMap.get (Peer.transports peer) transportId) as [transport|];
    [|reflexivity].
  cbn [engine].
  destruct (router_canConsume (Room.router room) producerId rtpCapabilities (engine w));
    [|reflexivity].
  cbn [negb engine].
  now destruct (transport_consume transport producerId rtpCapabilities (engine w)).
Qed.

Lemma rooms_stay_same (rs rs' : JsMap.t Room.t) : rs' = rs -> rooms_stay rs rs'.
Proof. intros ->. apply rooms_stay_refl. Qed.

Lemma joinRoom_tail_rooms_stay (w : World E) (sid roomId userId username : string) :
  rooms_stay (rooms w) (rooms (snd (joinRoom_tail sid roomId userId username w))).
Proof. exact (join_tail_rooms_stay w sid roomId userId username). Qed.

(** No stretch that begins with a request loses a room or changes its
    router. *)
Lemma arrive_rooms_stay (sid : string) (request : Request) (w : World E) :
  rooms_stay (rooms w) (rooms (snd (arrive sid request w))).
Proof.
  destruct request
    as [randomBytes|data|roomId|roomId|roomId transportId dtlsParameters
        |roomId transportId kind' rtpParameters
        |roomId transportId producerId rtpCapabilities|roomId| | ];
    cbn [arrive].
  - pose proof (createRoom_begin_rooms (generateMeetingId randomBytes (clock w)) w)
      as Hsame.
    destruct (createRoom_begin _ w) as [[[room|outcome]|err] w1];
      cbn [snd] in *; now apply rooms_stay_same.
  - destruct (negb (truthy (jd_roomId data)) || negb (truthy (jd_userId data))
              || negb (truthy (jd_username data))); [apply rooms_stay_refl|].
    destruct (jd_roomId data) as [roomId|]; [|apply rooms_stay_refl].
    destruct (jd_userId data) as [userId|]; [|apply rooms_stay_refl].
    destruct (jd_username data) as [username|]; [|apply rooms_stay_refl].
    destruct (isMeetingExpired (clock w) roomId); [apply rooms_stay_refl|].
    destruct (JsMap.get (rooms w) roomId) as [room|].
    + pose proof (joinRoom_tail_rooms_stay w sid roomId userId username) as Hstay.
      unfold try_handler.
      now destruct (joinRoom_tail sid roomId userId username w) as [[reply|err] w1].
    + pose proof (createRoom_begin_rooms roomId w) as Hsame.
      destruct (createRoom_begin roomId w) as [[[room|outcome]|err] w1];
        cbn [snd] in *; now apply rooms_stay_same.
  - pose proof (handle_rooms_stay w sid (getRouterRtpCapabilities_request roomId))
      as Hstay. cbn [handle snd] in Hstay.
    now destruct (on_getRouterRtpCapabilities roomId w) as [reply w1].
  - pose proof (createWebRtcTransport_begin_rooms roomId sid w) as Hsame.
    destruct (createWebRtcTransport_begin roomId sid w) as [[outcome|err] w1];
      cbn [snd] in *; now apply rooms_stay_same.
  - pose proof (connectTransport_begin_rooms roomId sid transportId dtlsParameters w)
      as Hsame.
    destruct (connectTransport_begin roomId sid transportId dtlsParameters w)
      as [[outcome|err] w1]; cbn [snd] in *; now apply rooms_stay_same.
  - pose proof (produce_begin_rooms roomId sid transportId kind' rtpParameters w)
      as Hsame.
    destruct (produce_begin roomId sid transportId kind' rtpParameters w)
      as [[outcome|err] w1]; cbn [snd] in *; now apply rooms_stay_same.
  - pose proof (consume_begin_rooms roomId sid transportId producerId rtpCapabilities w)
      as Hsame.
    destruct (consume_begin roomId sid transportId producerId rtpCapabilities w)
      as [[outcome|err] w1]; cbn [snd] in *; now apply rooms_stay_same.
  - pose proof (handle_rooms_stay w sid (getProducers_request roomId)) as Hstay.
    cbn [handle snd] in Hstay.
    now destruct (on_getProducers sid roomId w) as [reply w1].
  - exact (handle_rooms_stay w sid leaveRoom_request).
  - exact (handle_rooms_stay w sid disconnect_request).
Qed.

(** A request never starts a [createRoom] for a room that is
    registered. *)
Lemma arrive_creates (sid roomId : string) (request : Request) (w : World E)
  (room : Room.t) (item : Suspended) :
  JsMap.get (rooms w) roomId = Some room ->
  fst (arrive sid request w) = suspends item ->
  creates roomId item = false.
Proof.
  intros Hroom.
  assert (Hother : forall r w1 outcome,
             createRoom_begin r w = (Normal (inr outcome), w1) ->
             String.eqb r roomId = false).
  { intros r w1 outcome Hbegin. apply createRoom_begin_calls in Hbegin.
    apply String.eqb_neq. intros ->. congruence. }
  destruct request
    as [randomBytes|data|r|r|r transportId dtlsParameters
        |r transportId kind' rtpParameters
        |r transportId producerId rtpCapabilities|r| | ];
    cbn [arrive].
  - destruct (createRoom_begin _ w) as [[[found|outcome]|err] w1] eqn:Hbegin;
      cbn [fst]; intros [= <-]; try reflexivity.
    cbn [creates]. exact (Hother _ _ _ Hbegin).
  - destruct (negb (truthy (jd_roomId data)) || negb (truthy (jd_userId data))
              || negb (truthy (jd_username data))); [discriminate|].
    destruct (jd_roomId data) as [r|]; [|discriminate].
    destruct (jd_userId data) as [userId|]; [|discriminate].
    destruct (jd_username data) as [username|]; [|discriminate].
    destruct (isMeetingExpired (clock w) r); [discriminate|].
    destruct (JsMap.get (rooms w) r) as [found|].
    + destruct (try_handler _ _ w) as [reply w1]. discriminate.
    + destruct (createRoom_begin r w) as [[[found|outcome]|err] w1] eqn:Hbegin;
        cbn [fst]; intros [= <-]; try reflexivity.
      cbn [creates]. exact (Hother _ _ _ Hbegin).
  - destruct (on_getRouterRtpCapabilities r w). discriminate.
  - destruct (createWebRtcTransport_begin r sid w) as [[outcome|err] w1];
      cbn [fst]; now intros [= <-].
  - destruct (connectTransport_begin r sid transportId dtlsParameters w)
      as [[outcome|err] w1]; cbn [fst]; now intros [= <-].
  - destruct (produce_begin r sid transportId kind' rtpParameters w)
      as [[outcome|err] w1]; cbn [fst]; now intros [= <-].
  - destruct (consume_begin r sid transportId producerId rtpCapabilities w)
      as [[outcome|err] w1]; cbn [fst]; now intros [= <-].
  - destruct (on_getProducers sid r w). discriminate.
  - discriminate.
  - discriminate.
Qed.

Lemma write_peer_rooms_stay (attached : bool) (roomId peerId : string)
  (f : Peer.t -> Peer.t) (w : World E) :
  rooms_stay (rooms w) (rooms (snd (write_peer attached roomId peerId f w))).
Proof.
  unfold write_peer. destruct attached; [|apply rooms_stay_refl].
  unfold update_peer, modify. cbn [snd].
  destruct (JsMap.get (rooms w) roomId) as [room|] eqn:Hroom; [|apply rooms_stay_refl].
  destruct (JsMap.get (Room.peers room) peerId) as [peer|]; [|apply rooms_stay_refl].
  cbn [rooms set_rooms]. now apply rooms_stay_peers.
Qed.

Lemma write_peer_runs (attached : bool) (roomId peerId : string)
  (f : Peer.t -> Peer.t) (w : World E) :
  write_peer attached roomId peerId f w
  = (Normal tt, snd (write_peer attached roomId peerId f w)).
Proof. unfold write_peer. now destruct attached. Qed.

(** A stretch that goes on after an [await] keeps every room registered;
    it keeps the router and the creation time of [roomId] unless it is
    a [createRoom] that waited for the router of [roomId]. *)
Lemma settle_keeps (item : Suspended) (attached : bool) (w : World E)
  (roomId : string) (room : Room.t) :
  JsMap.get (rooms w) roomId = Some room ->
  exists room',
    JsMap.get (rooms (snd (settle item attached w))) roomId = Some room'
    /\ (creates roomId item = false ->
        Room.router room' = Room.router room
        /\ Room.createdAt room' = Room.createdAt room).
Proof.
  intros Hroom.
  assert (Hstays : forall w1 : World E,
             rooms_stay (rooms w) (rooms w1) ->
             exists room',
               JsMap.get (rooms w1) roomId = Some room'
               /\ (creates roomId item = false ->
                   Room.router room' = Room.router room
                   /\ Room.createdAt room' = Room.createdAt room)).
  { intros w1 Hstay. destruct (Hstay roomId room Hroom) as (room' & Hget & _ & Hr & Hc).
    exists room'. now repeat split. }
  assert (Hcreated : forall (r : string) (outcome : completion Router.t),
             creates roomId item = String.eqb r roomId ->
             exists room',
               JsMap.get (rooms (snd (createRoom_resume r outcome w))) roomId
               = Some room'
               /\ (creates roomId item = false ->
                   Room.router room' = Room.router room
                   /\ Room.createdAt room' = Room.createdAt room)).
  { intros r [router|err] Hitem; [|now apply Hstays, rooms_stay_same].
    rewrite createRoom_resume_fulfilled. cbn [snd rooms set_rooms].
    destruct (String.eqb_spec r roomId) as [->|Hne].
    - rewrite get_set_same. eexists. split; [reflexivity|]. congruence.
    - rewrite get_set_other by congruence. exists room. now repeat split. }
  destruct item
    as [sid r outcome|sid r userId username outcome|sid r outcome|sid outcome
        |sid r kind' outcome|sid r producerId outcome|sid r userId username result
        |sid r kind' result|sid reply];
    cbn [settle].
  - destruct (Hcreated r outcome eq_refl) as (room' & Hget & Hsame).
    unfold then_callback.
    destruct (createRoom_resume r outcome w) as [[created|err] w1];
      cbn [snd] in *; now exists room'.
  - destruct (Hcreated r outcome eq_refl) as (room' & Hget & Hsame).
    destruct (createRoom_resume r outcome w) as [[created|err] w1];
      cbn [snd] in *; now exists room'.
  - apply Hstays. unfold then_callback, createWebRtcTransport_resume, await.
    destruct outcome as [transport|err]; [|apply rooms_stay_refl].
    unfold bind at 1. unfold bind at 1. rewrite write_peer_runs. unfold ret.
    cbn [snd]. apply write_peer_rooms_stay.
  - apply Hstays. unfold then_callback, connectTransport_resume, await.
    destruct outcome as [[]|err]; apply rooms_stay_refl.
  - apply Hstays. unfold produce_resume, await.
    destruct outcome as [producer|err]; [|apply rooms_stay_refl].
    unfold bind at 1. unfold bind at 1. rewrite write_peer_runs. unfold ret.
    cbn [snd]. apply write_peer_rooms_stay.
  - apply Hstays. unfold then_callback, consume_resume, await.
    destruct outcome as [consumer|err]; [|apply rooms_stay_refl].
    unfold bind at 1. unfold bind at 1. rewrite write_peer_runs. unfold ret.
    cbn [snd]. apply write_peer_rooms_stay.
  - apply Hstays. unfold try_handler, await.
    destruct result as [[]|err]; [|apply rooms_stay_refl].
    unfold bind at 1.
    pose proof (joinRoom_tail_rooms_stay w sid r userId username) as Hstay.
    now destruct (joinRoom_tail sid r userId username w) as [[reply|err] w1].
  - apply Hstays. unfold try_handler, await.
    destruct result as [producerId|err]; apply rooms_stay_refl.
  - apply Hstays. apply rooms_stay_refl.
Qed.

(** What a stretch leaves waiting after an [await] is no [createRoom]
    that waits for a router. *)
Lemma settle_creates (item item' : Suspended) (attached : bool) (w : World E)
  (roomId : string) :
  fst (settle item attached w) = suspends item' -> creates roomId item' = false.
Proof.
  destruct item
    as [sid r outcome|sid r userId username outcome|sid r outcome|sid outcome
        |sid r kind' outcome|sid r producerId outcome|sid r userId username result
        |sid r kind' result|sid reply];
    cbn [settle]; unfold then_callback.
  - destruct (createRoom_resume r outcome w) as [[created|err] w1];
      cbn [fst]; now intros [= <-].
  - destruct (createRoom_resume r outcome w) as [[created|err] w1];
      cbn [fst]; now intros [= <-].
  - destruct (createWebRtcTransport_resume r sid attached outcome w)
      as [[params|err] w1]; cbn [fst]; now intros [= <-].
  - destruct (connectTransport_resume outcome w) as [[[]|err] w1];
      cbn [fst]; now intros [= <-].
  - destruct (produce_resume r sid attached outcome w) as [[producerId|err] w1];
      cbn [fst]; now intros [= <-].
  - destruct (consume_resume r sid producerId attached outcome w)
      as [[params|err] w1]; cbn [fst]; now intros [= <-].
  - destruct (try_handler _ _ w) as [reply w1]. discriminate.
  - destruct (try_handler _ _ w) as [reply w1]. discriminate.
  - discriminate.
Qed.

Lemma pick_creates (roomId : string) (k : nat) (l others : list Suspended)
  (item : Suspended) :
  pick k l = Some (item, others) ->
  existsb (creates roomId) l = false ->
  creates roomId item = false /\ existsb (creates roomId) others = false.
Proof.
  revert k others. induction l as [|x l IH]; intros k others;
    [destruct k; discriminate|].
  cbn [existsb]. intros Hpick Hnone. apply orb_false_iff in Hnone as [Hx Hl].
  destruct k as [|k]; cbn [pick] in Hpick.
  - injection Hpick as <- <-. now split.
  - destruct (pick k l) as [[y r']|] eqn:Hrec; [|discriminate].
    injection Hpick as <- <-. destruct (IH k r' Hrec Hl) as [Hy Hr'].
    split; [exact Hy|]. cbn [existsb]. now rewrite Hx, Hr'.
Qed.

Lemma proceed_world (others : list Suspended) (sent : list (string * Reply))
  (stretch : Next * World E) :
  world (proceed others sent stretch) = snd stretch.
Proof. now destruct stretch as [[item|sid reply|] w]. Qed.

Lemma proceed_creates (roomId : string) (others : list Suspended)
  (sent : list (string * Reply)) (stretch : Next * World E) :
  existsb (creates roomId) others = false ->
  (forall item, fst stretch = suspends item -> creates roomId item = false) ->
  existsb (creates roomId) (waiting (proceed others sent stretch)) = false.
Proof.
  intros Hothers Hitem. destruct stretch as [[item|sid reply|] w];
    cbn [proceed waiting]; try exact Hothers.
  rewrite existsb_app, Hothers. cbn [existsb].
  now rewrite (Hitem item eq_refl).
Qed.

Lemma turn_keeps (l : Loop E) (t : Turn E) (roomId : string) (room : Room.t) :
  JsMap.get (rooms (world l)) roomId = Some room ->
  exists room',
    JsMap.get (rooms (world (turn l t))) roomId = Some room'
    /\ (existsb (creates roomId) (waiting l) = false ->
        Room.router room' = Room.router room
        /\ Room.createdAt room' = Room.createdAt room
        /\ existsb (creates roomId) (waiting (turn l t)) = false).
Proof.
  intros Hroom.
  destruct t as [sid request|k attached|now|e]; cbn [turn].
  - rewrite proceed_world.
    destruct (arrive_rooms_stay sid request (world l) roomId room Hroom)
      as (room' & Hget & _ & Hr & Hc).
    exists room'. split; [exact Hget|]. intros Hnone.
    split; [exact Hr|]. split; [exact Hc|].
    apply proceed_creates; [exact Hnone|].
    intros item. now apply arrive_creates with (room := room).
  - destruct (pick k (waiting l)) as [[item others]|] eqn:Hpick.
    + rewrite proceed_world.
      destruct (settle_keeps item attached (world l) roomId room Hroom)
        as (room' & Hget & Hsame).
      exists room'. split; [exact Hget|]. intros Hnone.
      destruct (pick_creates roomId k _ _ _ Hpick Hnone) as [Hitem Hothers].
      destruct (Hsame Hitem) as [Hr Hc].
      split; [exact Hr|]. split; [exact Hc|].
      apply proceed_creates; [exact Hothers|].
      intros item'. apply settle_creates.
    + exists room. now repeat split.
  - exists room. now repeat split.
  - exists room. now repeat split.
Qed.

(** X17.  The server never deletes a room, whatever requests arrive,
    in whatever order the handlers that wait go on, and whatever the
    clock and the engine do: an identifier that is registered stays
    registered and [getRouterRtpCapabilities] keeps answering with the
    capabilities of the router registered under it, also after the last
    peer has left.  When, besides, no [createRoom] is waiting for a
    router for that identifier, none ever will, and the room keeps the
    router and the creation time it has. *)
Theorem rooms_are_never_deleted (ts : list (Turn E)) (l : Loop E)
  (roomId : string) (room : Room.t) :
  JsMap.get (rooms (world l)) roomId = Some room ->
  let l' := turns ts l in
  exists room',
    JsMap.get (rooms (world l')) roomId = Some room'
    /\ on_getRouterRtpCapabilities roomId (world l')
       = (ReplyRtpCapabilities (Router.rtpCapabilities (Room.router room')), world l')
    /\ (existsb (creates roomId) (waiting l) = false ->
        Room.router room' = Room.router room
        /\ Room.createdAt room' = Room.createdAt room
        /\ existsb (creates roomId) (waiting l') = false).
Proof.
  intros Hroom l'. subst l'.
  assert (Hkept : exists room',
             JsMap.get (rooms (world (turns ts l))) roomId = Some room'
             /\ (existsb (creates roomId) (waiting l) = false ->
                 Room.router room' = Room.router room
                 /\ Room.createdAt room' = Room.createdAt room
                 /\ existsb (creates roomId) (waiting (turns ts l)) = false)).
  { revert l room Hroom. induction ts as [|t ts IH]; intros l room Hroom.
    - exists room. now repeat split.
    - unfold turns. cbn [fold_left]. fold (turns ts (turn l t)).
      destruct (turn_keeps l t roomId room Hroom) as (room1 & Hget1 & Hsame1).
      destruct (IH (turn l t) room1 Hget1) as (room' & Hget & Hsame).
      exists room'. split; [exact Hget|]. intros Hnone.
      destruct (Hsame1 Hnone) as (Hr1 & Hc1 & Hnone1).
      destruct (Hsame Hnone1) as (Hr & Hc & Hnone').
      repeat split; congruence. }
  destruct Hkept as (room' & Hget & Hsame).
  exists room'. split; [exact Hget|]. split; [|exact Hsame].
  unfold on_getRouterRtpCapabilities, getRouterRtpCapabilities, try_handler,
    bind, gets, ret.
  now rewrite Hget.
Qed.

End Kept.

(** ** The theorems at work *)

Lemma engine_error_replies_witness :
  let dead := engine_failing "worker died" (boot t0) in
  let broken := engine_failing "invalid DTLS fingerprint" alice_transport in
  arrive "A" alice_asks dead
  = (suspends (createRoom_in_joinRoom "A" fresh_id "u1" "Alice"
                 (Throw (mkError "worker died"))),
     after_call dead (engine dead) CreateRouter)
  /\ arrive "A" (connectTransport_request fresh_id "transport1" "fingerprint") broken
     = (suspends (connectTransport_pending "A"
                    (Throw (mkError "invalid DTLS fingerprint"))),
        after_call broken (engine broken) (Connect "transport1" "fingerprint"))
  /\ settle (connectTransport_pending "A" (Throw (mkError "invalid DTLS fingerprint")))
            true both_joined
     = (suspends (callback_pending "A" (ReplyError "Failed to connect transport")),
        both_joined)
  /\ settle (callback_pending "A" (ReplyError "Failed to connect transport"))
            true both_joined
     = (answers "A" (ReplyError "Failed to connect transport"), both_joined).
Proof.
  intros dead broken.
  destruct (engine_error_replies dead "A" (mkError "worker died") (engine dead))
    as (_ & Hjoin & _ & _).
  destruct (engine_error_replies broken "A" (mkError "invalid DTLS fingerprint")
              (engine broken))
    as (_ & _ & Hmedia & Hsettle).
  destruct (Hmedia fresh_id room_with_transport alice_with_transport eq_refl eq_refl)
    as (_ & Htransport).
  destruct (Htransport "transport1" transport1 eq_refl) as (Hconnect & _ & _).
  destruct (Hsettle both_joined true) as (_ & _ & _ & Hrejected & _ & _ & Hcallback).
  split; [|split; [|split]].
  - apply (Hjoin fresh_id "u1" "Alice"); [discriminate|discriminate|reflexivity..].
  - exact (Hconnect "fingerprint" eq_refl).
  - exact Hrejected.
  - exact (Hcallback (ReplyError "Failed to connect transport")).
Defined.

Lemma joinRoom_creates_room_witness :
  arrive "A" alice_asks (boot t0)
  = (suspends (createRoom_in_joinRoom "A" fresh_id "u1" "Alice" (Normal router0)),
     after_call (boot t0) (mkSim 1 None) CreateRouter)
  /\ exists w' : World Sim,
       straight 2 (arrive "A" alice_asks (boot t0)) = (Some ("A", ReplyJoined []), w')
       /\ JsMap.get (rooms w') fresh_id
          = Some (Room.mk fresh_id router0 [("A", Peer.mk "A" "u1" "Alice" [] [] [])] t0)
       /\ trace w' = [CreateRouter].
Proof.
  destruct (joinRoom_creates_room (boot t0) "A" fresh_id "u1" "Alice"
              (Normal router0) (mkSim 1 None))
    as (Harrive & _ & _ & _ & Hstraight);
    [discriminate|discriminate|reflexivity|reflexivity|reflexivity|].
  split; [exact Harrive|].
  destruct (Hstraight router0 eq_refl eq_refl) as (w' & Hrun & Hroom & _ & Htrace & _).
  exists w'. split; [exact Hrun|]. split; [exact Hroom|exact Htrace].
Defined.

Lemma createRoom_request_outcomes_witness :
  let bytes := [xde; xad; xbe; xef; xde; xad; xbe; xef]%byte in
  arrive "A" (createRoom_request bytes) (boot t0)
  = (suspends (createRoom_in_createRoom "A" fresh_id (Normal router0)),
     after_call (boot t0) (mkSim 1 None) CreateRouter)
  /\ settle (createRoom_in_createRoom "A" fresh_id (Normal router0)) true
            (set_clock (t0 + 40) (after_call (boot t0) (mkSim 1 None) CreateRouter))
     = (suspends (callback_pending "A" (ReplyRoomId fresh_id)),
        set_rooms [(fresh_id, Room.mk fresh_id router0 [] (t0 + 40))]
                  (set_clock (t0 + 40)
                     (after_call (boot t0) (mkSim 1 None) CreateRouter))).
Proof.
  intros bytes.
  destruct (createRoom_request_outcomes (boot t0) "A" bytes (Normal router0)
              (mkSim 1 None))
    as (_ & Habsent & Hdelivered & _); [reflexivity|].
  split; [exact (Habsent eq_refl)|].
  destruct (Hdelivered router0
              (set_clock (t0 + 40) (after_call (boot t0) (mkSim 1 None) CreateRouter))
              true eq_refl) as (Hsettle & _).
  exact Hsettle.
Defined.

Lemma rooms_are_never_deleted_witness :
  exists room' : Room.t,
    JsMap.get
      (rooms (world (turns [request_arrives "A" leaveRoom_request;
                            request_arrives "B" bob_asks;
                            request_arrives "B" disconnect_request]
                           (mkLoop alice_joined [] []))))
      fresh_id = Some room'
    /\ Room.router room' = router0
    /\ Room.createdAt room' = t0.
Proof.
  destruct (rooms_are_never_deleted
              [request_arrives "A" leaveRoom_request;
               request_arrives "B" bob_asks;
               request_arrives "B" disconnect_request]
              (mkLoop alice_joined [] []) fresh_id
              (Room.mk fresh_id router0 [("A", Peer.mk "A" "u1" "Alice" [] [] [])] t0)
              eq_refl)
    as (room' & Hget & _ & Hsame).
  exists room'. split; [exact Hget|].
  destruct (Hsame eq_refl) as (Hrouter & Hcreated & _). now split.
Defined.

(** ** What holds whatever overlaps *)

Section Sound.

Context {E : Type} {media : MediaEngine E}.

Lemma calm_refl (w : World E) : calm w w.
Proof. split; [auto|now split]. Qed.

Lemma calm_same (w w' : World E) :
  rooms w' = rooms w -> adapter w' = adapter w -> delivered w' = delivered w ->
  calm w w'.
Proof. intros Hr Ha Hd. split; [now rewrite Hr|now split]. Qed.

Lemma registry_only_calm (w w' : World E) : registry_only w w' -> calm w w'.
Proof. intros (Hwf & _ & Ha & Hd & _). split; [exact Hwf|now split]. Qed.

Lemma sound_calm (w w' : World E) : sound w -> calm w w' -> sound w'.
Proof.
  intros (Hwf & Hnd & Hdel) (Hwf' & Ha & Hd).
  split; [auto|]. split; [|now rewrite Hd].
  intros r. rewrite (members_frame w w' r Ha). apply Hnd.
Qed.

Lemma createRoom_begin_calm (roomId : string) (w : World E) :
  calm w (snd (createRoom_begin roomId w)).
Proof.
  unfold createRoom_begin, bind, gets, engine_call, ret.
  destruct (JsMap.get (rooms w) roomId) as [room|]; [apply calm_refl|].
  destruct (worker_createRouter (engine w)) as [outcome e']. now apply calm_same.
Qed.

Lemma createWebRtcTransport_begin_calm (roomId peerId : string) (w : World E) :
  calm w (snd (createWebRtcTransport_begin roomId peerId w)).
Proof.
  unfold createWebRtcTransport_begin, bind, gets, throw, engine_call.
  destruct (JsMap.get (rooms w) roomId) as [room|]; [|apply calm_refl].
  destruct (JsMap.get (Room.peers room) peerId) as [peer|]; [|apply calm_refl].
  destruct (router_createWebRtcTransport (Room.router room) (engine w)).
  now apply calm_same.
Qed.

Lemma connectTransport_begin_calm (roomId peerId transportId dtlsParameters : string)
  (w : World E) :
  calm w (snd (connectTransport_begin roomId peerId transportId dtlsParameters w)).
Proof.
  unfold connectTransport_begin, getPeer, bind, gets, throw, engine_call.
  destruct (lookup_peer (rooms w) roomId peerId) as [peer|]; [|apply calm_refl].
  destruct (JsMap.get (Peer.transports peer) transportId) as [transport|];
    [|apply calm_refl].
  destruct (transport_connect transport dtlsParameters (engine w)).
  now apply calm_same.
Qed.

Lemma produce_begin_calm (roomId peerId transportId kind rtpParameters : string)
  (w : World E) :
  calm w (snd (produce_begin roomId peerId transportId kind rtpParameters w)).
Proof.
  unfold produce_begin, getPeer, bind, gets, throw, engine_call.
  destruct (lookup_peer (rooms w) roomId peerId) as [peer|]; [|apply calm_refl].
  destruct (JsMap.get (Peer.transports peer) transportId) as [transport|];
    [|apply calm_refl].
  destruct (transport_produce transport kind rtpParameters (engine w)).
  now apply calm_same.
Qed.

Lemma consume_begin_calm
  (roomId peerId transportId producerId rtpCapabilities : string) (w : World E) :
  calm w (snd (consume_begin roomId peerId transportId producerId rtpCapabilities w)).
Proof.
  unfold consume_begin, getPeer, bind, gets, throw, facade, engine_call.
  destruct (JsMap.get (rooms w) roomId) as [room|]; [|apply calm_refl].
  destruct (lookup_peer (rooms w) roomId peerId) as [peer|]; [|apply calm_refl].
  destruct (JsMap.get (Peer.transports peer) transportId) as [transport|];
    [|apply calm_refl].
  cbn [engine].
  destruct (router_canConsume (Room.router room) producerId rtpCapabilities (engine w));
    [|now apply calm_same].
  cbn [negb engine].
  destruct (transport_consume transport producerId rtpCapabilities (engine w)).
  now apply calm_same.
Qed.

Lemma createRoom_resume_calm (roomId : string) (outcome : completion Router.t)
  (w : World E) :
  calm w (snd (createRoom_resume roomId outcome w)).
Proof.
  destruct outcome as [router|err]; [|apply calm_refl].
  rewrite createRoom_resume_fulfilled. cbn [snd].
  split; [|now split]. intros Hwf. cbn [rooms set_rooms].
  apply wf_rooms_set; [exact Hwf| |reflexivity].
  split; [apply keyed_empty|intros k p []].
Qed.

Lemma write_peer_calm (attached : bool) (roomId peerId : string)
  (f : Peer.t -> Peer.t) (w : World E) :
  (forall p, wf_peer p -> wf_peer (f p)) ->
  (forall p, Peer.id (f p) = Peer.id p) ->
  calm w (snd (write_peer attached roomId peerId f w)).
Proof.
  intros Hf Hid. unfold write_peer. destruct attached; [|apply calm_refl].
  unfold update_peer, modify. cbn [snd].
  destruct (JsMap.get (rooms w) roomId) as [room|] eqn:Hroom; [|apply calm_refl].
  destruct (JsMap.get (Room.peers room) peerId) as [peer|] eqn:Hpeer;
    [|apply calm_refl].
  apply registry_only_calm.
  eapply registry_only_put; try reflexivity; [exact Hroom|].
  intros Hwf. destruct (wf_stored_peer w roomId peerId room peer Hroom Hpeer Hwf)
    as [Hwfp Hpid].
  split; [now apply Hf|]. now rewrite Hid.
Qed.

Lemma sound_emit (w : World E) (sid room : string) (ev : Event) :
  subject ev = sid -> sound w -> sound (snd (socket_to_emit sid room ev w)).
Proof.
  intros Hsubject (Hwf & Hnd & Hdel).
  unfold socket_to_emit, modify, set_delivered. cbn [snd].
  split; [exact Hwf|]. split; [exact Hnd|].
  cbn [delivered]. apply Forall_app. split; [exact Hdel|].
  apply Forall_forall. intros d Hin.
  apply in_map_iff in Hin as [r [<- Hin]]. apply filter_In in Hin as [_ Hr].
  cbn [fst snd]. rewrite Hsubject. apply negb_true_iff in Hr.
  apply String.eqb_neq in Hr. congruence.
Qed.

Lemma sound_join (w : World E) (sid room : string) :
  sound w -> sound (snd (socket_join sid room w)).
Proof.
  intros Hsound. unfold socket_join, modify. cbn [snd].
  destruct (existsb (String.eqb sid) (members w room)) eqn:Hmember; [exact Hsound|].
  destruct Hsound as (Hwf & Hnd & Hdel).
  assert (Hnotin : ~ In sid (members w room)).
  { intros Hin. apply existsb_eqb_In in Hin. congruence. }
  split; [exact Hwf|]. split; [|exact Hdel].
  intros r. rewrite members_set. destruct (String.eqb r room); [|apply Hnd].
  apply NoDup_app; [apply Hnd|constructor; [intros []|constructor]|].
  intros x Hx [<-|[]]. contradiction.
Qed.

Lemma sound_leave (w : World E) (sid room : string) :
  sound w -> sound (snd (socket_leave sid room w)).
Proof.
  intros (Hwf & Hnd & Hdel). unfold socket_leave, modify. cbn [snd].
  split; [exact Hwf|]. split; [|exact Hdel].
  intros r. rewrite members_set. destruct (String.eqb r room); [|apply Hnd].
  apply NoDup_filter, Hnd.
Qed.

Lemma sound_leave_all (w : World E) (sid : string) :
  sound w -> sound (snd (leave_all sid w)).
Proof.
  intros (Hwf & Hnd & Hdel). unfold leave_all, modify. cbn [snd].
  split; [exact Hwf|]. split; [|exact Hdel].
  intros r. unfold members, set_adapter. cbn [adapter].
  rewrite (get_map_values (filter (fun r => negb (String.eqb r sid)))).
  specialize (Hnd r). unfold members in Hnd.
  destruct (JsMap.get (adapter w) r); cbn [option_map]; [|constructor].
  now apply NoDup_filter.
Qed.

Lemma joinRoom_tail_sound (w : World E) (sid roomId userId username : string) :
  sound w -> sound (snd (joinRoom_tail sid roomId userId username w)).
Proof.
  intros Hsound. unfold joinRoom_tail. rewrite snd_bind.
  pose proof (sound_calm _ _ Hsound
                (registry_only_calm _ _
                   (addPeer_registry_only w roomId sid userId username))) as Hsound2.
  destruct (addPeer roomId sid userId username w) as [[peer|err] w2];
    cbn [snd] in Hsound2; [|exact Hsound2].
  rewrite snd_bind, socket_join_runs.
  rewrite snd_bind. unfold modify at 1.
  rewrite snd_bind. unfold gets at 1.
  rewrite snd_bind, socket_to_emit_runs. unfold ret. cbn [snd].
  apply sound_emit; [reflexivity|].
  exact (sound_join w2 sid roomId Hsound2).
Qed.

Lemma handleDisconnect_sound (w : World E) (sid : string) :
  sound w -> sound (snd (handleDisconnect sid w)).
Proof.
  intros Hsound. unfold handleDisconnect. rewrite snd_bind.
  unfold socket_data, gets at 1.
  set (data := match JsMap.get (sockets w) sid with
               | Some d => d
               | None => no_data
               end).
  destruct (truthy (sd_roomId data)); [|exact Hsound].
  destruct (sd_roomId data) as [roomId|]; [|exact Hsound].
  rewrite snd_bind.
  destruct (removePeer_keeps_others w roomId sid) as (w1 & -> & Hwf1 & _ & Ha & Hd).
  rewrite snd_bind, socket_to_emit_runs.
  apply sound_leave. apply sound_emit; [reflexivity|].
  apply (sound_calm w w1 Hsound). split; [exact Hwf1|now split].
Qed.

(** The stretch that a request begins keeps the process sound. *)
Lemma arrive_sound (sid : string) (request : Request) (w : World E) :
  sound w -> sound (snd (arrive sid request w)).
Proof.
  intros Hsound.
  destruct request
    as [randomBytes|data|roomId|roomId|roomId transportId dtlsParameters
        |roomId transportId kind' rtpParameters
        |roomId transportId producerId rtpCapabilities|roomId| | ];
    cbn [arrive].
  - pose proof (sound_calm _ _ Hsound
                  (createRoom_begin_calm (generateMeetingId randomBytes (clock w)) w))
      as Hnext.
    now destruct (createRoom_begin _ w) as [[[room|outcome]|err] w1].
  - destruct (negb (truthy (jd_roomId data)) || negb (truthy (jd_userId data))
              || negb (truthy (jd_username data))); [exact Hsound|].
    destruct (jd_roomId data) as [roomId|]; [|exact Hsound].
    destruct (jd_userId data) as [userId|]; [|exact Hsound].
    destruct (jd_username data) as [username|]; [|exact Hsound].
    destruct (isMeetingExpired (clock w) roomId); [exact Hsound|].
    destruct (JsMap.get (rooms w) roomId) as [room|].
    + pose proof (joinRoom_tail_sound w sid roomId userId username Hsound) as Hnext.
      unfold try_handler.
      now destruct (joinRoom_tail sid roomId userId username w) as [[reply|err] w1].
    + pose proof (sound_calm _ _ Hsound (createRoom_begin_calm roomId w)) as Hnext.
      now destruct (createRoom_begin roomId w) as [[[room|outcome]|err] w1].
  - unfold on_getRouterRtpCapabilities, getRouterRtpCapabilities, try_handler,
      bind, gets, ret.
    now destruct (JsMap.get (rooms w) roomId).
  - pose proof (sound_calm _ _ Hsound (createWebRtcTransport_begin_calm roomId sid w))
      as Hnext.
    now destruct (createWebRtcTransport_begin roomId sid w) as [[outcome|err] w1].
  - pose proof (sound_calm _ _ Hsound
                  (connectTransport_begin_calm roomId sid transportId dtlsParameters w))
      as Hnext.
    now destruct (connectTransport_begin roomId sid transportId dtlsParameters w)
      as [[outcome|err] w1].
  - pose proof (sound_calm _ _ Hsound
                  (produce_begin_calm roomId sid transportId kind' rtpParameters w))
      as Hnext.
    now destruct (produce_begin roomId sid transportId kind' rtpParameters w)
      as [[outcome|err] w1].
  - pose proof (sound_calm _ _ Hsound
                  (consume_begin_calm roomId sid transportId producerId
                     rtpCapabilities w)) as Hnext.
    now destruct (consume_begin roomId sid transportId producerId rtpCapabilities w)
      as [[outcome|err] w1].
  - exact Hsound.
  - now apply handleDisconnect_sound.
  - unfold on_disconnect. rewrite snd_bind. unfold leave_all at 1, modify at 1.
    apply handleDisconnect_sound. now apply sound_leave_all.
Qed.

(** The stretch with which a waiting handler goes on keeps the process
    sound. *)
Lemma settle_sound (item : Suspended) (attached : bool) (w : World E) :
  sound w -> sound (snd (settle item attached w)).
Proof.
  intros Hsound.
  destruct item
    as [sid r outcome|sid r userId username outcome|sid r outcome|sid outcome
        |sid r kind' outcome|sid r producerId outcome|sid r userId username result
        |sid r kind' result|sid reply];
    cbn [settle]; unfold then_callback.
  - pose proof (sound_calm _ _ Hsound (createRoom_resume_calm r outcome w)) as Hnext.
    now destruct (createRoom_resume r outcome w) as [[created|err] w1].
  - pose proof (sound_calm _ _ Hsound (createRoom_resume_calm r outcome w)) as Hnext.
    now destruct (createRoom_resume r outcome w) as [[created|err] w1].
  - unfold createWebRtcTransport_resume, await.
    destruct outcome as [transport|err]; [|exact Hsound].
    unfold bind at 1. unfold bind at 1. rewrite write_peer_runs. unfold ret.
    cbn [snd]. apply (sound_calm w _ Hsound).
    apply write_peer_calm; [|reflexivity].
    intros p. apply wf_peer_transport.
  - unfold connectTransport_resume, await. now destruct outcome as [[]|err].
  - unfold produce_resume, await.
    destruct outcome as [producer|err]; [|exact Hsound].
    unfold bind at 1. unfold bind at 1. rewrite write_peer_runs. unfold ret.
    cbn [snd]. apply (sound_calm w _ Hsound).
    apply write_peer_calm; [|reflexivity].
    intros p. apply wf_peer_producer.
  - unfold consume_resume, await.
    destruct outcome as [consumer|err]; [|exact Hsound].
    unfold bind at 1. unfold bind at 1. rewrite write_peer_runs. unfold ret.
    cbn [snd]. apply (sound_calm w _ Hsound).
    apply write_peer_calm; [|reflexivity].
    intros p. apply wf_peer_consumer.
  - unfold try_handler, await.
    destruct result as [[]|err]; [|exact Hsound].
    unfold bind at 1.
    pose proof (joinRoom_tail_sound w sid r userId username Hsound) as Hnext.
    now destruct (joinRoom_tail sid r userId username w) as [[reply|err] w1].
  - unfold try_handler, await.
    destruct result as [producerId|err]; [|exact Hsound].
    unfold bind at 1. unfold bind at 1. rewrite socket_to_emit_runs. unfold ret.
    cbn [snd]. now apply sound_emit.
  - exact Hsound.
Qed.

Lemma turn_sound (l : Loop E) (t : Turn E) :
  sound (world l) -> sound (world (turn l t)).
Proof.
  intros Hsound. destruct t as [sid request|k attached|now|e]; cbn [turn].
  - rewrite proceed_world. now apply arrive_sound.
  - destruct (pick k (waiting l)) as [[item others]|]; [|exact Hsound].
    rewrite proceed_world. now apply settle_sound.
  - exact Hsound.
  - exact Hsound.
Qed.

Lemma turns_sound (ts : list (Turn E)) (l : Loop E) :
  sound (world l) -> sound (world (turns ts l)).
Proof.
  revert l. induction ts as [|t ts IH]; intros l Hsound; [exact Hsound|].
  unfold turns. cbn [fold_left]. apply IH. now apply turn_sound.
Qed.

Lemma started_sound (now : Z) (e : E) : sound (world (started now e)).
Proof.
  split; [|split].
  - split; [apply keyed_empty|intros k room []].
  - intros r. constructor.
  - constructor.
Qed.

Lemma roster_distinct (rs : JsMap.t Room.t) (roomId : string) :
  wf_rooms rs -> NoDup (map pi_peerId (getRoomPeers rs roomId)).
Proof.
  intros Hwf. destruct (JsMap.get rs roomId) as [room|] eqn:Hroom.
  - rewrite (roster_ids _ _ _ Hwf Hroom).
    destruct (wf_rooms_get _ _ _ Hwf Hroom) as [[[Hnd _] _] _]. exact Hnd.
  - unfold getRoomPeers. rewrite Hroom. constructor.
Qed.

Lemma listing_distinct (rs : JsMap.t Room.t) (roomId x : string) :
  wf_rooms rs ->
  NoDup (map (fun info => (peerId info, producerId info))
             (getOtherPeersProducers rs roomId x)).
Proof.
  intros Hwf. destruct (JsMap.get rs roomId) as [room|] eqn:Hroom.
  2:{ unfold getOtherPeersProducers. rewrite Hroom. constructor. }
  rewrite (listing_keys _ _ x _ Hwf Hroom).
  destruct (wf_rooms_get _ _ _ Hwf Hroom) as [[[Hnd _] Hpeers] _].
  apply NoDup_flat_map_keys; [exact Hnd|].
  intros [q peer] Hin. cbn [fst snd].
  destruct (negb (String.eqb q x)); [|constructor].
  destruct (Hpeers q peer Hin) as (_ & [Hndp _] & _). exact Hndp.
Qed.

(** X20.  In every state that the server reaches from start-up,
    whatever requests arrive and in whatever order the handlers that
    wait go on: no connection is twice in a Socket.IO room, so that a
    broadcast reaches each member once; [getRoomPeers] lists no peer
    twice; [getOtherPeersProducers] lists no producer of a peer twice;
    and no event has gone to the connection it speaks about. *)
Theorem overlapping_keeps_order (ts : list (Turn E)) (now : Z) (e : E) :
  let w := world (turns ts (started now e)) in
  (forall r, NoDup (members w r))
  /\ (forall roomId, NoDup (map pi_peerId (getRoomPeers (rooms w) roomId)))
  /\ (forall roomId x,
        NoDup (map (fun info => (peerId info, producerId info))
                   (getOtherPeersProducers (rooms w) roomId x)))
  /\ Forall (fun d => subject (snd d) <> fst d) (delivered w).
Proof.
  intros w. destruct (turns_sound ts (started now e) (started_sound now e))
    as (Hwf & Hnd & Hdel).
  fold w in Hwf, Hnd, Hdel.
  split; [exact Hnd|]. split; [intros roomId; now apply roster_distinct|].
  split; [intros roomId x; now apply listing_distinct|exact Hdel].
Qed.

End Sound.
